(* ===== verification/_CoqProject ===== *)
-Q . S2P
Prelude.v
GoStrings.v
GoNet.v
Base64.v
Frames.v
Sessions.v
Base58.v
Crypto.v
Rendezvous.v
Wire.v
Identity.v
Tpm.v
Proofs.v
Config.v
Url.v
InviteUrl.v
Invites.v
PairingHost.v
Bridge.v
TunnelHost.v
Dht.v
NetNode.v
NodeLoops.v
Presence.v
LocalProxy.v
Netbackend.v
BtDht.v
Quicnet.v
TunnelClient.v
LocalTunnel.v
Sidecar.v
PairingClient.v
Redeem.v
BackendRefs.v
WebAccess.v
Processes.v
WebSessions.v
RdpCheck.v
WebConnect.v
Logger.v
SidecarFiles.v
WebAdmin.v
WebViews.v
Launchers.v
Ipc.v
IpcTransport.v
Service.v
Startup.v
Managers.v
QuicHost.v
WebApi.v
Dashboard.v
Commands.v
Tray.v
RelayServer.v
EndToEnd.v
