(* ===== verification/Prelude.v ===== *)
(** * DeskAccess: a verification library

    DeskAccess lets a paired client reach one service (RDP, VNC, SSH) of a host
    behind a NAT.  The host mints invite links; a client that opens a link
    proves its machine identity, receives a session token and opens tunnel
    streams with it over one of four network backends (libp2p relay, libp2p DHT,
    BitTorrent DHT with direct QUIC, an iroh sidecar process).  A daemon keeps
    the backends running; a local web dashboard drives pairing and connections.
    This library models the daemon's Go code under [src/internal] as executable
    definitions and proves what the parts promise and how they compose.

    ** Parts, files and code

    Foundations.
    - [Prelude]: errors ([res]), panics ([outcome]), machine integers, bytes,
      times, list lemmas and tactics.
    - [GoStrings], [GoNet], [Url], [Base58], [Base64]: what the code uses of
      [strings], [strconv], [net], [net/url], base58 and base64.
    - [Crypto]: SHA-256, HMAC, Ed25519 and the libp2p key codecs as a class with
      laws, and a toy instance for the witnesses.

    Protocol and trust.
    - [Frames], [Wire]: [protocol/protocol.go], frames over short-writing
      writers and the messages, JSON as the class [Codec].
    - [Rendezvous], [InviteUrl]: [rendezvous/*.go] and the link half of
      [pairing/pairing.go]: tokens, codes, invite proofs, link parameters.
    - [Identity], [Proofs]: [identity/*.go] and the identity half of
      [pairing.go]: software identities, transcripts, fresh proofs, the checks
      against a stored machine.
    - [Tpm]: [identity/tpm_linux_real.go] and [load.go]: the TPM identity with
      its files and tools, the choice of the identity, the chain check.
    - [Sessions]: the session store; the class [SessionService] is what the
      pairing and the tunnel host ask of it.
    - [Config]: [config/config.go]: settings, remotes, trusted machines, files.

    Host and client.
    - [Invites], [PairingHost]: the invite store on a heap of shared invites,
      and the host's handler of a pairing stream.
    - [TunnelHost], [Bridge]: the host's handler of a tunnel stream, and the
      copy between its two ends.
    - [PairingClient], [TunnelClient], [LocalProxy]: the client's pairing calls,
      its tunnel handshake, and the proxy that its connections go through.
    - [LocalTunnel]: a running tunnel of the client, its accept loop and its
      goroutines as interleaved steps over the proxy.
    - [EndToEnd], [Redeem]: both sides together, over the shared session store.

    Network.
    - [NetNode], [Dht], [Presence]: [node/*.go], [dht/dht.go],
      [presence/presence.go]; [NodeLoops]: the background loops of the node.
    - [Netbackend], [BtDht], [Quicnet], [Sidecar]: [netbackend/*.go],
      [btdht/*.go], [quicnet/quicnet.go], [irohsidecar/sidecar.go];
      [SidecarFiles]: the paths the sidecar uses.
    - [Startup]: the constructors of direct QUIC, the BitTorrent DHT client and
      presence, what they leave behind, and the publishing loops.
    - [QuicHost]: STUN, the accept loop of direct QUIC, and the two handlers
      behind a stream of it.

    Daemon and dashboard.
    - [BackendRefs]: the class [NetworkBackends], what the dashboard asks of the
      service: references that keep a backend running.
    - [WebAccess], [WebSessions], [WebConnect], [WebAdmin], [WebViews],
      [WebApi]: [webui/webui.go]: launch tokens, sessions and attempts, the
      connect handler, settings and lists, what is shown, and the routes with
      the small handlers and the status reports.
    - [Service]: the supervisor of [service/service.go]; [Dashboard]: its
      instance of the class, and runs of dashboard and supervisor together.
    - [Processes]: which local processes Windows lets in: the source check of
      the dashboard, the client check of the named pipe.
    - [Managers]: the registries of the pairing and the tunnel manager, which
      implement what [Service] sees of them.
    - [Commands]: [cmd/deskaccess/main.go]: the choice of the command, the URLs
      it prints and opens, and the client without a service; [IpcTransport]:
      the sockets over which they reach the daemon; [Tray]: the tray process.
    - [RelayServer]: the key and the resources of [cmd/relay-server].
    - [Ipc], [Launchers], [RdpCheck], [Logger]: [ipc/ipc.go], the launchers of
      [tunnel/*_linux.go], [rdpcheck/*.go], [logger/logger.go].

    ** Modelling

    A struct is a record, a handler a function from the state to the state and
    the reply with a branch per return of the code; [(value, error)] is [res]
    and a slice panic is an [outcome].  Shared pointers that alias (invites,
    sidecar processes, proxies, backends) are numbers in an explicit table.
    Concurrency is a sequence of steps: a step is what the code does under one
    lock, and the theorems on runs quantify over every sequence of steps and
    every iteration order of a Go map.  A callback that runs other code (the
    pairing and tunnel calls of a connect, the environment of the supervisor)
    is an argument, under the hypothesis that it keeps the invariant.  Clocks,
    random bytes, file-system results and library calls are arguments of the
    operation that meets them.  Text in messages is kept; log lines are kept
    only where they can panic.

    Recursion is structural on the data, or on a bound that is enough by
    construction: the number of bytes left for trimming, parsing and copying
    (each round consumes one), the list of poll results for waits, the size of
    the snapshot for the walk up the process tree.  Strings are bytes; upper and
    lower case cover the letters that fold to ASCII.

    ** What the theorems show

    - Trust: a pairing needs a proof of identity and an authorization
      ([pairing_requires_authentication], [trust_is_earned]); the client talks
      to the machine it meant ([connect_authenticates_host],
      [reauth_same_machine]); proofs are accepted exactly when they should be
      ([identity_proof_accepted_iff], [verifyAndConsume_iff]); invites are
      single-use and revocable ([onetime_accepted_once],
      [revoked_never_accepted]).
    - Access: only granted ports are dialled ([tunnel_dials_only_granted]), the
      store of sessions refines an abstract budget
      ([session_store_refines_budget]), both halves of the tunnel handshake
      agree ([tunnel_handshake_agrees]), QUIC streams belong to the pinned key
      ([quic_streams_pinned]), dashboard and IPC are for those who may use them
      ([launch_token_single_use], [ipc_commands], [printed_url_opens_once]).  The
      one stream that crashes the host is known ([quic_panic_iff_anonymous]), and
      so is what the source check of Windows decides ([process_tree_check],
      [source_check_sees_server]).
    - Composition: a minted link connects ([minted_link_connects]) and a paired
      session reaches its service ([paired_session_reaches_service]).
    - Resources: closed proxies and tunnels leave nothing open and end
      ([proxy_leaves_nothing_open], [closed_tunnel_releases_all]); the managers
      use the backends they were given ([registries_implement_views]); a
      reconnection settles ([reconnect_settles]); sessions and references go
      together ([sessions_hold_backends]); a connect settles ([connect_settles]); the
      supervisor loses no backend ([supervisor_loses_nothing]); the sidecar runs
      exactly while it is used ([active_session_keeps_sidecar],
      [sidecar_single_process]).
    - Data: encodings round-trip ([invite_link_roundtrip], [frame_roundtrip],
      [published_record_found]) and so does a TPM identity through its files
      ([tpm_identity_stable]); lists stay well-formed ([AddTrustedPeer_distinct],
      [relay_tables_aligned], [online_means_recent]); settings, deletions and
      logs do what they report ([saved_settings_effective],
      [deleted_remote_gone], [tail_whole_lines]).

    Lemmas with a concrete run ([..._witness] and the ones named after a
    behaviour, such as [alias_steal_loses_session]) show that hypotheses can
    hold, and where the code falls short of its intent.

    ** Not modelled

    The Windows TPM and launchers (system calls; the files are built on Windows
    only), the libp2p, Kademlia, BitTorrent DHT, QUIC, STUN, X.509, TOML and
    JSON libraries (classes or arguments), sockets and pipes, the HTTP server
    and the query of redirects, the windows and menus of the tray, installers,
    the order of the supervisor's start-up calls outside its backends, the
    wrappers of [slog], and log lines.  Deadlines appear as the outcomes they lead to. *)
From Stdlib Require Export ZArith Lia List String Ascii.
From Stdlib Require Export Strings.Byte.
From stdpp Require Export base tactics gmap strings list fin_maps pretty.

#[global] Open Scope Z_scope.

Declare Scope go_scope.
Delimit Scope go_scope with go.

(** ** Errors and panics *)

(** A Go call that returns [(value, error)].  An error is its message. *)
Inductive res (A : Type) : Type :=
| Ok (a : A)
| Err (e : string).
Arguments Ok {A} a.
Arguments Err {A} e.

#[export] Instance res_ret : MRet res := fun A a => Ok a.
#[export] Instance res_bind : MBind res := fun A B k m =>
  match m with Ok a => k a | Err e => Err e end.
#[export] Instance res_fmap : FMap res := fun A B f m =>
  match m with Ok a => Ok (f a) | Err e => Err e end.

(** [fmt.Errorf("prefix: %w", err)] around a failing call. *)
Definition wrap_err {A} (prefix : string) (m : res A) : res A :=
  match m with Ok a => Ok a | Err e => Err (prefix ++ e) end.

Definition is_ok {A} (m : res A) : bool :=
  match m with Ok _ => true | Err _ => false end.

Definition of_option {A} (e : string) (o : option A) : res A :=
  match o with Some a => Ok a | None => Err e end.

(** A Go call that may also panic (a slice out of range, a nil dereference). *)
Inductive outcome (A : Type) : Type :=
| Return (a : A)
| Panic (msg : string).
Arguments Return {A} a.
Arguments Panic {A} msg.

#[export] Instance outcome_ret : MRet outcome := fun A a => Return a.
#[export] Instance outcome_bind : MBind outcome := fun A B k m =>
  match m with Return a => k a | Panic e => Panic e end.

Lemma res_bind_ok {A B} (k : A -> res B) (m : res A) (b : B) :
  m ≫= k = Ok b <-> exists a, m = Ok a /\ k a = Ok b.
Proof.
  destruct m as [a|e]; cbn; split.
  - eauto.
  - intros (x & Hx & Hk). by simplify_eq.
  - done.
  - by intros (x & Hx & _).
Qed.

Lemma wrap_err_ok {A} p (m : res A) (a : A) : wrap_err p m = Ok a <-> m = Ok a.
Proof. destruct m; cbn; naive_solver. Qed.

(** ** Tactics of the development *)

(** Decide the boolean tests and matches of an unfolded Go function body. *)
Ltac go_split t := destruct t eqn:?; simplify_eq/=; try done.
Ltac go_case :=
  match goal with
  | Hyp : context [match ?scrutinee with _ => _ end] |- _ => go_split scrutinee
  | |- context [match ?scrutinee with _ => _ end] => go_split scrutinee
  end.
Ltac go_cases := repeat go_case.

(** Turn boolean comparisons of the context into propositions. *)
Ltac go_bool_step :=
  match goal with
  | Hb : bool_decide _ = true |- _ => apply bool_decide_eq_true in Hb
  | Hb : bool_decide _ = false |- _ => apply bool_decide_eq_false in Hb
  | Hb : (_ <? _) = true |- _ => apply Z.ltb_lt in Hb
  | Hb : (_ <? _) = false |- _ => apply Z.ltb_ge in Hb
  | Hb : (_ <=? _) = true |- _ => apply Z.leb_le in Hb
  | Hb : (_ <=? _) = false |- _ => apply Z.leb_gt in Hb
  | Hb : (_ =? _) = true |- _ => apply Z.eqb_eq in Hb
  | Hb : (_ =? _) = false |- _ => apply Z.eqb_neq in Hb
  | Hb : andb _ _ = true |- _ => apply andb_true_iff in Hb as [? ?]
  | Hb : orb _ _ = false |- _ => apply orb_false_iff in Hb as [? ?]
  | Hb : negb _ = false |- _ => apply negb_false_iff in Hb
  | Hb : negb _ = true |- _ => apply negb_true_iff in Hb
  end.
Ltac go_bool := repeat go_bool_step.

(** ** Machine integers *)

Definition wrap (w z : Z) : Z := z mod 2 ^ w.
Definition u8 (z : Z) : Z := wrap 8 z.
Definition u16 (z : Z) : Z := wrap 16 z.
Definition u32 (z : Z) : Z := wrap 32 z.
Definition u64 (z : Z) : Z := wrap 64 z.
(** Two's complement 64-bit result of an [int] operation. *)
Definition i64 (z : Z) : Z := (z + 2 ^ 63) mod 2 ^ 64 - 2 ^ 63.

Lemma wrap_small w z : 0 <= z < 2 ^ w -> wrap w z = z.
Proof. intros; by apply Z.mod_small. Qed.

Lemma i64_small z : - 2 ^ 63 <= z < 2 ^ 63 -> i64 z = z.
Proof. intros; unfold i64. rewrite Z.mod_small; lia. Qed.

(** ** Bytes *)

Notation bytes := (list byte).

#[export] Instance byte_eq_dec : EqDecision byte := Byte.byte_eq_dec.

Definition b2z (b : byte) : Z := Z.of_N (Byte.to_N b).
Definition z2b (z : Z) : byte :=
  match Byte.of_N (Z.to_N (z mod 256)) with Some b => b | None => x00 end.

Lemma b2z_range b : 0 <= b2z b < 256.
Proof. unfold b2z. pose proof (Byte.to_N_bounded b). lia. Qed.

Lemma b2z_z2b z : b2z (z2b z) = z mod 256.
Proof.
  unfold b2z, z2b. pose proof (Z.mod_pos_bound z 256 ltac:(lia)) as Hr.
  destruct (Byte.of_N (Z.to_N (z mod 256))) as [b|] eqn:E.
  - apply Byte.to_of_N in E. rewrite E, Z2N.id; lia.
  - apply Byte.of_N_None_iff in E. lia.
Qed.

Lemma b2z_inj b1 b2 : b2z b1 = b2z b2 -> b1 = b2.
Proof.
  unfold b2z. intros H. apply N2Z.inj in H.
  pose proof (Byte.of_to_N b1). pose proof (Byte.of_to_N b2). congruence.
Qed.

Lemma z2b_b2z b : z2b (b2z b) = b.
Proof.
  apply b2z_inj. rewrite b2z_z2b. apply Z.mod_small, b2z_range.
Qed.

Definition byte_of_N (n : N) : byte :=
  match Byte.of_N n with Some b => b | None => x00 end.

Lemma byte_of_to_N b : byte_of_N (Byte.to_N b) = b.
Proof. unfold byte_of_N. by rewrite Byte.of_to_N. Qed.

#[export] Instance byte_countable : Countable byte :=
  inj_countable' Byte.to_N byte_of_N byte_of_to_N.

(** Conversions [string(b)] and [[]byte(s)]. *)
Notation of_bytes := String.string_of_list_byte.
Notation to_bytes := String.list_byte_of_string.

Lemma to_of_bytes b : to_bytes (of_bytes b) = b.
Proof. apply String.list_byte_of_string_of_list_byte. Qed.

Lemma of_to_bytes s : of_bytes (to_bytes s) = s.
Proof. apply String.string_of_list_byte_of_string. Qed.

Lemma of_bytes_inj b1 b2 : of_bytes b1 = of_bytes b2 -> b1 = b2.
Proof. intros H. by rewrite <- (to_of_bytes b1), <- (to_of_bytes b2), H. Qed.

Lemma to_bytes_inj s1 s2 : to_bytes s1 = to_bytes s2 -> s1 = s2.
Proof. intros H. by rewrite <- (of_to_bytes s1), <- (of_to_bytes s2), H. Qed.

(** ** Big-endian integers ([encoding/binary.BigEndian]) *)

(** [be_put n z]: the low [n] bytes of [z], most significant first. *)
Fixpoint be_put (n : nat) (z : Z) : bytes :=
  match n with
  | O => []
  | S n' => be_put n' (z / 256) ++ [z2b z]
  end.

Definition be_get (l : bytes) : Z := fold_left (fun acc b => acc * 256 + b2z b) l 0.

Lemma be_put_length n z : length (be_put n z) = n.
Proof. revert z; induction n as [|n IH]; intros z; cbn; [done|]. rewrite length_app, IH; cbn; lia. Qed.

Lemma be_get_snoc l b : be_get (l ++ [b]) = be_get l * 256 + b2z b.
Proof. unfold be_get. by rewrite fold_left_app. Qed.

Lemma be_get_range l : 0 <= be_get l < 256 ^ Z.of_nat (length l).
Proof.
  induction l as [|b l IH] using rev_ind; [cbn; lia|].
  rewrite be_get_snoc, length_app, Nat2Z.inj_add; cbn [length].
  rewrite Z.pow_add_r by lia. pose proof (b2z_range b). lia.
Qed.

Lemma be_get_put n z : be_get (be_put n z) = z mod 256 ^ Z.of_nat n.
Proof.
  revert z; induction n as [|n IH]; intros z; cbn [be_put].
  - by rewrite Z.mod_1_r.
  - rewrite be_get_snoc, IH, b2z_z2b, Nat2Z.inj_succ, Z.pow_succ_r by lia.
    rewrite (Z.rem_mul_r z 256) by lia. lia.
Qed.

Lemma be_put_get l : be_put (length l) (be_get l) = l.
Proof.
  induction l as [|b l IH] using rev_ind; [done|].
  rewrite length_app, be_get_snoc, Nat.add_comm; cbn [length Nat.add be_put].
  pose proof (b2z_range b).
  rewrite Z.div_add_l, (Z.div_small (b2z b)), Z.add_0_r, IH by lia.
  f_equal. f_equal. apply b2z_inj. rewrite b2z_z2b.
  rewrite Z.add_comm, Z.mod_add, Z.mod_small by lia. done.
Qed.

Lemma be_get_inj l1 l2 : length l1 = length l2 -> be_get l1 = be_get l2 -> l1 = l2.
Proof. intros Hl He. by rewrite <- (be_put_get l1), <- (be_put_get l2), Hl, He. Qed.

Lemma be_put_inj n z1 z2 :
  0 <= z1 < 256 ^ Z.of_nat n -> 0 <= z2 < 256 ^ Z.of_nat n ->
  be_put n z1 = be_put n z2 -> z1 = z2.
Proof.
  intros H1 H2 H. apply (f_equal be_get) in H. rewrite !be_get_put in H.
  by rewrite !Z.mod_small in H.
Qed.

#[global] Arguments be_put : simpl never.
#[global] Arguments be_get : simpl never.

(** ** Time *)

(** [time.Time] is its instant in nanoseconds since the Unix epoch; the zero
    [time.Time] is the first of January of year 1.  [time.Duration] is in
    nanoseconds too. *)
Definition second : Z := 1000000000.
Definition minute : Z := 60 * second.
Definition hour : Z := 60 * minute.
Definition zero_time : Z := -62135596800 * second.
Definition is_zero_time (t : Z) : bool := t =? zero_time.
(** [t.Unix()] *)
Definition unix (t : Z) : Z := t / second.
(** [time.Unix(s, 0)] *)
Definition of_unix (s : Z) : Z := s * second.

Lemma unix_of_unix s : unix (of_unix s) = s.
Proof. apply Z.div_mul. done. Qed.

(** ** Lists *)

(** The first index at which a Go [for i := range l] loop stops. *)
Fixpoint find_index {A} (p : A -> bool) (l : list A) : option nat :=
  match l with
  | [] => None
  | x :: l' => if p x then Some 0%nat else S <$> find_index p l'
  end.

Lemma find_index_Some {A} (p : A -> bool) l i :
  find_index p l = Some i <->
  (exists x, l !! i = Some x /\ p x = true) /\
  (forall j y, (j < i)%nat -> l !! j = Some y -> p y = false).
Proof.
  revert i; induction l as [|x l IH]; intros i; cbn.
  - split; [done|]. by intros [(x & ? & _) _].
  - destruct (p x) eqn:Ep.
    + split.
      * intros [= <-]. split; [by exists x|]. intros; lia.
      * intros [_ Hlt]. destruct i as [|i]; [done|].
        specialize (Hlt 0%nat x ltac:(lia) eq_refl). congruence.
    + rewrite fmap_Some. split.
      * intros (k & Hk & ->). apply IH in Hk as [(y & Hy & Hp) Hlt].
        split; [by exists y|]. intros [|j] z Hj Hz; [cbn in Hz; congruence|].
        apply (Hlt j z); [lia|done].
      * intros [(y & Hy & Hp) Hlt]. destruct i as [|i]; [cbn in Hy; congruence|].
        exists i. split; [|done]. apply IH. split; [by exists y|].
        intros j z Hj Hz. apply (Hlt (S j) z); [lia|done].
Qed.

Lemma find_index_None {A} (p : A -> bool) l :
  find_index p l = None <-> forall x, x ∈ l -> p x = false.
Proof.
  induction l as [|x l IH]; cbn.
  - split; [|done]. intros _ x Hx. by apply not_elem_of_nil in Hx.
  - destruct (p x) eqn:Ep.
    + split; [done|]. intros H. specialize (H x (list_elem_of_here x l)). congruence.
    + rewrite fmap_None, IH. split.
      * intros H y [->|Hy]%elem_of_cons; auto.
      * intros H y Hy. apply H. by apply list_elem_of_further.
Qed.

(** [append(l[:i], l[i+1:]...)] is stdpp's [delete i l]; [l[i] = x] is
    [<[i := x]> l] for an index in range. *)

(** Pairwise relations on lists. *)
Section Pairwise.
Context {A} (R : A -> A -> Prop).

Lemma pairwise_app l1 l2 :
  ForallOrdPairs R (l1 ++ l2) <->
  ForallOrdPairs R l1 /\ ForallOrdPairs R l2 /\ forall x y, x ∈ l1 -> y ∈ l2 -> R x y.
Proof.
  induction l1 as [|a l1 IH]; cbn.
  - split; [|by intros (_ & ? & _)]. intros H. split; [constructor|]. split; [done|].
    intros x y Hx. by apply not_elem_of_nil in Hx.
  - split.
    + intros H. inversion_clear H as [|? ? Hf Hr]. apply Forall_app in Hf as [Hf1 Hf2].
      apply IH in Hr as (H1 & H2 & H12). split; [by constructor|]. split; [done|].
      intros x y [->|Hx]%elem_of_cons Hy; [|by apply H12].
      rewrite Forall_forall in Hf2. auto.
    + intros (H1 & H2 & H12). inversion_clear H1 as [|? ? Hf Hr]. constructor.
      * apply Forall_app. split; [done|]. apply Forall_forall. intros y Hy.
        apply H12; [by apply list_elem_of_here|done].
      * apply IH. split; [done|]. split; [done|]. intros x y Hx Hy.
        apply H12; [by apply list_elem_of_further|done].
Qed.

Lemma pairwise_cons x l :
  ForallOrdPairs R (x :: l) <-> (forall y, y ∈ l -> R x y) /\ ForallOrdPairs R l.
Proof.
  split.
  - intros H. inversion_clear H as [|? ? Hf Hr]. by rewrite Forall_forall in Hf.
  - intros [Hf Hr]. constructor; [by apply Forall_forall|done].
Qed.

Lemma pairwise_filter p l : ForallOrdPairs R l -> ForallOrdPairs R (List.filter p l).
Proof.
  induction 1 as [|x l Hf Hr IH]; cbn; [constructor|]. destruct (p x); [|done].
  constructor; [|done]. apply Forall_forall. intros y Hy.
  rewrite Forall_forall in Hf. apply Hf. apply list_elem_of_In.
  apply list_elem_of_In, filter_In in Hy. tauto.
Qed.
End Pairwise.

Lemma elem_of_list_filter {A} (p : A -> bool) l x :
  x ∈ List.filter p l <-> x ∈ l /\ p x = true.
Proof. rewrite !list_elem_of_In. apply filter_In. Qed.

(** ** Maps filled and emptied name by name *)

Lemma insert_each_lookup {A} (r : gmap string A) b l name :
  fold_left (fun r x => if bool_decide (x = "") then r else <[x := b]> r) l r !! name =
    if bool_decide (name <> ""%string /\ name ∈ l) then Some b else r !! name.
Proof.
  induction l as [|x l IH] using rev_ind.
  - rewrite bool_decide_eq_false_2; [done|]. intros [_ Hx]. by apply not_elem_of_nil in Hx.
  - rewrite fold_left_app. cbn [fold_left]. destruct (decide (x = "")) as [->|Hx].
    + rewrite bool_decide_eq_true_2, IH by done. repeat case_bool_decide; try done; set_solver.
    + rewrite bool_decide_eq_false_2 by done. destruct (decide (x = name)) as [->|Hn].
      * rewrite lookup_insert_eq, bool_decide_eq_true_2; [done|]. split; [done|]. set_solver.
      * rewrite lookup_insert_ne, IH by done. repeat case_bool_decide; try done; set_solver.
Qed.

Lemma delete_each_lookup {A} (r : gmap string A) l name :
  fold_left (fun r x => delete x r) l r !! name = if bool_decide (name ∈ l) then None else r !! name.
Proof.
  induction l as [|x l IH] using rev_ind.
  - rewrite bool_decide_eq_false_2; [done|]. by apply not_elem_of_nil.
  - rewrite fold_left_app. cbn [fold_left]. destruct (decide (x = name)) as [->|Hn].
    + rewrite lookup_delete_eq, bool_decide_eq_true_2; [done|]. set_solver.
    + rewrite lookup_delete_ne, IH by done. repeat case_bool_decide; try done; set_solver.
Qed.
