(* ===== verification/GoStrings.v ===== *)
(** * GoStrings: the Go string routines the program calls

    A Go string is the byte string [string].  [strings.TrimSpace],
    [strings.ToLower], [strings.EqualFold], [strings.Contains],
    [strings.Cut], [strconv.Itoa], [strconv.Atoi] and [encoding/hex] are
    modelled on bytes.  White space is the full UTF-8 set of
    [unicode.IsSpace].  Case mapping is exact on ASCII and on the non-ASCII
    runes whose image is ASCII, so a comparison of a mapped string with an
    ASCII constant is exact; other non-ASCII runes keep their bytes. *)

From S2P Require Import Prelude.

(** ** White space *)

(** The bytes after a leading white-space rune, if there is one. *)
Definition lead_space (l : bytes) : option bytes :=
  match l with
  | (x09 | x0a | x0b | x0c | x0d | x20) :: r => Some r
  | xc2 :: (x85 | xa0) :: r => Some r
  | xe1 :: x9a :: x80 :: r => Some r
  | xe2 :: x80 :: (x80 | x81 | x82 | x83 | x84 | x85 | x86 | x87 | x88 | x89
                   | x8a | xa8 | xa9 | xaf) :: r => Some r
  | xe2 :: x81 :: x9f :: r => Some r
  | xe3 :: x80 :: x80 :: r => Some r
  | _ => None
  end.

(** The same on a reversed string: the last rune of the string leads. *)
Definition last_space (l : bytes) : option bytes :=
  match l with
  | (x09 | x0a | x0b | x0c | x0d | x20) :: r => Some r
  | (x85 | xa0) :: xc2 :: r => Some r
  | x80 :: x9a :: xe1 :: r => Some r
  | (x80 | x81 | x82 | x83 | x84 | x85 | x86 | x87 | x88 | x89
     | x8a | xa8 | xa9 | xaf) :: x80 :: xe2 :: r => Some r
  | x9f :: x81 :: xe2 :: r => Some r
  | x80 :: x80 :: xe3 :: r => Some r
  | _ => None
  end.

Fixpoint strip (f : bytes -> option bytes) (fuel : nat) (l : bytes) : bytes :=
  match fuel with
  | O => l
  | S n => match f l with Some r => strip f n r | None => l end
  end.

Definition trim_space_bytes (l : bytes) : bytes :=
  let l1 := strip lead_space (length l) l in
  rev (strip last_space (length l1) (rev l1)).

(** [strings.TrimSpace] *)
Definition trim_space (s : string) : string :=
  of_bytes (trim_space_bytes (to_bytes s)).

(** ** Case *)

Definition lower_byte (b : byte) : byte :=
  let z := b2z b in if (65 <=? z) && (z <=? 90) then z2b (z + 32) else b.
Definition upper_byte (b : byte) : byte :=
  let z := b2z b in if (97 <=? z) && (z <=? 122) then z2b (z - 32) else b.

Fixpoint lower_bytes (l : bytes) : bytes :=
  match l with
  | xc4 :: xb0 :: r => x69 :: lower_bytes r
  | xe2 :: x84 :: xaa :: r => x6b :: lower_bytes r
  | b :: r => lower_byte b :: lower_bytes r
  | [] => []
  end.
Fixpoint upper_bytes (l : bytes) : bytes :=
  match l with
  | xc4 :: xb1 :: r => x49 :: upper_bytes r
  | xc5 :: xbf :: r => x53 :: upper_bytes r
  | b :: r => upper_byte b :: upper_bytes r
  | [] => []
  end.
Fixpoint fold_bytes (l : bytes) : bytes :=
  match l with
  | xc5 :: xbf :: r => x73 :: fold_bytes r
  | xe2 :: x84 :: xaa :: r => x6b :: fold_bytes r
  | b :: r => lower_byte b :: fold_bytes r
  | [] => []
  end.

(** [strings.ToLower], [strings.ToUpper] and [strings.EqualFold] *)
Definition to_lower (s : string) : string := of_bytes (lower_bytes (to_bytes s)).
Definition to_upper (s : string) : string := of_bytes (upper_bytes (to_bytes s)).
Definition equal_fold (s t : string) : bool :=
  bool_decide (fold_bytes (to_bytes s) = fold_bytes (to_bytes t)).

(** ** Searching and cutting *)

(** [strings.HasPrefix(s, p)] *)
Definition has_prefix (s p : string) : bool := String.prefix p s.

Fixpoint drop_string (n : nat) (s : string) : string :=
  match n, s with
  | O, _ => s
  | S n, String _ r => drop_string n r
  | S _, EmptyString => EmptyString
  end.

(** [strings.TrimPrefix(s, p)] *)
Definition trim_prefix (s p : string) : string :=
  if has_prefix s p then drop_string (String.length p) s else s.

(** [strings.Contains(s, sub)] *)
Fixpoint contains (s sub : string) : bool :=
  String.prefix sub s ||
  match s with String _ r => contains r sub | EmptyString => false end.

(** [strings.Cut(s, sep)] for a non-empty [sep]; [None] is [found = false]. *)
Fixpoint cut (s sep : string) : option (string * string) :=
  if String.prefix sep s then Some ("", drop_string (String.length sep) s)%string
  else match s with
       | String a r => '(x, y) ← cut r sep; Some (String a x, y)
       | EmptyString => None
       end.

Definition string_rev (s : string) : string :=
  of_bytes (rev (to_bytes s)).

(** [strings.LastIndex] of a one-byte separator, as the split around it. *)
Definition cut_last (s sep : string) : option (string * string) :=
  '(x, y) ← cut (string_rev s) sep; Some (string_rev y, string_rev x).

(** [strings.HasSuffix(s, p)] *)
Definition has_suffix (s p : string) : bool :=
  has_prefix (string_rev s) (string_rev p).

(** Delete the bytes of [s] that satisfy [p] ([strings.ReplaceAll] of
    one-byte strings by the empty string). *)
Definition remove_bytes (p : byte -> bool) (s : string) : string :=
  of_bytes (List.filter (fun b => negb (p b)) (to_bytes s)).

Fixpoint strip_while (p : byte -> bool) (l : bytes) : bytes :=
  match l with
  | b :: r => if p b then strip_while p r else l
  | [] => []
  end.

(** [strings.Trim(s, cutset)] for an ASCII cutset. *)
Definition trim_set (p : byte -> bool) (s : string) : string :=
  of_bytes (rev (strip_while p (rev (strip_while p (to_bytes s))))).
(** [strings.TrimRight(s, cutset)] for an ASCII cutset. *)
Definition trim_right_set (p : byte -> bool) (s : string) : string :=
  of_bytes (rev (strip_while p (rev (to_bytes s)))).

(** [strings.Join] *)
Fixpoint join (sep : string) (l : list string) : string :=
  match l with
  | [] => ""
  | [x] => x
  | x :: r => x ++ sep ++ join sep r
  end%string.

(** ** Numbers *)

(** [strconv.Itoa] *)
Definition itoa (z : Z) : string := pretty z.

Definition digit_val (b : byte) : option Z :=
  let z := b2z b in if (48 <=? z) && (z <=? 57) then Some (z - 48) else None.

Fixpoint parse_digits (acc : Z) (l : bytes) : option Z :=
  match l with
  | [] => Some acc
  | b :: r => d ← digit_val b; parse_digits (acc * 10 + d) r
  end.

(** [strconv.Atoi]: an optional sign, decimal digits, the range of [int]. *)
Definition atoi (s : string) : option Z :=
  let num l := match l with [] => None | _ => parse_digits 0 l end in
  n ← match to_bytes s with
      | x2b :: r => num r
      | x2d :: r => Z.opp <$> num r
      | l => num l
      end;
  if (- 2 ^ 63 <=? n) && (n <? 2 ^ 63) then Some n else None.

(** ** Hexadecimal *)

Definition hex_digit (z : Z) : byte := z2b (if z <? 10 then 48 + z else 87 + z).
Definition hex_val (b : byte) : option Z :=
  let z := b2z b in
  if (48 <=? z) && (z <=? 57) then Some (z - 48)
  else if (97 <=? z) && (z <=? 102) then Some (z - 87)
  else if (65 <=? z) && (z <=? 70) then Some (z - 55)
  else None.

Fixpoint hex_bytes (l : bytes) : bytes :=
  match l with
  | [] => []
  | b :: r => hex_digit (b2z b / 16) :: hex_digit (b2z b mod 16) :: hex_bytes r
  end.
Fixpoint unhex_bytes (l : bytes) : option bytes :=
  match l with
  | [] => Some []
  | [_] => None
  | h :: d :: r =>
      x ← hex_val h; y ← hex_val d; rest ← unhex_bytes r;
      Some (z2b (x * 16 + y) :: rest)
  end.

(** [hex.EncodeToString] and [hex.DecodeString] *)
Definition hex_encode (l : bytes) : string := of_bytes (hex_bytes l).
Definition hex_decode (s : string) : option bytes := unhex_bytes (to_bytes s).

(** ** Laws *)

Lemma hex_val_digit z : 0 <= z < 16 -> hex_val (hex_digit z) = Some z.
Proof.
  intros Hz. unfold hex_val, hex_digit. destruct (z <? 10) eqn:E; go_bool.
  - rewrite b2z_z2b, Z.mod_small by lia.
    by rewrite (proj2 (Z.leb_le 48 _)), (proj2 (Z.leb_le _ 57)), Z.add_simpl_l by lia.
  - rewrite b2z_z2b, Z.mod_small by lia.
    rewrite (proj2 (Z.leb_gt _ 57)), andb_false_r by lia.
    rewrite (proj2 (Z.leb_le 97 _)), (proj2 (Z.leb_le _ 102)) by lia.
    cbn. f_equal. lia.
Qed.

Lemma unhex_hex l : unhex_bytes (hex_bytes l) = Some l.
Proof.
  induction l as [|b l IH]; [done|]. cbn [hex_bytes unhex_bytes].
  pose proof (b2z_range b).
  rewrite !hex_val_digit by (try apply Z.mod_pos_bound; try split;
    try apply Z.div_pos; try apply Z.div_lt_upper_bound; lia).
  cbn. rewrite IH. cbn. f_equal. f_equal.
  rewrite <- (z2b_b2z b) at 3. f_equal. rewrite (Z.div_mod (b2z b) 16) at 3; lia.
Qed.

Lemma hex_decode_encode l : hex_decode (hex_encode l) = Some l.
Proof. unfold hex_decode, hex_encode. by rewrite to_of_bytes, unhex_hex. Qed.

Lemma hex_encode_inj l1 l2 : hex_encode l1 = hex_encode l2 -> l1 = l2.
Proof.
  intros H. apply (f_equal hex_decode) in H.
  rewrite !hex_decode_encode in H. by simplify_eq.
Qed.

Lemma itoa_inj z1 z2 : itoa z1 = itoa z2 -> z1 = z2.
Proof. apply (inj pretty). Qed.

Lemma string_app_nil (s : string) : ("" ++ s = s)%string.
Proof. done. Qed.

Lemma string_app_cons x (a s : string) : (String x a ++ s = String x (a ++ s))%string.
Proof. done. Qed.

Ltac string_app := rewrite ?string_app_cons, ?string_app_nil in *; cbn.

Lemma string_app_assoc (a b c : string) : ((a ++ b) ++ c = a ++ b ++ c)%string.
Proof. induction a as [|x a IH]; [done|]. string_app. by rewrite IH. Qed.

Lemma string_app_nil_r (a : string) : (a ++ "" = a)%string.
Proof. induction a as [|x a IH]; [done|]. string_app. by rewrite IH. Qed.

Lemma prefix_app (p s : string) : String.prefix p (p ++ s) = true.
Proof.
  induction p as [|x p IH]; string_app; [by destruct s|].
  destruct (ascii_dec x x); [done|congruence].
Qed.

Lemma prefix_spec (p s : string) :
  String.prefix p s = true <-> exists r, s = (p ++ r)%string.
Proof.
  split; [|intros (r & ->); apply prefix_app].
  revert s; induction p as [|x p IH]; intros s H; [by exists s|].
  destruct s as [|y s]; [done|]. cbn in H.
  destruct (ascii_dec x y) as [<-|]; [|done].
  destruct (IH s H) as (r & ->). by exists r.
Qed.

Lemma drop_string_app (p s : string) : drop_string (String.length p) (p ++ s) = s.
Proof. induction p; string_app; auto. Qed.

Lemma contains_spec (s sub : string) :
  contains s sub = true <-> exists a b, s = (a ++ sub ++ b)%string.
Proof.
  split.
  - induction s as [|x s IH]; intros H.
    + cbn [contains] in H. rewrite orb_false_r in H. apply prefix_spec in H as (r & Hr).
      by exists ""%string, r.
    + cbn [contains] in H. apply orb_true_iff in H as [H|H].
      * apply prefix_spec in H as (r & Hr). by exists ""%string, r.
      * destruct (IH H) as (a & b & ->). by exists (String x a), b.
  - intros (a & b & ->). induction a as [|x a IH].
    + rewrite string_app_nil. destruct (sub ++ b)%string eqn:E; cbn [contains];
        rewrite <- E, prefix_app; done.
    + rewrite string_app_cons. cbn [contains]. rewrite IH. apply orb_true_r.
Qed.

Lemma to_bytes_cons x s : to_bytes (String x s) = byte_of_ascii x :: to_bytes s.
Proof. done. Qed.

Lemma of_bytes_cons b l : of_bytes (b :: l) = String (ascii_of_byte b) (of_bytes l).
Proof. done. Qed.

Lemma to_bytes_app (a b : string) : to_bytes (a ++ b) = to_bytes a ++ to_bytes b.
Proof.
  induction a as [|x a IH]; [done|].
  by rewrite string_app_cons, !to_bytes_cons, IH.
Qed.

Lemma of_bytes_app (a b : bytes) : of_bytes (a ++ b) = (of_bytes a ++ of_bytes b)%string.
Proof. apply to_bytes_inj. by rewrite to_bytes_app, !to_of_bytes. Qed.

Lemma of_bytes_length b : String.length (of_bytes b) = length b.
Proof. induction b as [|x b IH]; [done|]. rewrite of_bytes_cons. cbn. by rewrite IH. Qed.

Lemma to_bytes_length s : length (to_bytes s) = String.length s.
Proof. rewrite <- (of_to_bytes s) at 2. by rewrite of_bytes_length. Qed.

Lemma string_app_inj_length (a a' b b' : string) :
  String.length a = String.length a' -> (a ++ b = a' ++ b')%string -> a = a' /\ b = b'.
Proof.
  revert a'; induction a as [|x a IH]; intros [|y a'] Hl He; try done.
  rewrite !string_app_cons in He. cbn in Hl. injection He as -> He. destruct (IH a' ltac:(lia) He) as [-> ->]. done.
Qed.

(** ** Decimal numbers *)

Definition is_digit (b : byte) : Prop := is_Some (digit_val b).

Lemma pretty_char_digit n :
  (n < 10)%N -> digit_val (byte_of_ascii (pretty_N_char n)) = Some (Z.of_N n).
Proof.
  set (P m := digit_val (byte_of_ascii (pretty_N_char m)) = Some (Z.of_N m)).
  assert (Hall : Forall P (N.of_nat <$> seq 0 10)) by (repeat constructor).
  intros Hn. apply (proj1 (Forall_forall P _) Hall), list_elem_of_fmap. exists (N.to_nat n).
  split; [by rewrite N2Nat.id|]. apply elem_of_seq. lia.
Qed.

Lemma pretty_N_go_digits n s :
  Forall is_digit (to_bytes s) ->
  Forall is_digit (to_bytes (pretty_N_go n s)) /\
  parse_digits 0 (to_bytes (pretty_N_go n s)) = parse_digits (Z.of_N n) (to_bytes s).
Proof.
  revert s. induction (N.lt_wf_0 n) as [n _ IH]; intros s Hs.
  destruct (decide (0 < n)%N) as [Hn|Hn].
  - rewrite pretty_N_go_step by done. pose proof (N.mod_lt n 10 ltac:(lia)) as Hm.
    pose proof (pretty_char_digit _ Hm) as Hc.
    destruct (IH (n `div` 10)%N ltac:(apply N.div_lt; lia) (String (pretty_N_char (n mod 10)) s)) as [Hd Hp].
    { rewrite to_bytes_cons. constructor; [by eexists|done]. }
    split; [done|]. rewrite Hp, to_bytes_cons. cbn [parse_digits]. rewrite Hc. cbn.
    f_equal. pose proof (N.div_mod n 10 ltac:(lia)). lia.
  - assert (n = 0%N) as -> by lia. by rewrite pretty_N_go_0.
Qed.

(** The decimal digits of a non-negative number read back as it. *)
Lemma itoa_digits z :
  0 <= z -> Forall is_digit (to_bytes (itoa z)) /\ to_bytes (itoa z) <> [] /\ parse_digits 0 (to_bytes (itoa z)) = Some z.
Proof.
  intros Hz. destruct z as [|p|p]; [|clear Hz|lia].
  - split; [|done]. constructor; [by eexists|constructor].
  - change (itoa (Z.pos p)) with (pretty_N_go (N.pos p) "").
    destruct (pretty_N_go_digits (N.pos p) "" (Forall_nil_2 _)) as [Hd Hp]. split; [done|]. split; [|done].
    intros He. by rewrite He in Hp.
Qed.

Lemma atoi_digits l :
  l <> [] -> Forall is_digit l ->
  atoi (of_bytes l) = (n ← parse_digits 0 l; if (- 2 ^ 63 <=? n) && (n <? 2 ^ 63) then Some n else None).
Proof.
  intros Hne Hd. unfold atoi. rewrite to_of_bytes. destruct Hd as [|b l [z Hz] Hd]; [done|].
  destruct b; try done.
Qed.

Lemma atoi_itoa z : 0 <= z < 2 ^ 63 -> atoi (itoa z) = Some z.
Proof.
  intros [H0 H1]. destruct (itoa_digits z H0) as (Hd & Hne & Hp). rewrite <- (of_to_bytes (itoa z)).
  rewrite atoi_digits, Hp by done. cbn. by rewrite (proj2 (Z.leb_le _ _)), (proj2 (Z.ltb_lt _ _)) by lia.
Qed.

Lemma pretty_N_go_length k n s :
  (n < 10 ^ N.of_nat k)%N -> (String.length (pretty_N_go n s) <= k + String.length s)%nat.
Proof.
  revert n s. induction k as [|k IH]; intros n s Hn.
  - assert (n = 0%N) as -> by (change (10 ^ N.of_nat 0)%N with 1%N in Hn; lia). by rewrite pretty_N_go_0.
  - destruct (decide (0 < n)%N) as [Hp|Hp].
    + rewrite pretty_N_go_step by done.
      assert (n `div` 10 < 10 ^ N.of_nat k)%N as Hd.
      { apply N.Div0.div_lt_upper_bound. rewrite <- N.pow_succ_r', <- Nat2N.inj_succ. done. }
      specialize (IH _ (String (pretty_N_char (n mod 10)) s) Hd). cbn [String.length] in IH. lia.
    + assert (n = 0%N) as -> by lia. rewrite pretty_N_go_0. lia.
Qed.

Lemma itoa_length z : 0 <= z < 2 ^ 63 -> (String.length (itoa z) <= 19)%nat.
Proof.
  intros Hz. destruct z as [|p|p]; [cbn; lia| |lia]. change (itoa (Z.pos p)) with (pretty_N_go (N.pos p) "").
  transitivity (19 + String.length "")%nat; [|cbn; lia]. apply pretty_N_go_length.
  change (2 ^ 63) with 9223372036854775808 in Hz. change (10 ^ N.of_nat 19)%N with 10000000000000000000%N. lia.
Qed.

#[export] Hint Rewrite to_of_bytes of_to_bytes hex_decode_encode
  string_app_nil_r : go_str.

(** ** Printable ASCII text passes through trimming and cutting *)

(** Printable ASCII, no space. *)
Definition printable (b : byte) : bool := (33 <=? b2z b) && (b2z b <? 127).

Lemma lead_space_printable b r : printable b = true -> lead_space (b :: r) = None.
Proof. by destruct b. Qed.

Lemma last_space_printable b r : printable b = true -> last_space (b :: r) = None.
Proof. by destruct b. Qed.

Lemma strip_id f n l : f l = None -> strip f n l = l.
Proof. intros H. destruct n; cbn; [done|]. by rewrite H. Qed.

Lemma trim_space_bytes_id l :
  Forall (fun b => printable b = true) l -> trim_space_bytes l = l.
Proof.
  intros Hf. unfold trim_space_bytes. rewrite (strip_id lead_space).
  2:{ destruct Hf; [done|by apply lead_space_printable]. }
  rewrite (strip_id last_space); [apply rev_involutive|].
  apply Forall_rev in Hf. destruct Hf; [done|by apply last_space_printable].
Qed.

(** A space at the front of a prefix is one of the whole. *)
Lemma lead_space_app p q r : lead_space p = Some r -> lead_space (p ++ q) = Some (r ++ q).
Proof.
  destruct p as [|b p]; [done|]. destruct b; cbn; try done; try (by intros [= <-]).
  all: destruct p as [|b p]; [done|]; destruct b; cbn; try done; try (by intros [= <-]).
  all: destruct p as [|b p]; [done|]; destruct b; cbn; try done; by intros [= <-].
Qed.

(** White-space runes have at most three bytes, and at least one. *)
Lemma lead_space_shorter l r : lead_space l = Some r -> (length r < length l)%nat.
Proof.
  destruct l as [|b l]; [done|]. destruct b; cbn; try done; try (intros [= <-]; lia).
  all: destruct l as [|b l]; [done|]; destruct b; cbn; try done; try (intros [= <-]; lia).
  all: destruct l as [|b l]; [done|]; destruct b; cbn; try done; intros [= <-]; lia.
Qed.

Lemma last_space_drop l r :
  last_space l = Some r -> l <> [] /\ (r = drop 1 l \/ r = drop 2 l \/ r = drop 3 l).
Proof.
  intros Hl. split; [by intros ->|]. revert Hl. destruct l as [|b l]; [done|]. destruct b; cbn; try done; try (intros [= <-]; by left).
  all: destruct l as [|b2 l]; [done|]; destruct b2; cbn; try done; try (intros [= <-]; by right; left).
  all: destruct l as [|b3 l]; [done|]; destruct b3; cbn; try done; intros [= <-]; by right; right.
Qed.

Lemma last_space_shorter l r : last_space l = Some r -> exists p, l = p ++ r /\ (0 < length p)%nat.
Proof.
  intros (Hne & Hr)%last_space_drop. destruct l as [|b l]; [done|].
  destruct Hr as [->|[->| ->]]; [exists (take 1 (b :: l))|exists (take 2 (b :: l))|exists (take 3 (b :: l))];
    (split; [by rewrite take_drop|rewrite length_take; cbn; lia]).
Qed.

Lemma strip_done f n l :
  (forall x r, f x = Some r -> (length r < length x)%nat) -> (length l <= n)%nat -> f (strip f n l) = None.
Proof.
  intros Hf. revert l. induction n as [|n IH]; intros l Hn; cbn [strip].
  - destruct (f l) as [r|] eqn:E; [|done]. apply Hf in E. lia.
  - destruct (f l) as [r|] eqn:E; [|done]. apply IH. apply Hf in E. lia.
Qed.

Lemma strip_suffix n l : exists p, l = p ++ strip last_space n l.
Proof.
  revert l. induction n as [|n IH]; intros l; cbn [strip]; [by exists []|].
  destruct (last_space l) as [r|] eqn:E; [|by exists []]. apply last_space_shorter in E as (p & -> & _).
  destruct (IH r) as [q Hq]. exists (p ++ q). by rewrite <- app_assoc, <- Hq.
Qed.

(** Trimmed text has no space at its ends, so trimming it again changes
    nothing. *)
Lemma trim_space_idem s : trim_space (trim_space s) = trim_space s.
Proof.
  unfold trim_space. rewrite to_of_bytes. f_equal. set (l := to_bytes s). unfold trim_space_bytes at 2 3.
  set (l1 := strip lead_space (length l) l). set (t := strip last_space (length l1) (rev l1)).
  assert (H1 : lead_space l1 = None) by (apply strip_done; [exact lead_space_shorter|lia]).
  assert (H2 : last_space t = None).
  { apply strip_done; [|rewrite length_rev; lia]. intros x r (p & -> & Hp)%last_space_shorter. rewrite length_app. lia. }
  destruct (strip_suffix (length l1) (rev l1)) as [p Hp]. fold t in Hp.
  assert (H3 : lead_space (rev t) = None).
  { destruct (lead_space (rev t)) as [r|] eqn:E; [|done]. apply (lead_space_app _ (rev p)) in E.
    by rewrite <- rev_app_distr, <- Hp, rev_involutive, H1 in E. }
  unfold trim_space_bytes. rewrite (strip_id lead_space) by done.
  rewrite rev_involutive, (strip_id last_space) by done. done.
Qed.

(** Trimming keeps what is no white space. *)
Lemma lead_space_keeps l r : lead_space l = Some r -> x7c ∈ l -> x7c ∈ r.
Proof.
  destruct l as [|b l]; [done|]. destruct b; cbn; try done; try (by intros [= <-] [?|?]%elem_of_cons).
  all: destruct l as [|b l]; [done|]; destruct b; cbn; try done; try (by intros [= <-] [?|[?|?]%elem_of_cons]%elem_of_cons).
  all: destruct l as [|b l]; [done|]; destruct b; cbn; try done;
    by intros [= <-] [?|[?|[?|?]%elem_of_cons]%elem_of_cons]%elem_of_cons.
Qed.

Lemma last_space_keeps l r : last_space l = Some r -> x7c ∈ l -> x7c ∈ r.
Proof.
  destruct l as [|b l]; [done|]. destruct b; cbn; try done; try (by intros [= <-] [?|?]%elem_of_cons).
  all: destruct l as [|b l]; [done|]; destruct b; cbn; try done; try (by intros [= <-] [?|[?|?]%elem_of_cons]%elem_of_cons).
  all: destruct l as [|b l]; [done|]; destruct b; cbn; try done;
    by intros [= <-] [?|[?|[?|?]%elem_of_cons]%elem_of_cons]%elem_of_cons.
Qed.

Lemma strip_keeps f (c : byte) n l :
  (forall x r, f x = Some r -> c ∈ x -> c ∈ r) -> c ∈ l -> c ∈ strip f n l.
Proof.
  intros Hf. revert l. induction n as [|n IH]; intros l Hc; cbn [strip]; [done|].
  destruct (f l) eqn:E; [|done]. eauto.
Qed.

Lemma trim_space_bar (a b : string) : trim_space (a ++ "|" ++ b) <> ""%string.
Proof.
  intros Ht. assert (Hin : x7c ∈ to_bytes (trim_space (a ++ "|" ++ b))).
  { unfold trim_space, trim_space_bytes. rewrite to_of_bytes, list_elem_of_In, <- in_rev, <- list_elem_of_In.
    apply strip_keeps; [exact last_space_keeps|]. rewrite list_elem_of_In, <- in_rev, <- list_elem_of_In.
    apply strip_keeps; [exact lead_space_keeps|]. rewrite !to_bytes_app, !elem_of_app. right. left. by left. }
  rewrite Ht in Hin. by apply not_elem_of_nil in Hin.
Qed.

Lemma trim_space_id s :
  Forall (fun b => printable b = true) (to_bytes s) -> trim_space s = s.
Proof. intros Hf. unfold trim_space. by rewrite trim_space_bytes_id, of_to_bytes. Qed.

Lemma strip_while_id p l : Forall (fun b => p b = false) l -> strip_while p l = l.
Proof. intros Hf. destruct Hf as [|b l Hb Hf]; cbn; [done|]. by rewrite Hb. Qed.

Lemma trim_set_id p s : Forall (fun b => p b = false) (to_bytes s) -> trim_set p s = s.
Proof.
  intros Hf. unfold trim_set. rewrite (strip_while_id p (to_bytes s)) by done.
  rewrite strip_while_id by (by apply Forall_rev). by rewrite rev_involutive, of_to_bytes.
Qed.

Lemma cut_none s a :
  Forall (fun b => b <> byte_of_ascii a) (to_bytes s) -> cut s (String a "") = None.
Proof.
  induction s as [|x s IH]; intros Hf; [done|].
  rewrite to_bytes_cons in Hf. inversion Hf as [|? ? Hx Hr]; subst.
  cbn. destruct (ascii_dec a x) as [->|]; [done|]. cbn in IH. by rewrite (IH Hr).
Qed.

(** [%q] of a string: the ASCII bytes are escaped as [strconv.Quote] does;
    other bytes, taken to be printable UTF-8, stay as they are. *)
Fixpoint quote_bytes (l : bytes) : bytes :=
  match l with
  | [] => []
  | b :: r =>
    match b with
    | x22 | x5c => [x5c; b]
    | x0a => [x5c; x6e] | x0d => [x5c; x72] | x09 => [x5c; x74] | x07 => [x5c; x61]
    | x0b => [x5c; x76] | x0c => [x5c; x66] | x08 => [x5c; x62]
    | _ => if (b2z b <? 32) || (b2z b =? 127)
           then x5c :: x78 :: hex_bytes [b] else [b]
    end ++ quote_bytes r
  end.

Definition quote (s : string) : string := of_bytes (x22 :: quote_bytes (to_bytes s) ++ [x22]).

(** ** Lists of addresses and keys *)

(** Trimmed, without blanks, each once and in order. *)
Fixpoint unique_trimmed_from (seen : list string) (l : list string) : list string :=
  match l with
  | [] => []
  | a :: r =>
    let a := trim_space a in
    if bool_decide (a = "") || bool_decide (a ∈ seen) then unique_trimmed_from seen r
    else a :: unique_trimmed_from (a :: seen) r
  end.
Definition unique_trimmed (l : list string) : list string := unique_trimmed_from [] l.

Lemma unique_trimmed_from_spec l : forall seen,
  NoDup (unique_trimmed_from seen l) /\
  forall a, a ∈ unique_trimmed_from seen l <-> a ∉ seen /\ a <> ""%string /\ a ∈ trim_space <$> l.
Proof.
  induction l as [|a l IH]; intros seen; cbn [unique_trimmed_from].
  - split; [constructor|]. intros a. rewrite fmap_nil, elem_of_nil. tauto.
  - assert (Hc : forall x, x ∈ trim_space <$> a :: l <-> x = trim_space a \/ x ∈ trim_space <$> l).
    { intros x. by rewrite fmap_cons, elem_of_cons. }
    destruct (bool_decide (trim_space a = "") || bool_decide (trim_space a ∈ seen)) eqn:Eskip.
    + destruct (IH seen) as [Hn Hin]. split; [done|]. intros x. rewrite Hin, Hc.
      apply orb_true_iff in Eskip as [?%bool_decide_eq_true|?%bool_decide_eq_true]; naive_solver.
    + go_bool. destruct (IH (trim_space a :: seen)) as [Hn Hin]. split.
      * constructor; [|done]. rewrite Hin, elem_of_cons. tauto.
      * intros x. rewrite elem_of_cons, Hin, Hc, elem_of_cons. split; [naive_solver|].
        destruct (decide (x = trim_space a)); naive_solver.
Qed.

Lemma unique_trimmed_NoDup l : NoDup (unique_trimmed l).
Proof. apply unique_trimmed_from_spec. Qed.

Lemma elem_of_unique_trimmed a l : a ∈ unique_trimmed l <-> a <> ""%string /\ a ∈ trim_space <$> l.
Proof. unfold unique_trimmed. rewrite (proj2 (unique_trimmed_from_spec l [])), elem_of_nil. tauto. Qed.

(** ** Slicing *)

(** [s[:12]] *)
Definition first12 (s : string) : outcome string :=
  if (String.length s <? 12)%nat then Panic "slice bounds out of range"
  else Return (String.substring 0 12 s).

Lemma first12_return s : (12 <= String.length s)%nat <-> exists t, first12 s = Return t.
Proof.
  unfold first12. destruct (_ <? _)%nat eqn:E; [apply Nat.ltb_lt in E|apply Nat.ltb_ge in E].
  - split; [lia|by intros [? ?]].
  - split; [eauto|lia].
Qed.
