(* ===== verification/GoNet.v ===== *)
(** * GoNet: the address functions of Go's [net] package that the source calls

    [net.ParseIP] with [IP.IsLoopback] and [IP.IsUnspecified], and
    [net.SplitHostPort] with [net.JoinHostPort]. *)

From S2P Require Import Prelude GoStrings.

(** ** Host and port *)

Definition index_byte (c : byte) (l : bytes) : option nat :=
  find_index (fun b => bool_decide (b = c)) l.

Definition last_index_byte (c : byte) (l : bytes) : option nat :=
  i ← index_byte c (rev l); Some (length l - 1 - i)%nat.

Definition has_byte (c : byte) (l : bytes) : bool :=
  match index_byte c l with Some _ => true | None => false end.

(** [net.SplitHostPort] *)
Definition SplitHostPort (hostport : string) : res (string * string) :=
  let l := to_bytes hostport in
  let addr_err why := Err ("address " ++ hostport ++ ": " ++ why)%string in
  let finish host j k i :=
    if has_byte x5b (drop j l) then addr_err "unexpected '[' in address"
    else if has_byte x5d (drop k l) then addr_err "unexpected ']' in address"
    else Ok (of_bytes host, of_bytes (drop (S i) l)) in
  match last_index_byte x3a l with
  | None => addr_err "missing port in address"
  | Some i =>
    if bool_decide (head l = Some x5b) then
      match index_byte x5d l with
      | None => addr_err "missing ']' in address"
      | Some e =>
        if bool_decide (S e = length l) then addr_err "missing port in address"
        else if bool_decide (S e = i) then finish (drop 1 (take e l)) 1%nat (S e) i
        else if bool_decide (l !! S e = Some x3a) then addr_err "too many colons in address"
        else addr_err "missing port in address"
      end
    else if has_byte x3a (take i l) then addr_err "too many colons in address"
    else finish (take i l) 0%nat 0%nat i
  end.

(** [net.JoinHostPort] *)
Definition JoinHostPort (host port : string) : string :=
  if has_byte x3a (to_bytes host) then ("[" ++ host ++ "]:" ++ port)%string
  else (host ++ ":" ++ port)%string.

(** ** IP addresses *)

(** The fields of a dotted quad: [prev] is the byte before, [v] and [n] the
    octet so far and its number of digits. *)
Fixpoint v4_fields (prev : option byte) (v n : Z) (fields : list Z) (l : bytes) : option (list Z) :=
  match l with
  | [] => if (length fields <? 3)%nat then None else Some (fields ++ [v])
  | c :: r =>
    match digit_val c with
    | Some d =>
      if (n =? 1) && (v =? 0) then None
      else if 255 <? v * 10 + d then None
      else v4_fields (Some c) (v * 10 + d) (n + 1) fields r
    | None =>
      if bool_decide (c = x2e) then
        if bool_decide (prev = None) || bool_decide (r = []) || bool_decide (prev = Some x2e)
        then None
        else if (length fields =? 3)%nat then None
        else v4_fields (Some c) 0 0 (fields ++ [v]) r
      else None
    end
  end.

Definition parseIPv4 (l : bytes) : option (list Z) := v4_fields None 0 0 [] l.

(** One hexadecimal group: the digits read, the value and the rest. *)
Fixpoint hex_group (n acc : Z) (l : bytes) : option (Z * Z * bytes) :=
  match l with
  | c :: r =>
    match hex_val c with
    | Some d => if 3 <? n then None else hex_group (n + 1) (acc * 16 + d) r
    | None => Some (n, acc, l)
    end
  | [] => Some (n, acc, [])
  end.

(** The groups: the address so far, the position of the ellipsis, and what is
    left of the string. *)
Fixpoint v6_groups (fuel : nat) (ip : list Z) (ellipsis : option nat) (s : bytes)
  : option (list Z * option nat * bytes) :=
  match fuel with
  | O => Some (ip, ellipsis, s)
  | S fuel =>
    '(n, acc, rest) ← hex_group 0 0 s;
    if n =? 0 then None
    else if bool_decide (head rest = Some x2e) then
      if bool_decide (ellipsis = None) && negb (length ip =? 12)%nat then None
      else if (16 <? length ip + 4)%nat then None
      else f ← parseIPv4 s; Some (ip ++ f, ellipsis, [])
    else
      let ip := ip ++ [acc / 256; acc mod 256] in
      match rest with
      | [] => Some (ip, ellipsis, [])
      | c :: r =>
        if negb (bool_decide (c = x3a)) then None
        else match r with
             | [] => None
             | c2 :: r2 =>
               if bool_decide (c2 = x3a) then
                 if bool_decide (ellipsis = None) then
                   if bool_decide (r2 = []) then Some (ip, Some (length ip), [])
                   else v6_groups fuel ip (Some (length ip)) r2
                 else None
               else v6_groups fuel ip ellipsis r
             end
      end
  end.

Definition v6_expand (ip : list Z) (ellipsis : option nat) : option (list Z) :=
  if (length ip <? 16)%nat then
    e ← ellipsis; Some (take e ip ++ replicate (16 - length ip) 0 ++ drop e ip)
  else match ellipsis with Some _ => None | None => Some ip end.

(** Eight rounds of two bytes fill an address. *)
Definition parseIPv6 (s : bytes) : option (list Z) :=
  let '(start, s) := match s with
    | x3a :: x3a :: r => (Some 0%nat, r)
    | _ => (None, s)
    end in
  if bool_decide (start = Some 0%nat) && bool_decide (s = []) then Some (replicate 16 0)
  else
    '(ip, ellipsis, rest) ← v6_groups 8 [] start s;
    if bool_decide (rest = []) then v6_expand ip ellipsis else None.

(** [net.ParseIP]: the sixteen-byte form, or [None] for [nil]. *)
Definition ParseIP (s : string) : option (list Z) :=
  let l := to_bytes s in
  if has_byte x25 l then None
  else match find_index (fun b => bool_decide (b = x2e) || bool_decide (b = x3a)) l with
       | None => None
       | Some i =>
         if bool_decide (l !! i = Some x2e)
         then f ← parseIPv4 l; Some (replicate 10 0 ++ [255; 255] ++ f)
         else parseIPv6 l
       end.

Definition v4_prefix : list Z := replicate 10 0 ++ [255; 255].

(** [ip.IsLoopback()] *)
Definition IsLoopback (ip : list Z) : bool :=
  if bool_decide (take 12 ip = v4_prefix) then bool_decide (ip !! 12%nat = Some 127)
  else bool_decide (ip = replicate 15 0 ++ [1]).

(** [ip.IsUnspecified()] *)
Definition IsUnspecified (ip : list Z) : bool :=
  bool_decide (ip = v4_prefix ++ replicate 4 0) || bool_decide (ip = replicate 16 0).

(** [ip.To4()] on the sixteen-byte form *)
Definition To4 (ip : list Z) : option (list Z) :=
  if bool_decide (take 12 ip = v4_prefix) then Some (drop 12 ip) else None.

Definition IsPrivate (ip : list Z) : bool :=
  match To4 ip with
  | Some (10 :: _) => true
  | Some (172 :: b :: _) => bool_decide (Z.land b 240 = 16)
  | Some (192 :: 168 :: _) => true
  | Some _ => false
  | None => bool_decide (Z.land (default 0 (head ip)) 254 = 252)
  end.

Definition IsLinkLocalUnicast (ip : list Z) : bool :=
  match To4 ip with
  | Some (169 :: 254 :: _) => true
  | Some _ => false
  | None => match ip with
            | a :: b :: _ => bool_decide (a = 254) && bool_decide (Z.land b 192 = 128)
            | _ => false
            end
  end.

Definition IsMulticast (ip : list Z) : bool :=
  match To4 ip with
  | Some (a :: _) => bool_decide (Z.land a 240 = 224)
  | Some [] => false
  | None => bool_decide (head ip = Some 255)
  end.

Definition IsGlobalUnicast (ip : list Z) : bool :=
  negb (bool_decide (ip = v4_prefix ++ replicate 4 255)) && negb (IsUnspecified ip) &&
  negb (IsLoopback ip) && negb (IsMulticast ip) && negb (IsLinkLocalUnicast ip).

(** ** Lemmas *)

Lemma has_byte_false c l : has_byte c l = false <-> c ∉ l.
Proof.
  unfold has_byte, index_byte. destruct (find_index _ l) as [i|] eqn:E.
  - split; [done|]. intros Hn. apply find_index_Some in E as [(x & Hx & Hp) _].
    apply bool_decide_eq_true in Hp as ->. destruct Hn. by eapply list_elem_of_lookup_2.
  - split; [|done]. intros _ Hin. rewrite find_index_None in E.
    specialize (E c Hin). by rewrite bool_decide_eq_true_2 in E.
Qed.

Lemma index_byte_mid c a b : c ∉ a -> index_byte c (a ++ c :: b) = Some (length a).
Proof.
  intros Hn. apply find_index_Some. split.
  - exists c. split; [by rewrite lookup_app_r, Nat.sub_diag|]. by apply bool_decide_eq_true_2.
  - intros j y Hj Hy. apply bool_decide_eq_false_2. intros ->. destruct Hn.
    rewrite lookup_app_l in Hy by done. by eapply list_elem_of_lookup_2.
Qed.

Lemma last_index_byte_mid c a b : c ∉ b -> last_index_byte c (a ++ c :: b) = Some (length a).
Proof.
  intros Hn. unfold last_index_byte. rewrite rev_app_distr. cbn [rev]. rewrite <- app_assoc.
  change ([c] ++ rev a) with (c :: rev a). rewrite index_byte_mid.
  - cbn [mbind option_bind]. f_equal. rewrite length_app, length_rev. cbn [length]. lia.
  - intros H. apply Hn. rewrite list_elem_of_In in *. by apply in_rev.
Qed.

Lemma take_drop_mid {A} (a b : list A) c :
  take (length a) (a ++ c :: b) = a /\ drop (S (length a)) (a ++ c :: b) = b.
Proof.
  split; [by rewrite take_app_length|].
  rewrite drop_app_ge by lia. by replace (S (length a) - length a)%nat with 1%nat by lia.
Qed.

(** A joined address splits again. *)
Lemma SplitHostPort_JoinHostPort host port :
  x5b ∉ to_bytes host -> x5d ∉ to_bytes host ->
  x3a ∉ to_bytes port -> x5b ∉ to_bytes port -> x5d ∉ to_bytes port ->
  SplitHostPort (JoinHostPort host port) = Ok (host, port).
Proof.
  intros Hh1 Hh2 Hp1 Hp2 Hp3. unfold SplitHostPort, JoinHostPort.
  set (h := to_bytes host) in *. set (p := to_bytes port) in *.
  destruct (has_byte x3a h) eqn:Ec.
  - assert (Ej : to_bytes ("[" ++ host ++ "]:" ++ port) = (x5b :: h ++ [x5d]) ++ x3a :: p).
    { rewrite !to_bytes_app. change (to_bytes "[") with [x5b]. change (to_bytes "]:") with [x5d; x3a].
      cbn [app]. by rewrite <- app_assoc. }
    rewrite Ej.
    rewrite last_index_byte_mid by done. rewrite bool_decide_eq_true_2 by done.
    assert (Ei : index_byte x5d ((x5b :: h ++ [x5d]) ++ x3a :: p) = Some (S (length h))).
    { change ((x5b :: h ++ [x5d]) ++ x3a :: p) with (x5b :: (h ++ [x5d]) ++ x3a :: p).
      rewrite <- app_assoc. change (S (length h)) with (length (x5b :: h)).
      apply (index_byte_mid x5d (x5b :: h)). by intros [?|?]%elem_of_cons. }
    rewrite Ei.
    assert (El : length (x5b :: h ++ [x5d]) = S (S (length h)))
      by (cbn [length]; rewrite length_app; cbn [length]; lia).
    rewrite El, bool_decide_eq_false_2 by (rewrite length_app, El; cbn [length]; lia).
    rewrite bool_decide_eq_true_2 by done.
    change (drop 1 ((x5b :: h ++ [x5d]) ++ x3a :: p)) with ((h ++ [x5d]) ++ x3a :: p).
    rewrite (proj2 (has_byte_false x5b ((h ++ [x5d]) ++ x3a :: p)))
      by (intros [[?|[?|?%elem_of_nil]%elem_of_cons]%elem_of_app|[?|?]%elem_of_cons]%elem_of_app;
          done).
    rewrite <- El at 1. rewrite drop_app_length.
    rewrite (proj2 (has_byte_false x5d (x3a :: p))) by (by intros [?|?]%elem_of_cons).
    replace (drop (S (S (S (length h)))) _) with p
      by (rewrite <- El; symmetry; apply (take_drop_mid (x5b :: h ++ [x5d]) p x3a)).
    assert (Et : drop 1 (take (S (length h)) ((x5b :: h ++ [x5d]) ++ x3a :: p)) = h).
    { cbn. rewrite drop_0, <- app_assoc. by rewrite take_app_length. }
    rewrite Et. unfold h, p. by rewrite !of_to_bytes.
  - assert (Ej : to_bytes (host ++ ":" ++ port) = h ++ x3a :: p).
    { rewrite !to_bytes_app. reflexivity. }
    rewrite Ej.
    rewrite last_index_byte_mid by done.
    rewrite bool_decide_eq_false_2.
    2:{ destruct h as [|b h']; [done|]. cbn. intros [= ->]. apply Hh1. left. }
    destruct (take_drop_mid h p x3a) as [-> ->]. rewrite Ec.
    rewrite drop_0.
    rewrite (proj2 (has_byte_false x5b _)), (proj2 (has_byte_false x5d _))
      by (by intros [?|[?|?]%elem_of_cons]%elem_of_app).
    unfold h, p. by rewrite !of_to_bytes.
Qed.

(** The reference addresses. *)
Example ParseIP_examples :
  ParseIP "127.0.0.1" = Some (v4_prefix ++ [127; 0; 0; 1]) /\
  ParseIP "127.0.0.01" = None /\ ParseIP "1.2.3" = None /\ ParseIP "256.1.1.1" = None /\
  ParseIP "::1" = Some (replicate 15 0 ++ [1]) /\ ParseIP "::" = Some (replicate 16 0) /\
  ParseIP "fe80::1%eth0" = None /\ ParseIP "localhost" = None /\
  ParseIP "::ffff:127.0.0.1" = Some (v4_prefix ++ [127; 0; 0; 1]) /\
  ParseIP "1:2:3:4:5:6:7:8" = Some [0;1;0;2;0;3;0;4;0;5;0;6;0;7;0;8] /\
  ParseIP "1:2:3:4:5:6:7::8" = None /\ ParseIP "12345::" = None /\ ParseIP "1::2::3" = None /\
  ParseIP "2001:db8::" = Some ([32;1;13;184] ++ replicate 12 0).
Proof. by vm_compute. Qed.

Example SplitHostPort_examples :
  SplitHostPort "[::1]:3389" = Ok ("::1", "3389") /\ SplitHostPort ":22" = Ok ("", "22") /\
  is_ok (SplitHostPort "::1:22") = false /\ is_ok (SplitHostPort "localhost") = false.
Proof. by vm_compute. Qed.
