(* ===== verification/Base64.v ===== *)
(** * Base64: [base64.RawURLEncoding] of the standard library

    The unpadded encoding of the iroh tickets and of the link in a dashboard
    URL, with its round trip. *)

From S2P Require Import Prelude GoStrings.

Definition b64_alphabet : bytes :=
  to_bytes "ABCDEFGHIJKLMNOPQRSTUVWXYZabcdefghijklmnopqrstuvwxyz0123456789-_".

Definition b64_val (b : byte) : option Z :=
  Z.of_nat <$> find_index (fun c => bool_decide (c = b)) b64_alphabet.

Fixpoint b64_groups (l : bytes) : option bytes :=
  match l with
  | [] => Some []
  | [_] => None
  | [a; b] =>
    x ← b64_val a; y ← b64_val b;
    Some [z2b (Z.shiftr (x * 64 + y) 4)]
  | [a; b; c] =>
    x ← b64_val a; y ← b64_val b; z ← b64_val c;
    Some (be_put 2 (Z.shiftr (x * 4096 + y * 64 + z) 2))
  | a :: b :: c :: d :: r =>
    x ← b64_val a; y ← b64_val b; z ← b64_val c; w ← b64_val d;
    rest ← b64_groups r;
    Some (be_put 3 (x * 262144 + y * 4096 + z * 64 + w) ++ rest)
  end.

Definition is_newline (b : byte) : bool := bool_decide (b = x0d) || bool_decide (b = x0a).

(** [DecodeString]: new lines are skipped, trailing bits are not checked. *)
Definition b64_decode (s : string) : option bytes :=
  b64_groups (List.filter (fun b => negb (is_newline b)) (to_bytes s)).

Definition b64_char (z : Z) : byte := nth (Z.to_nat z) b64_alphabet x00.

Fixpoint b64_encode_bytes (l : bytes) : bytes :=
  match l with
  | [] => []
  | [a] => let n := b2z a * 16 in [b64_char (n / 64); b64_char (n mod 64)]
  | [a; b] =>
    let n := (b2z a * 256 + b2z b) * 4 in
    [b64_char (n / 4096); b64_char (n / 64 mod 64); b64_char (n mod 64)]
  | a :: b :: c :: r =>
    let n := b2z a * 65536 + b2z b * 256 + b2z c in
    [b64_char (n / 262144); b64_char (n / 4096 mod 64); b64_char (n / 64 mod 64); b64_char (n mod 64)]
    ++ b64_encode_bytes r
  end.

(** [EncodeToString] *)
Definition b64_encode (l : bytes) : string := of_bytes (b64_encode_bytes l).

(** ** The round trip *)

Lemma b64_char_spec z : 0 <= z < 64 -> b64_val (b64_char z) = Some z /\ is_newline (b64_char z) = false.
Proof.
  intros Hz.
  assert (H : forallb (fun k => bool_decide (b64_val (b64_char (Z.of_nat k)) = Some (Z.of_nat k)) &&
                negb (is_newline (b64_char (Z.of_nat k)))) (List.seq 0 64) = true) by (vm_compute; reflexivity).
  rewrite forallb_forall in H. specialize (H (Z.to_nat z) ltac:(apply in_seq; lia)).
  go_bool. rewrite Z2Nat.id in * by lia. by split.
Qed.

Lemma b64_val_char z : 0 <= z < 64 -> b64_val (b64_char z) = Some z.
Proof. intros Hz. by apply b64_char_spec. Qed.

(** Induction three bytes at a time. *)
Lemma bytes_ind3 (P : bytes -> Prop) :
  P [] -> (forall a, P [a]) -> (forall a b, P [a; b]) -> (forall a b c r, P r -> P (a :: b :: c :: r)) ->
  forall l, P l.
Proof.
  intros H0 H1 H2 H3. fix IH 1. intros [|a [|b [|c r]]]; [done|apply H1|apply H2|apply H3, IH].
Qed.

(** Ranges of the digits of one group. *)
Ltac digit_range := match goal with |- context [b2z ?a] => idtac end;
  repeat match goal with |- context [b2z ?a] =>
    lazymatch goal with H : 0 <= b2z a < 256 |- _ => fail | _ => pose proof (b2z_range a) end end;
  Z.div_mod_to_equations; lia.

Lemma be_put_value l n z : length l = n -> z = be_get l -> be_put n z = l.
Proof. intros <- ->. apply be_put_get. Qed.

Lemma b64_groups_encode l : b64_groups (b64_encode_bytes l) = Some l.
Proof.
  induction l as [|a|a b|a b c r IH] using bytes_ind3; cbn [b64_encode_bytes b64_groups app]; [done|..];
    rewrite !b64_val_char by digit_range; cbn [mbind option_bind].
  - rewrite Z.shiftr_div_pow2 by lia. f_equal. f_equal. transitivity (z2b (b2z a)); [f_equal; change (2 ^ 4) with 16; digit_range|apply z2b_b2z].
  - f_equal. apply be_put_value; [done|]. rewrite Z.shiftr_div_pow2 by lia. change (2 ^ 2) with 4.
    unfold be_get. cbn [fold_left]. digit_range.
  - rewrite IH. cbn [mbind option_bind]. f_equal. rewrite (be_put_value [a; b; c]); [done..|].
    unfold be_get. cbn [fold_left]. digit_range.
Qed.

Lemma b64_encode_no_newline l : Forall (fun b => is_newline b = false) (b64_encode_bytes l).
Proof.
  induction l as [|a|a b|a b c r IH] using bytes_ind3; cbn [b64_encode_bytes app];
    repeat (constructor; [apply b64_char_spec; digit_range|]); done.
Qed.

(** Every text is decoded from its encoding. *)
Lemma b64_decode_encode l : b64_decode (b64_encode l) = Some l.
Proof.
  unfold b64_decode, b64_encode. rewrite to_of_bytes.
  replace (List.filter _ (b64_encode_bytes l)) with (b64_encode_bytes l); [apply b64_groups_encode|].
  induction (b64_encode_no_newline l) as [|b r Hb _ IH]; [done|]. cbn. rewrite Hb. cbn. by rewrite <- IH.
Qed.

(** Test vectors. *)
Lemma b64_vectors :
  b64_decode "" = Some [] /\ b64_decode "Zg" = Some (to_bytes "f") /\ b64_decode "Zm8" = Some (to_bytes "fo") /\
  b64_decode "Zm9v" = Some (to_bytes "foo") /\ b64_decode "Zm9vYmE" = Some (to_bytes "fooba") /\
  b64_decode "_-8" = Some [xff; xef] /\ b64_decode "Z" = None /\ b64_decode "Zg==" = None.
Proof. vm_compute. done. Qed.
