(* ===== verification/Frames.v ===== *)
(** * Frames: the handshake frames of [internal/protocol/protocol.go]

    [WriteFrame], [writeAll] and [ReadFrame] over an [io.Writer] that may
    write short and an [io.Reader] that holds a finite byte stream. *)

From S2P Require Import Prelude.

(** ** Constants *)

Definition Version : Z := 1.

(** [MsgType] is a byte; the constants of the package. *)
Definition MsgType : Type := byte.
Definition MsgPairRequest : MsgType := x01.
Definition MsgPairResponse : MsgType := x02.
Definition MsgTunnelHello : MsgType := x03.
Definition MsgTunnelReady : MsgType := x04.
Definition MsgTunnelError : MsgType := x05.
Definition MsgTunnelPing : MsgType := x06.
Definition MsgTunnelPong : MsgType := x07.

Definition MaxFrameSize : Z := 256 * 1024.

(** ** The writer *)

(** What one call of [Write] reports: [n] and a possible error. *)
Record write_result : Type := WriteResult { w_n : Z; w_err : option string }.

(** An [io.Writer]: the bytes accepted so far and what each later call of
    [Write] reports, as a function of the data passed. *)
Record writer : Type := Writer {
  w_out : bytes;
  w_calls : nat;
  w_behaviour : nat -> bytes -> write_result;
}.

(** The contract of [io.Writer]: [0 <= n <= len(p)], and a short count comes
    with an error. *)
Definition writer_ok (beh : nat -> bytes -> write_result) : Prop :=
  forall k d, 0 <= w_n (beh k d) <= Z.of_nat (length d) /\
              (w_n (beh k d) < Z.of_nat (length d) -> w_err (beh k d) <> None).

(** A writer that may also write short without an error. *)
Definition writer_bounded (beh : nat -> bytes -> write_result) : Prop :=
  forall k d, 0 <= w_n (beh k d) <= Z.of_nat (length d).

(** One call of [Write]. *)
Definition do_write (w : writer) (data : bytes) : writer * write_result :=
  let r := w_behaviour w (w_calls w) data in
  (Writer (w_out w ++ take (Z.to_nat (w_n r)) data) (S (w_calls w)) (w_behaviour w), r).

(** [writeAll].  The loop runs on fuel; [None] is fuel exhausted.  [data[n:]]
    panics when the writer reports more than it was given. *)
Fixpoint writeAll (fuel : nat) (w : writer) (data : bytes)
  : option (outcome (writer * option string)) :=
  match data with
  | [] => Some (Return (w, None))
  | _ =>
    match fuel with
    | O => None
    | S fuel' =>
      let '(w', r) := do_write w data in
      if Z.of_nat (length data) <? w_n r then Some (Panic "slice bounds out of range")
      else
        let data' := if 0 <? w_n r then drop (Z.to_nat (w_n r)) data else data in
        match w_err r with
        | Some e => Some (Return (w', Some e))
        | None =>
          if w_n r =? 0 then Some (Return (w', Some "short write"))
          else writeAll fuel' w' data'
        end
    end
  end.

(** The five header bytes: the type and the big-endian payload length. *)
Definition frame_header (t : MsgType) (data : bytes) : bytes :=
  t :: be_put 4 (u32 (Z.of_nat (length data))).

(** [WriteFrame] for a payload of a type [P] whose [json.Marshal] is
    [marshal]. *)
Definition WriteFrame {P} (marshal : P -> res bytes) (fuel : nat)
    (w : writer) (t : MsgType) (payload : P)
  : option (outcome (writer * option string)) :=
  match marshal payload with
  | Err e => Some (Return (w, Some ("marshal frame: " ++ e)%string))
  | Ok data =>
    if MaxFrameSize <? Z.of_nat (length data)
    then Some (Return (w, Some "payload too large"))
    else
      r ← writeAll fuel w (frame_header t data);
      match r with
      | Panic m => Some (Panic m)
      | Return (w1, Some e) => Some (Return (w1, Some ("write header: " ++ e)%string))
      | Return (w1, None) =>
        r2 ← writeAll fuel w1 data;
        match r2 with
        | Panic m => Some (Panic m)
        | Return (w2, Some e) => Some (Return (w2, Some ("write payload: " ++ e)%string))
        | Return (w2, None) => Some (Return (w2, None))
        end
      end
  end.

(** ** The reader *)

(** [io.ReadFull(r, buf)] on a stream that holds [s] and then ends: the
    bytes and the rest of the stream, or the error. *)
Definition read_full (n : nat) (s : bytes) : res (bytes * bytes) :=
  if (n <=? length s)%nat then Ok (take n s, drop n s)
  else if (length s =? 0)%nat then Err "EOF" else Err "unexpected EOF".

(** [ReadFrame]: the type, the payload and the rest of the stream. *)
Definition ReadFrame (s : bytes) : res (MsgType * bytes * bytes) :=
  '(header, s1) ← wrap_err "read header: " (read_full 5 s);
  match header with
  | t :: len =>
    let n := be_get len in
    if MaxFrameSize <? n then Err "frame too large"
    else
      '(payload, s2) ← wrap_err "read payload: " (read_full (Z.to_nat n) s1);
      Ok (t, payload, s2)
  | [] => Err "read header: EOF"
  end.

(** ** Lemmas *)

Definition in_memory (k : nat) (d : bytes) : write_result :=
  WriteResult (Z.of_nat (length d)) None.

Lemma in_memory_ok : writer_ok in_memory.
Proof. intros k d; cbn. split; [lia|intros H; lia]. Qed.

Lemma writer_ok_bounded beh : writer_ok beh -> writer_bounded beh.
Proof. intros H k d. apply H. Qed.

(** A bounded writer: the loop ends within [length data] rounds, without a
    panic; what it wrote is a prefix of [data], all of it when no error is
    reported. *)
Lemma writeAll_total fuel w data :
  writer_bounded (w_behaviour w) -> (length data <= fuel)%nat ->
  exists w' e, writeAll fuel w data = Some (Return (w', e)) /\
    w_behaviour w' = w_behaviour w /\
    exists n, w_out w' = w_out w ++ take n data /\
      (e = None -> (length data <= n)%nat).
Proof.
  revert w data. induction fuel as [|fuel IH]; intros w data Hb Hf.
  - destruct data; [|cbn in Hf; lia].
    exists w, None. split; [done|]. split; [done|]. exists 0%nat.
    rewrite app_nil_r. done.
  - destruct data as [|b data].
    { exists w, None. split; [done|]. split; [done|]. exists 0%nat.
      rewrite app_nil_r. done. }
    cbn [writeAll do_write]. set (d := b :: data) in *.
    pose proof (Hb (w_calls w) d) as Hn.
    set (r := w_behaviour w (w_calls w) d) in *.
    rewrite (proj2 (Z.ltb_ge _ (w_n r))) by lia.
    set (w1 := Writer _ _ _).
    destruct (w_err r) as [e|] eqn:Ee.
    { exists w1, (Some e). split; [done|]. split; [done|].
      exists (Z.to_nat (w_n r)). by split. }
    destruct (w_n r =? 0) eqn:E0; go_bool.
    { exists w1, (Some "short write"%string). split; [done|]. split; [done|].
      exists (Z.to_nat (w_n r)). by split. }
    rewrite (proj2 (Z.ltb_lt 0 (w_n r))) by lia.
    destruct (IH w1 (drop (Z.to_nat (w_n r)) d)) as (w' & e & Hw & Hbeh & n & Ho & Hall).
    + done.
    + rewrite length_drop. lia.
    + exists w', e. split; [done|]. split; [by rewrite Hbeh|].
      exists (Z.to_nat (w_n r) + n)%nat. split.
      * rewrite Ho. cbn [w1 w_out]. rewrite <- app_assoc. f_equal.
        by rewrite <- take_take_drop.
      * intros He. specialize (Hall He). rewrite length_drop in Hall. lia.
Qed.

(** The rule for a successful [writeAll]: everything was written. *)
Lemma writeAll_ok fuel w data w' :
  writer_bounded (w_behaviour w) -> (length data <= fuel)%nat ->
  writeAll fuel w data = Some (Return (w', None)) ->
  w_out w' = w_out w ++ data /\ w_behaviour w' = w_behaviour w.
Proof.
  intros Hb Hf H. destruct (writeAll_total fuel w data Hb Hf)
    as (w1 & e & H1 & Hbeh & n & Ho & Hall).
  rewrite H in H1. injection H1 as <- <-. split; [|done].
  by rewrite Ho, take_ge by auto.
Qed.

(** A writer that always takes everything never makes [writeAll] fail. *)
Lemma writeAll_no_error fuel w data w' e :
  (forall k d, w_behaviour w k d = in_memory k d) ->
  writeAll fuel w data <> Some (Return (w', Some e)).
Proof.
  intros Hm H. destruct data as [|b data]; [destruct fuel; by simplify_eq/=|].
  destruct fuel as [|fuel]; [done|]. cbn [writeAll do_write] in H.
  rewrite !Hm in H. cbn [in_memory w_n w_err] in H.
  rewrite Z.ltb_irrefl, (proj2 (Z.ltb_lt 0 _)), (proj2 (Z.eqb_neq _ 0)) in H
    by (cbn [length]; lia).
  rewrite Nat2Z.id, drop_all in H. by destruct fuel.
Qed.

Lemma frame_header_length t data : length (frame_header t data) = 5%nat.
Proof. unfold frame_header. cbn [length]. by rewrite be_put_length. Qed.

Lemma read_full_app n a b : length a = n -> read_full n (a ++ b) = Ok (a, b).
Proof.
  intros <-. unfold read_full. rewrite length_app.
  rewrite (proj2 (Nat.leb_le _ _)) by lia.
  by rewrite take_app_length, drop_app_length.
Qed.

Lemma read_full_ok n s a b :
  read_full n s = Ok (a, b) -> s = a ++ b /\ length a = n.
Proof.
  unfold read_full. destruct (n <=? length s)%nat eqn:E.
  - intros [= <- <-]. apply Nat.leb_le in E.
    rewrite take_drop, length_take. split; [done|lia].
  - by destruct (length s =? 0)%nat.
Qed.

Lemma frame_header_read t data rest :
  Z.of_nat (length data) <= MaxFrameSize ->
  ReadFrame (frame_header t data ++ data ++ rest) = Ok (t, data, rest).
Proof.
  intros Hl. unfold MaxFrameSize in Hl. unfold ReadFrame.
  rewrite (read_full_app 5) by apply frame_header_length.
  cbn [wrap_err mbind res_bind frame_header].
  rewrite be_get_put. unfold u32. rewrite wrap_small by lia.
  change (256 ^ Z.of_nat 4) with (2 ^ 32). rewrite Z.mod_small by lia.
  unfold MaxFrameSize. rewrite (proj2 (Z.ltb_ge _ _)) by lia.
  rewrite read_full_app by lia. done.
Qed.

(** The bytes [WriteFrame] appends to a writer that takes everything. *)
Definition frame_bytes {P} (marshal : P -> res bytes) (t : MsgType) (payload : P) : res bytes :=
  match marshal payload with
  | Err e => Err ("marshal frame: " ++ e)%string
  | Ok data => if MaxFrameSize <? Z.of_nat (length data) then Err "payload too large"
               else Ok (frame_header t data ++ data)
  end.

Lemma WriteFrame_frame_bytes {P} (marshal : P -> res bytes) fuel w t p :
  (forall k d, w_behaviour w k d = in_memory k d) ->
  (forall data, marshal p = Ok data -> (5 + length data <= fuel)%nat) ->
  exists w', WriteFrame marshal fuel w t p =
      Some (Return (w', match frame_bytes marshal t p with Ok _ => None | Err e => Some e end)) /\
    w_out w' = w_out w ++ match frame_bytes marshal t p with Ok b => b | Err _ => [] end.
Proof.
  intros Hm Hf. unfold WriteFrame, frame_bytes. destruct (marshal p) as [data|e] eqn:Em.
  2:{ exists w. by rewrite app_nil_r. }
  destruct (MaxFrameSize <? _); [exists w; by rewrite app_nil_r|]. specialize (Hf data eq_refl).
  assert (Hb : forall w0, w_behaviour w0 = w_behaviour w -> writer_bounded (w_behaviour w0)).
  { intros w0 -> k d. rewrite Hm. cbn. lia. }
  assert (Hw : forall w0 d, w_behaviour w0 = w_behaviour w -> (length d <= fuel)%nat ->
    exists w1, writeAll fuel w0 d = Some (Return (w1, None)) /\ w_behaviour w1 = w_behaviour w /\
      w_out w1 = w_out w0 ++ d).
  { intros w0 d H0 Hd. destruct (writeAll_total fuel w0 d (Hb _ H0) Hd) as (w1 & e & H1 & Hb1 & n & Ho & Hall).
    destruct e as [e|].
    - exfalso. eapply (writeAll_no_error fuel w0 d w1 e); [|done]. intros k x. by rewrite H0, Hm.
    - exists w1. split; [done|]. split; [congruence|]. by rewrite Ho, take_ge by auto. }
  destruct (Hw w (frame_header t data) eq_refl) as (w1 & E1 & Hb1 & Ho1);
    [rewrite frame_header_length; lia|].
  destruct (Hw w1 data Hb1) as (w2 & E2 & _ & Ho2); [lia|].
  exists w2. rewrite E1. cbn [mbind option_bind]. rewrite E2. cbn [mbind option_bind].
  split; [done|]. by rewrite Ho2, Ho1, app_assoc.
Qed.

Lemma ReadFrame_frame_bytes {P} (marshal : P -> res bytes) t p b rest :
  frame_bytes marshal t p = Ok b ->
  exists data, marshal p = Ok data /\ ReadFrame (b ++ rest) = Ok (t, data, rest).
Proof.
  unfold frame_bytes. destruct (marshal p) as [data|]; [|done].
  destruct (MaxFrameSize <? _) eqn:El; [done|]. go_bool. intros Hb.
  assert (b = frame_header t data ++ data) as -> by congruence.
  exists data. split; [done|]. rewrite <- app_assoc. by apply frame_header_read.
Qed.

(** ** Properties *)

(** C30: [WriteFrame] then [ReadFrame].  On any writer that accepts between
    zero and all of the bytes per call (short writes included), [WriteFrame]
    with a marshalled payload returns without a panic; when it reports no
    error, the bytes it appended are read back by [ReadFrame] as the same
    type and payload, leaving whatever follows; and on a writer that keeps
    the [io.Writer] promise without errors it fails only for a payload above
    [MaxFrameSize], writing nothing then. *)
Theorem frame_roundtrip {P} (marshal : P -> res bytes) fuel w t p data rest
  (Hm : marshal p = Ok data)
  (Hb : writer_bounded (w_behaviour w))
  (Hf : (5 <= fuel)%nat /\ (length data <= fuel)%nat) :
  exists w' e, WriteFrame marshal fuel w t p = Some (Return (w', e)) /\
    (e = None -> exists frame, w_out w' = w_out w ++ frame /\
                   ReadFrame (frame ++ rest) = Ok (t, data, rest)) /\
    ((forall k d, w_behaviour w k d = in_memory k d) ->
       (e <> None <-> MaxFrameSize < Z.of_nat (length data)) /\
       (e <> None -> w_out w' = w_out w)).
Proof.
  unfold WriteFrame. rewrite Hm. destruct (MaxFrameSize <? _) eqn:Esz; go_bool.
  { eexists w, _. split; [done|]. split; [done|]. intros _. done. }
  pose proof (frame_header_length t data) as Hh.
  destruct (writeAll_total fuel w (frame_header t data) Hb ltac:(lia))
    as (w1 & e1 & H1 & Hbeh1 & n1 & Ho1 & Hall1).
  rewrite H1. cbn [mbind option_bind].
  destruct e1 as [e1|].
  { eexists w1, _. split; [done|]. split; [done|]. intros Hmem. exfalso.
    by apply (writeAll_no_error fuel w _ _ _ Hmem H1). }
  destruct (writeAll_total fuel w1 data ltac:(by rewrite Hbeh1) ltac:(lia))
    as (w2 & e2 & H2 & Hbeh2 & n2 & Ho2 & Hall2).
  rewrite H2. cbn [mbind option_bind].
  destruct e2 as [e2|].
  { eexists w2, _. split; [done|]. split; [done|]. intros Hmem. exfalso.
    rewrite <- Hbeh1 in Hmem. by apply (writeAll_no_error fuel w1 _ _ _ Hmem H2). }
  exists w2, None. split; [done|]. split.
  - intros _. exists (frame_header t data ++ data).
    rewrite Ho2, Ho1, !take_ge, <- app_assoc by auto. split; [done|].
    rewrite <- app_assoc. by apply frame_header_read.
  - intros _. split; [|done]. split; [done|lia].
Qed.

Lemma frame_roundtrip_witness :
  exists w' e,
    WriteFrame (fun b : bytes => Ok b) 9 (Writer [] 0 in_memory) MsgTunnelHello [x7b; x7d]
      = Some (Return (w', e)) /\
    (e = None -> exists frame, w_out w' = [] ++ frame /\
                   ReadFrame (frame ++ [x00]) = Ok (MsgTunnelHello, [x7b; x7d], [x00])) /\
    ((forall k d, in_memory k d = in_memory k d) ->
       (e <> None <-> MaxFrameSize < Z.of_nat (length [x7b; x7d])) /\
       (e <> None -> w_out w' = [])).
Proof.
  apply (frame_roundtrip (fun b : bytes => Ok b) 9 (Writer [] 0 in_memory)
           MsgTunnelHello [x7b; x7d] [x7b; x7d] [x00]).
  - reflexivity.
  - apply writer_ok_bounded, in_memory_ok.
  - cbn. lia.
Defined.

(** [ReadFrame] accepts exactly the well-formed frames.  Whatever it
    returns was framed with the returned type and the length of the returned
    payload, the payload is at most [MaxFrameSize] bytes, and nothing beyond
    the frame is consumed; conversely every well-formed frame is accepted, so
    a truncated frame or an oversized length is an error. *)
Lemma ReadFrame_exact s t payload rest :
  ReadFrame s = Ok (t, payload, rest) <->
  s = frame_header t payload ++ payload ++ rest /\
  Z.of_nat (length payload) <= MaxFrameSize.
Proof.
  split; [|intros [-> H]; by apply frame_header_read].
  unfold ReadFrame. destruct (read_full 5 s) as [[h s1]|e] eqn:E1; [|done].
  apply read_full_ok in E1 as [-> Hh]. cbn [wrap_err mbind res_bind].
  destruct h as [|t' len]; [done|]. destruct (MaxFrameSize <? be_get len) eqn:Es; [done|].
  destruct (read_full (Z.to_nat (be_get len)) s1) as [[p s2]|e] eqn:E2; [|done].
  apply read_full_ok in E2 as [-> Hp]. cbn. intros [= -> -> ->]. go_bool.
  pose proof (be_get_range len) as Hr.
  assert (Hl : Z.of_nat (length payload) = be_get len) by lia.
  split; [|lia]. unfold frame_header. rewrite Hl. unfold u32.
  unfold MaxFrameSize in Es. rewrite wrap_small by lia.
  assert (H4 : length len = 4%nat) by (cbn in Hh; lia).
  rewrite <- H4, be_put_get. done.
Qed.
