(* ===== verification/Sessions.v ===== *)
(** * Sessions: the session token store of [internal/protocol/protocol.go]

    [SessionStore] with [Issue], [Verify], [VerifyGrant] and [sweep], the
    history-based specification of a token as a use budget, and the interface
    [SessionService] the tunnel and pairing hosts rely on. *)

From S2P Require Import Prelude.

Definition SessionTokenTTL : Z := 2 * minute.
Definition SessionTokenMaxUses : Z := 16.

Record SessionGrant : Type := mkGrant { PeerID : string; TargetPort : Z }.

#[export] Instance SessionGrant_eq_dec : EqDecision SessionGrant.
Proof. solve_decision. Defined.

Record sessionEntry : Type := mkEntry {
  expiresAt : Z;
  grant : SessionGrant;
  usesLeft : Z;
}.

(** [SessionStore.tokens], keyed by the token bytes.  The mutex makes every
    operation below atomic. *)
Notation SessionStore := (gmap bytes sessionEntry).

Definition NewSessionStore : SessionStore := ∅.

(** [sweep]: drop the entries that have expired. *)
Definition sweep (s : SessionStore) (now : Z) : SessionStore :=
  filter (fun kv => ~ (expiresAt (snd kv) < now)) s.

(** [Issue].  [rnd] is what [rand.Read] put in the 16-byte buffer; [now] and
    [now2] are the two clock readings. *)
Definition Issue (s : SessionStore) (rnd : res bytes) (now now2 : Z)
    (peerID : string) (targetPort : Z) : res bytes * SessionStore :=
  match rnd with
  | Err e => (Err ("generate session token: " ++ e)%string, s)
  | Ok token =>
    let e := mkEntry (now + SessionTokenTTL) (mkGrant peerID targetPort)
                     SessionTokenMaxUses in
    (Ok token, sweep (<[token := e]> s) now2)
  end.

(** [VerifyGrant] *)
Definition VerifyGrant (s : SessionStore) (token : bytes) (now : Z)
  : res SessionGrant * SessionStore :=
  match s !! token with
  | None => (Err "invalid session token", s)
  | Some e =>
    if expiresAt e <? now then (Err "session token expired", delete token s)
    else if usesLeft e <=? 0 then
      (Err "session token use limit exceeded", delete token s)
    else
      let left := usesLeft e - 1 in
      let s' := if left <=? 0 then delete token s
                else <[token := mkEntry (expiresAt e) (grant e) left]> s in
      (Ok (grant e), s')
  end.

(** [Verify] *)
Definition Verify (s : SessionStore) (token : bytes) (now : Z)
  : res string * SessionStore :=
  let '(r, s') := VerifyGrant s token now in (PeerID <$> r, s').

(** ** Runs and their history *)

Inductive op : Type :=
| OpIssue (rnd : res bytes) (now now2 : Z) (peerID : string) (targetPort : Z)
| OpVerify (token : bytes) (now : Z).

Inductive event : Type :=
| Issued (token : bytes) (at_ : Z) (g : SessionGrant)
| NotIssued
| Granted (token : bytes) (at_ : Z) (g : SessionGrant)
| Refused (token : bytes) (at_ : Z).

Definition step (s : SessionStore) (o : op) : SessionStore * event :=
  match o with
  | OpIssue rnd now now2 p port =>
    let '(r, s') := Issue s rnd now now2 p port in
    (s', match r with Ok t => Issued t now (mkGrant p port) | Err _ => NotIssued end)
  | OpVerify t now =>
    let '(r, s') := VerifyGrant s t now in
    (s', match r with Ok g => Granted t now g | Err _ => Refused t now end)
  end.

(** A run from [s] with the history [h], most recent event first. *)
Fixpoint run (s : SessionStore) (h : list event) (ops : list op)
  : SessionStore * list event :=
  match ops with
  | [] => (s, h)
  | o :: ops' => let '(s', e) := step s o in run s' (e :: h) ops'
  end.

(** ** The specification: a token is a budget of uses *)

(** The last issue of [tok] in the history: its instant, its grant, and how
    often the token was granted since. *)
Fixpoint budget (tok : bytes) (h : list event) : option (Z * SessionGrant * Z) :=
  match h with
  | [] => None
  | Issued t now g :: h' =>
    if decide (t = tok) then Some (now, g, 0) else budget tok h'
  | Granted t _ _ :: h' =>
    match budget tok h' with
    | Some (now, g, n) => Some (now, g, if decide (t = tok) then n + 1 else n)
    | None => None
    end
  | _ :: h' => budget tok h'
  end.

(** What a verification at [now] must answer after history [h]. *)
Definition spec_grant (h : list event) (tok : bytes) (now : Z) : option SessionGrant :=
  match budget tok h with
  | Some (t0, g, n) =>
    if (now <=? t0 + SessionTokenTTL) && (n <? SessionTokenMaxUses)
    then Some g else None
  | None => None
  end.

(** The history obeys the specification. *)
Fixpoint obeys (h : list event) : Prop :=
  match h with
  | [] => True
  | Granted t now g :: h' => spec_grant h' t now = Some g /\ obeys h'
  | Refused t now :: h' => spec_grant h' t now = None /\ obeys h'
  | _ :: h' => obeys h'
  end.

(** The safety half: what was granted was within the budget. *)
Fixpoint within_budget (h : list event) : Prop :=
  match h with
  | [] => True
  | Granted t now g :: h' => spec_grant h' t now = Some g /\ within_budget h'
  | _ :: h' => within_budget h'
  end.

(** ** The simulation *)

(** Every stored entry is the unspent budget of the history. *)
Definition sim_safe (s : SessionStore) (h : list event) : Prop :=
  forall tok e, s !! tok = Some e ->
    exists t0 n, budget tok h = Some (t0, grant e, n) /\
      expiresAt e = t0 + SessionTokenTTL /\ usesLeft e = SessionTokenMaxUses - n /\
      n < SessionTokenMaxUses.

(** A token with no entry has no budget left, or had expired by [clk]. *)
Definition sim_live (s : SessionStore) (h : list event) (clk : Z) : Prop :=
  forall tok, s !! tok = None ->
    match budget tok h with
    | None => True
    | Some (t0, _, n) => SessionTokenMaxUses <= n \/ t0 + SessionTokenTTL < clk
    end.

Lemma lookup_sweep_Some s now k e :
  sweep s now !! k = Some e <-> s !! k = Some e /\ now <= expiresAt e.
Proof. unfold sweep. rewrite map_lookup_filter_Some; cbn. intuition lia. Qed.

Lemma lookup_sweep_None s now k :
  sweep s now !! k = None -> s !! k = None \/ exists e, s !! k = Some e /\ expiresAt e < now.
Proof.
  unfold sweep. rewrite map_lookup_filter_None; cbn. intros [H|H]; [by left|].
  destruct (s !! k) as [e|] eqn:E; [right|by left].
  exists e. split; [done|]. specialize (H e eq_refl). lia.
Qed.

Ltac budget_cases tok :=
  repeat match goal with
  | |- context [decide (?t = tok)] => destruct (decide (t = tok)); subst
  | H : context [decide (?t = tok)] |- _ => destruct (decide (t = tok)); subst
  end.

Lemma sim_safe_step s h o s' e :
  sim_safe s h -> step s o = (s', e) -> sim_safe s' (e :: h).
Proof.
  intros HR Hs tok en Hl. destruct o as [rnd now now2 p port|t now]; cbn in Hs.
  - destruct rnd as [tk|err]; cbn in Hs; simplify_eq; [|by apply HR].
    apply lookup_sweep_Some in Hl as [Hl _]. cbn.
    destruct (decide (tk = tok)) as [->|Hn].
    + rewrite lookup_insert_eq in Hl. simplify_eq. cbn.
      exists now, 0. unfold SessionTokenMaxUses. repeat split; lia.
    + rewrite lookup_insert_ne in Hl by done. by apply HR.
  - unfold VerifyGrant in Hs. destruct (s !! t) as [e0|] eqn:Et;
      [|simplify_eq; cbn; by apply HR].
    destruct (expiresAt e0 <? now) eqn:E1;
      [simplify_eq; cbn; apply HR; by apply lookup_delete_Some in Hl as [_ ?]|].
    destruct (usesLeft e0 <=? 0) eqn:E2;
      [simplify_eq; cbn; apply HR; by apply lookup_delete_Some in Hl as [_ ?]|].
    go_bool. simplify_eq. cbn.
    destruct (HR t e0 Et) as (t0 & n & Hb & Hx & Hu & Hn).
    destruct (usesLeft e0 - 1 <=? 0) eqn:E3; go_bool.
    + apply lookup_delete_Some in Hl as [Hne Hl].
      destruct (HR tok en Hl) as (t1 & n1 & -> & ?). budget_cases tok; [done|].
      by exists t1, n1.
    + destruct (decide (t = tok)) as [->|Hne].
      * rewrite lookup_insert_eq in Hl. simplify_eq. cbn. rewrite Hb.
        exists t0, (n + 1). repeat split; [done|lia|lia].
      * rewrite lookup_insert_ne in Hl by done.
        destruct (HR tok en Hl) as (t1 & n1 & -> & ?). by exists t1, n1.
Qed.

(** A grant of the store is a grant of the specification. *)
Lemma sim_safe_granted s h t now s' g :
  sim_safe s h -> VerifyGrant s t now = (Ok g, s') -> spec_grant h t now = Some g.
Proof.
  intros HR Hv. unfold VerifyGrant in Hv. destruct (s !! t) as [e|] eqn:Et; [|done].
  destruct (expiresAt e <? now) eqn:E1; [done|].
  destruct (usesLeft e <=? 0) eqn:E2; [done|]. go_bool. simplify_eq.
  destruct (HR t e Et) as (t0 & n & Hb & Hx & Hu & Hn). unfold spec_grant. rewrite Hb.
  rewrite (proj2 (Z.leb_le now _)), (proj2 (Z.ltb_lt n _)) by lia. done.
Qed.

(** With a live simulation, a refusal is a refusal of the specification. *)
Lemma sim_refused s h clk t now s' err :
  sim_safe s h -> sim_live s h clk -> clk <= now ->
  VerifyGrant s t now = (Err err, s') -> spec_grant h t now = None.
Proof.
  intros HR HL Hc Hv. unfold VerifyGrant in Hv. unfold spec_grant.
  destruct (s !! t) as [e|] eqn:Et.
  - destruct (HR t e Et) as (t0 & n & -> & Hx & Hu & Hn).
    destruct (expiresAt e <? now) eqn:E1; go_bool.
    + rewrite (proj2 (Z.leb_gt now _)) by lia. done.
    + destruct (usesLeft e <=? 0) eqn:E2; go_bool; [lia|done].
  - specialize (HL t Et). destruct (budget t h) as [[[t0 g] n]|]; [|done].
    destruct HL; [rewrite (proj2 (Z.ltb_ge n _)), andb_false_r by lia|
                  rewrite (proj2 (Z.leb_gt now _)) by lia]; done.
Qed.

Lemma sim_live_weaken s h c c' : sim_live s h c -> c <= c' -> sim_live s h c'.
Proof.
  intros H Hc tok Ht. specialize (H tok Ht).
  destruct (budget tok h) as [[[? ?] ?]|]; [|done]. intuition lia.
Qed.

Lemma sim_live_step s h clk o s' e :
  sim_safe s h -> sim_live s h clk -> step s o = (s', e) ->
  forall clk', clk <= clk' ->
  (match o with OpIssue (Ok _) _ now2 _ _ => now2 = clk' | OpVerify _ now => now = clk' | _ => True end) ->
  sim_live s' (e :: h) clk'.
Proof.
  intros HR HL Hs clk' Hc Hk tok Hn.
  pose proof (sim_live_weaken _ _ _ _ HL Hc) as HL'. destruct o as [rnd now now2 p port|t now]; cbn in Hs.
  - destruct rnd as [tk|err]; cbn in Hs; simplify_eq; [|by apply HL'].
    cbn. apply lookup_sweep_None in Hn as [Hn|(e0 & He & Hx)].
    + apply lookup_insert_None in Hn as [Hn Hne].
      destruct (decide (tk = tok)); [done|]. by apply HL'.
    + destruct (decide (tk = tok)) as [->|Hne].
      * rewrite lookup_insert_eq in He. simplify_eq. cbn in Hx. right. lia.
      * rewrite lookup_insert_ne in He by done.
        destruct (HR tok e0 He) as (t0 & n & -> & ? & ?). right. lia.
  - simplify_eq. unfold VerifyGrant in Hs. destruct (s !! t) as [e0|] eqn:Et;
      [|simplify_eq; cbn; by apply HL'].
    destruct (HR t e0 Et) as (t0 & n & Hb & Hx & Hu & Hlt).
    destruct (expiresAt e0 <? clk') eqn:E1; go_bool.
    { simplify_eq. cbn. apply lookup_delete_None in Hn as [<-|Hn]; [|by apply HL'].
      rewrite Hb. right. lia. }
    destruct (usesLeft e0 <=? 0) eqn:E2; go_bool; [lia|].
    simplify_eq. cbn. destruct (usesLeft e0 - 1 <=? 0) eqn:E3; go_bool.
    + apply lookup_delete_None in Hn as [<-|Hn].
      * rewrite Hb. rewrite decide_True by done. left. lia.
      * specialize (HL' tok Hn). destruct (budget tok h) as [[[? ?] ?]|]; [|done].
        destruct (decide (t = tok)); intuition lia.
    + apply lookup_insert_None in Hn as [Hn Hne]. specialize (HL' tok Hn).
      destruct (budget tok h) as [[[? ?] ?]|]; [|done].
      destruct (decide (t = tok)); intuition lia.
Qed.

(** The clock readings of [ops] start at or after [clk] and never decrease. *)
Fixpoint clocks_from (clk : Z) (ops : list op) : Prop :=
  match ops with
  | [] => True
  | OpIssue (Ok _) now now2 _ _ :: r => clk <= now <= now2 /\ clocks_from now2 r
  | OpIssue (Err _) _ _ _ _ :: r => clocks_from clk r
  | OpVerify _ now :: r => clk <= now /\ clocks_from now r
  end.

Lemma run_within s h ops :
  sim_safe s h -> within_budget h -> within_budget (snd (run s h ops)).
Proof.
  revert s h; induction ops as [|o ops IH]; intros s h HR Hw; [done|].
  cbn [run]. destruct (step s o) as [s' e] eqn:Es.
  apply IH; [by eapply sim_safe_step|].
  destruct e; cbn; try done. split; [|done].
  destruct o as [[tk|err] now now2 p port|t now]; cbn in Es; simplify_eq.
  destruct (VerifyGrant s t now) as [[g'|] s''] eqn:Ev; simplify_eq.
  by eapply sim_safe_granted.
Qed.

Lemma run_obeys s h clk ops :
  sim_safe s h -> sim_live s h clk -> clocks_from clk ops -> obeys h ->
  obeys (snd (run s h ops)).
Proof.
  revert s h clk; induction ops as [|o ops IH]; intros s h clk HR HL Hc Ho; [done|].
  cbn [run]. destruct (step s o) as [s' e] eqn:Es.
  assert (HR' := sim_safe_step _ _ _ _ _ HR Es).
  destruct o as [[tk|err] now now2 p port|t now]; cbn in Hc.
  - destruct Hc as [Hc1 Hc2]. apply (IH s' _ now2); try done.
    + apply (sim_live_step s h clk _ s' e HR HL Es); [lia|done].
    + cbn in Es. by simplify_eq.
  - cbn in Es. simplify_eq. by apply (IH s' _ clk).
  - destruct Hc as [Hc1 Hc2]. apply (IH s' _ now); try done.
    + apply (sim_live_step s h clk _ s' e HR HL Es); [lia|done].
    + cbn in Es. destruct (VerifyGrant s t now) as [[g|err] s''] eqn:Ev; simplify_eq; cbn;
        (split; [|done]); [by eapply sim_safe_granted|exact (sim_refused _ _ _ _ _ _ _ HR HL Hc1 Ev)].
Qed.

(** ** What a budget says of a history *)

Definition issues (tok : bytes) (e : event) : bool :=
  match e with Issued t _ _ => bool_decide (t = tok) | _ => false end.
Definition grants (tok : bytes) (e : event) : bool :=
  match e with Granted t _ _ => bool_decide (t = tok) | _ => false end.
Definition count (p : event -> bool) (h : list event) : Z :=
  Z.of_nat (length (List.filter p h)).

Lemma budget_split tok h t0 g n :
  budget tok h = Some (t0, g, n) ->
  exists hb h0, h = hb ++ Issued tok t0 g :: h0 /\
    (forall e, e ∈ hb -> issues tok e = false) /\ n = count (grants tok) hb.
Proof.
  revert n; induction h as [|e h IH]; intros n H; [done|].
  assert (Hskip : forall m, budget tok h = Some (t0, g, m) -> issues tok e = false ->
    n = (if grants tok e then m + 1 else m) ->
    exists hb h0, e :: h = hb ++ Issued tok t0 g :: h0 /\
      (forall e, e ∈ hb -> issues tok e = false) /\ n = count (grants tok) hb).
  { intros m Hm Hi Hn. destruct (IH m Hm) as (hb & h0 & -> & Hf & ->).
    exists (e :: hb), h0. split; [done|]. split.
    - intros e' [->|He']%elem_of_cons; auto.
    - rewrite Hn. unfold count. cbn. destruct (grants tok e); cbn [length]; lia. }
  destruct e as [t now g'| |t now g'|t now]; cbn in H.
  - destruct (decide (t = tok)) as [->|Hne].
    + simplify_eq. exists [], h. split; [done|]. split; [|done].
      intros e He. by apply not_elem_of_nil in He.
    + apply (Hskip n H); [|done]. cbn. by rewrite bool_decide_eq_false.
  - by apply (Hskip n H).
  - destruct (budget tok h) as [[[t1 g1] m]|] eqn:Eb; [|done]. simplify_eq.
    apply (Hskip m eq_refl); [done|]. cbn.
    destruct (decide (t = tok)); [rewrite bool_decide_eq_true_2|rewrite bool_decide_eq_false_2]; done.
  - by apply (Hskip n H).
Qed.

Lemma within_budget_app h2 h1 : within_budget (h2 ++ h1) -> within_budget h1.
Proof. induction h2 as [|e h2 IH]; [done|]. destruct e; cbn; intros H; apply IH; tauto. Qed.

Lemma sim_empty : sim_safe NewSessionStore [] /\ forall clk, sim_live NewSessionStore [] clk.
Proof.
  unfold NewSessionStore. split; [|done].
  intros tok e H. by rewrite lookup_empty in H.
Qed.

(** ** The interface of the store *)

(** What the pairing host (which issues) and the tunnel host (which verifies)
    rely on.  [svc_live s t] is the expiry, grant and remaining uses of a
    token. *)
Class SessionService (S : Type) : Type := {
  svc_issue : S -> res bytes -> Z -> Z -> string -> Z -> res bytes * S;
  svc_verify : S -> bytes -> Z -> res SessionGrant * S;
  svc_live : S -> bytes -> option (Z * SessionGrant * Z);
}.

Class SessionLaws (S : Type) `{SessionService S} : Prop := {
  svc_verify_ok s t now g s' :
    svc_verify s t now = (Ok g, s') ->
    exists exp n, svc_live s t = Some (exp, g, n) /\ now <= exp /\ 0 < n /\
      svc_live s' t = (if n =? 1 then None else Some (exp, g, n - 1));
  svc_verify_frame s t now r s' t' :
    svc_verify s t now = (r, s') -> t' <> t -> svc_live s' t' = svc_live s t';
  svc_verify_accepts s t now exp g n :
    svc_live s t = Some (exp, g, n) -> now <= exp -> 0 < n ->
    exists s', svc_verify s t now = (Ok g, s');
  svc_issue_ok s t now now2 p port r s' :
    svc_issue s (Ok t) now now2 p port = (r, s') -> now2 <= now + SessionTokenTTL ->
    r = Ok t /\
    svc_live s' t = Some (now + SessionTokenTTL, mkGrant p port, SessionTokenMaxUses);
}.

#[export] Instance store_service : SessionService SessionStore := {
  svc_issue := Issue;
  svc_verify := VerifyGrant;
  svc_live s t := (fun e => (expiresAt e, grant e, usesLeft e)) <$> s !! t;
}.

#[export] Instance store_laws : SessionLaws SessionStore.
Proof.
  split.
  - intros s t now g s' H. cbn in *. unfold VerifyGrant in H.
    destruct (s !! t) as [e|]; [|done]. destruct (expiresAt e <? now) eqn:E1; [done|].
    destruct (usesLeft e <=? 0) eqn:E2; [done|]. go_bool. simplify_eq.
    exists (expiresAt e), (usesLeft e). split; [done|]. split; [done|]. split; [done|].
    destruct (usesLeft e - 1 <=? 0) eqn:E3, (usesLeft e =? 1) eqn:E4; go_bool; try lia.
    + by rewrite lookup_delete_eq.
    + by rewrite lookup_insert_eq.
  - intros s t now r s' t' H Hne. cbn in *. unfold VerifyGrant in H.
    repeat case_match; simplify_eq; try done; f_equal;
      solve [by apply lookup_delete_ne|by apply lookup_insert_ne].
  - intros s t now exp g n H Hn Hp. cbn in *. unfold VerifyGrant.
    destruct (s !! t) as [e|]; [|done]. cbn in H. simplify_eq.
    rewrite (proj2 (Z.ltb_ge _ _)), (proj2 (Z.leb_gt _ 0)) by lia. eauto.
  - intros s t now now2 p port r s' H Hn. cbn in H. unfold Issue in H. simplify_eq.
    split; [done|]. cbn. set (e := mkEntry _ _ _).
    assert (Hl : sweep (<[t:=e]> s) now2 !! t = Some e).
    { apply lookup_sweep_Some. split; [apply lookup_insert_eq|done]. }
    by rewrite Hl.
Qed.

(** ** Properties *)

(** C1: the store implements the use budget.  Over any sequence of issues and
    verifications whose clock never goes back, starting from an empty store,
    every verification is granted exactly when the history allows it: the
    token was issued, at most [SessionTokenTTL] ago, and granted fewer than
    [SessionTokenMaxUses] times since; the grant is the one it was last
    issued with.  Sweeping and the deletions on error never change an answer. *)
Theorem session_store_refines_budget clk ops (Hclk : clocks_from clk ops) :
  obeys (snd (run NewSessionStore [] ops)).
Proof.
  destruct sim_empty as [HR HL]. by apply (run_obeys _ _ clk).
Qed.

Lemma session_store_refines_budget_witness :
  obeys (snd (run NewSessionStore []
    [OpIssue (Ok [x01]) 0 5 "a" 3389; OpVerify [x01] 7; OpVerify [x02] 8;
     OpVerify [x01] (3 * minute)])).
Proof.
  apply (session_store_refines_budget 0). cbn. unfold minute, second. lia.
Defined.

(** bounded use, whatever the clock does.  Every grant in every run goes
    back to an issue of the very token, with the granted peer and port; that
    issue is the last one of the token, it is at most [SessionTokenTTL] older
    than the grant, and fewer than [SessionTokenMaxUses] grants of the token
    came in between: a token opens at most sixteen streams. *)
Lemma session_grant_bounded ops tok now g h2 h1
  (Hrun : snd (run NewSessionStore [] ops) = h2 ++ Granted tok now g :: h1) :
  exists hb h0 t0, h1 = hb ++ Issued tok t0 g :: h0 /\
    (forall e, e ∈ hb -> issues tok e = false) /\
    now <= t0 + SessionTokenTTL /\ count (grants tok) hb < SessionTokenMaxUses.
Proof.
  assert (Hw : within_budget (Granted tok now g :: h1)).
  { apply (within_budget_app h2). rewrite <- Hrun. by apply run_within, I; apply sim_empty. }
  destruct Hw as [Hs _]. unfold spec_grant in Hs.
  destruct (budget tok h1) as [[[t0 g'] n]|] eqn:Eb; [|done].
  destruct ((now <=? _) && _) eqn:Ec; simplify_eq. go_bool.
  destruct (budget_split _ _ _ _ _ Eb) as (hb & h0 & -> & Hi & ->).
  by exists hb, h0, t0.
Qed.

Lemma session_grant_bounded_witness :
  exists hb h0 t0, [Issued [x01] 0 (mkGrant "a" 22)] = hb ++ Issued [x01] t0 (mkGrant "a" 22) :: h0 /\
    (forall e, e ∈ hb -> issues [x01] e = false) /\
    4 <= t0 + SessionTokenTTL /\ count (grants [x01]) hb < SessionTokenMaxUses.
Proof.
  apply (session_grant_bounded [OpIssue (Ok [x01]) 0 0 "a" 22; OpVerify [x01] 4]
           [x01] 4 (mkGrant "a" 22) []).
  vm_compute. reflexivity.
Defined.
