(* ===== verification/Base58.v ===== *)
(** * Base58: the base58btc codec of [internal/rendezvous/token.go]

    [base58Encode] and [base58Decode] over positional digit lists, with the
    generic lemmas on digits in a base. *)

From S2P Require Import Prelude GoStrings.

(** ** Digits of a number, least significant first *)

(** The loop [for n > 0 { n, d = n / base, n % base }]. *)
Fixpoint digits (base : Z) (fuel : nat) (n : Z) : list Z :=
  match fuel with
  | O => []
  | S f => if 0 <? n then n mod base :: digits base f (n / base) else []
  end.

(** Enough rounds for any base of at least two. *)
Definition digit_fuel (n : Z) : nat := S (Z.to_nat (Z.log2 n)).

Fixpoint undigits (base : Z) (ds : list Z) : Z :=
  match ds with
  | [] => 0
  | d :: r => d + base * undigits base r
  end.

(** ** The codec *)

Definition base58Alphabet : bytes :=
  to_bytes "123456789ABCDEFGHJKLMNPQRSTUVWXYZabcdefghijkmnopqrstuvwxyz".

Definition b58_char (d : Z) : byte := nth (Z.to_nat d) base58Alphabet x31.
(** [strings.IndexRune(base58Alphabet, c)] for the rune at a byte; no
    non-ASCII rune is in the alphabet. *)
Definition b58_index (c : byte) : option Z :=
  Z.of_nat <$> find_index (fun a => bool_decide (a = c)) base58Alphabet.

(** The length of the leading run of [x]. *)
Fixpoint leading (x : byte) (l : bytes) : nat :=
  match l with
  | b :: r => if decide (b = x) then S (leading x r) else O
  | [] => O
  end.

Definition base58Encode (input : bytes) : string :=
  let n := be_get input in
  of_bytes (rev (map b58_char (digits 58 (digit_fuel n) n)
                 ++ repeat x31 (leading x00 input))).

(** [Bytes] of a [big.Int]: the minimal big-endian bytes. *)
Definition big_bytes (n : Z) : bytes :=
  rev (map z2b (digits 256 (digit_fuel n) n)).

Fixpoint b58_value (acc : Z) (l : bytes) : res Z :=
  match l with
  | [] => Ok acc
  | c :: r => match b58_index c with
              | None => Err "invalid base58 char"
              | Some idx => b58_value (acc * 58 + idx) r
              end
  end.

Definition base58Decode (input : string) : res bytes :=
  let l := to_bytes input in
  n ← b58_value 0 l;
  Ok (repeat x00 (leading x31 l) ++ big_bytes n).

(** ** Digit lemmas *)

(** A digit list as [digits] produces it: digits in range, no zero at the
    most significant end. *)
Definition digits_ok (base : Z) (ds : list Z) : Prop :=
  Forall (fun d => 0 <= d < base) ds /\ last ds <> Some 0.

Section Digits.
Context (base : Z) (Hbase : 2 <= base).

Lemma undigits_nonneg ds : Forall (fun d => 0 <= d < base) ds -> 0 <= undigits base ds.
Proof. induction 1; cbn; [lia|nia]. Qed.

Lemma undigits_pos ds : digits_ok base ds -> ds <> [] -> 0 < undigits base ds.
Proof.
  intros [Hf Hl] Hne. induction Hf as [|d ds Hd Hf IH]; [done|]. cbn.
  destruct ds as [|d' ds].
  - cbn in *. assert (d <> 0) by congruence. lia.
  - pose proof (IH Hl ltac:(done)). nia.
Qed.

Lemma digits_ok_tail d ds : digits_ok base (d :: ds) -> digits_ok base ds.
Proof.
  intros [Hf Hl]. inversion_clear Hf. split; [done|].
  destruct ds; [done|]. by rewrite last_cons_cons in Hl.
Qed.

Lemma digits_undigits fuel ds :
  digits_ok base ds -> (length ds <= fuel)%nat -> digits base fuel (undigits base ds) = ds.
Proof.
  revert fuel; induction ds as [|d ds IH]; intros fuel Hok Hl.
  - by destruct fuel.
  - destruct fuel as [|fuel]; [cbn in Hl; lia|]. cbn [digits].
    pose proof (undigits_pos _ Hok ltac:(done)) as Hp. rewrite (proj2 (Z.ltb_lt _ _) Hp).
    destruct Hok as [Hf Hla] eqn:E. inversion Hf as [|? ? Hd Hf']; subst.
    cbn [undigits]. rewrite (Z.mul_comm base), Z.mod_add, Z.div_add by lia.
    rewrite Z.mod_small, Z.div_small, Z.add_0_l by lia.
    f_equal. apply IH; [by eapply digits_ok_tail|cbn in Hl; lia].
Qed.

Lemma undigits_digits fuel n :
  0 <= n < base ^ Z.of_nat fuel ->
  undigits base (digits base fuel n) = n /\ digits_ok base (digits base fuel n).
Proof.
  revert n; induction fuel as [|fuel IH]; intros n Hn.
  { change (base ^ Z.of_nat 0) with 1 in Hn. cbn. split; [lia|]. by split. }
  cbn [digits]. destruct (0 <? n) eqn:E; go_bool; [|cbn; split; [lia|by split]].
  rewrite Nat2Z.inj_succ, Z.pow_succ_r in Hn by lia.
  destruct (IH (n / base)) as [Hu [Hf Hl]].
  { split; [apply Z.div_pos; lia|apply Z.div_lt_upper_bound; lia]. }
  cbn [undigits]. rewrite Hu. split.
  - rewrite (Z.div_mod n base) at 3; lia.
  - split; [constructor; [apply Z.mod_pos_bound; lia|done]|].
    destruct (digits base fuel (n / base)) as [|d ds] eqn:Ed; [|done].
    cbn in Hu |- *. intros [= H0]. rewrite (Z.div_mod n base) in E; lia.
Qed.

Lemma digit_fuel_enough n : 0 <= n -> n < base ^ Z.of_nat (digit_fuel n).
Proof.
  intros Hn. unfold digit_fuel. rewrite Nat2Z.inj_succ, Z2Nat.id by apply Z.log2_nonneg.
  apply Z.lt_le_trans with (2 ^ Z.succ (Z.log2 n)).
  - destruct (decide (n = 0)) as [->|]; [done|]. apply Z.log2_spec. lia.
  - apply Z.pow_le_mono_l. lia.
Qed.

Lemma digits_enough n : 0 <= n ->
  undigits base (digits base (digit_fuel n) n) = n /\
  digits_ok base (digits base (digit_fuel n) n).
Proof. intros Hn. apply undigits_digits. split; [done|by apply digit_fuel_enough]. Qed.

(** Canonical digit lists are determined by their value. *)
Lemma undigits_inj ds1 ds2 :
  digits_ok base ds1 -> digits_ok base ds2 ->
  undigits base ds1 = undigits base ds2 -> ds1 = ds2.
Proof.
  intros H1 H2 He. set (f := (length ds1 + length ds2)%nat).
  rewrite <- (digits_undigits f ds1), <- (digits_undigits f ds2), He by (done || lia). done.
Qed.

Lemma digits_of_undigits ds :
  digits_ok base ds ->
  digits base (digit_fuel (undigits base ds)) (undigits base ds) = ds.
Proof.
  intros Hok. destruct (digits_enough (undigits base ds)) as [Hu Hd].
  - apply undigits_nonneg, Hok.
  - by apply undigits_inj.
Qed.

Lemma undigits_snoc ds d :
  undigits base (ds ++ [d]) = undigits base ds + d * base ^ Z.of_nat (length ds).
Proof.
  induction ds as [|x ds IH]; cbn [undigits app length].
  - change (base ^ Z.of_nat 0) with 1. lia.
  - rewrite IH, Nat2Z.inj_succ, Z.pow_succ_r by lia. lia.
Qed.

Lemma undigits_zeros ds k : undigits base (ds ++ repeat 0 k) = undigits base ds.
Proof. induction ds as [|x ds IH]; cbn; [induction k; cbn; lia|]. by rewrite IH. Qed.
End Digits.

(** ** The alphabet *)

Lemma b58_index_char d : 0 <= d < 58 -> b58_index (b58_char d) = Some d.
Proof.
  intros Hd.
  assert (H : forallb (fun k => bool_decide (b58_index (b58_char (Z.of_nat k)) = Some (Z.of_nat k)))
                (List.seq 0 58) = true) by (vm_compute; reflexivity).
  rewrite forallb_forall in H. specialize (H (Z.to_nat d) ltac:(apply in_seq; lia)).
  go_bool. by rewrite Z2Nat.id in H by lia.
Qed.

Lemma b58_char_index c d : b58_index c = Some d -> b58_char d = c /\ 0 <= d < 58.
Proof.
  unfold b58_index. rewrite fmap_Some. intros (i & Hi & ->).
  apply find_index_Some in Hi as [(a & Ha & He) _]. go_bool. subst a.
  pose proof (lookup_lt_Some _ _ _ Ha) as Hlt. change (length base58Alphabet) with 58%nat in Hlt.
  split; [|lia]. unfold b58_char. rewrite Nat2Z.id. by apply nth_lookup_Some.
Qed.

Lemma b58_char_zero d : 0 <= d < 58 -> b58_char d = x31 -> d = 0.
Proof.
  intros Hd H. pose proof (b58_index_char d Hd) as Hi. rewrite H in Hi.
  change (b58_index x31) with (Some 0) in Hi. congruence.
Qed.

#[global] Arguments b58_index : simpl never.
#[global] Arguments b58_char : simpl never.

(** ** Leading runs *)

Lemma leading_split x l :
  l = repeat x (leading x l) ++ drop (leading x l) l /\
  head (drop (leading x l) l) <> Some x.
Proof.
  induction l as [|b l [IH1 IH2]]; cbn; [done|].
  destruct (decide (b = x)) as [->|Hne]; cbn.
  - split; [by f_equal|done].
  - split; [done|congruence].
Qed.

Lemma leading_app x k r : head r <> Some x -> leading x (repeat x k ++ r) = k.
Proof.
  intros Hr. induction k as [|k IH]; cbn.
  - destruct r as [|b r]; [done|]. cbn in *. by rewrite decide_False by congruence.
  - by rewrite decide_True, IH.
Qed.

(** ** Bytes as digits in base 256 *)

Lemma be_get_undigits l : be_get l = undigits 256 (rev (map b2z l)).
Proof.
  induction l as [|b l IH] using rev_ind; [done|].
  rewrite be_get_snoc, map_app, rev_app_distr, IH. cbn. lia.
Qed.

Lemma bytes_digits_ok l : head l <> Some x00 -> digits_ok 256 (rev (map b2z l)).
Proof.
  intros Hh. split.
  - apply Forall_rev, Forall_map, Forall_forall. intros b _. apply b2z_range.
  - destruct l as [|b l]; [done|]. cbn [map rev]. rewrite last_snoc. intros [= H].
    apply Hh. cbn. f_equal. by apply (b2z_inj b x00).
Qed.

Lemma big_bytes_get l : head l <> Some x00 -> big_bytes (be_get l) = l.
Proof.
  intros Hh. unfold big_bytes. rewrite be_get_undigits.
  rewrite digits_of_undigits by (lia || by apply bytes_digits_ok).
  rewrite map_rev, rev_involutive, map_map. rewrite <- (map_id l) at 2.
  apply map_ext. intros b. apply z2b_b2z.
Qed.

Lemma big_bytes_spec n :
  0 <= n -> be_get (big_bytes n) = n /\ head (big_bytes n) <> Some x00.
Proof.
  intros Hn. destruct (digits_enough 256 ltac:(lia) n Hn) as [Hu [Hf Hl]].
  set (ds := digits 256 (digit_fuel n) n) in *.
  assert (Hb : map b2z (map z2b ds) = ds).
  { rewrite map_map. rewrite <- (map_id ds) at 2. apply map_ext_in. intros d Hd.
    rewrite Forall_forall in Hf. rewrite b2z_z2b, Z.mod_small; [done|].
    apply Hf. by apply list_elem_of_In. }
  unfold big_bytes. fold ds. split.
  - rewrite be_get_undigits, map_rev, rev_involutive, Hb. done.
  - intros Hh. apply Hl. rewrite <- Hb.
    destruct (map z2b ds) as [|b l _] using rev_ind; [done|].
    rewrite rev_app_distr in Hh. cbn in Hh. simplify_eq.
    rewrite map_app. apply last_snoc.
Qed.

Lemma be_get_zeros k r : be_get (repeat x00 k ++ r) = be_get r.
Proof.
  rewrite !be_get_undigits, map_app, rev_app_distr, map_repeat.
  rewrite <- (undigits_zeros 256 (rev (map b2z r)) k). f_equal. f_equal.
  change (b2z x00) with 0. apply rev_repeat.
Qed.

(** ** The value of an encoded string *)

Lemma b58_value_snoc acc l c :
  b58_value acc (l ++ [c]) =
  n ← b58_value acc l;
  match b58_index c with None => Err "invalid base58 char" | Some d => Ok (n * 58 + d) end.
Proof.
  revert acc; induction l as [|x l IH]; intros acc; cbn; [by destruct (b58_index c)|].
  destruct (b58_index x); [apply IH|done].
Qed.

Lemma b58_value_digits ds :
  Forall (fun d => 0 <= d < 58) ds ->
  b58_value 0 (rev (map b58_char ds)) = Ok (undigits 58 ds).
Proof.
  induction 1 as [|d ds Hd Hf IH]; [done|]. cbn [map rev].
  rewrite b58_value_snoc, IH, b58_index_char by done. cbn. f_equal. lia.
Qed.

Lemma b58_value_inv l n :
  b58_value 0 l = Ok n ->
  exists ds, l = rev (map b58_char ds) /\ Forall (fun d => 0 <= d < 58) ds /\
             n = undigits 58 ds.
Proof.
  revert n; induction l as [|c l IH] using rev_ind; intros n H.
  { exists []. cbn in H. by simplify_eq. }
  rewrite b58_value_snoc in H. destruct (b58_value 0 l) as [m|]; [|done]. cbn in H.
  destruct (b58_index c) as [d|] eqn:Ec; simplify_eq.
  destruct (IH m eq_refl) as (ds & -> & Hf & ->).
  apply b58_char_index in Ec as [<- Hd].
  exists (d :: ds). split; [done|]. split; [by constructor|]. cbn. lia.
Qed.

(** The reversed digits of a canonical list do not start with the zero
    character. *)
Lemma b58_head ds : digits_ok 58 ds -> head (rev (map b58_char ds)) <> Some x31.
Proof.
  intros [Hf Hl] Hh. destruct ds as [|d ds _] using rev_ind; [done|].
  rewrite map_app, rev_app_distr in Hh. cbn in Hh. simplify_eq.
  apply Forall_app in Hf as [_ Hf]. inversion_clear Hf.
  rewrite last_snoc in Hl. apply Hl. f_equal. by apply b58_char_zero.
Qed.

Lemma b58_value_ones k l : b58_value 0 (repeat x31 k ++ l) = b58_value 0 l.
Proof. induction k as [|k IH]; [done|]. cbn. exact IH. Qed.

(** Strip the most significant zero digits. *)
Lemma digits_canonical ds :
  Forall (fun d => 0 <= d < 58) ds ->
  exists k ds', ds = ds' ++ repeat 0 k /\ digits_ok 58 ds'.
Proof.
  induction ds as [|d ds IH] using rev_ind; intros Hf.
  - exists 0%nat, []. split; [done|by split].
  - apply Forall_app in Hf as [Hf Hd]. inversion_clear Hd.
    destruct (decide (d = 0)) as [->|Hne].
    + destruct (IH Hf) as (k & ds' & -> & Hok). exists (S k), ds'.
      rewrite <- app_assoc. split; [|done]. f_equal. by rewrite <- repeat_cons.
    + exists 0%nat, (ds ++ [d]). rewrite app_nil_r. split; [done|].
      split; [by apply Forall_app; split; [|by constructor]|].
      rewrite last_snoc. congruence.
Qed.

Lemma base58Encode_bytes input :
  to_bytes (base58Encode input) =
  repeat x31 (leading x00 input) ++
  rev (map b58_char (digits 58 (digit_fuel (be_get input)) (be_get input))).
Proof. unfold base58Encode. by rewrite to_of_bytes, rev_app_distr, rev_repeat. Qed.

(** Every character of an encoding is in the alphabet. *)
Lemma base58Encode_alphabet input :
  Forall (fun b => is_Some (b58_index b)) (to_bytes (base58Encode input)).
Proof.
  rewrite base58Encode_bytes. apply Forall_app. split.
  - apply Forall_forall. intros b Hb. apply list_elem_of_In, repeat_spec in Hb as ->. by exists 0.
  - apply Forall_rev, Forall_map.
    destruct (digits_enough 58 ltac:(lia) (be_get input)) as [_ [Hf _]].
    { apply be_get_range. }
    eapply Forall_impl; [exact Hf|]. cbn. intros d Hd. exists d. by apply b58_index_char.
Qed.

Lemma base58_decode_encode input : base58Decode (base58Encode input) = Ok input.
Proof.
  destruct (leading_split x00 input) as [Hs Hh].
  set (k := leading x00 input) in *. set (r := drop k input) in *.
  pose proof (be_get_range input) as Hr.
  destruct (digits_enough 58 ltac:(lia) (be_get input) ltac:(lia)) as [Hu Hok].
  unfold base58Decode; cbv zeta. rewrite base58Encode_bytes. fold k.
  rewrite leading_app by (by apply b58_head). rewrite b58_value_ones.
  rewrite b58_value_digits, Hu by apply Hok. cbn [mbind res_bind].
  rewrite Hs, be_get_zeros, big_bytes_get by done. done.
Qed.

(** ** Properties *)

(** The base58 codec is a bijection.  Every byte string survives
    [base58Encode] then [base58Decode], leading zero bytes included; and a
    string [base58Decode] accepts is the encoding of what it decodes to, so
    no two strings name the same bytes. *)
Lemma base58_bijection input s b :
  base58Decode (base58Encode input) = Ok input /\
  (base58Decode s = Ok b -> base58Encode b = s).
Proof.
  split.
  - apply base58_decode_encode.
  - unfold base58Decode; cbv zeta. destruct (b58_value 0 (to_bytes s)) as [n|] eqn:Ev; [|done].
    cbn [mbind res_bind]. intros [= <-]. apply to_bytes_inj.
    destruct (b58_value_inv _ _ Ev) as (ds & Hs & Hf & ->).
    destruct (digits_canonical ds Hf) as (k & ds' & -> & Hok).
    rewrite undigits_zeros. pose proof (undigits_nonneg 58 ltac:(lia) ds' ltac:(apply Hok)) as Hn.
    destruct (big_bytes_spec _ Hn) as [Hg Hh].
    rewrite base58Encode_bytes, be_get_zeros, Hg, leading_app by done.
    rewrite digits_of_undigits by (lia || done).
    rewrite Hs, map_app, rev_app_distr, map_repeat, rev_repeat. f_equal.
    change (b58_char 0) with x31. by rewrite leading_app by (by apply b58_head).
Qed.

Lemma base58_bijection_witness :
  base58Decode (base58Encode [x00; x00; xff; x01]) = Ok [x00; x00; xff; x01] /\
  (base58Decode "11LUv" = Ok [x00; x00; xff; x01] ->
   base58Encode [x00; x00; xff; x01] = "11LUv"%string).
Proof. apply (base58_bijection [x00; x00; xff; x01] "11LUv" [x00; x00; xff; x01]). Defined.
