(* ===== verification/Crypto.v ===== *)
(** * Crypto: the cryptography and libp2p keys the program calls

    None of this code is under [src/]: the hash, the MAC, the signatures, the
    X.509 parser and libp2p's peer ids are a class of operations, and what the
    program relies on is a class of laws.  [toy_crypto] is a concrete instance
    that satisfies the laws (it is of course not secure). *)

From S2P Require Import Prelude.

(** The fields of an [x509.Certificate] the program reads. *)
Record cert : Type := mkCert {
  RawSubjectPublicKeyInfo : bytes;
  cert_ecdsa : option bytes;          (** the [*ecdsa.PublicKey], if it is one *)
  Subject_Organization : list string;
  Subject_CommonName : string;
  Issuer_Organization : list string;
  Issuer_CommonName : string;
}.

Class Crypto : Type := {
  sha256 : bytes -> bytes;
  hmac_sha256 : bytes -> bytes -> bytes;                  (** key, message *)
  UnmarshalEd25519PublicKey : bytes -> res bytes;
  UnmarshalEd25519PrivateKey : bytes -> res bytes;
  ed25519_public : bytes -> bytes;                        (** [GetPublic().Raw()] *)
  ed25519_sign : bytes -> bytes -> res bytes;             (** private key, message *)
  ed25519_verify : bytes -> bytes -> bytes -> res bool;   (** key, message, signature *)
  IDFromPublicKey : bytes -> res string;                  (** [peer.IDFromPublicKey(k).String()] *)
  peer_Decode : string -> res bytes;
  ParseCertificate : bytes -> res cert;
  ecdsa_VerifyASN1 : bytes -> bytes -> bytes -> bool;     (** key, digest, signature *)
}.

(** What the program relies on: an unmarshalled key is the key, signing with a
    private key verifies under its public key, distinct keys have distinct
    peer ids, and peer ids are decodable. *)
Class CryptoLaws `{Crypto} : Prop := {
  sha256_length m : length (sha256 m) = 32%nat;
  hmac_length k m : length (hmac_sha256 k m) = 32%nat;
  unmarshal_pub_ok raw k : UnmarshalEd25519PublicKey raw = Ok k -> k = raw;
  ed25519_pub_ok raw k :
    UnmarshalEd25519PrivateKey raw = Ok k ->
    UnmarshalEd25519PublicKey (ed25519_public k) = Ok (ed25519_public k) /\
    ed25519_public k <> [];
  ed25519_sign_verify raw k m s :
    UnmarshalEd25519PrivateKey raw = Ok k -> ed25519_sign k m = Ok s ->
    ed25519_verify (ed25519_public k) m s = Ok true;
  ed25519_sig_nonempty k m s : ed25519_sign k m = Ok s -> s <> [];
  IDFromPublicKey_inj k1 k2 id :
    IDFromPublicKey k1 = Ok id -> IDFromPublicKey k2 = Ok id -> k1 = k2;
}.

(** ** A concrete instance *)

Definition toy_hash (m : bytes) : bytes :=
  take 32 (be_put 4 (Z.of_nat (length m)) ++ m ++ repeat x00 32).

Definition toy_cert (b : bytes) : res cert :=
  match b with
  | x30 :: k => Ok (mkCert (x30 :: k) (Some k) ["Toy"] "Toy TPM" [] "")
  | _ => Err "x509: malformed certificate"
  end.

#[export] Instance toy_crypto : Crypto := {
  sha256 := toy_hash;
  hmac_sha256 k m := toy_hash (k ++ m);
  UnmarshalEd25519PublicKey b :=
    if bool_decide (length b = 32%nat) then Ok b else Err "expect ed25519 public key data size to be 32";
  UnmarshalEd25519PrivateKey b :=
    if (32 <=? length b)%nat then Ok b else Err "expected ed25519 data size to be 64 or 96";
  ed25519_public k := take 32 k;
  ed25519_sign k m := Ok (x01 :: take 32 k ++ m);
  ed25519_verify k m s :=
    if bool_decide (k = []) then Err "ed25519: bad public key length"
    else Ok (bool_decide (s = x01 :: k ++ m));
  IDFromPublicKey k := Ok (of_bytes (to_bytes "12D3KooW" ++ k));
  peer_Decode s := if String.prefix "12D3KooW" s then Ok (to_bytes s) else Err "failed to parse peer ID";
  ParseCertificate := toy_cert;
  ecdsa_VerifyASN1 k d s := bool_decide (s = k ++ d);
}.

Lemma toy_hash_length m : length (toy_hash m) = 32%nat.
Proof.
  unfold toy_hash. rewrite length_take, !length_app, be_put_length, repeat_length. lia.
Qed.

#[export] Instance toy_crypto_laws : CryptoLaws.
Proof.
  split; cbn -[toy_hash Nat.leb take].
  - apply toy_hash_length.
  - intros k m. apply toy_hash_length.
  - intros raw k H. case_bool_decide; by simplify_eq.
  - intros raw k H. destruct (32 <=? length raw)%nat eqn:E; simplify_eq.
    apply Nat.leb_le in E. assert (Hl : length (take 32 k) = 32%nat) by (rewrite length_take; lia).
    rewrite bool_decide_eq_true_2 by done. split; [done|]. by intros He; rewrite He in Hl.
  - intros raw k m s H [= <-]. destruct (32 <=? length raw)%nat eqn:E; simplify_eq.
    apply Nat.leb_le in E. assert (Hl : length (take 32 k) = 32%nat) by (rewrite length_take; lia).
    rewrite bool_decide_eq_false_2 by (by intros He; rewrite He in Hl).
    by rewrite bool_decide_eq_true_2.
  - by intros k m s [= <-].
  - intros k1 k2 id [= <-] [= H]. by apply of_bytes_inj in H.
Qed.
