(* ===== verification/Rendezvous.v ===== *)
(** * Rendezvous: invite tokens, invite proofs and display codes

    [internal/rendezvous/token.go] (the 88-byte token, its URL form, the
    HMAC proof of an invite) and [internal/rendezvous/code.go]. *)

From S2P Require Import Prelude GoStrings Base58 Crypto.

(** ** Constants *)

Definition tokenBytes : Z := 88.
Definition URLScheme : string := "deskaccess".
Definition CodeLength : Z := 6.
Definition InviteIDSize : Z := 16.
Definition InviteSecretSize : Z := 32.
Definition ProofSize : Z := 32.
Definition TimeWindowSecs : Z := 30.
Definition maxUnix32 : Z := 2 ^ 32 - 1.

(** ** Protocol: a byte *)

Definition ProtoRDP : Z := 0.
Definition ProtoVNC : Z := 1.
Definition ProtoSSH : Z := 2.
Definition ProtoCustom : Z := 3.

(** [Protocol.String] *)
Definition Protocol_String (p : Z) : string :=
  if p =? ProtoRDP then "rdp"
  else if p =? ProtoVNC then "vnc"
  else if p =? ProtoSSH then "ssh"
  else "custom".

(** [Protocol.DefaultPort] *)
Definition DefaultPort (p : Z) : Z :=
  if p =? ProtoRDP then 3389
  else if p =? ProtoVNC then 5900
  else if p =? ProtoSSH then 22
  else 3389.

Definition ParseProtocol (s : string) : Z :=
  let l := to_lower s in
  if bool_decide (l = "vnc") then ProtoVNC
  else if bool_decide (l = "ssh") then ProtoSSH
  else if bool_decide (l = "custom") then ProtoCustom
  else ProtoRDP.

(** ** Token *)

Record Token : Type := mkToken {
  PubKey : bytes;          (** 32 bytes *)
  RelayMask : Z;           (** a byte *)
  InviteID : bytes;        (** 16 bytes *)
  InviteSecret : bytes;    (** 32 bytes *)
  ExpiresAt : Z;
  Mode : Z;                (** a byte: 0 onetime, 1 pairing *)
  TokProtocol : Z;         (** a byte *)
  TargetPort : Z;          (** a uint16, 0 for the default of the protocol *)
}.

#[export] Instance Token_eq_dec : EqDecision Token.
Proof. solve_decision. Defined.

(** The Go types of the fields. *)
Definition token_typed (t : Token) : Prop :=
  length (PubKey t) = 32%nat /\ 0 <= RelayMask t < 256 /\
  length (InviteID t) = 16%nat /\ length (InviteSecret t) = 32%nat /\
  0 <= Mode t < 256 /\ 0 <= TokProtocol t < 256 /\ 0 <= TargetPort t < 65536.

(** [Token.Port] *)
Definition Port (t : Token) : Z :=
  if TargetPort t =? 0 then DefaultPort (TokProtocol t) else TargetPort t.

(** The expiry field: [ExpiresAt.Unix()] clamped to 32 bits. *)
Definition clamp_expiry (at_ : Z) : Z :=
  let e := unix at_ in
  let e := if e <? 0 then 0 else e in
  if maxUnix32 <? e then maxUnix32 else e.

(** The 88 bytes of a token. *)
Definition token_buf (t : Token) : bytes :=
  PubKey t ++ [z2b (RelayMask t)] ++ InviteID t ++ InviteSecret t ++
  be_put 4 (u32 (clamp_expiry (ExpiresAt t))) ++
  [z2b (Z.lor (u8 (Z.shiftl (TokProtocol t) 4)) (Z.land (Mode t) 15))] ++
  be_put 2 (TargetPort t).

(** [Token.Encode] *)
Definition Encode (t : Token) : string :=
  (URLScheme ++ "://" ++ base58Encode (token_buf t))%string.

Definition urlPrefix (raw : string) : option string :=
  let prefix := (URLScheme ++ "://")%string in
  if has_prefix (to_lower raw) prefix
  then Some (of_bytes (take (String.length prefix) (to_bytes raw)))
  else None.

Definition is_slash (b : byte) : bool := bool_decide (b = x2f).

(** [buf[i:j]] *)
Definition slice (i j : nat) (b : bytes) : bytes := take (j - i) (drop i b).

(** The fields of a decoded 88-byte buffer. *)
Definition token_of_buf (buf : bytes) : Token :=
  let flags := be_get (slice 85 86 buf) in
  mkToken (slice 0 32 buf) (be_get (slice 32 33 buf)) (slice 33 49 buf)
    (slice 49 81 buf) (of_unix (be_get (slice 81 85 buf)))
    (Z.land flags 15) (Z.shiftr flags 4) (be_get (slice 86 88 buf)).

(** The base58 text inside a URL. *)
Definition url_payload (prefix url : string) : string :=
  let encoded := trim_space (trim_prefix url prefix) in
  let encoded := of_bytes (strip_while is_slash (to_bytes encoded)) in
  let encoded := match cut encoded "?" with Some (b, _) => b | None => encoded end in
  let encoded := match cut encoded "#" with Some (b, _) => b | None => encoded end in
  trim_set is_slash encoded.

Definition DecodeURL (url : string) : res Token :=
  match urlPrefix url with
  | None => Err "not a DeskAccess URL"
  | Some prefix =>
    buf ← wrap_err "decode token: " (base58Decode (url_payload prefix url));
    if Z.of_nat (length buf) =? tokenBytes then Ok (token_of_buf buf)
    else Err "invalid token length"
  end.

(** [Token.IsExpired] at the clock [now] *)
Definition IsExpired (t : Token) (now : Z) : bool :=
  if Mode t =? 1 then false
  else if now + 50 * 365 * 24 * hour <? ExpiresAt t then false
  else ExpiresAt t <? now.

(** [Token.ModeString] *)
Definition ModeString (t : Token) : string :=
  if Mode t =? 1 then "pairing" else "onetime".

(** [TimeWindow]: the 30-second window of an instant (integer division
    truncates). *)
Definition TimeWindow (at_ : Z) : Z := Z.quot (unix at_) TimeWindowSecs.

(** ** Invite proofs *)

(** The bytes written to the MAC. *)
Definition invite_proof_message (inviteID : bytes) (hostPeerID clientPeerID mode : string)
    (window : Z) : bytes :=
  to_bytes "deskaccess invite proof v1" ++ [x00] ++ inviteID ++ [x00] ++
  to_bytes hostPeerID ++ [x00] ++ to_bytes clientPeerID ++ [x00] ++
  to_bytes mode ++ [x00] ++ be_put 8 (u64 window).

Definition InviteProof `{Crypto} (secret inviteID : bytes)
    (hostPeerID clientPeerID mode : string) (window : Z) : bytes :=
  hmac_sha256 secret (invite_proof_message inviteID hostPeerID clientPeerID mode window).

Definition EqualProof (a b : bytes) : bool := bool_decide (a = b).

(** ** code.go *)

(** [NewSessionCode]: [rnd] is what [rand.Int] returns below one million. *)
Definition NewSessionCode (rnd : res Z) : res string :=
  n ← rnd;
  Ok (of_bytes (map (fun k => z2b (48 + n / 10 ^ k mod 10)) [5; 4; 3; 2; 1; 0])).

Definition FormatCode (code : string) : string :=
  let code := to_bytes (trim_space code) in
  if negb (Z.of_nat (length code) =? CodeLength) then of_bytes code
  else of_bytes (take 3 code ++ [x2d] ++ drop 3 code).

Definition NormaliseCode (code : string) : string :=
  trim_space (remove_bytes (fun b => bool_decide (b = x20))
                (remove_bytes (fun b => bool_decide (b = x2d)) code)).

Definition is_continuation (b : byte) : bool := (128 <=? b2z b) && (b2z b <? 192).

(** The loop of [FormatMachineID]: a dash before each rune that starts at a
    positive multiple of four. *)
Fixpoint dash_groups (i : nat) (l : bytes) : bytes :=
  match l with
  | [] => []
  | b :: r =>
    (if (0 <? i)%nat && (i mod 4 =? 0)%nat && negb (is_continuation b) then [x2d] else [])
    ++ b :: dash_groups (S i) r
  end.

Definition FormatMachineID (peerID : string) : string :=
  of_bytes (dash_groups 0 (to_bytes peerID)).

Definition NormaliseMachineID (display : string) : string :=
  remove_bytes (fun b => bool_decide (b = x2d)) display.

(** [ShortMachineID]: the ellipsis is its three UTF-8 bytes. *)
Definition ShortMachineID (peerID : string) : string :=
  let l := to_bytes peerID in
  if 20 <? Z.of_nat (length l) then of_bytes (take 20 l ++ [xe2; x80; xa6]) else peerID.

(** ** Lemmas *)

(** A decoded token: the clamped expiry, the low nibbles of mode and
    protocol. *)
Definition token_norm (t : Token) : Token :=
  mkToken (PubKey t) (RelayMask t) (InviteID t) (InviteSecret t)
    (of_unix (clamp_expiry (ExpiresAt t))) (Z.land (Mode t) 15)
    (Z.land (TokProtocol t) 15) (TargetPort t).

Lemma clamp_expiry_range at_ : 0 <= clamp_expiry at_ < 2 ^ 32.
Proof.
  unfold clamp_expiry, maxUnix32. destruct (unix at_ <? 0) eqn:E; go_bool;
    [done|]. destruct (2 ^ 32 - 1 <? unix at_) eqn:E2; go_bool; lia.
Qed.

Lemma flags_roundtrip p m :
  0 <= p < 256 -> 0 <= m < 256 ->
  let f := Z.lor (u8 (Z.shiftl p 4)) (Z.land m 15) in
  0 <= f < 256 /\ Z.land f 15 = Z.land m 15 /\ Z.shiftr f 4 = Z.land p 15.
Proof.
  intros Hp Hm.
  set (ok p m := let f := Z.lor (u8 (Z.shiftl p 4)) (Z.land m 15) in
    (0 <=? f) && (f <? 256) && (Z.land f 15 =? Z.land m 15) && (Z.shiftr f 4 =? Z.land p 15)).
  assert (H : forallb (fun a => forallb (fun b => ok (Z.of_nat a) (Z.of_nat b))
                (List.seq 0 256)) (List.seq 0 256) = true) by (vm_compute; reflexivity).
  rewrite forallb_forall in H. specialize (H (Z.to_nat p) ltac:(apply in_seq; lia)).
  rewrite forallb_forall in H. specialize (H (Z.to_nat m) ltac:(apply in_seq; lia)).
  rewrite !Z2Nat.id in H by lia. unfold ok in H. go_bool. done.
Qed.

Lemma slice_app_here (a b : bytes) n : length a = n -> slice 0 n (a ++ b) = a.
Proof. intros <-. unfold slice. rewrite Nat.sub_0_r, drop_0. apply take_app_length. Qed.

Lemma slice_app_skip (a b : bytes) i j :
  (length a <= i)%nat -> slice i j (a ++ b) = slice (i - length a) (j - length a) b.
Proof.
  intros H. unfold slice. rewrite drop_app_ge by done. f_equal. lia.
Qed.

Lemma slice_all (a : bytes) n : length a = n -> slice 0 n a = a.
Proof. intros <-. unfold slice. rewrite Nat.sub_0_r, drop_0. by apply take_ge. Qed.

(** Read the fields of a concatenation whose pieces have known lengths. *)
Ltac read_slice :=
  repeat (rewrite slice_app_skip by (cbn [length]; rewrite ?be_put_length; lia));
  cbn [length]; rewrite ?be_put_length;
  repeat match goal with H : length _ = _ |- _ => rewrite H end;
  try (rewrite slice_app_here by (rewrite ?be_put_length; (done || assumption)));
  try (rewrite slice_all by (rewrite ?be_put_length; (done || assumption))).

Lemma token_buf_length t : token_typed t -> length (token_buf t) = 88%nat.
Proof.
  intros (H1 & _ & H2 & H3 & _). unfold token_buf.
  rewrite !length_app, !be_put_length, H1, H2, H3. done.
Qed.

Lemma be_get_one b : be_get [b] = b2z b.
Proof. unfold be_get. cbn. done. Qed.

Lemma token_of_buf_token t : token_typed t -> token_of_buf (token_buf t) = token_norm t.
Proof.
  intros (H1 & Hr & H2 & H3 & Hm & Hp & Ht).
  unfold token_of_buf, token_norm, token_buf.
  destruct (flags_roundtrip (TokProtocol t) (Mode t) Hp Hm) as (Hf & Hf1 & Hf2).
  set (f := Z.lor _ _) in *. pose proof (clamp_expiry_range (ExpiresAt t)) as Hx.
  f_equal; read_slice; rewrite ?be_get_one, ?b2z_z2b, ?be_get_put.
  all: try done.
  - rewrite Z.mod_small by lia. done.
  - f_equal. unfold u32. rewrite wrap_small by done.
    change (256 ^ Z.of_nat 4) with (2 ^ 32). by rewrite Z.mod_small.
  - by rewrite Z.mod_small.
  - by rewrite Z.mod_small.
  - change (256 ^ Z.of_nat 2) with 65536. by rewrite Z.mod_small.
Qed.

Lemma base58_printable b :
  is_Some (b58_index b) ->
  printable b = true /\ is_slash b = false /\ b <> x3f /\ b <> x23.
Proof.
  intros [d Hd]. revert Hd. destruct b; vm_compute; intros; simplify_eq; done.
Qed.

Lemma url_payload_encoded s :
  Forall (fun b => is_Some (b58_index b)) (to_bytes s) ->
  url_payload (URLScheme ++ "://") ((URLScheme ++ "://") ++ s)%string = s.
Proof.
  intros Hf.
  assert (Hp : Forall (fun b => printable b = true) (to_bytes s))
    by (eapply Forall_impl; [exact Hf|apply base58_printable]).
  assert (Hs : Forall (fun b => is_slash b = false) (to_bytes s))
    by (eapply Forall_impl; [exact Hf|apply base58_printable]).
  assert (Hq : cut s "?" = None)
    by (apply cut_none; eapply Forall_impl; [exact Hf|apply base58_printable]).
  assert (Hh : cut s "#" = None)
    by (apply cut_none; eapply Forall_impl; [exact Hf|apply base58_printable]).
  unfold url_payload, trim_prefix, has_prefix. rewrite prefix_app, drop_string_app.
  rewrite trim_space_id, strip_while_id, of_to_bytes, Hq, Hh by done.
  by apply trim_set_id.
Qed.

Lemma urlPrefix_scheme s :
  urlPrefix ((URLScheme ++ "://") ++ s)%string = Some (URLScheme ++ "://")%string.
Proof.
  unfold urlPrefix, has_prefix, to_lower. rewrite to_bytes_app.
  assert (H : lower_bytes (to_bytes (URLScheme ++ "://") ++ to_bytes s) =
              to_bytes (URLScheme ++ "://") ++ lower_bytes (to_bytes s)) by reflexivity.
  rewrite H, of_bytes_app, of_to_bytes, prefix_app.
  rewrite <- to_bytes_length, take_app_length, of_to_bytes. done.
Qed.

Lemma decode_encode_token t : token_typed t -> DecodeURL (Encode t) = Ok (token_norm t).
Proof.
  intros Ht. unfold DecodeURL, Encode. rewrite <- string_app_assoc, urlPrefix_scheme.
  rewrite url_payload_encoded by apply base58Encode_alphabet.
  rewrite base58_decode_encode. cbn [wrap_err mbind res_bind].
  rewrite token_buf_length by done. change (_ =? tokenBytes) with true.
  by rewrite token_of_buf_token.
Qed.

(** ** Properties *)

(** The invite URL round trip.  [DecodeURL] of [Encode] of any token of the
    Go type gives the token back, with the expiry clamped to 32 bits of Unix
    seconds and the mode and the protocol reduced to their nibbles; for a
    token of the four protocols and two modes whose expiry is a whole second
    in the 32-bit range that is the token itself. *)
Lemma token_url_roundtrip t (Ht : token_typed t) :
  DecodeURL (Encode t) = Ok (token_norm t) /\
  (Mode t < 16 -> TokProtocol t < 16 ->
   (exists e, 0 <= e < 2 ^ 32 /\ ExpiresAt t = of_unix e) ->
   DecodeURL (Encode t) = Ok t).
Proof.
  pose proof (decode_encode_token t Ht) as H.
  split; [exact H|]. intros Hm Hp (e & He & Hx). rewrite H. f_equal.
  destruct Ht as (_ & _ & _ & _ & Hm' & Hp' & _).
  destruct t as [k r i s x m p port]. unfold token_norm; cbn in *. subst x.
  unfold clamp_expiry. rewrite unix_of_unix.
  rewrite (proj2 (Z.ltb_ge e 0)), (proj2 (Z.ltb_ge maxUnix32 e)) by (unfold maxUnix32; lia).
  change 15 with (Z.ones 4). rewrite !Z.land_ones, !Z.mod_small by lia. done.
Qed.

Definition sample_token : Token :=
  mkToken (repeat x07 32) 5 (repeat x01 16) (repeat xfe 32) (of_unix 1700000000) 1 2 22.

Lemma token_url_roundtrip_witness :
  token_typed sample_token /\ DecodeURL (Encode sample_token) = Ok sample_token.
Proof.
  assert (Ht : token_typed sample_token) by (unfold token_typed; cbn; lia).
  split; [exact Ht|]. apply (token_url_roundtrip sample_token Ht).
  - cbn. lia.
  - cbn. lia.
  - exists 1700000000. split; [lia|reflexivity].
Defined.

Definition nul_free (s : string) : Prop := Forall (fun b => b <> x00) (to_bytes s).

#[export] Instance nul_free_dec s : Decision (nul_free s).
Proof. unfold nul_free. apply _. Defined.

Lemma nul_split (a b r r' : bytes) :
  Forall (fun x => x <> x00) a -> Forall (fun x => x <> x00) b ->
  a ++ [x00] ++ r = b ++ [x00] ++ r' -> a = b /\ r = r'.
Proof.
  intros Ha; revert b; induction Ha as [|x a Hx Ha IH]; intros b Hb He;
    destruct Hb as [|y b Hy Hb]; cbn in He; simplify_eq; try done.
  destruct (IH b Hb ltac:(assumption)) as [-> ->]. done.
Qed.

Lemma u64_inj a b :
  - 2 ^ 63 <= a < 2 ^ 63 -> - 2 ^ 63 <= b < 2 ^ 63 -> u64 a = u64 b -> a = b.
Proof.
  intros Ha Hb H. unfold u64, wrap in H. change (2 ^ 63) with 9223372036854775808 in *.
  change (2 ^ 64) with 18446744073709551616 in H.
  Z.div_mod_to_equations. lia.
Qed.

(** An invite proof commits to everything it names.  Two invocations that
    write the same bytes to the MAC agree on the invite id, the host, the
    client, the mode and the time window, provided the ids have the size of
    an invite id and the texts hold no NUL byte (peer ids and mode names do
    not). *)
Lemma invite_proof_message_injective id1 id2 h1 h2 c1 c2 m1 m2 w1 w2
  (Hid : Z.of_nat (length id1) = InviteIDSize /\ Z.of_nat (length id2) = InviteIDSize)
  (Hnul : Forall nul_free [h1; h2; c1; c2; m1; m2])
  (Hw : (- 2 ^ 63 <= w1 < 2 ^ 63) /\ (- 2 ^ 63 <= w2 < 2 ^ 63))
  (He : invite_proof_message id1 h1 c1 m1 w1 = invite_proof_message id2 h2 c2 m2 w2) :
  id1 = id2 /\ h1 = h2 /\ c1 = c2 /\ m1 = m2 /\ w1 = w2.
Proof.
  repeat match goal with H : Forall nul_free (_ :: _) |- _ => inversion_clear H end.
  unfold invite_proof_message, InviteIDSize in *. apply app_inv_head in He.
  apply (app_inv_head [x00]) in He.
  apply app_inj_1 in He as [-> He]; [|lia]. apply (app_inv_head [x00]) in He.
  apply nul_split in He as [Hh He]; [|done|done].
  apply nul_split in He as [Hc He]; [|done|done].
  apply nul_split in He as [Hm He]; [|done|done].
  apply be_put_inj in He; [|apply Z.mod_pos_bound; lia|apply Z.mod_pos_bound; lia].
  apply to_bytes_inj in Hh, Hc, Hm. apply u64_inj in He; [|lia|lia]. done.
Qed.

Lemma invite_proof_message_injective_witness :
  let id := repeat x09 16 in
  id = id /\ "12D3KooWa"%string = "12D3KooWa"%string /\ "12D3KooWb"%string = "12D3KooWb"%string /\
  "pairing"%string = "pairing"%string /\ 56666666 = 56666666.
Proof.
  apply (invite_proof_message_injective (repeat x09 16) (repeat x09 16)).
  - split; reflexivity.
  - apply (bool_decide_unpack _). vm_compute. exact I.
  - lia.
  - reflexivity.
Defined.

(** ** Display codes *)

Lemma dash_groups_remove i l :
  Forall (fun b => b <> x2d) l ->
  List.filter (fun b => negb (bool_decide (b = x2d))) (dash_groups i l) = l.
Proof.
  intros Hf; revert i; induction Hf as [|b l Hb Hf IH]; intros i; [done|].
  cbn [dash_groups]. rewrite List.filter_app. cbn [List.filter].
  rewrite (bool_decide_eq_false_2 (b = x2d)) by done. cbn [negb]. rewrite IH.
  by destruct (_ && _ && _).
Qed.

Definition digit_byte (b : byte) : bool := (48 <=? b2z b) && (b2z b <=? 57).

Lemma filter_all {A} (p : A -> bool) l : Forall (fun x => p x = true) l -> List.filter p l = l.
Proof. induction 1 as [|x l Hx Hl IH]; cbn; [done|]. by rewrite Hx, IH. Qed.

Lemma NewSessionCode_digits n c :
  NewSessionCode (Ok n) = Ok c ->
  length (to_bytes c) = 6%nat /\ Forall (fun b => digit_byte b = true) (to_bytes c).
Proof.
  unfold NewSessionCode. intros H. injection H as <-. rewrite to_of_bytes. split; [done|].
  repeat constructor; unfold digit_byte; rewrite b2z_z2b;
    match goal with |- context [?a mod 10] => pose proof (Z.mod_pos_bound a 10 ltac:(lia)) end;
    rewrite Z.mod_small by lia; apply andb_true_iff; split; apply Z.leb_le; lia.
Qed.

(** Display forms can be typed back.  A session code survives the dash of
    [FormatCode] under [NormaliseCode], and a machine id without dashes
    survives the grouping of [FormatMachineID] under [NormaliseMachineID]. *)
Lemma display_codes_roundtrip n c id
  (Hc : NewSessionCode (Ok n) = Ok c)
  (Hid : Forall (fun b => b <> x2d) (to_bytes id)) :
  NormaliseCode (FormatCode c) = c /\ NormaliseMachineID (FormatMachineID id) = id.
Proof.
  split.
  - apply NewSessionCode_digits in Hc as [Hl Hd].
    assert (Hp : Forall (fun b => printable b = true) (to_bytes c)).
    { eapply Forall_impl; [exact Hd|]. intros b. unfold digit_byte, printable.
      intros; go_bool. apply andb_true_iff. split; [apply Z.leb_le|apply Z.ltb_lt]; lia. }
    assert (Hf : Forall (fun b => b <> x2d /\ b <> x20) (to_bytes c)).
    { eapply Forall_impl; [exact Hd|]. intros b Hb. split; intros ->; done. }
    unfold FormatCode. rewrite trim_space_id, Hl by done. cbn [negb Z.of_nat Z.eqb].
    change (negb (_ =? CodeLength)) with false. cbn iota.
    unfold NormaliseCode, remove_bytes. rewrite !to_of_bytes.
    rewrite !List.filter_app.
    change (List.filter _ [x2d]) with (@nil byte). rewrite app_nil_l, <- !List.filter_app, take_drop.
    rewrite (filter_all _ (to_bytes c)), (filter_all _ (to_bytes c)).
    + rewrite of_to_bytes. by apply trim_space_id.
    + eapply Forall_impl; [exact Hf|]. intros b [? ?]. by rewrite bool_decide_eq_false_2.
    + eapply Forall_impl; [exact Hf|]. intros b [? ?]. by rewrite bool_decide_eq_false_2.
  - unfold NormaliseMachineID, FormatMachineID, remove_bytes.
    by rewrite to_of_bytes, dash_groups_remove, of_to_bytes.
Qed.

Lemma display_codes_roundtrip_witness :
  NormaliseCode (FormatCode "004219") = "004219"%string /\
  NormaliseMachineID (FormatMachineID "12D3KooWABCD") = "12D3KooWABCD"%string.
Proof.
  apply (display_codes_roundtrip 4219 "004219" "12D3KooWABCD").
  - vm_compute. reflexivity.
  - apply (bool_decide_unpack _). vm_compute. exact I.
Defined.

(** A query after the base58 text is cut off. *)
Lemma strip_while_id_head s e :
  Forall (fun b => is_slash b = false) (to_bytes s) ->
  strip_while is_slash (to_bytes (s ++ "?" ++ of_bytes e)) = to_bytes (s ++ "?" ++ of_bytes e).
Proof.
  intros Hf. rewrite to_bytes_app. destruct Hf as [|x l Hx Hf]; [done|].
  cbn [app strip_while]. by rewrite Hx.
Qed.

Lemma cut_app_char a b x :
  Forall (fun c => c <> byte_of_ascii x) (to_bytes a) ->
  cut (a ++ String x b) (String x "") = Some (a, b).
Proof.
  induction a as [|y a IH]; intros Hf.
  - rewrite string_app_nil. cbn. destruct (ascii_dec x x); [|done]. by destruct b.
  - rewrite to_bytes_cons in Hf. inversion Hf as [|? ? Hy Hr]; subst.
    rewrite string_app_cons. cbn. destruct (ascii_dec x y) as [->|]; [done|].
    cbn in IH. by rewrite (IH Hr).
Qed.

Lemma url_payload_query s e :
  Forall (fun b => is_Some (b58_index b)) (to_bytes s) ->
  Forall (fun b => b <> x23 /\ b <> x3f /\ printable b = true) e ->
  url_payload (URLScheme ++ "://") ((URLScheme ++ "://") ++ s ++ "?" ++ of_bytes e)%string = s.
Proof.
  intros Hf He.
  assert (Hs : Forall (fun b => is_slash b = false) (to_bytes s))
    by (eapply Forall_impl; [exact Hf|apply base58_printable]).
  assert (Hq : Forall (fun b => b <> byte_of_ascii "?") (to_bytes s))
    by (eapply Forall_impl; [exact Hf|apply base58_printable]).
  assert (Hh : cut s "#" = None)
    by (apply cut_none; eapply Forall_impl; [exact Hf|apply base58_printable]).
  unfold url_payload, trim_prefix, has_prefix. rewrite prefix_app, drop_string_app.
  rewrite trim_space_id.
  2:{ rewrite !to_bytes_app, to_of_bytes. apply Forall_app. split.
      - eapply Forall_impl; [exact Hf|apply base58_printable].
      - apply Forall_app. split; [by repeat constructor|].
        eapply Forall_impl; [exact He|]. cbn. tauto. }
  rewrite strip_while_id_head by done. rewrite of_to_bytes.
  change ("?" ++ of_bytes e)%string with (String "?" (of_bytes e)).
  rewrite cut_app_char, Hh by done. by apply trim_set_id.
Qed.
