(* ===== verification/Wire.v ===== *)
(** * Wire: the handshake payloads of [internal/protocol/protocol.go]

    The records that travel as JSON inside frames.  A Go pointer field is an
    option.  JSON itself is the class [Codec]. *)

From S2P Require Import Prelude.

Record TPMAttestation : Type := mkAtt {
  AKCert : bytes;
  EKCert : bytes;
  ManufacturerCA : bytes;
  Manufacturer : string;
  TPMVersion : string;
}.

Record IdentityProof : Type := mkProof {
  ip_Backend : string;
  ip_MachineID : string;
  ip_PublicKey : bytes;
  ip_NodePublicKey : bytes;
  ip_NodeSignature : bytes;
  ip_TimeWindow : Z;
  ip_Signature : bytes;
}.

Record PairRequest : Type := mkPairRequest {
  pr_Version : Z;
  pr_NodeID : string;
  pr_InviteID : bytes;
  pr_Proof : bytes;
  pr_Mode : string;
  pr_Label : string;
  pr_Protocol : string;
  pr_TargetPort : Z;
  pr_Attestation : option TPMAttestation;
  pr_Identity : option IdentityProof;
}.

Record PairResponse : Type := mkPairResponse {
  ps_OK : bool;
  ps_Message : string;
  ps_HostLabel : string;
  ps_SessionToken : bytes;
  ps_Protocol : string;
  ps_TargetPort : Z;
  ps_IrohTicket : string;
  ps_Attestation : option TPMAttestation;
  ps_Identity : option IdentityProof;
}.

Record TunnelHello : Type := mkTunnelHello {
  th_Version : Z;
  th_NodeID : string;
  th_Method : string;
  th_SessionToken : bytes;
  th_TargetHost : string;
  th_TargetPort : Z;
  th_StreamID : string;
}.

Record TunnelReady : Type := mkTunnelReady {
  tr_HostLabel : string;
  tr_Status : Z;
  tr_Message : string;
}.

Record TunnelError : Type := mkTunnelError { te_Reason : string }.

Record TunnelPing : Type := mkTunnelPing { ping_TimeUnix : Z }.
Record TunnelPong : Type := mkTunnelPong { pong_TimeUnix : Z }.

#[export] Instance TPMAttestation_eq_dec : EqDecision TPMAttestation.
Proof. solve_decision. Defined.
#[export] Instance IdentityProof_eq_dec : EqDecision IdentityProof.
Proof. solve_decision. Defined.
#[export] Instance PairRequest_eq_dec : EqDecision PairRequest.
Proof. solve_decision. Defined.
#[export] Instance PairResponse_eq_dec : EqDecision PairResponse.
Proof. solve_decision. Defined.
#[export] Instance TunnelHello_eq_dec : EqDecision TunnelHello.
Proof. solve_decision. Defined.

(** [json.Marshal] and [protocol.Decode] of one payload type. *)
Class Codec (A : Type) : Type := {
  marshal : A -> res bytes;
  unmarshal : bytes -> res A;
}.
