(* ===== verification/Identity.v ===== *)
(** * Identity: machine identities of [internal/identity]

    Thumbprints, machine ids, proof signatures and their verification
    ([identity.go]), and the software key file ([software.go]).  X.509, SHA-256
    and the signature schemes are the class [Crypto]. *)

From S2P Require Import Prelude GoStrings Crypto.

Definition BackendTPM : string := "tpm".
Definition BackendSoftware : string := "software".

Record AttestationBundle : Type := mkBundle {
  AKCert : bytes;
  EKCert : bytes;
  ManufacturerCA : bytes;
  Manufacturer : string;
  TPMVersion : string;
}.

Section Identity.
Context `{Crypto}.

(** [Identity]: the libp2p private key (raw ed25519 bytes) and the platform
    signer, which maps a digest to a signature. *)
Record Identity : Type := mkIdentity {
  PrivKey : option bytes;
  Signer : option (bytes -> res bytes);
  Backend : string;
  Attestation : option AttestationBundle;
}.

Definition hex_upper (b : bytes) : string := to_upper (hex_encode b).

Definition AttestationKeyThumbprint (a : option AttestationBundle) : string :=
  match a with
  | None => ""
  | Some a =>
    if bool_decide (AKCert a = []) then ""
    else match ParseCertificate (AKCert a) with
         | Err _ => ""
         | Ok c =>
           if bool_decide (RawSubjectPublicKeyInfo c = []) then ""
           else hex_upper (sha256 (RawSubjectPublicKeyInfo c))
         end
  end.

Definition PublicKeyThumbprint (raw : bytes) : string :=
  if bool_decide (raw = []) then "" else hex_upper (sha256 raw).

Definition PublicKeyRaw (id : option Identity) : bytes :=
  match id ≫= PrivKey with
  | None => []
  | Some k => ed25519_public k
  end.

Definition MachineID (id : option Identity) : string :=
  match id with
  | None => ""
  | Some i =>
    let thumb := match Attestation i with
                 | Some a => AttestationKeyThumbprint (Some a)
                 | None => "" end in
    if bool_decide (thumb <> "") then thumb
    else match PrivKey i with
         | None => ""
         | Some k => PublicKeyThumbprint (ed25519_public k)
         end
  end.

Definition SignProof (id : option Identity) (message : bytes) : res bytes :=
  match id with
  | None => Err "identity unavailable"
  | Some i =>
    match Signer i with
    | Some sign => sign (sha256 message)
    | None =>
      match PrivKey i with
      | None => Err "identity private key unavailable"
      | Some k => ed25519_sign k message
      end
    end
  end.

Definition VerifyTPMProof (att : option AttestationBundle) (machineID : string)
    (message signature : bytes) : res unit :=
  match att with
  | None => Err "missing TPM attestation certificate"
  | Some a =>
    if bool_decide (AKCert a = []) then Err "missing TPM attestation certificate"
    else
      let got := AttestationKeyThumbprint att in
      if bool_decide (got = "") || negb (equal_fold got machineID)
      then Err "TPM attestation key thumbprint does not match machine ID"
      else
        c ← wrap_err "parse AK cert: " (ParseCertificate (AKCert a));
        match cert_ecdsa c with
        | None => Err "AK cert public key is not ECDSA"
        | Some pub =>
          if ecdsa_VerifyASN1 pub (sha256 message) signature then Ok tt
          else Err "TPM identity signature invalid"
        end
  end.

Definition VerifySoftwareProof (publicKeyRaw : bytes) (machineID : string)
    (message signature : bytes) : res unit :=
  if bool_decide (publicKeyRaw = []) then Err "missing software public key"
  else
    let got := PublicKeyThumbprint publicKeyRaw in
    if bool_decide (got = "") || negb (equal_fold got machineID)
    then Err "software public key thumbprint does not match machine ID"
    else
      pub ← wrap_err "decode software public key: " (UnmarshalEd25519PublicKey publicKeyRaw);
      ok ← wrap_err "verify software identity signature: "
             (ed25519_verify pub message signature);
      if ok : bool then Ok tt else Err "software identity signature invalid".

(** [LoadOrCreateSoftware].  [file] is what [os.ReadFile] returned; on a
    read error a key is generated ([gen]) and written ([write]: the
    [os.WriteFile] error).  The result carries the file contents after. *)
Definition LoadOrCreateSoftware (mkdir : res unit) (file : res string)
    (gen : res bytes) (write : res unit) : res (Identity * res string) :=
  _ ← mkdir;
  match file with
  | Ok data =>
    raw ← wrap_err "decode key: " (of_option "encoding/hex: invalid byte" (hex_decode data));
    priv ← wrap_err "unmarshal key: " (UnmarshalEd25519PrivateKey raw);
    Ok (mkIdentity (Some priv) None BackendSoftware None, file)
  | Err _ =>
    raw ← gen;
    priv ← UnmarshalEd25519PrivateKey raw;
    _ ← wrap_err "save key: " write;
    Ok (mkIdentity (Some priv) None BackendSoftware None, Ok (hex_encode raw))
  end.
End Identity.

(** ** Lemmas *)

Lemma equal_fold_refl s : equal_fold s s = true.
Proof. unfold equal_fold. by apply bool_decide_eq_true. Qed.

Lemma hex_bytes_length l : length (hex_bytes l) = (2 * length l)%nat.
Proof. induction l as [|b l IH]; cbn [hex_bytes length]; [done|]. rewrite IH. lia. Qed.

Lemma upper_bytes_nonempty b l : upper_bytes (b :: l) <> [].
Proof. destruct b; cbn; try done; destruct l as [|b' l]; try done; destruct b'; try done. Qed.

Section IdentityLemmas.
Context `{CryptoLaws}.

Lemma hex_upper_nonempty m : hex_upper (sha256 m) <> ""%string.
Proof.
  unfold hex_upper, to_upper, hex_encode. rewrite to_of_bytes.
  pose proof (sha256_length m) as Hl. destruct (sha256 m) as [|b l]; [done|].
  cbn [hex_bytes]. pose proof (upper_bytes_nonempty (hex_digit (b2z b / 16))
    (hex_digit (b2z b mod 16) :: hex_bytes l)) as Hn.
  by destruct (upper_bytes _).
Qed.

Lemma VerifySoftwareProof_ok pk mid msg sig :
  VerifySoftwareProof pk mid msg sig = Ok tt <->
  pk <> [] /\ equal_fold (PublicKeyThumbprint pk) mid = true /\
  UnmarshalEd25519PublicKey pk = Ok pk /\ ed25519_verify pk msg sig = Ok true.
Proof.
  unfold VerifySoftwareProof. case_bool_decide as Hn; [by split; [|intros [? _]]|].
  assert (Ht : PublicKeyThumbprint pk <> ""%string).
  { unfold PublicKeyThumbprint. rewrite bool_decide_eq_false_2 by done.
    apply hex_upper_nonempty. }
  rewrite (bool_decide_eq_false_2 (_ = ""%string)) by done. cbn [orb].
  destruct (equal_fold _ mid) eqn:Ef; cbn [negb].
  2:{ split; [done|]. by intros (_ & ? & _). }
  destruct (UnmarshalEd25519PublicKey pk) as [k|e] eqn:Eu; cbn.
  2:{ split; [done|]. by intros (_ & _ & ? & _). }
  apply unmarshal_pub_ok in Eu as Hk. subst k.
  destruct (ed25519_verify pk msg sig) as [[|]|e]; cbn; naive_solver.
Qed.

(** What a loaded or created software identity signs verifies under its own
    public key and machine id. *)
Lemma software_proof_verifies k msg sig raw :
  UnmarshalEd25519PrivateKey raw = Ok k ->
  let id := Some (mkIdentity (Some k) None BackendSoftware None) in
  SignProof id msg = Ok sig ->
  VerifySoftwareProof (PublicKeyRaw id) (MachineID id) msg sig = Ok tt.
Proof.
  intros Hk id Hs. destruct (ed25519_pub_ok raw k Hk) as [Hu Hne].
  apply VerifySoftwareProof_ok. cbn in *. split; [done|].
  split; [apply equal_fold_refl|]. split; [done|]. by eapply ed25519_sign_verify.
Qed.

Lemma VerifyTPMProof_ok att mid msg sig :
  VerifyTPMProof att mid msg sig = Ok tt <->
  exists a c pub, att = Some a /\ ParseCertificate (AKCert a) = Ok c /\
    cert_ecdsa c = Some pub /\ RawSubjectPublicKeyInfo c <> [] /\ AKCert a <> [] /\
    equal_fold (hex_upper (sha256 (RawSubjectPublicKeyInfo c))) mid = true /\
    ecdsa_VerifyASN1 pub (sha256 msg) sig = true.
Proof.
  unfold VerifyTPMProof, AttestationKeyThumbprint.
  destruct att as [a|]; [|split; [done|by intros (? & ? & ? & ? & _)]].
  assert (Hno : forall e, (Err e = Ok tt <-> exists a' c pub, Some a = Some a' /\
    ParseCertificate (AKCert a') = Ok c /\ cert_ecdsa c = Some pub /\
    RawSubjectPublicKeyInfo c <> [] /\ AKCert a' <> [] /\
    equal_fold (hex_upper (sha256 (RawSubjectPublicKeyInfo c))) mid = true /\
    ecdsa_VerifyASN1 pub (sha256 msg) sig = true) <->
    ~ exists c pub, ParseCertificate (AKCert a) = Ok c /\ cert_ecdsa c = Some pub /\
      RawSubjectPublicKeyInfo c <> [] /\ AKCert a <> [] /\
      equal_fold (hex_upper (sha256 (RawSubjectPublicKeyInfo c))) mid = true /\
      ecdsa_VerifyASN1 pub (sha256 msg) sig = true).
  { intros e. split.
    - intros [_ Hx] (c & pub & Hr). discriminate Hx. by exists a, c, pub.
    - intros Hn. split; [done|]. intros (a' & c & pub & [= <-] & Hr). destruct Hn. eauto. }
  case_bool_decide as Hn; [apply Hno; intros (? & ? & ? & ? & ? & ? & _); congruence|].
  rewrite ?(bool_decide_eq_false_2 (AKCert a = [])) by done. cbn iota.
  destruct (ParseCertificate (AKCert a)) as [c|e] eqn:Ec.
  2:{ rewrite (bool_decide_eq_true_2 (@eq string _ _)) by done. apply Hno. intros (? & ? & ? & _). congruence. }
  destruct (decide (RawSubjectPublicKeyInfo c = [])) as [Hk|Hk].
  { rewrite (bool_decide_eq_true_2 (RawSubjectPublicKeyInfo c = [])) by done. apply Hno.
    intros (? & ? & ? & ? & ? & _). congruence. }
  rewrite (bool_decide_eq_false_2 (RawSubjectPublicKeyInfo c = [])) by done.
  rewrite bool_decide_eq_false_2 by apply hex_upper_nonempty. cbn [orb].
  destruct (equal_fold _ mid) eqn:Ef; cbn.
  2:{ apply Hno. intros (? & ? & ? & ? & ? & ? & ? & _). congruence. }
  destruct (cert_ecdsa c) as [pub|] eqn:Ep; [|apply Hno; intros (? & ? & ? & ? & _); congruence].
  destruct (ecdsa_VerifyASN1 _ _ _) eqn:Ev.
  - split; [|done]. intros _. by exists a, c, pub.
  - apply Hno. intros (? & ? & ? & ? & ? & ? & ? & ?). congruence.
Qed.

(** The key file written by a creation is read back as the same key. *)
Lemma software_key_file_reload mkdir e gen write id file mkdir' gen' write' :
  LoadOrCreateSoftware mkdir (Err e) gen write = Ok (id, file) -> mkdir' = Ok tt ->
  LoadOrCreateSoftware mkdir' file gen' write' = Ok (id, file).
Proof.
  unfold LoadOrCreateSoftware. intros Hl ->.
  destruct mkdir as [[]|]; [|done]. destruct gen as [raw|]; [|done]. cbn in Hl.
  destruct (UnmarshalEd25519PrivateKey raw) as [k|] eqn:Ek; [|done]. cbn in Hl.
  destruct write as [[]|]; [|done]. cbn in Hl. simplify_eq.
  cbn. rewrite hex_decode_encode. cbn. by rewrite Ek.
Qed.
End IdentityLemmas.

(** ** Properties *)

(** C31: a software identity proves itself, and only itself.  A key file that is
    created and then loaded again yields the same identity; a proof it signs
    is accepted for its machine id; and every accepted software proof is a
    signature by the presented key, whose thumbprint is the claimed machine
    id. *)
Theorem software_identity_sound `{CryptoLaws} e gen write id file msg sig
  (Hnew : LoadOrCreateSoftware (Ok tt) (Err e) gen write = Ok (id, file))
  (Hsig : SignProof (Some id) msg = Ok sig) :
  (forall gen' write', LoadOrCreateSoftware (Ok tt) file gen' write' = Ok (id, file)) /\
  VerifySoftwareProof (PublicKeyRaw (Some id)) (MachineID (Some id)) msg sig = Ok tt /\
  (forall pk mid m s, VerifySoftwareProof pk mid m s = Ok tt ->
     ed25519_verify pk m s = Ok true /\ equal_fold (PublicKeyThumbprint pk) mid = true).
Proof.
  split; [intros; by eapply software_key_file_reload|]. split.
  - unfold LoadOrCreateSoftware in Hnew. cbn in Hnew.
    destruct gen as [raw|]; [|done]. cbn in Hnew.
    destruct (UnmarshalEd25519PrivateKey raw) as [k|] eqn:Ek; [|done]. cbn in Hnew.
    destruct write as [[]|]; [|done]. cbn in Hnew. simplify_eq.
    by apply (software_proof_verifies k msg sig raw).
  - intros pk mid m s Hv. apply VerifySoftwareProof_ok in Hv as (_ & ? & _ & ?). done.
Qed.

Lemma software_identity_sound_witness :
  let raw := repeat x05 32 in
  let id := mkIdentity (Some raw) None BackendSoftware None in
  (forall gen' write',
     LoadOrCreateSoftware (Ok tt) (Ok (hex_encode raw)) gen' write'
     = Ok (id, Ok (hex_encode raw))) /\
  VerifySoftwareProof (PublicKeyRaw (Some id)) (MachineID (Some id)) [x2a] (x01 :: raw ++ [x2a]) = Ok tt /\
  (forall pk mid m s, VerifySoftwareProof pk mid m s = Ok tt ->
     ed25519_verify pk m s = Ok true /\ equal_fold (PublicKeyThumbprint pk) mid = true).
Proof.
  apply (software_identity_sound "no such file" (Ok (repeat x05 32)) (Ok tt)).
  - reflexivity.
  - reflexivity.
Defined.
