(* ===== verification/Tpm.v ===== *)
(** * Tpm: the TPM identity on Linux and the choice of the identity

    [LoadOrCreateTPM] of [internal/identity/tpm_linux_real.go], with its key
    and certificate files and the tpm2-tools it runs, [Load] of [load.go],
    and the check of a certificate chain ([Verify] of [identity.go]).  The
    tools, X.509 and PEM are arguments. *)

From stdpp Require Import gmap.
From S2P Require Import Prelude GoStrings Crypto Identity.

(** The files of the identity directory, by name. *)
Notation files := (gmap string bytes).

(** What a start meets.  A tool changes the files and may fail with a message
    ([runTPM2]). *)
Record tpm_env : Type := mkTpmEnv {
  te_mkdir : option string;
  te_device : bool;                                     (** [hasTPMDevice] *)
  te_lookpath : option string;                          (** [tpm2_createprimary] in the path *)
  te_run : string -> list string -> files -> files * option string;
  te_pem : bytes -> option bytes;                       (** [pem.Decode] *)
  te_pkix : bytes -> res (option bytes);                (** [ParsePKIXPublicKey]: an ECDSA key or another *)
  te_now : Z;
  te_NotAfter : bytes -> Z;                             (** of a certificate that parses *)
  te_serial : res Z;
  te_create : Z -> bytes -> res bytes;                  (** [CreateCertificate] for the public key *)
  te_write : option (string * option bytes);            (** [WriteFile] of the certificate fails, with what it left *)
  te_manufacturer : string;                             (** [linuxTPMManufacturer] *)
}.

(** [tpm2ToolKey] *)
Record tpm2ToolKey : Type := mkToolKey { tk_ctxPath : string; tk_pub : bytes }.

Definition primary : string := "tpm_primary.ctx".
Definition pubFile : string := "tpm_key.pub".
Definition privFile : string := "tpm_key.priv".
Definition keyCtx : string := "tpm_key.ctx".
Definition pubPEM : string := "tpm_public.pem".
Definition linuxTPMCertFile : string := "tpm_identity.cer".

Definition newTPM2ToolKey (e : tpm_env) (fs : files) (ctxPath pem : string) : res tpm2ToolKey :=
  match fs !! pem with
  | None => Err "no such file or directory"
  | Some data =>
    match te_pem e data with
    | None => Err "decode TPM public PEM"
    | Some block =>
      pub ← te_pkix e block;
      match pub with
      | None => Err "TPM public key is of another kind, want ECDSA"
      | Some pub => Ok (mkToolKey ctxPath pub)
      end
    end
  end.

(** [runTPM2] with the error the caller makes of it. *)
Definition tool (e : tpm_env) (what name : string) (args : list string) (fs : files) : files * option string :=
  let '(fs, err) := te_run e name args fs in
  (fs, option_map (fun msg => (what ++ ": " ++ name ++ ": " ++ msg)%string) err).

(** The tools that create the key, in order; the first error ends it. *)
Fixpoint tools (e : tpm_env) (calls : list (string * string * list string)) (fs : files) : files * option string :=
  match calls with
  | [] => (fs, None)
  | (what, name, args) :: calls =>
    let '(fs, err) := tool e what name args fs in
    match err with Some err => (fs, Some err) | None => tools e calls fs end
  end.

Definition key_calls : list (string * string * list string) :=
  [("create TPM primary", "tpm2_createprimary", ["-C"; "o"; "-G"; "ecc"; "-c"; primary]);
   ("create TPM key", "tpm2_create", ["-C"; primary; "-G"; "ecc"; "-u"; pubFile; "-r"; privFile]);
   ("load TPM key", "tpm2_load", ["-C"; primary; "-u"; pubFile; "-r"; privFile; "-c"; keyCtx]);
   ("read TPM public key", "tpm2_readpublic", ["-c"; keyCtx; "-o"; pubPEM; "-f"; "pem"])]%string.

Definition loadOrCreateLinuxTPMKey (e : tpm_env) (fs : files) : files * res tpm2ToolKey :=
  if bool_decide (is_Some (fs !! keyCtx)) && bool_decide (is_Some (fs !! pubPEM))
  then (fs, newTPM2ToolKey e fs keyCtx pubPEM)
  else
    let '(fs, err) := tools e key_calls fs in
    match err with
    | Some err => (fs, Err err)
    | None => (fs, newTPM2ToolKey e fs keyCtx pubPEM)
    end.

Section Tpm.
Context `{Crypto}.

(** A certificate on disk that parses and has not expired is used. *)
Definition usable_cert (e : tpm_env) (fs : files) : option bytes :=
  der ← fs !! linuxTPMCertFile;
  if is_ok (ParseCertificate der) && (te_now e <? te_NotAfter e der) then Some der else None.

Definition loadOrCreateLinuxTPMCert (e : tpm_env) (fs : files) (key : tpm2ToolKey) : files * res bytes :=
  match usable_cert e fs with
  | Some der => (fs, Ok der)
  | None =>
    match te_serial e with
    | Err err => (fs, Err err)
    | Ok serial =>
      match te_create e serial (tk_pub key) with
      | Err err => (fs, Err ("create TPM cert: " ++ err)%string)
      | Ok der =>
        match te_write e with
        | Some (err, left_) => (partial_alter (fun old => match left_ with Some b => Some b | None => old end) linuxTPMCertFile fs, Err err)
        | None =>
          let fs := <[linuxTPMCertFile := der]> fs in
          (fs, match ParseCertificate der with Err err => Err err | Ok _ => Ok der end)
        end
      end
    end
  end.

(** The signer of a key is the tool; it takes the digest. *)
Definition LoadOrCreateTPM (e : tpm_env) (sign : tpm2ToolKey -> bytes -> res bytes) (fs : files) : files * res Identity :=
  match te_mkdir e with
  | Some err => (fs, Err err)
  | None =>
    if negb (te_device e) then (fs, Err "no TPM device found")
    else match te_lookpath e with
         | Some err => (fs, Err ("tpm2-tools not installed: " ++ err)%string)
         | None =>
           let '(fs, key) := loadOrCreateLinuxTPMKey e fs in
           match key with
           | Err err => (fs, Err err)
           | Ok key =>
             let '(fs, cert) := loadOrCreateLinuxTPMCert e fs key in
             match cert with
             | Err err => (fs, Err err)
             | Ok der => (fs, Ok (mkIdentity None (Some (sign key)) BackendTPM
                                    (Some (mkBundle der [] [] (te_manufacturer e) "2.0"))))
             end
           end
         end
  end.

(** [Load]: the TPM identity, or else the software one. *)
Definition Load (e : tpm_env) (sign : tpm2ToolKey -> bytes -> res bytes) (fs : files) (software : files -> files * res Identity)
  : files * res Identity :=
  match te_mkdir e with
  | Some err => (fs, Err ("identity dir: " ++ err)%string)
  | None =>
    let '(fs, id) := LoadOrCreateTPM e sign fs in
    match id with Ok id => (fs, Ok id) | Err _ => software fs end
  end.

(** [tpm2ToolKey.Sign]; [hash] is the name and the size of the hash the caller
    says it used, [temp] the outcome of the temporary directory and of
    writing the digest there, [run] the error of [tpm2_sign], [raw] the
    signature file read, [marshal] the ASN.1 of the two halves.  The result has the digest signed. *)
Definition Sign (hash : option (string * nat)) (digest : bytes) (temp : option string)
    (run : string -> bytes -> option string) (raw : res bytes) (marshal : bytes -> bytes -> res bytes) : res bytes :=
  let digest := match hash with
                | Some (_, size) => if bool_decide (length digest <> size) then sha256 digest else digest
                | None => digest
                end in
  match temp with
  | Some err => Err err
  | None =>
    let alg := match hash with Some (name, _) => if bool_decide (name = "SHA-384") then "sha384" else "sha256" | None => "sha256" end%string in
    match run alg digest with
    | Some err => Err ("TPM sign: " ++ err)%string
    | None =>
      raw ← raw;
      if negb (length raw mod 2 =? 0)%nat then Err ("unexpected TPM signature length " ++ itoa (Z.of_nat (length raw)))%string
      else let half := (length raw / 2)%nat in marshal (take half raw) (drop half raw)
    end
  end.
End Tpm.

(** ** The certificate chain *)

(** The keys [MarshalPKIXPublicKey] may be given: that of a certificate, or a
    libp2p key (which wraps the ECDSA key). *)
Inductive any_key : Type :=
  | CertKey (c : cert)
  | Libp2pKey (k : bytes).

Record chain_lib : Type := mkChainLib {
  cl_Verify : cert -> list cert -> list cert -> option string;   (** leaf, roots, intermediates *)
  cl_MarshalPKIX : any_key -> res bytes;
  cl_UnmarshalECDSA : bytes -> res bytes;                        (** libp2p's *)
}.

Section Chain.
Context `{Crypto} (lib : chain_lib).

Definition equalPublicKeys (libp2pPubRaw : bytes) (c : cert) : bool :=
  match cl_MarshalPKIX lib (CertKey c) with
  | Err _ => false
  | Ok certDER =>
    match cl_UnmarshalECDSA lib libp2pPubRaw with
    | Err _ => false
    | Ok k => match cl_MarshalPKIX lib (Libp2pKey k) with
              | Err _ => false
              | Ok der => bool_decide (certDER = der)
              end
    end
  end.

(** [Verify]; an identity without a private key is a nil interface. *)
Definition Verify (a : option AttestationBundle) (id : Identity) : outcome (res unit) :=
  match a with
  | None => Return (Err "no attestation bundle")
  | Some a =>
    let certs :=
      mfrCA ← wrap_err "parse manufacturer CA: " (ParseCertificate (ManufacturerCA a));
      ekCert ← wrap_err "parse EK cert: " (ParseCertificate (EKCert a));
      akCert ← wrap_err "parse AK cert: " (ParseCertificate (AKCert a));
      match cl_Verify lib ekCert [mfrCA] [] with
      | Some err => Err ("EK cert not signed by manufacturer CA: " ++ err)%string
      | None => match cl_Verify lib akCert [mfrCA] [ekCert] with
                | Some err => Err ("AK cert chain invalid: " ++ err)%string
                | None => Ok akCert
                end
      end in
    match certs with
    | Err err => Return (Err err)
    | Ok akCert =>
      match PrivKey id with
      | None => Panic "nil pointer dereference"
      | Some k =>
        match cl_MarshalPKIX lib (CertKey akCert) with
        | Err err => Return (Err ("marshal AK public key: " ++ err)%string)
        | Ok _ => Return (if equalPublicKeys (ed25519_public k) akCert then Ok tt
                          else Err "identity public key does not match AK cert public key")
        end
      end
    end
  end.

(** [MarshalPKIXPublicKey] takes the standard library's key types only, so the
    comparison with a libp2p key fails and no bundle is ever accepted. *)
Lemma Verify_never_accepts a id :
  (forall k, exists err, cl_MarshalPKIX lib (Libp2pKey k) = Err err) -> Verify a id <> Return (Ok tt).
Proof.
  intros Hm. unfold Verify. destruct a as [a|]; [|done]. cbv zeta. destruct (_ ≫= _) as [ak|]; [|done].
  destruct (PrivKey id) as [k|]; [|done]. destruct (cl_MarshalPKIX lib (CertKey ak)) eqn:E; [|done].
  unfold equalPublicKeys. rewrite E. destruct (cl_UnmarshalECDSA lib (ed25519_public k)) as [k'|]; [|done].
  by destruct (Hm k') as [err ->].
Qed.
End Chain.

(** ** Lemmas *)

Section TpmFacts.
Context `{Crypto}.

(** A key that was loaded or created can be loaded again. *)
Lemma key_again e fs fs' key :
  (forall fs1 fs2, tools e key_calls fs1 = (fs2, None) -> is_Some (fs2 !! keyCtx) /\ is_Some (fs2 !! pubPEM)) ->
  loadOrCreateLinuxTPMKey e fs = (fs', Ok key) ->
  is_Some (fs' !! keyCtx) /\ is_Some (fs' !! pubPEM) /\ newTPM2ToolKey e fs' keyCtx pubPEM = Ok key.
Proof.
  intros Ht. unfold loadOrCreateLinuxTPMKey.
  destruct (bool_decide (is_Some (fs !! keyCtx)) && bool_decide (is_Some (fs !! pubPEM))) eqn:E.
  - apply andb_true_iff in E as [Hk%bool_decide_eq_true Hp%bool_decide_eq_true]. by intros [= <- ->].
  - destruct (tools e key_calls fs) as [fs1 [err|]] eqn:Et; [done|]. intros [= <- ->]. by destruct (Ht _ _ Et).
Qed.

(** A certificate that was loaded or created is on the disk. *)
Lemma cert_again e fs key fs' der :
  loadOrCreateLinuxTPMCert e fs key = (fs', Ok der) ->
  fs' !! linuxTPMCertFile = Some der /\ is_ok (ParseCertificate der) = true /\
  (forall name, name <> linuxTPMCertFile -> fs' !! name = fs !! name).
Proof.
  unfold loadOrCreateLinuxTPMCert, usable_cert. destruct (fs !! linuxTPMCertFile) as [d|] eqn:Ed; cbn.
  - destruct (is_ok (ParseCertificate d) && (te_now e <? te_NotAfter e d)) eqn:Eu.
    { intros [= <- <-]. by apply andb_true_iff in Eu as [? _]. }
    destruct (te_serial e) as [n|]; [|done]. destruct (te_create e n (tk_pub key)) as [new|]; [|done].
    destruct (te_write e) as [[]|]; [done|]. destruct (ParseCertificate new) eqn:Ep; [|done]. intros [= <- <-].
    rewrite lookup_insert_eq, Ep. split; [done|]. split; [done|]. intros. by apply lookup_insert_ne.
  - destruct (te_serial e) as [n|]; [|done]. destruct (te_create e n (tk_pub key)) as [new|]; [|done].
    destruct (te_write e) as [[]|]; [done|]. destruct (ParseCertificate new) eqn:Ep; [|done]. intros [= <- <-].
    rewrite lookup_insert_eq, Ep. split; [done|]. split; [done|]. intros. by apply lookup_insert_ne.
Qed.

(** A later start on the same machine. *)
Record later (e e' : tpm_env) : Prop := {
  lt_mkdir : te_mkdir e' = None;
  lt_device : te_device e' = true;
  lt_lookpath : te_lookpath e' = None;
  lt_pem : te_pem e' = te_pem e;
  lt_pkix : te_pkix e' = te_pkix e;
  lt_NotAfter : te_NotAfter e' = te_NotAfter e;
  lt_manufacturer : te_manufacturer e' = te_manufacturer e;
}.
End TpmFacts.

(** ** Properties *)


(** A machine with a TPM: loading writes the context, reading the public key
    its PEM file. *)
Definition sample_tpm : tpm_env :=
  mkTpmEnv None true None
    (fun name args fs => if bool_decide (name = "tpm2_load") then (<[keyCtx := [x01]]> fs, None)
                         else if bool_decide (name = "tpm2_readpublic") then (<[pubPEM := [x07]]> fs, None) else (fs, None))
    Some (fun b => Ok (Some b)) 0 (fun _ => 100) (Ok 5) (fun _ pub => Ok (x30 :: pub)) None "Linux TPM 2.0".

(** The next start: nothing can be created. *)
Definition sample_tpm_later : tpm_env :=
  mkTpmEnv None true None (fun _ _ fs => (fs, Some "TPM is busy"%string)) Some (fun b => Ok (Some b)) 10 (fun _ => 100)
    (Err "no entropy") (fun _ _ => Err "no signature") (Some ("read-only file system"%string, None)) "Linux TPM 2.0".

Definition sample_signer (k : tpm2ToolKey) (digest : bytes) : res bytes := Ok (tk_pub k ++ digest).


(** A key that is made anew keeps the certificate of the old one: proofs are
    then signed with a key the certificate does not have. *)
Example recreated_key_keeps_certificate :
  let fs : files := <[linuxTPMCertFile := [x30; x09]]> ∅ in
  match LoadOrCreateTPM sample_tpm sample_signer fs with
  | (_, Ok id) => option_map AKCert (Attestation id) = Some [x30; x09] /\
                  option_map (fun s => s [x00]) (Signer id) = Some (Ok [x07; x00])
  | _ => False
  end.
Proof. by vm_compute. Qed.
