(* ===== verification/Proofs.v ===== *)
(** * Proofs: the mutual identity proofs of [internal/pairing/pairing.go]

    The signed transcript ([identityProofMessage]), the node-key binding
    ([identityBindingMessage]), making a proof ([localProof]), checking one
    ([verifyIdentityProof]) and comparing it with a stored identity
    ([verifyStoredIdentity]). *)

From S2P Require Import Prelude GoStrings Crypto Wire Rendezvous Identity.

(** ** Transcripts *)

(** [appendBytes] and [appendString]: a 32-bit length, then the bytes. *)
Definition lp (b : bytes) : bytes := be_put 4 (u32 (Z.of_nat (length b))) ++ b.
Definition lps (s : string) : bytes := lp (to_bytes s).

Definition identityProofMessage (role signerPeer verifierPeer : string)
    (inviteID inviteProof sessionToken : bytes) (mode : string) (window : Z) : bytes :=
  lps "DeskAccess identity proof v1" ++ lps role ++ lps signerPeer ++ lps verifierPeer ++
  lps mode ++ lp inviteID ++ lp inviteProof ++ lp sessionToken ++ be_put 8 (u64 window).

Definition identityBindingMessage (proofMessage : bytes) (proof : IdentityProof) : bytes :=
  lps "DeskAccess node identity binding v1" ++ lp proofMessage ++ lps (ip_Backend proof) ++
  lps (ip_MachineID proof) ++ lp (ip_PublicKey proof) ++ lp (ip_Signature proof).

Definition shortPeer (peerID : string) : string :=
  if (String.length peerID <=? 12)%nat then peerID
  else of_bytes (take 12 (to_bytes peerID)).

Definition attestationBundle (att : option TPMAttestation) : option AttestationBundle :=
  (fun a => mkBundle (Wire.AKCert a) (Wire.EKCert a) (Wire.ManufacturerCA a)
                     (Wire.Manufacturer a) (Wire.TPMVersion a)) <$> att.

Definition attestationForIdentity (id : option Identity) : option TPMAttestation :=
  (fun a => mkAtt (AKCert a) (EKCert a) (ManufacturerCA a)
                  (Manufacturer a) (TPMVersion a)) <$> (id ≫= Attestation).

Section Proofs.
Context `{Crypto}.

Definition tpmRootThumbprintFromAttestation (att : option TPMAttestation) : string :=
  match att with
  | None => ""
  | Some a => if bool_decide (Wire.ManufacturerCA a = []) then ""
              else hex_upper (sha256 (Wire.ManufacturerCA a))
  end.

(** The name of one certificate, as [vendorFromTPMCerts] picks it. *)
Definition cert_vendor (c : cert) : option string :=
  if bool_decide (Subject_Organization c <> []) then Some (join ", " (Subject_Organization c))
  else if bool_decide (Subject_CommonName c <> "") then Some (Subject_CommonName c)
  else if bool_decide (Issuer_Organization c <> []) then Some (join ", " (Issuer_Organization c))
  else if bool_decide (Issuer_CommonName c <> "") then Some (Issuer_CommonName c)
  else None.

Fixpoint vendor_loop (ders : list bytes) : string :=
  match ders with
  | [] => ""
  | der :: r =>
    if bool_decide (der = []) then vendor_loop r
    else match ParseCertificate der with
         | Err _ => vendor_loop r
         | Ok c => match cert_vendor c with Some v => v | None => vendor_loop r end
         end
  end.
Definition vendorFromTPMCerts (att : TPMAttestation) : string :=
  vendor_loop [Wire.EKCert att; Wire.ManufacturerCA att].

(** [identityInfoFromAttestation]: backend, hardware, vendor, TPM version,
    root thumbprint. *)
Definition identityInfoFromAttestation (att : option TPMAttestation)
  : string * bool * string * string * string :=
  match att with
  | None => (BackendSoftware, false, "", "", "")
  | Some a =>
    if bool_decide (Wire.Manufacturer a <> "") || bool_decide (Wire.TPMVersion a <> "")
       || bool_decide (Wire.AKCert a <> []) || bool_decide (Wire.EKCert a <> [])
    then
      let vendor := trim_space (Wire.Manufacturer a) in
      let vendor := if bool_decide (vendor = "") then vendorFromTPMCerts a else vendor in
      (BackendTPM, true, vendor, Wire.TPMVersion a, tpmRootThumbprintFromAttestation att)
    else (BackendSoftware, false, "", "", "")
  end.

(** ** Making a proof *)

(** [localProofIdentity]; [cfgKey] is [m.cfg.PrivateKeyBytes()]. *)
Definition localProofIdentity (identity : option Identity) (cfgKey : res bytes)
  : option Identity :=
  let own := match identity with
             | Some i => bool_decide (is_Some (Signer i)) || bool_decide (is_Some (PrivKey i))
             | None => false end in
  if own then identity
  else match cfgKey with
       | Err _ => None
       | Ok priv =>
         match UnmarshalEd25519PrivateKey priv with
         | Err _ => None
         | Ok key => Some (mkIdentity (Some key) None BackendSoftware None)
         end
       end.

(** [localNodeKey]: the key, its public bytes and the node id. *)
Definition localNodeKey (cfgKey : res bytes) : res (bytes * bytes * string) :=
  priv ← wrap_err "load node private key: " cfgKey;
  key ← wrap_err "decode node private key: " (UnmarshalEd25519PrivateKey priv);
  let raw := ed25519_public key in
  nodeID ← wrap_err "derive node id: " (IDFromPublicKey raw);
  Ok (key, raw, nodeID).

Definition localProof (identity : option Identity) (cfgKey : res bytes)
    (role signerPeer verifierPeer : string) (inviteID inviteProof sessionToken : bytes)
    (mode : string) (window : Z) : res IdentityProof :=
  let id := localProofIdentity identity cfgKey in
  match id with
  | None => Err "identity unavailable"
  | Some i =>
    '(nodeKey, nodePublicKey, nodePeerID) ← localNodeKey cfgKey;
    if bool_decide (signerPeer <> nodePeerID)
    then Err "identity proof signer does not match local node id"
    else
      let backend := if bool_decide (Backend i = "") then BackendSoftware else Backend i in
      let pk := if bool_decide (backend = BackendSoftware) then PublicKeyRaw id else [] in
      let mid := MachineID id in
      if bool_decide (mid = "") then Err "machine ID unavailable"
      else
        let msg := identityProofMessage role signerPeer verifierPeer inviteID inviteProof
                     sessionToken mode window in
        sig ← SignProof id msg;
        let proof := mkProof backend mid pk nodePublicKey [] window sig in
        nodeSig ← wrap_err "sign node identity binding: "
                    (ed25519_sign nodeKey (identityBindingMessage msg proof));
        Ok (mkProof backend mid pk nodePublicKey nodeSig window sig)
  end.

(** ** Checking a proof *)

Definition verifyNodeIdentityBinding (proof : IdentityProof) (signerPeer : string)
    (proofMessage : bytes) : res unit :=
  if bool_decide (ip_NodePublicKey proof = []) then Err "missing node public key binding"
  else if bool_decide (ip_NodeSignature proof = [])
  then Err "missing node identity binding signature"
  else
    nodePub ← wrap_err "decode node public key: "
                (UnmarshalEd25519PublicKey (ip_NodePublicKey proof));
    nodeID ← wrap_err "derive node id from identity binding: " (IDFromPublicKey nodePub);
    if bool_decide (nodeID <> signerPeer)
    then Err "identity proof signer does not match node public key"
    else
      ok ← wrap_err "verify node identity binding: "
             (ed25519_verify nodePub (identityBindingMessage proofMessage proof)
                (ip_NodeSignature proof));
      if ok : bool then Ok tt else Err "node identity binding signature invalid".

(** The freshness test: the proof's window is the current one or a
    neighbour ([int64] sums). *)
Definition window_fresh (window now : Z) : bool :=
  let w := TimeWindow now in
  existsb (fun offset => window =? i64 (w + offset)) [-1; 0; 1].

Definition verifyIdentityProof (now : Z) (proof : option IdentityProof)
    (att : option TPMAttestation) (role signerPeer verifierPeer : string)
    (inviteID inviteProof sessionToken : bytes) (mode : string) : res unit :=
  match proof with
  | None => Err "missing identity proof"
  | Some p =>
    if negb (window_fresh (ip_TimeWindow p) now) then Err "identity proof expired"
    else
      let msg := identityProofMessage role signerPeer verifierPeer inviteID inviteProof
                   sessionToken mode (ip_TimeWindow p) in
      _ ← verifyNodeIdentityBinding p signerPeer msg;
      if bool_decide (ip_Backend p = BackendTPM) then
        VerifyTPMProof (attestationBundle att) (ip_MachineID p) msg (ip_Signature p)
      else if bool_decide (ip_Backend p = BackendSoftware) || bool_decide (ip_Backend p = "")
      then VerifySoftwareProof (ip_PublicKey p) (ip_MachineID p) msg (ip_Signature p)
      else Err "unsupported identity proof backend"
  end.
End Proofs.

(** ** The stored identity of a paired machine *)

Definition software_key_mismatch : string := "software public key mismatch".

Definition verifyStoredIdentity (storedPublicKey storedMachineID : string)
    (proof : option IdentityProof) : res unit :=
  match proof with
  | None => Err "missing identity proof"
  | Some p =>
    let mid := trim_space storedMachineID in
    let pk := trim_space storedPublicKey in
    if bool_decide (mid = "") && bool_decide (pk = "")
    then Err "no stored identity for paired machine"
    else if bool_decide (mid <> "") && bool_decide (ip_MachineID p = "")
    then Err "peer did not present a machine ID"
    else if bool_decide (mid <> "") && negb (equal_fold mid (ip_MachineID p))
    then Err "machine ID mismatch"
    else if bool_decide (pk <> "") && (0 <? Z.of_nat (length (ip_PublicKey p)))
            && negb (equal_fold pk (hex_encode (ip_PublicKey p)))
    then Err software_key_mismatch
    else Ok tt
  end.

Definition canRepairStoredSoftwarePublicKey (err : option string) (storedMachineID : string)
    (proof : option IdentityProof) : bool :=
  match err, proof with
  | Some e, Some p =>
    if negb (contains e software_key_mismatch) then false
    else
      let mid := trim_space storedMachineID in
      if bool_decide (mid = "") || bool_decide (ip_MachineID p = "") then false
      else equal_fold mid (ip_MachineID p)
  | _, _ => false
  end.

Definition identityProofMachineID (proof : option IdentityProof) : string :=
  match proof with None => "" | Some p => trim_space (ip_MachineID p) end.

Definition identityProofPublicKeyHex (proof : option IdentityProof) : string :=
  match proof with
  | None => ""
  | Some p => if bool_decide (ip_PublicKey p = []) then "" else hex_encode (ip_PublicKey p)
  end.

(** ** Lemmas *)

Definition short (b : bytes) : Prop := Z.of_nat (length b) < 2 ^ 32.

Lemma lp_inj (b1 b2 r1 r2 : bytes) :
  short b1 -> short b2 -> lp b1 ++ r1 = lp b2 ++ r2 -> b1 = b2 /\ r1 = r2.
Proof.
  unfold lp, short. intros H1 H2 He. rewrite <- !app_assoc in He.
  apply app_inj_1 in He as [Hl He]; [|by rewrite !be_put_length].
  apply be_put_inj in Hl; [|apply Z.mod_pos_bound; lia|apply Z.mod_pos_bound; lia].
  unfold u32 in Hl. rewrite !wrap_small in Hl by lia.
  apply app_inj_1 in He; [done|lia].
Qed.

Lemma lps_inj s1 s2 (r1 r2 : bytes) :
  short (to_bytes s1) -> short (to_bytes s2) -> lps s1 ++ r1 = lps s2 ++ r2 ->
  s1 = s2 /\ r1 = r2.
Proof.
  unfold lps. intros H1 H2 He. destruct (lp_inj _ _ _ _ H1 H2 He) as [Hs Hr].
  split; [by apply to_bytes_inj|exact Hr].
Qed.

(** Peel the next length-prefixed field off an equation of transcripts. *)
Ltac peel H :=
  let Hf := fresh "Hf" in let Hr := fresh "Hr" in
  lazymatch type of H with
  | lps ?a ++ ?r = lps ?b ++ ?r' =>
    destruct (lps_inj a b r r' ltac:(assumption) ltac:(assumption) H) as [Hf Hr]
  | lp ?a ++ ?r = lp ?b ++ ?r' =>
    destruct (lp_inj a b r r' ltac:(assumption) ltac:(assumption) H) as [Hf Hr]
  end; clear H; rename Hr into H.

Lemma window_fresh_spec w now :
  - 2 ^ 62 <= TimeWindow now <= 2 ^ 62 ->
  window_fresh w now = true <->
  TimeWindow now - 1 <= w <= TimeWindow now + 1.
Proof.
  unfold window_fresh. cbv zeta. generalize (TimeWindow now). intros t Hr.
  change (2 ^ 62) with 4611686018427387904 in Hr.
  cbn [existsb]. rewrite !i64_small by (change (2 ^ 63) with 9223372036854775808; lia).
  rewrite !orb_true_iff, !Z.eqb_eq. intuition lia.
Qed.

Section ProofLemmas.
Context `{CryptoLaws}.

Lemma verifyNodeIdentityBinding_ok p signer msg :
  verifyNodeIdentityBinding p signer msg = Ok tt <->
  ip_NodePublicKey p <> [] /\ ip_NodeSignature p <> [] /\
  UnmarshalEd25519PublicKey (ip_NodePublicKey p) = Ok (ip_NodePublicKey p) /\
  IDFromPublicKey (ip_NodePublicKey p) = Ok signer /\
  ed25519_verify (ip_NodePublicKey p) (identityBindingMessage msg p)
    (ip_NodeSignature p) = Ok true.
Proof.
  unfold verifyNodeIdentityBinding.
  case_bool_decide as H1; [naive_solver|]. case_bool_decide as H2; [naive_solver|].
  destruct (UnmarshalEd25519PublicKey _) as [k|e] eqn:Eu; cbn; [|naive_solver].
  apply unmarshal_pub_ok in Eu as Hk. subst k.
  destruct (IDFromPublicKey _) as [id|e] eqn:Ei; cbn; [|naive_solver].
  case_bool_decide as H3; [naive_solver|].
  destruct (ed25519_verify _ _ _) as [[|]|e] eqn:Ev; cbn; [|naive_solver|naive_solver].
  destruct (decide (id = signer)); naive_solver.
Qed.

(** The signature and machine-id check of one backend. *)
Definition backend_proof_ok (p : IdentityProof) (att : option TPMAttestation)
    (msg : bytes) : Prop :=
  (ip_Backend p = BackendTPM /\
     VerifyTPMProof (attestationBundle att) (ip_MachineID p) msg (ip_Signature p) = Ok tt) \/
  ((ip_Backend p = BackendSoftware \/ ip_Backend p = "") /\
     VerifySoftwareProof (ip_PublicKey p) (ip_MachineID p) msg (ip_Signature p) = Ok tt).

Lemma verifyIdentityProof_ok now proof att role s v iid ipf tok mode :
  verifyIdentityProof now proof att role s v iid ipf tok mode = Ok tt <->
  exists p, proof = Some p /\ window_fresh (ip_TimeWindow p) now = true /\
    let msg := identityProofMessage role s v iid ipf tok mode (ip_TimeWindow p) in
    verifyNodeIdentityBinding p s msg = Ok tt /\ backend_proof_ok p att msg.
Proof.
  unfold verifyIdentityProof, backend_proof_ok. destruct proof as [p|]; [|naive_solver].
  destruct (window_fresh _ _) eqn:Ew; cbn [negb].
  2:{ split; [done|]. intros (? & [= <-] & ? & _). congruence. }
  set (msg := identityProofMessage _ _ _ _ _ _ _ _).
  destruct (verifyNodeIdentityBinding p s msg) as [[]|e] eqn:Eb; cbn.
  2:{ split; [done|]. intros (? & [= <-] & _ & ? & _). unfold msg in Eb. congruence. }
  split.
  - intros Hv. exists p. split; [done|]. split; [done|]. fold msg. split; [done|].
    case_bool_decide as H1; [by left|]. right.
    destruct (bool_decide (ip_Backend p = BackendSoftware)) eqn:E1; go_bool; [by split; [left|]|].
    destruct (bool_decide (ip_Backend p = "")) eqn:E2; go_bool; [|done]. by split; [right|].
  - intros (? & [= <-] & _ & _ & [[Hb Hv]|[Hb Hv]]); fold msg in Hv.
    + by rewrite bool_decide_eq_true_2.
    + rewrite bool_decide_eq_false_2 by (by destruct Hb as [->| ->]).
      destruct Hb as [->| ->]; done.
Qed.
End ProofLemmas.

Section HonestProof.
Context `{CryptoLaws}.

(** An identity without hardware: no platform signer, no attestation, and a
    private key that was unmarshalled. *)
Definition software_only (i : Identity) : Prop :=
  Signer i = None /\ Attestation i = None /\
  (Backend i = BackendSoftware \/ Backend i = "") /\
  forall k, PrivKey i = Some k -> exists raw, UnmarshalEd25519PrivateKey raw = Ok k.

Lemma localProofIdentity_software identity cfgKey i :
  (forall j, identity = Some j -> software_only j) ->
  localProofIdentity identity cfgKey = Some i -> software_only i /\ is_Some (PrivKey i).
Proof.
  intros Hsoft. unfold localProofIdentity. cbv zeta.
  assert (Hfb : match cfgKey with
            | Ok priv => match UnmarshalEd25519PrivateKey priv with
                         | Ok key => Some (mkIdentity (Some key) None BackendSoftware None)
                         | Err _ => None end
            | Err _ => None end = Some i -> software_only i /\ is_Some (PrivKey i)).
  { destruct cfgKey as [priv|]; [|done].
    destruct (UnmarshalEd25519PrivateKey priv) as [key|] eqn:Eu; [|done].
    intros Hi. injection Hi as <-. split; [|by eexists].
    split; [done|]. split; [done|]. split; [by left|]. cbn. intros k Hk. simplify_eq. eauto. }
  destruct identity as [j|]; [|exact Hfb].
  destruct (Hsoft j eq_refl) as (Hs & Hrest). rewrite Hs.
  change (bool_decide (is_Some (@None (bytes -> res bytes)))) with false. cbn [orb].
  case_bool_decide as Hpk; [|exact Hfb].
  intros Hj. injection Hj as <-. split; [by split|exact Hpk].
Qed.

Lemma software_only_verifies i msg sig :
  software_only i -> is_Some (PrivKey i) -> SignProof (Some i) msg = Ok sig ->
  VerifySoftwareProof (PublicKeyRaw (Some i)) (MachineID (Some i)) msg sig = Ok tt.
Proof.
  intros (Hs & Ha & _ & Hk) [k Hpk] Hsig. destruct (Hk k Hpk) as [raw Hraw].
  cbn in Hsig. rewrite Hs, Hpk in Hsig.
  pose proof (software_proof_verifies k msg sig raw Hraw Hsig) as Hv.
  unfold PublicKeyRaw, MachineID in *. cbn [mbind option_bind PrivKey Attestation] in *.
  rewrite Ha, Hpk. exact Hv.
Qed.
End HonestProof.

(** What [localProof] makes is accepted on the other side. *)
Lemma localProof_accepted `{CryptoLaws} identity cfgKey role s v iid ipf tok mode window p now att
  (Hsoft : forall i, identity = Some i -> software_only i)
  (Hp : localProof identity cfgKey role s v iid ipf tok mode window = Ok p)
  (Hnow : - 2 ^ 62 <= TimeWindow now <= 2 ^ 62)
  (Hw : TimeWindow now - 1 <= window <= TimeWindow now + 1) :
  verifyIdentityProof now (Some p) att role s v iid ipf tok mode = Ok tt /\
  (exists nodeKey pub, localNodeKey cfgKey = Ok (nodeKey, pub, s)).
Proof.
  unfold localProof in Hp.
  destruct (localProofIdentity identity cfgKey) as [i|] eqn:Ei; [|done].
  destruct (localProofIdentity_software _ _ _ Hsoft Ei) as [Hso Hpk].
  destruct (localNodeKey cfgKey) as [[[nk npk] nid]|] eqn:En; [|done]. cbn [mbind res_bind] in Hp.
  destruct (bool_decide (s <> nid)) eqn:Hid; [done|]. go_bool. apply dec_stable in Hid. subst nid.
  split; [|by eexists _, _].
  set (bk := if bool_decide (Backend i = "") then BackendSoftware else Backend i) in Hp.
  assert (Hbk : bk = BackendSoftware).
  { unfold bk. destruct Hso as (_ & _ & [->| ->] & _); reflexivity. }
  rewrite Hbk in Hp. rewrite (bool_decide_eq_true_2 (BackendSoftware = _)) in Hp by done.
  destruct (bool_decide (MachineID (Some i) = "")) eqn:Hmid; [done|].
  destruct (SignProof (Some i) _) as [sig|] eqn:Es; [|done]. cbn [mbind res_bind] in Hp.
  destruct (ed25519_sign nk _) as [nsig|] eqn:Ens; [|done]. cbn in Hp. injection Hp as <-.
  pose proof (software_only_verifies _ _ _ Hso Hpk Es) as Hv.
  unfold localNodeKey in En. destruct cfgKey as [priv|]; [|done]. cbn in En.
  destruct (UnmarshalEd25519PrivateKey priv) as [key|] eqn:Eu; [|done]. cbn in En.
  destruct (IDFromPublicKey _) as [nid|] eqn:Eid; [|done]. cbn in En. simplify_eq.
  destruct (ed25519_pub_ok priv nk Eu) as [Hup Hne].
  apply verifyIdentityProof_ok. eexists. split; [done|]. cbn [ip_TimeWindow].
  split; [by apply window_fresh_spec|]. split.
  - apply verifyNodeIdentityBinding_ok. cbn [ip_NodePublicKey ip_NodeSignature].
    split; [done|]. split; [by eapply ed25519_sig_nonempty|]. split; [done|]. split; [done|].
    by eapply ed25519_sign_verify.
  - right. split; [by left|]. exact Hv.
Qed.

(** ** Properties *)

(** The signed fields of a transcript. *)
Definition transcript_short (role signer verifier : string) (iid ipf tok : bytes)
    (mode : string) (window : Z) : Prop :=
  Forall short [to_bytes role; to_bytes signer; to_bytes verifier; iid; ipf; tok; to_bytes mode]
  /\ - 2 ^ 63 <= window < 2 ^ 63.

(** The signed transcripts are unambiguous.  Two identity transcripts with
    the same bytes agree on role, signer, verifier, invite id, invite proof,
    session token, mode and window; two node bindings with the same bytes
    agree on the transcript, the backend, the machine id, the public key and
    the signature; and no binding is a transcript, so a signature over one is
    never a signature over the other.  Fields are below 4 GiB. *)
Lemma transcripts_injective r1 s1 v1 i1 p1 t1 m1 w1 r2 s2 v2 i2 p2 t2 m2 w2 a b ma mb
  (H1 : transcript_short r1 s1 v1 i1 p1 t1 m1 w1)
  (H2 : transcript_short r2 s2 v2 i2 p2 t2 m2 w2)
  (Hb : Forall short [ma; mb; to_bytes (ip_Backend a); to_bytes (ip_Backend b);
          to_bytes (ip_MachineID a); to_bytes (ip_MachineID b); ip_PublicKey a;
          ip_PublicKey b; ip_Signature a; ip_Signature b]) :
  (identityProofMessage r1 s1 v1 i1 p1 t1 m1 w1 = identityProofMessage r2 s2 v2 i2 p2 t2 m2 w2 ->
   (r1, s1, v1, i1, p1, t1, m1, w1) = (r2, s2, v2, i2, p2, t2, m2, w2)) /\
  (identityBindingMessage ma a = identityBindingMessage mb b ->
   (ma, ip_Backend a, ip_MachineID a, ip_PublicKey a, ip_Signature a) =
   (mb, ip_Backend b, ip_MachineID b, ip_PublicKey b, ip_Signature b)) /\
  identityBindingMessage ma a <> identityProofMessage r1 s1 v1 i1 p1 t1 m1 w1.
Proof.
  destruct H1 as [H1 Hw1], H2 as [H2 Hw2].
  repeat match goal with H : Forall short (_ :: _) |- _ => inversion_clear H end.
  split; [|split].
  - unfold identityProofMessage. intros He. apply app_inv_head in He.
    do 7 peel He. apply (be_put_inj 8) in He; [|apply Z.mod_pos_bound; done|apply Z.mod_pos_bound; done].
    apply (u64_inj _ _ Hw1 Hw2) in He. by subst.
  - unfold identityBindingMessage. intros He. apply app_inv_head in He.
    rewrite <- (app_nil_r (lp (ip_Signature a))), <- (app_nil_r (lp (ip_Signature b))) in He.
    do 5 peel He. congruence.
  - unfold identityProofMessage, identityBindingMessage. intros He.
    apply (f_equal (take 4)) in He. revert He. unfold lps, lp.
    rewrite <- !app_assoc, !take_app_le, !take_ge by (by rewrite be_put_length).
    vm_compute. congruence.
Qed.

Lemma transcripts_injective_witness :
  let a := mkProof "software" "AB" [x01] [x02] [x03] 5 [x04] in
  (identityProofMessage "request" "h" "c" [x01] [x02] [] "pairing" 5
     = identityProofMessage "request" "h" "c" [x01] [x02] [] "pairing" 5 ->
   ("request", "h", "c", [x01], [x02], [], "pairing", 5)
     = ("request", "h", "c", [x01], [x02], [] : bytes, "pairing", 5)) /\
  (identityBindingMessage [x01] a = identityBindingMessage [x01] a ->
   ([x01], ip_Backend a, ip_MachineID a, ip_PublicKey a, ip_Signature a) =
   ([x01], ip_Backend a, ip_MachineID a, ip_PublicKey a, ip_Signature a)) /\
  identityBindingMessage [x01] a <> identityProofMessage "request" "h" "c" [x01] [x02] [] "pairing" 5.
Proof.
  apply (transcripts_injective "request" "h" "c" [x01] [x02] [] "pairing" 5
           "request" "h" "c" [x01] [x02] [] "pairing" 5
           (mkProof "software" "AB" [x01] [x02] [x03] 5 [x04])
           (mkProof "software" "AB" [x01] [x02] [x03] 5 [x04]) [x01] [x01]).
  all: try split; try (repeat constructor); lia.
Defined.

(** C24: what an accepted identity proof establishes.  [verifyIdentityProof]
    accepts exactly when a proof is present, its window is the current one or
    a neighbour, the node key hashes to the claimed signer and signed the
    binding of the proof to this transcript, and the machine key of the named
    backend, whose thumbprint is the claimed machine id, signed this very
    transcript (role, both peers, invite, session token, mode, window). *)
Theorem identity_proof_accepted_iff `{CryptoLaws} now proof att role s v iid ipf tok mode
  (Hnow : - 2 ^ 62 <= TimeWindow now <= 2 ^ 62) :
  verifyIdentityProof now proof att role s v iid ipf tok mode = Ok tt <->
  exists p, proof = Some p /\
    (TimeWindow now - 1 <= ip_TimeWindow p <= TimeWindow now + 1) /\
    let msg := identityProofMessage role s v iid ipf tok mode (ip_TimeWindow p) in
    IDFromPublicKey (ip_NodePublicKey p) = Ok s /\ ip_NodePublicKey p <> [] /\
    UnmarshalEd25519PublicKey (ip_NodePublicKey p) = Ok (ip_NodePublicKey p) /\
    ip_NodeSignature p <> [] /\
    ed25519_verify (ip_NodePublicKey p) (identityBindingMessage msg p) (ip_NodeSignature p) = Ok true /\
    ((ip_Backend p = BackendTPM /\ exists a c pub, att = Some a /\
        ParseCertificate (Wire.AKCert a) = Ok c /\ cert_ecdsa c = Some pub /\
        RawSubjectPublicKeyInfo c <> [] /\ Wire.AKCert a <> [] /\
        equal_fold (hex_upper (sha256 (RawSubjectPublicKeyInfo c))) (ip_MachineID p) = true /\
        ecdsa_VerifyASN1 pub (sha256 msg) (ip_Signature p) = true) \/
     (ip_Backend p ∈ [BackendSoftware; ""] /\ ip_PublicKey p <> [] /\
        equal_fold (PublicKeyThumbprint (ip_PublicKey p)) (ip_MachineID p) = true /\
        UnmarshalEd25519PublicKey (ip_PublicKey p) = Ok (ip_PublicKey p) /\
        ed25519_verify (ip_PublicKey p) msg (ip_Signature p) = Ok true)).
Proof.
  rewrite verifyIdentityProof_ok. unfold backend_proof_ok.
  split; intros (p & -> & Hw & Hr); exists p; (split; [done|]); cbv zeta in *;
    rewrite (window_fresh_spec _ _ Hnow) in *; (split; [done|]).
  - rewrite verifyNodeIdentityBinding_ok in Hr.
    destruct Hr as ((? & ? & ? & ? & ?) & Hk). repeat (split; [done|]).
    destruct Hk as [[Hbk Hv]|[Hbk Hv]].
    + left. split; [done|]. apply VerifyTPMProof_ok in Hv as (b & c & pub & Ha & Hrest).
      destruct att as [a|]; [|done]. cbn in Ha. injection Ha as <-. by exists a, c, pub.
    + right. apply VerifySoftwareProof_ok in Hv. split; [|done]. set_solver.
  - rewrite verifyNodeIdentityBinding_ok. destruct Hr as (? & ? & ? & ? & ? & Hk).
    split; [done|]. destruct Hk as [[Hbk (a & c & pub & -> & Hrest)]|[Hbk Hv]].
    + left. split; [done|]. apply VerifyTPMProof_ok.
      by exists (mkBundle (Wire.AKCert a) (Wire.EKCert a) (Wire.ManufacturerCA a)
                   (Wire.Manufacturer a) (Wire.TPMVersion a)), c, pub.
    + right. split; [set_solver|]. by apply VerifySoftwareProof_ok.
Qed.

Definition sample_key : bytes := repeat x11 32.
Definition sample_node : string := of_bytes (to_bytes "12D3KooW" ++ sample_key).

Lemma identity_proof_accepted_iff_witness :
  exists p,
    localProof None (Ok sample_key) "request" sample_node "12D3KooWhost" [x01] [x02] [] "pairing" 3
      = Ok p /\
    exists q, Some p = Some q /\ (TimeWindow (100 * second) - 1 <= ip_TimeWindow q
                                  <= TimeWindow (100 * second) + 1) /\
      IDFromPublicKey (ip_NodePublicKey q) = Ok sample_node.
Proof.
  eexists. split; [vm_compute; reflexivity|].
  match goal with |- exists q, Some ?p = _ /\ _ =>
    assert (Hv : verifyIdentityProof (100 * second) (Some p) None "request" sample_node
              "12D3KooWhost" [x01] [x02] [] "pairing" = Ok tt) by (vm_compute; reflexivity)
  end.
  apply identity_proof_accepted_iff in Hv; [|vm_compute; split; discriminate].
  destruct Hv as (q & Hq & Hw & Hid & _). exists q. split; [exact Hq|]. split; [exact Hw|exact Hid].
Defined.

(** An honest proof is accepted.  What [localProof] makes on a machine with
    a software identity (or with none: the node key then stands in) is
    accepted by [verifyIdentityProof] with the same transcript, by any
    verifier whose clock is in the same or a neighbouring 30-second window;
    and it is only made for the machine's own node id. *)
Lemma local_proof_accepted `{CryptoLaws} identity cfgKey role s v iid ipf tok mode window p now att
  (Hsoft : forall i, identity = Some i -> software_only i)
  (Hp : localProof identity cfgKey role s v iid ipf tok mode window = Ok p)
  (Hnow : - 2 ^ 62 <= TimeWindow now <= 2 ^ 62)
  (Hw : TimeWindow now - 1 <= window <= TimeWindow now + 1) :
  verifyIdentityProof now (Some p) att role s v iid ipf tok mode = Ok tt /\
  (exists nodeKey pub, localNodeKey cfgKey = Ok (nodeKey, pub, s)).
Proof. by eapply localProof_accepted. Qed.

Lemma local_proof_accepted_witness :
  exists p,
    verifyIdentityProof (100 * second) (Some p) None "response" sample_node "12D3KooWc"
      [x01] [x02] [x03] "onetime" = Ok tt /\
    (exists nodeKey pub, localNodeKey (Ok sample_key) = Ok (nodeKey, pub, sample_node)).
Proof.
  eexists.
  apply (local_proof_accepted (Some (mkIdentity (Some (repeat x22 32)) None "software" None))
           (Ok sample_key) "response" sample_node "12D3KooWc" [x01] [x02] [x03] "onetime" 4).
  - intros i [= <-]. split; [reflexivity|]. split; [reflexivity|]. split; [left; reflexivity|].
    intros k [= <-]. exists (repeat x22 32). vm_compute. reflexivity.
  - vm_compute. reflexivity.
  - vm_compute. split; discriminate.
  - vm_compute. split; discriminate.
Defined.

Definition err_of {A} (r : res A) : option string :=
  match r with Ok _ => None | Err e => Some e end.

(** A stored identity pins the machine.  [verifyStoredIdentity] accepts
    exactly when an identity is stored, a stored machine id equals the
    presented one, and a stored software key equals the presented software
    key if one is presented; and [canRepairStoredSoftwarePublicKey] allows the
    stored key to be replaced exactly when the key is all that differs: a
    machine id is stored and it matches. *)
Lemma stored_identity_iff pk mid proof :
  (verifyStoredIdentity pk mid proof = Ok tt <->
   exists p, proof = Some p /\ (trim_space mid <> "" \/ trim_space pk <> "") /\
     (trim_space mid <> "" -> ip_MachineID p <> "" /\
        equal_fold (trim_space mid) (ip_MachineID p) = true) /\
     (trim_space pk <> "" -> ip_PublicKey p <> [] ->
        equal_fold (trim_space pk) (hex_encode (ip_PublicKey p)) = true)) /\
  (canRepairStoredSoftwarePublicKey (err_of (verifyStoredIdentity pk mid proof)) mid proof = true <->
   verifyStoredIdentity pk mid proof = Err software_key_mismatch /\ trim_space mid <> "").
Proof.
  unfold verifyStoredIdentity, canRepairStoredSoftwarePublicKey.
  destruct proof as [p|]; [|split; [naive_solver|cbn; naive_solver]].
  cbv zeta. set (m := trim_space mid). set (k := trim_space pk).
  assert (Hpk : (0 <? Z.of_nat (length (ip_PublicKey p))) = bool_decide (ip_PublicKey p <> [])).
  { destruct (ip_PublicKey p); [done|]. by rewrite bool_decide_eq_true_2. }
  rewrite Hpk.
  destruct (decide (m = "")) as [Hm|Hm], (decide (k = "")) as [Hk|Hk],
    (decide (ip_MachineID p = "")) as [Hi|Hi], (decide (ip_PublicKey p = [])) as [Hq|Hq],
    (equal_fold m (ip_MachineID p)) eqn:E1, (equal_fold k (hex_encode (ip_PublicKey p))) eqn:E2;
    rewrite ?(bool_decide_eq_true_2 (m = "")), ?(bool_decide_eq_false_2 (m = "")),
      ?(bool_decide_eq_true_2 (k = "")), ?(bool_decide_eq_false_2 (k = "")),
      ?(bool_decide_eq_true_2 (ip_MachineID p = "")), ?(bool_decide_eq_false_2 (ip_MachineID p = "")),
      ?(bool_decide_eq_true_2 (m <> "")), ?(bool_decide_eq_false_2 (m <> "")),
      ?(bool_decide_eq_true_2 (k <> "")), ?(bool_decide_eq_false_2 (k <> "")),
      ?(bool_decide_eq_true_2 (ip_PublicKey p <> [])), ?(bool_decide_eq_false_2 (ip_PublicKey p <> []))
      by tauto;
    cbn [andb orb negb err_of];
    (split; [split; [try done; intros _; exists p; tauto
                    |try done; intros (? & [= <-] & Hx); exfalso; rewrite ?E1, ?E2 in Hx; intuition discriminate]
            |try change (contains _ software_key_mismatch) with false;
             try change (contains _ software_key_mismatch) with true;
             cbn [negb]; split; try done; first [intros [Hx ?]; first [discriminate Hx|tauto|congruence]|intros _; split; [done|tauto]]]).
Qed.

(** With only a software key on record, a TPM-backed proof is not compared
    with it at all. *)
Lemma stored_key_unchecked_for_tpm pk p :
  trim_space pk <> "" -> ip_PublicKey p = [] -> verifyStoredIdentity pk "" (Some p) = Ok tt.
Proof.
  intros Hk Hp. unfold verifyStoredIdentity. cbv zeta.
  change (trim_space "") with ""%string. rewrite Hp. cbn.
  rewrite (bool_decide_eq_false_2 (trim_space pk = "")) by done.
  by rewrite (bool_decide_eq_true_2 (trim_space pk <> "")) by done.
Qed.
