(* ===== verification/Config.v ===== *)
(** * Config: the persisted configuration, [internal/config/config.go]

    The configuration records, the network-backend defaults, the list of
    paired remotes (keyed by node, protocol and port) and the list of trusted
    peers (one entry per machine). *)

From S2P Require Import Prelude GoStrings.

(** ** Data *)

Record NetworkConfig : Type := mkNetwork { ShareBackend : string }.
Record NodeConfig : Type := mkNode { PrivateKey : string; nc_Label : string }.
Record RelayConfig : Type := mkRelay {
  relay_Mode : string; relay_Servers : list string; relay_Allowlist : list string }.
Record DHTConfig : Type := mkDHT { dht_Mode : string; dht_Bootstrap : list string }.
Record BTDHTConfig : Type := mkBTDHT {
  btdht_Mode : string; btdht_Bootstrap : list string; PublishIntervalSecs : Z }.
Record IrohConfig : Type := mkIroh { iroh_Mode : string; iroh_Servers : list string }.
Record RDPConfig : Type := mkRDP {
  ListenAddr : string; TargetAddr : string; rdp_Protocol : string }.

(** The identity fields shared by remotes and trusted peers. *)
Record IdentityInfo : Type := mkInfo {
  IdentityBackend : string;
  HardwareBacked : bool;
  TPMVendor : string;
  ii_TPMVersion : string;
  TPMRootThumbprint : string;
}.

Record RemoteConfig : Type := mkRemote {
  rc_Label : string;
  rc_NodeID : string;
  rc_PublicKey : string;
  rc_MachineID : string;
  rc_Backend : string;
  rc_Protocol : string;
  rc_TargetPort : Z;
  rc_RelayAddrs : list string;
  rc_IrohTicket : string;
  rc_DirectQUICAddrs : list string;
  rc_Identity : IdentityInfo;
  rc_AddedAt : Z;
  rc_LastConnectedAt : Z;
}.

Record TrustedPeer : Type := mkTrusted {
  tp_NodeID : string;
  tp_Label : string;
  tp_PublicKey : string;
  tp_MachineID : string;
  tp_Protocol : string;
  tp_TargetPort : Z;
  tp_Identity : IdentityInfo;
  tp_AddedAt : Z;
  tp_LastConnectedAt : Z;
}.

Record Config : Type := mkConfig {
  Network : NetworkConfig;
  Node : NodeConfig;
  Relay : RelayConfig;
  DHT : DHTConfig;
  BTDHT : BTDHTConfig;
  Iroh : IrohConfig;
  RDP : RDPConfig;
  Remotes : list RemoteConfig;
  Trusted : list TrustedPeer;
}.

#[export] Instance NetworkConfig_eq_dec : EqDecision NetworkConfig.
Proof. solve_decision. Defined.
#[export] Instance NodeConfig_eq_dec : EqDecision NodeConfig.
Proof. solve_decision. Defined.
#[export] Instance RelayConfig_eq_dec : EqDecision RelayConfig.
Proof. solve_decision. Defined.
#[export] Instance DHTConfig_eq_dec : EqDecision DHTConfig.
Proof. solve_decision. Defined.
#[export] Instance BTDHTConfig_eq_dec : EqDecision BTDHTConfig.
Proof. solve_decision. Defined.
#[export] Instance IrohConfig_eq_dec : EqDecision IrohConfig.
Proof. solve_decision. Defined.
#[export] Instance RDPConfig_eq_dec : EqDecision RDPConfig.
Proof. solve_decision. Defined.
#[export] Instance IdentityInfo_eq_dec : EqDecision IdentityInfo.
Proof. solve_decision. Defined.
#[export] Instance RemoteConfig_eq_dec : EqDecision RemoteConfig.
Proof. solve_decision. Defined.
#[export] Instance TrustedPeer_eq_dec : EqDecision TrustedPeer.
Proof. solve_decision. Defined.

#[export] Instance Config_eq_dec : EqDecision Config.
Proof. solve_decision. Defined.

Definition no_identity : IdentityInfo := mkInfo "" false "" "" "".

(** [TrustedPeer{}] *)
Definition zero_trusted : TrustedPeer :=
  mkTrusted "" "" "" "" "" 0 no_identity zero_time zero_time.

Definition set_remotes (c : Config) (l : list RemoteConfig) : Config :=
  mkConfig (Network c) (Node c) (Relay c) (DHT c) (BTDHT c) (Iroh c) (RDP c) l (Trusted c).
Definition set_trusted (c : Config) (l : list TrustedPeer) : Config :=
  mkConfig (Network c) (Node c) (Relay c) (DHT c) (BTDHT c) (Iroh c) (RDP c) (Remotes c) l.

Definition defaultConfig (hostname : res string) : Config :=
  mkConfig (mkNetwork "")
    (mkNode "" (match hostname with Ok h => h | Err _ => "my-pc" end))
    (mkRelay "disabled" [] []) (mkDHT "disabled" [])
    (mkBTDHT "disabled" [] 60) (mkIroh "public" [])
    (mkRDP "127.0.0.1:0" "127.0.0.1:3389" "rdp") [] [].

(** ** Network backends *)

Definition CanonicalNetworkBackend (backend : string) : string := backend.

Definition validNetworkBackend (backend : string) : bool :=
  bool_decide (CanonicalNetworkBackend backend ∈
    ["iroh"; "bittorrent_dht"; "libp2p_relay"; "libp2p_dht"]).

Definition ActiveNetworkBackend (c : option Config) : string :=
  match c with
  | None => "iroh"
  | Some c =>
    let backend := CanonicalNetworkBackend (ShareBackend (Network c)) in
    if validNetworkBackend backend then backend else "iroh"
  end.

(** The mode a backend gets when it must be on. *)
Definition enable_mode (mode : string) : string :=
  if bool_decide (mode = "") || bool_decide (mode = "disabled") then "public" else mode.

Definition ensureBackendEnabled (c : Config) (backend : string) : Config :=
  let b := CanonicalNetworkBackend backend in
  if bool_decide (b = "iroh") then
    mkConfig (Network c) (Node c) (Relay c) (DHT c) (BTDHT c)
      (mkIroh (enable_mode (iroh_Mode (Iroh c))) (iroh_Servers (Iroh c)))
      (RDP c) (Remotes c) (Trusted c)
  else if bool_decide (b = "bittorrent_dht") then
    mkConfig (Network c) (Node c) (Relay c) (DHT c)
      (mkBTDHT (enable_mode (btdht_Mode (BTDHT c))) (btdht_Bootstrap (BTDHT c))
         (PublishIntervalSecs (BTDHT c)))
      (Iroh c) (RDP c) (Remotes c) (Trusted c)
  else if bool_decide (b = "libp2p_relay") then
    mkConfig (Network c) (Node c)
      (mkRelay (enable_mode (relay_Mode (Relay c))) (relay_Servers (Relay c))
         (relay_Allowlist (Relay c)))
      (DHT c) (BTDHT c) (Iroh c) (RDP c) (Remotes c) (Trusted c)
  else if bool_decide (b = "libp2p_dht") then
    mkConfig (Network c) (Node c) (Relay c)
      (mkDHT (enable_mode (dht_Mode (DHT c))) (dht_Bootstrap (DHT c)))
      (BTDHT c) (Iroh c) (RDP c) (Remotes c) (Trusted c)
  else c.

Definition or_default (s d : string) : string := if bool_decide (s = "") then d else s.

Definition NormalizeNetworkBackend (c : Config) : Config :=
  let share := CanonicalNetworkBackend (ShareBackend (Network c)) in
  let share := if validNetworkBackend share then share else "iroh" in
  let c1 :=
    mkConfig (mkNetwork share) (Node c)
      (mkRelay (or_default (relay_Mode (Relay c)) "disabled") (relay_Servers (Relay c))
         (relay_Allowlist (Relay c)))
      (mkDHT (or_default (dht_Mode (DHT c)) "disabled") (dht_Bootstrap (DHT c)))
      (mkBTDHT (or_default (btdht_Mode (BTDHT c)) "disabled") (btdht_Bootstrap (BTDHT c))
         (if PublishIntervalSecs (BTDHT c) <=? 0 then 60 else PublishIntervalSecs (BTDHT c)))
      (mkIroh (or_default (iroh_Mode (Iroh c)) "public") (iroh_Servers (Iroh c)))
      (RDP c) (Remotes c) (Trusted c) in
  ensureBackendEnabled c1 share.

(** The mode of a backend. *)
Definition backend_mode (c : Config) (backend : string) : string :=
  if bool_decide (backend = "iroh") then iroh_Mode (Iroh c)
  else if bool_decide (backend = "bittorrent_dht") then btdht_Mode (BTDHT c)
  else if bool_decide (backend = "libp2p_relay") then relay_Mode (Relay c)
  else if bool_decide (backend = "libp2p_dht") then dht_Mode (DHT c)
  else "".

Definition PrivateKeyBytes (c : Config) : res bytes :=
  of_option "encoding/hex: invalid byte" (hex_decode (PrivateKey (Node c))).

(** ** Persistence *)

(** The TOML codec (third-party): [toml_unmarshal s base] overlays the text on
    a base configuration. *)
Class Toml : Type := {
  toml_marshal : Config -> res string;
  toml_unmarshal : string -> Config -> res Config;
}.

(** [Save]: the receiver after the call, the file after the call and the
    error.  [mkdir] and [write] are the file-system results. *)
Definition Save `{Toml} (c : Config) (file : option string) (mkdir write : res unit)
  : Config * option string * res unit :=
  let c := NormalizeNetworkBackend c in
  match mkdir with
  | Err e => (c, file, Err e)
  | Ok _ =>
    match toml_marshal c with
    | Err e => (c, file, Err e)
    | Ok data =>
      match write with
      | Err e => (c, file, Err e)
      | Ok _ => (c, Some data, Ok tt)
      end
    end
  end.

(** [initNew]: the new configuration and its file. *)
Definition initNew `{Toml} (hostname : res string) (gen : res bytes) (mkdir write : res unit)
  : res (Config * string) :=
  priv ← gen;
  let d := defaultConfig hostname in
  let cfg := mkConfig (Network d) (mkNode (hex_encode priv) (nc_Label (Node d))) (Relay d)
               (DHT d) (BTDHT d) (Iroh d) (RDP d) (Remotes d) (Trusted d) in
  _ ← mkdir;
  data ← toml_marshal cfg;
  _ ← write;
  Ok (cfg, data).

(** [Load]: [file] is [None] when the file does not exist, and otherwise what
    [os.ReadFile] returned. *)
Definition Load `{Toml} (hostname : res string) (file : option (res string))
    (gen : res bytes) (mkdir write : res unit) : res Config :=
  match file with
  | None => fst <$> initNew hostname gen mkdir write
  | Some (Err e) => Err e
  | Some (Ok data) =>
    NormalizeNetworkBackend <$> toml_unmarshal data (defaultConfig hostname)
  end.

(** ** Paired remotes *)

Definition protocolDefaultPort (protocol : string) : Z :=
  let p := to_lower (trim_space protocol) in
  if bool_decide (p = "ssh") then 22
  else if bool_decide (p = "vnc") then 5900
  else 3389.

(** The protocol and port a remote stands for. *)
Definition service_protocol (protocol : string) : string :=
  or_default (to_lower (trim_space protocol)) "rdp".
Definition service_port (protocol : string) (targetPort : Z) : Z :=
  if targetPort <=? 0 then protocolDefaultPort (service_protocol protocol) else targetPort.

Definition RemoteServiceKeyParts (nodeID protocol : string) (targetPort : Z) : string :=
  (trim_space nodeID ++ "|" ++ service_protocol protocol ++ "|" ++
   itoa (service_port protocol targetPort))%string.

Definition RemoteServiceKey (r : RemoteConfig) : string :=
  RemoteServiceKeyParts (rc_NodeID r) (rc_Protocol r) (rc_TargetPort r).

Definition SameRemoteService (a b : RemoteConfig) : bool :=
  if bool_decide (trim_space (rc_NodeID a) = "") || bool_decide (trim_space (rc_NodeID b) = "")
  then false
  else bool_decide (RemoteServiceKey a = RemoteServiceKey b).

(** [if new != "" { old = new }] *)
Definition pick (new old : string) : string := if bool_decide (new = "") then old else new.
Definition pick_list (new old : list string) : list string :=
  match new with [] => old | _ => new end.
Definition pick_port (new old : Z) : Z := if 0 <? new then new else old.

Definition mergeIdentityInfo (old new : IdentityInfo) : IdentityInfo :=
  let hw := if bool_decide (IdentityBackend new = "") then HardwareBacked old
            else HardwareBacked new in
  mkInfo (pick (IdentityBackend new) (IdentityBackend old))
    (if HardwareBacked new then true else hw)
    (pick (TPMVendor new) (TPMVendor old))
    (pick (ii_TPMVersion new) (ii_TPMVersion old))
    (pick (TPMRootThumbprint new) (TPMRootThumbprint old)).

Definition merge_added (old new : Z) : Z :=
  if is_zero_time old || (negb (is_zero_time new) && (new <? old)) then new else old.
Definition merge_connected (old new : Z) : Z := if old <? new then new else old.

(** The body of the merging branch of [AddRemote]. *)
Definition mergeRemote (d r : RemoteConfig) : RemoteConfig :=
  mkRemote (pick (rc_Label r) (rc_Label d)) (rc_NodeID d)
    (pick (rc_PublicKey r) (rc_PublicKey d)) (pick (rc_MachineID r) (rc_MachineID d))
    (pick (rc_Backend r) (rc_Backend d)) (pick (rc_Protocol r) (rc_Protocol d))
    (pick_port (rc_TargetPort r) (rc_TargetPort d))
    (pick_list (rc_RelayAddrs r) (rc_RelayAddrs d)) (pick (rc_IrohTicket r) (rc_IrohTicket d))
    (pick_list (rc_DirectQUICAddrs r) (rc_DirectQUICAddrs d))
    (mergeIdentityInfo (rc_Identity d) (rc_Identity r))
    (merge_added (rc_AddedAt d) (rc_AddedAt r))
    (merge_connected (rc_LastConnectedAt d) (rc_LastConnectedAt r)).

Definition stamp_remote (r : RemoteConfig) (now : Z) : RemoteConfig :=
  if is_zero_time (rc_AddedAt r) then
    mkRemote (rc_Label r) (rc_NodeID r) (rc_PublicKey r) (rc_MachineID r) (rc_Backend r)
      (rc_Protocol r) (rc_TargetPort r) (rc_RelayAddrs r) (rc_IrohTicket r)
      (rc_DirectQUICAddrs r) (rc_Identity r) now (rc_LastConnectedAt r)
  else r.

Fixpoint add_remote (l : list RemoteConfig) (r : RemoteConfig) : list RemoteConfig :=
  match l with
  | [] => [r]
  | d :: l' => if SameRemoteService d r then mergeRemote d r :: l' else d :: add_remote l' r
  end.

Definition AddRemote (c : Config) (r : RemoteConfig) (now : Z) : Config :=
  set_remotes c (add_remote (Remotes c) (stamp_remote r now)).

(** Delete the first element that satisfies [p]. *)
Fixpoint remove_first {A} (p : A -> bool) (l : list A) : list A * bool :=
  match l with
  | [] => ([], false)
  | x :: l' => if p x then (l', true)
               else let '(r, b) := remove_first p l' in (x :: r, b)
  end.

Definition RemoveRemote (c : Config) (nodeID : string) : Config * bool :=
  let '(l, b) := remove_first (fun r => bool_decide (rc_NodeID r = nodeID)) (Remotes c) in
  (set_remotes c l, b).

Definition RemoveRemoteService (c : Config) (key : string) : Config * bool :=
  let '(l, b) := remove_first (fun r => bool_decide (RemoteServiceKey r = key)) (Remotes c) in
  (set_remotes c l, b).

(** ** Trusted peers *)

(** Equal and not empty. *)
Definition same_nonempty (a b : string) : bool :=
  bool_decide (a <> "") && bool_decide (b <> "") && bool_decide (a = b).

Definition sameTrustedMachine (a b : TrustedPeer) : bool :=
  same_nonempty (tp_NodeID a) (tp_NodeID b)
  || same_nonempty (tp_MachineID a) (tp_MachineID b)
  || same_nonempty (TPMRootThumbprint (tp_Identity a)) (TPMRootThumbprint (tp_Identity b)).

Definition mergeTrustedPeer (dst src : TrustedPeer) : TrustedPeer :=
  mkTrusted (pick (tp_NodeID src) (tp_NodeID dst)) (pick (tp_Label src) (tp_Label dst))
    (pick (tp_PublicKey src) (tp_PublicKey dst)) (pick (tp_MachineID src) (tp_MachineID dst))
    (pick (tp_Protocol src) (tp_Protocol dst))
    (pick_port (tp_TargetPort src) (tp_TargetPort dst))
    (mergeIdentityInfo (tp_Identity dst) (tp_Identity src))
    (merge_added (tp_AddedAt dst) (tp_AddedAt src))
    (merge_connected (tp_LastConnectedAt dst) (tp_LastConnectedAt src)).

(** The loop of [removeDuplicateTrustedPeers], [i] counting down from
    [n - 1]; [keep] follows its entry. *)
Fixpoint remove_duplicates (n : nat) (l : list TrustedPeer) (keep : nat) : list TrustedPeer :=
  match n with
  | O => l
  | S i =>
    match l !! keep, l !! i with
    | Some k, Some x =>
      if negb (i =? keep)%nat && sameTrustedMachine k x
      then remove_duplicates i (delete i l) (if (i <? keep)%nat then pred keep else keep)
      else remove_duplicates i l keep
    | _, _ => remove_duplicates i l keep
    end
  end.

Definition removeDuplicateTrustedPeers (l : list TrustedPeer) (keep : nat) : list TrustedPeer :=
  remove_duplicates (length l) l keep.

Definition stamp_trusted (p : TrustedPeer) (now : Z) : TrustedPeer :=
  if is_zero_time (tp_AddedAt p) then
    mkTrusted (tp_NodeID p) (tp_Label p) (tp_PublicKey p) (tp_MachineID p) (tp_Protocol p)
      (tp_TargetPort p) (tp_Identity p) now (tp_LastConnectedAt p)
  else p.

Definition add_trusted (l : list TrustedPeer) (p : TrustedPeer) : list TrustedPeer :=
  match find_index (fun t => sameTrustedMachine t p) l with
  | Some i =>
    match l !! i with
    | Some t => removeDuplicateTrustedPeers (<[i := mergeTrustedPeer t p]> l) i
    | None => l
    end
  | None => l ++ [p]
  end.

Definition AddTrustedPeer (c : Config) (p : TrustedPeer) (now : Z) : Config :=
  set_trusted c (add_trusted (Trusted c) (stamp_trusted p now)).

Definition RemoveTrustedPeer (c : Config) (nodeID : string) : Config * bool :=
  let '(l, b) := remove_first (fun t => bool_decide (tp_NodeID t = nodeID)) (Trusted c) in
  (set_trusted c l, b).

Definition IsTrusted (c : Config) (nodeID : string) : bool :=
  existsb (fun p => bool_decide (tp_NodeID p = nodeID)) (Trusted c).

(** The Go method [TrustedPeer]. *)
Definition find_trusted (c : Config) (nodeID : string) : option TrustedPeer :=
  List.find (fun p => bool_decide (tp_NodeID p = nodeID)) (Trusted c).

(** ** Lemmas *)

Lemma enable_mode_on m : enable_mode m <> "" /\ enable_mode m <> "disabled".
Proof.
  unfold enable_mode. destruct (decide (m = "")) as [->|H1]; [done|].
  destruct (decide (m = "disabled")) as [->|H2]; [done|].
  by rewrite !bool_decide_eq_false_2.
Qed.

Lemma enable_mode_id m : m <> "" -> m <> "disabled" -> enable_mode m = m.
Proof. intros H1 H2. unfold enable_mode. by rewrite !bool_decide_eq_false_2. Qed.

Lemma or_default_nonempty s d : d <> "" -> or_default s d <> "".
Proof. unfold or_default. by case_bool_decide. Qed.

Lemma or_default_id s d : s <> "" -> or_default s d = s.
Proof. unfold or_default. by case_bool_decide. Qed.

Lemma validNetworkBackend_cases b :
  validNetworkBackend b = true ->
  b = "iroh" \/ b = "bittorrent_dht" \/ b = "libp2p_relay" \/ b = "libp2p_dht".
Proof. unfold validNetworkBackend, CanonicalNetworkBackend. intros. go_bool. set_solver. Qed.

(** A configuration [NormalizeNetworkBackend] leaves alone. *)
Definition config_normal (c : Config) : Prop :=
  validNetworkBackend (ShareBackend (Network c)) = true /\
  backend_mode c (ShareBackend (Network c)) <> "disabled" /\
  relay_Mode (Relay c) <> "" /\ dht_Mode (DHT c) <> "" /\ btdht_Mode (BTDHT c) <> "" /\
  iroh_Mode (Iroh c) <> "" /\ 0 < PublishIntervalSecs (BTDHT c).

Lemma normalize_normal c : config_normal (NormalizeNetworkBackend c).
Proof.
  unfold NormalizeNetworkBackend. cbv zeta.
  set (share := if validNetworkBackend _ then _ else _).
  assert (Hs : validNetworkBackend share = true).
  { unfold share. by destruct (validNetworkBackend _) eqn:E. }
  assert (Hp : 0 < (if PublishIntervalSecs (BTDHT c) <=? 0 then 60 else PublishIntervalSecs (BTDHT c))).
  { destruct (_ <=? 0) eqn:E; go_bool; lia. }
  clearbody share.
  apply validNetworkBackend_cases in Hs as [->|[->|[->| ->]]];
    (split; [reflexivity|]); cbn -[or_default enable_mode];
    repeat split; try done; try (by apply or_default_nonempty); apply enable_mode_on.
Qed.

Lemma ensureBackendEnabled_id c b :
  backend_mode c b <> "" -> backend_mode c b <> "disabled" -> ensureBackendEnabled c b = c.
Proof.
  unfold backend_mode, ensureBackendEnabled, CanonicalNetworkBackend.
  destruct c as [nw n [rm rs ra] [dm db] [bm bb bp] [im isv] rdp rems tr].
  cbn. repeat case_match; cbn; intros; try done; by rewrite enable_mode_id.
Qed.

Lemma normalize_id c : config_normal c -> NormalizeNetworkBackend c = c.
Proof.
  intros (Hs & Hm & H1 & H2 & H3 & H4 & Hp).
  destruct c as [[share] n [rm rs ra] [dm db] [bm bb bp] [im isv] rdp rems tr].
  unfold NormalizeNetworkBackend, CanonicalNetworkBackend.
  cbn -[validNetworkBackend or_default ensureBackendEnabled backend_mode] in *.
  rewrite Hs, !or_default_id by done. rewrite (proj2 (Z.leb_gt bp 0)) by done.
  apply ensureBackendEnabled_id; [|done].
  by apply validNetworkBackend_cases in Hs as [->|[->|[->| ->]]].
Qed.

Lemma normalize_lists c :
  Remotes (NormalizeNetworkBackend c) = Remotes c /\ Trusted (NormalizeNetworkBackend c) = Trusted c.
Proof.
  unfold NormalizeNetworkBackend, ensureBackendEnabled. cbv zeta. repeat case_match; done.
Qed.

(** ** Service keys *)

Definition bar_free (s : string) : Prop := Forall (fun b => b <> x7c) (to_bytes s).

Lemma bar_split (a b : bytes) (r r' : bytes) :
  Forall (fun x => x <> x7c) a -> Forall (fun x => x <> x7c) b ->
  a ++ [x7c] ++ r = b ++ [x7c] ++ r' -> a = b /\ r = r'.
Proof.
  intros Ha; revert b; induction Ha as [|x a Hx Ha IH]; intros b Hb He;
    destruct Hb as [|y b Hy Hb]; cbn in He; simplify_eq; try done.
  destruct (IH b Hb ltac:(assumption)) as [-> ->]. done.
Qed.

Lemma pretty_N_go_bar_free n s : bar_free s -> bar_free (pretty_N_go n s).
Proof.
  revert s. induction (N.lt_wf_0 n) as [n _ IH]; intros s Hs.
  destruct (decide (0 < n)%N) as [Hn|Hn].
  - rewrite pretty_N_go_step by done. apply IH; [apply N.div_lt; lia|].
    unfold bar_free. rewrite to_bytes_cons. constructor; [|exact Hs].
    unfold pretty_N_char. repeat case_match; done.
  - assert (n = 0%N) as -> by lia. by rewrite pretty_N_go_0.
Qed.

Lemma itoa_bar_free z : bar_free (itoa z).
Proof.
  unfold itoa. destruct z as [|p|p]; unfold pretty, pretty_Z.
  - by apply (bool_decide_unpack _).
  - unfold pretty, pretty_positive, pretty, pretty_N. rewrite decide_False by done.
    apply pretty_N_go_bar_free. constructor.
  - unfold bar_free. rewrite to_bytes_app. apply Forall_app. split; [by repeat constructor|].
    unfold pretty, pretty_positive, pretty, pretty_N. rewrite decide_False by done.
    apply pretty_N_go_bar_free. constructor.
Qed.

(** The parts of a service key are determined by it, for a node id without
    the separator. *)
Lemma service_key_parts n1 p1 t1 n2 p2 t2 :
  bar_free (trim_space n1) -> bar_free (trim_space n2) ->
  RemoteServiceKeyParts n1 p1 t1 = RemoteServiceKeyParts n2 p2 t2 ->
  trim_space n1 = trim_space n2 /\ service_protocol p1 = service_protocol p2 /\
  service_port p1 t1 = service_port p2 t2.
Proof.
  unfold RemoteServiceKeyParts. intros H1 H2 He.
  apply (f_equal to_bytes) in He. rewrite !to_bytes_app in He.
  change (to_bytes "|") with [x7c] in He.
  apply bar_split in He as [Hn He]; [|exact H1|exact H2].
  apply (f_equal (@rev byte)) in He. rewrite !rev_app_distr in He. cbn [rev app] in He.
  rewrite <- !app_assoc in He.
  apply bar_split in He as [Ht Hp]; [|apply Forall_rev, itoa_bar_free|apply Forall_rev, itoa_bar_free].
  apply (f_equal (@rev byte)) in Ht, Hp. rewrite !rev_involutive in Ht, Hp.
  apply to_bytes_inj in Hn, Ht, Hp. by apply itoa_inj in Ht.
Qed.

Lemma mergeRemote_key d r :
  bar_free (trim_space (rc_NodeID d)) -> bar_free (trim_space (rc_NodeID r)) ->
  RemoteServiceKey d = RemoteServiceKey r ->
  RemoteServiceKey (mergeRemote d r) = RemoteServiceKey d.
Proof.
  unfold RemoteServiceKey. intros H1 H2 He.
  apply service_key_parts in He as (Hn & Hp & Ht); [|done|done].
  unfold RemoteServiceKeyParts. cbn [mergeRemote rc_NodeID rc_Protocol rc_TargetPort].
  assert (Hp' : service_protocol (pick (rc_Protocol r) (rc_Protocol d)) =
                service_protocol (rc_Protocol d)).
  { unfold pick. by case_bool_decide. }
  rewrite Hp'. do 5 f_equal. unfold service_port, pick_port in *. rewrite Hp'.
  destruct (0 <? rc_TargetPort r) eqn:E; go_bool; [|done].
  rewrite (proj2 (Z.leb_gt _ 0)) in * by lia. congruence.
Qed.

Definition keyed (r : RemoteConfig) : Prop := bar_free (trim_space (rc_NodeID r)).

Lemma SameRemoteService_spec a b :
  SameRemoteService a b = true <->
  trim_space (rc_NodeID a) <> "" /\ trim_space (rc_NodeID b) <> "" /\
  RemoteServiceKey a = RemoteServiceKey b.
Proof.
  unfold SameRemoteService.
  destruct (bool_decide (trim_space (rc_NodeID a) = "")) eqn:E1,
    (bool_decide (trim_space (rc_NodeID b) = "")) eqn:E2; cbn [orb]; go_bool;
    rewrite ?bool_decide_eq_true; intuition congruence.
Qed.

(** No two remotes stand for the same service. *)
Definition remotes_unique (l : list RemoteConfig) : Prop :=
  ForallOrdPairs (fun a b => SameRemoteService a b = false) l.

Lemma same_service_key a b c :
  RemoteServiceKey a = RemoteServiceKey b -> trim_space (rc_NodeID a) = trim_space (rc_NodeID b) ->
  SameRemoteService a c = SameRemoteService b c.
Proof. intros Hk Hn. unfold SameRemoteService. by rewrite Hk, Hn. Qed.

Lemma SameRemoteService_sym a b : SameRemoteService a b = SameRemoteService b a.
Proof. apply eq_true_iff_eq. rewrite !SameRemoteService_spec. intuition congruence. Qed.

(** [add_remote] either merges in place or appends. *)
Lemma add_remote_cases l r :
  (exists a d b, l = a ++ d :: b /\ SameRemoteService d r = true /\
     add_remote l r = a ++ mergeRemote d r :: b) \/
  ((forall d, d ∈ l -> SameRemoteService d r = false) /\ add_remote l r = l ++ [r]).
Proof.
  induction l as [|d l IH]; cbn.
  - right. split; [|done]. intros d Hd. by apply not_elem_of_nil in Hd.
  - destruct (SameRemoteService d r) eqn:E.
    + left. by exists [], d, l.
    + destruct IH as [(a & d' & b & -> & Hs & ->)|[Hno ->]].
      * left. by exists (d :: a), d', b.
      * right. split; [|done]. intros d' [->|Hd]%elem_of_cons; auto.
Qed.

(** Likewise [add_trusted]. *)
Lemma find_index_split {A} (p : A -> bool) l i :
  find_index p l = Some i ->
  exists a x b, l = a ++ x :: b /\ i = length a /\ p x = true /\
    forall y, y ∈ a -> p y = false.
Proof.
  intros H. apply find_index_Some in H as [(x & Hx & Hp) Hlt].
  exists (take i l), x, (drop (S i) l).
  pose proof (lookup_lt_Some _ _ _ Hx). rewrite take_drop_middle by done.
  split; [done|]. split; [rewrite length_take; lia|]. split; [done|].
  intros y Hy. apply list_elem_of_lookup in Hy as [j Hj].
  pose proof (lookup_lt_Some _ _ _ Hj) as Hl. rewrite length_take in Hl.
  rewrite lookup_take_lt in Hj by lia. apply (Hlt j y); [lia|done].
Qed.

Lemma insert_middle {A} (a b : list A) x y : <[length a := y]> (a ++ x :: b) = a ++ y :: b.
Proof. induction a as [|z a IH]; cbn; [done|]. by f_equal. Qed.

(** ** Trusted machines *)

Lemma same_nonempty_spec a b : same_nonempty a b = true <-> a <> "" /\ a = b.
Proof.
  unfold same_nonempty. rewrite !andb_true_iff, !bool_decide_eq_true. intuition congruence.
Qed.

Lemma same_nonempty_sym a b : same_nonempty a b = same_nonempty b a.
Proof. apply eq_true_iff_eq. rewrite !same_nonempty_spec. intuition congruence. Qed.

Lemma sameTrustedMachine_sym a b : sameTrustedMachine a b = sameTrustedMachine b a.
Proof.
  unfold sameTrustedMachine. rewrite (same_nonempty_sym (tp_NodeID a)),
    (same_nonempty_sym (tp_MachineID a)), (same_nonempty_sym (TPMRootThumbprint _)). done.
Qed.

Lemma same_nonempty_pick x new old :
  same_nonempty x (pick new old) = true -> same_nonempty x old = true \/ same_nonempty x new = true.
Proof. unfold pick. case_bool_decide; auto. Qed.

(** A machine that is the same as a merged entry is the same as one of its
    two parts. *)
Lemma same_as_merged x d p :
  sameTrustedMachine x (mergeTrustedPeer d p) = true ->
  sameTrustedMachine x d = true \/ sameTrustedMachine x p = true.
Proof.
  unfold sameTrustedMachine. rewrite !orb_true_iff.
  cbn [mergeTrustedPeer tp_NodeID tp_MachineID tp_Identity mergeIdentityInfo TPMRootThumbprint].
  intros [[H|H]|H]; apply same_nonempty_pick in H; tauto.
Qed.

(** At most one entry per machine. *)
Definition trusted_distinct (l : list TrustedPeer) : Prop :=
  ForallOrdPairs (fun a b => sameTrustedMachine a b = false) l.

(** The loop drops, on both sides of the kept entry, the entries that are the
    same machine. *)
Definition other_machine (k x : TrustedPeer) : bool := negb (sameTrustedMachine k x).

Lemma remove_duplicates_right n a k b1 b2 :
  n = (length a + 1 + length b1)%nat ->
  remove_duplicates n (a ++ k :: b1 ++ b2) (length a) =
  remove_duplicates (length a + 1) (a ++ k :: List.filter (other_machine k) b1 ++ b2) (length a).
Proof.
  revert n b2. induction b1 as [|x b1 IH] using rev_ind; intros n b2 ->.
  { cbn [length List.filter app]. by rewrite Nat.add_0_r. }
  rewrite length_app. cbn [length].
  replace (length a + 1 + (length b1 + 1))%nat with (S (length a + 1 + length b1)) by lia.
  set (l := a ++ k :: (b1 ++ [x]) ++ b2).
  assert (Hk : l !! length a = Some k) by (unfold l; by rewrite list_lookup_middle).
  assert (Hx : l !! (length a + 1 + length b1)%nat = Some x).
  { unfold l. rewrite lookup_app_r by lia.
    replace (length a + 1 + length b1 - length a)%nat with (S (length b1)) by lia. cbn.
    rewrite <- app_assoc. by apply list_lookup_middle. }
  cbn [remove_duplicates]. rewrite Hk, Hx.
  rewrite (proj2 (Nat.eqb_neq _ (length a))) by lia. cbn [negb andb].
  rewrite List.filter_app. cbn [List.filter].
  unfold other_machine at 2. destruct (sameTrustedMachine k x); cbn [negb].
  - rewrite (proj2 (Nat.ltb_ge _ (length a))) by lia.
    assert (Hd : delete (length a + 1 + length b1)%nat l = a ++ k :: b1 ++ b2).
    { replace l with ((a ++ k :: b1) ++ x :: b2) by (unfold l; by rewrite <- !app_assoc).
      replace (length a + 1 + length b1)%nat with (length (a ++ k :: b1))
        by (rewrite length_app; cbn; lia).
      by rewrite delete_middle, <- app_assoc. }
    rewrite Hd, app_nil_r. by apply IH.
  - unfold l. rewrite <- app_assoc. cbn [app].
    rewrite (IH _ (x :: b2) eq_refl). by rewrite <- app_assoc.
Qed.

Lemma remove_duplicates_left a1 a2 k b :
  remove_duplicates (length a1) (a1 ++ a2 ++ k :: b) (length a1 + length a2) =
  List.filter (other_machine k) a1 ++ a2 ++ k :: b.
Proof.
  revert a2. induction a1 as [|x a1 IH] using rev_ind; intros a2; [done|].
  rewrite length_app, Nat.add_1_r. set (l := (a1 ++ [x]) ++ a2 ++ k :: b).
  assert (Hk : l !! (S (length a1) + length a2)%nat = Some k).
  { unfold l. rewrite app_assoc.
    replace (S (length a1) + length a2)%nat with (length ((a1 ++ [x]) ++ a2))
      by (rewrite !length_app; cbn; lia). by rewrite list_lookup_middle. }
  assert (Hx : l !! length a1 = Some x).
  { unfold l. rewrite <- app_assoc. cbn. by rewrite list_lookup_middle. }
  cbn [remove_duplicates]. rewrite Hk, Hx.
  rewrite (proj2 (Nat.eqb_neq _ _)) by lia. cbn [negb andb].
  rewrite List.filter_app. cbn [List.filter].
  unfold other_machine at 2. destruct (sameTrustedMachine k x); cbn [negb].
  - rewrite (proj2 (Nat.ltb_lt _ _)) by lia. cbn [Nat.add pred].
    unfold l. rewrite <- app_assoc. cbn [app]. rewrite delete_middle, app_nil_r. apply IH.
  - unfold l. rewrite <- !app_assoc. cbn [app].
    replace (S (length a1) + length a2)%nat with (length a1 + length (x :: a2))%nat by (cbn; lia).
    exact (IH (x :: a2)).
Qed.

Lemma removeDuplicateTrustedPeers_spec a k b :
  removeDuplicateTrustedPeers (a ++ k :: b) (length a) =
  List.filter (other_machine k) a ++ k :: List.filter (other_machine k) b.
Proof.
  unfold removeDuplicateTrustedPeers.
  rewrite <- (app_nil_r b) at 2.
  rewrite (remove_duplicates_right (length (a ++ k :: b)) a k b [])
    by (rewrite length_app; cbn; lia).
  rewrite app_nil_r, Nat.add_1_r. cbn [remove_duplicates].
  rewrite !list_lookup_middle by done. rewrite Nat.eqb_refl. cbn [negb andb].
  pose proof (remove_duplicates_left a [] k (List.filter (other_machine k) b)) as H.
  cbn [app length] in H. rewrite Nat.add_0_r in H. exact H.
Qed.

(** [add_trusted] either merges one entry and drops the entries that became
    the same machine, or appends. *)
Lemma add_trusted_cases l p :
  (exists a d b, l = a ++ d :: b /\ sameTrustedMachine d p = true /\
     (forall x, x ∈ a -> sameTrustedMachine x p = false) /\
     let m := mergeTrustedPeer d p in
     add_trusted l p = List.filter (other_machine m) a ++ m :: List.filter (other_machine m) b) \/
  ((forall x, x ∈ l -> sameTrustedMachine x p = false) /\ add_trusted l p = l ++ [p]).
Proof.
  unfold add_trusted. destruct (find_index _ l) as [i|] eqn:Ef.
  - left. apply find_index_split in Ef as (a & d & b & -> & -> & Hd & Ha).
    exists a, d, b. rewrite list_lookup_middle by done. split; [done|]. split; [done|].
    split; [done|]. cbv zeta. by rewrite insert_middle, removeDuplicateTrustedPeers_spec.
  - right. split; [|done]. exact (proj1 (find_index_None _ _) Ef).
Qed.

Lemma remove_first_spec {A} (p : A -> bool) l :
  (exists a x b, l = a ++ x :: b /\ p x = true /\ (forall y, y ∈ a -> p y = false) /\
     remove_first p l = (a ++ b, true)) \/
  ((forall y, y ∈ l -> p y = false) /\ remove_first p l = (l, false)).
Proof.
  induction l as [|x l IH]; cbn.
  - right. split; [|done]. intros y Hy. by apply not_elem_of_nil in Hy.
  - destruct (p x) eqn:E.
    + left. exists [], x, l. split; [done|]. split; [done|]. split; [|done].
      intros y Hy. by apply not_elem_of_nil in Hy.
    + destruct IH as [(a & y & b & -> & Hy & Ha & ->)|[Hno ->]].
      * left. exists (x :: a), y, b. split; [done|]. split; [done|]. split; [|done].
        intros z [->|Hz]%elem_of_cons; auto.
      * right. split; [|done]. intros y [->|Hy]%elem_of_cons; auto.
Qed.

(** ** Properties *)

(** One entry per service.  [AddRemote] keeps the paired remotes unique per
    service (node, protocol, effective port), never changes the service an
    entry stands for, keeps the order, and afterwards an entry for the added
    service exists: an existing one is merged in place, otherwise one is
    appended. *)
Lemma AddRemote_unique c r now
  (Huniq : remotes_unique (Remotes c))
  (Hkeyed : Forall keyed (r :: Remotes c)) :
  remotes_unique (Remotes (AddRemote c r now)) /\
  Trusted (AddRemote c r now) = Trusted c /\
  RemoteServiceKey r ∈ map RemoteServiceKey (Remotes (AddRemote c r now)) /\
  (map RemoteServiceKey (Remotes (AddRemote c r now)) = map RemoteServiceKey (Remotes c) \/
   map RemoteServiceKey (Remotes (AddRemote c r now)) =
     map RemoteServiceKey (Remotes c) ++ [RemoteServiceKey r]).
Proof.
  unfold AddRemote. cbn [Remotes set_remotes Trusted].
  set (r' := stamp_remote r now).
  assert (Hk : RemoteServiceKey r' = RemoteServiceKey r /\ rc_NodeID r' = rc_NodeID r).
  { unfold r', stamp_remote. by destruct (is_zero_time _). }
  destruct Hk as [Hk Hn]. inversion_clear Hkeyed as [|? ? Hr Hl].
  unfold keyed in Hr. rewrite <- Hn in Hr. rewrite <- Hk. clearbody r'. clear Hk Hn r.
  destruct (add_remote_cases (Remotes c) r') as [(a & d & b & El & Hs & ->)|[Hno ->]].
  - rewrite El in *. apply SameRemoteService_spec in Hs as (Hd & _ & Hkey).
    apply Forall_app in Hl as [_ Hl]. inversion_clear Hl as [|? ? Hkd _].
    pose proof (mergeRemote_key d r' Hkd Hr Hkey) as Hm.
    assert (Hsame : forall x, SameRemoteService (mergeRemote d r') x = SameRemoteService d x).
    { intros x. by apply same_service_key. }
    split; [|split; [done|split]].
    + apply pairwise_app in Huniq as (H1 & H2 & H12). apply pairwise_cons in H2 as [H2 H3].
      apply pairwise_app. split; [done|]. split.
      * apply pairwise_cons. split; [|done]. intros y Hy. rewrite Hsame. auto.
      * intros x y Hx [->|Hy]%elem_of_cons.
        -- rewrite SameRemoteService_sym, Hsame, SameRemoteService_sym.
           apply H12; [done|by apply list_elem_of_here].
        -- apply H12; [done|by apply list_elem_of_further].
    + rewrite map_app. cbn [map]. rewrite Hm, Hkey. apply elem_of_app. right.
      by apply list_elem_of_here.
    + left. rewrite !map_app. cbn [map]. by rewrite Hm.
  - split; [|split; [done|split]].
    + apply pairwise_app. split; [done|]. split; [repeat constructor|].
      intros x y Hx Hy. apply list_elem_of_singleton in Hy as ->. auto.
    + rewrite map_app. apply elem_of_app. right. by apply list_elem_of_here.
    + right. by rewrite map_app.
Qed.

Definition sample_remote (node proto : string) (port : Z) : RemoteConfig :=
  mkRemote "pc" node "" "" "iroh" proto port [] "" [] no_identity zero_time zero_time.

Lemma AddRemote_unique_witness :
  let c := set_remotes (defaultConfig (Ok "h")) [sample_remote "12D3KooWa" "rdp" 0] in
  let r := sample_remote "12D3KooWa" "RDP " 3389 in
  remotes_unique (Remotes (AddRemote c r 7)) /\
  Trusted (AddRemote c r 7) = Trusted c /\
  RemoteServiceKey r ∈ map RemoteServiceKey (Remotes (AddRemote c r 7)) /\
  (map RemoteServiceKey (Remotes (AddRemote c r 7)) = map RemoteServiceKey (Remotes c) \/
   map RemoteServiceKey (Remotes (AddRemote c r 7)) =
     map RemoteServiceKey (Remotes c) ++ [RemoteServiceKey r]).
Proof.
  apply (AddRemote_unique
    (set_remotes (defaultConfig (Ok "h")) [sample_remote "12D3KooWa" "rdp" 0])
    (sample_remote "12D3KooWa" "RDP " 3389) 7).
  - repeat constructor.
  - repeat constructor; unfold keyed, bar_free; vm_compute; repeat constructor; discriminate.
Defined.

(** C26: one trust entry per machine, and trust survives an update.  When the
    trusted peers are pairwise different machines, [AddTrustedPeer] keeps them
    so, trusts the added node, drops nobody who is a different machine from
    the added peer, and every entry afterwards is an old one or the added
    (possibly merged) one. *)
Theorem AddTrustedPeer_distinct c p now
  (Hd : trusted_distinct (Trusted c)) :
  trusted_distinct (Trusted (AddTrustedPeer c p now)) /\
  (tp_NodeID p <> "" -> IsTrusted (AddTrustedPeer c p now) (tp_NodeID p) = true) /\
  (forall t, t ∈ Trusted c -> sameTrustedMachine t p = false ->
     t ∈ Trusted (AddTrustedPeer c p now)) /\
  (forall t, t ∈ Trusted (AddTrustedPeer c p now) ->
     t ∈ Trusted c \/ t = stamp_trusted p now \/
     exists d, d ∈ Trusted c /\ sameTrustedMachine d p = true /\
       t = mergeTrustedPeer d (stamp_trusted p now)).
Proof.
  unfold AddTrustedPeer, IsTrusted. cbn [Trusted set_trusted].
  set (q := stamp_trusted p now).
  assert (Hq : (forall x, sameTrustedMachine x q = sameTrustedMachine x p) /\
               tp_NodeID q = tp_NodeID p).
  { unfold q, stamp_trusted. by destruct (is_zero_time _). }
  destruct Hq as [Hq Hqn].
  destruct (add_trusted_cases (Trusted c) q) as [(a & d & b & El & Hs & Ha & ->)|[Hno ->]].
  - rewrite El in *. set (m := mergeTrustedPeer d q).
    apply pairwise_app in Hd as (H1 & H2 & H12). apply pairwise_cons in H2 as [H2 H3].
    split; [|split; [|split]].
    + apply pairwise_app. split; [by apply pairwise_filter|]. split.
      * apply pairwise_cons. split; [|by apply pairwise_filter].
        intros y [_ Hy]%elem_of_list_filter. unfold other_machine in Hy. by go_bool.
      * intros x y [Hx Hxm]%elem_of_list_filter [->|[Hy _]%elem_of_list_filter]%elem_of_cons.
        -- unfold other_machine in Hxm. go_bool. by rewrite sameTrustedMachine_sym.
        -- apply H12; [done|by apply list_elem_of_further].
    + intros Hne. rewrite existsb_app. cbn [existsb]. apply orb_true_iff. right.
      apply orb_true_iff. left. apply bool_decide_eq_true. unfold m.
      cbn [mergeTrustedPeer tp_NodeID]. unfold pick. rewrite Hqn. by rewrite bool_decide_eq_false_2.
    + intros t Ht Hts. rewrite <- Hq in Hts.
      assert (Hm : t <> d -> sameTrustedMachine t d = false -> other_machine m t = true).
      { intros _ Htd. unfold other_machine. apply negb_true_iff.
        destruct (sameTrustedMachine m t) eqn:E; [|done].
        rewrite sameTrustedMachine_sym in E. apply same_as_merged in E. intuition congruence. }
      apply elem_of_app in Ht as [Ht|[->|Ht]%elem_of_cons]; [| |].
      * apply elem_of_app. left. apply elem_of_list_filter. split; [done|]. apply Hm; [|].
        -- intros ->. congruence.
        -- apply H12; [done|by apply list_elem_of_here].
      * congruence.
      * apply elem_of_app. right. apply list_elem_of_further, elem_of_list_filter.
        split; [done|]. apply Hm; [intros ->; congruence|]. rewrite sameTrustedMachine_sym. auto.
    + intros t [[Ht _]%elem_of_list_filter|[->|[Ht _]%elem_of_list_filter]%elem_of_cons]%elem_of_app.
      * left. apply elem_of_app. by left.
      * right. right. exists d. rewrite <- Hq. split; [|done].
        apply elem_of_app. right. by apply list_elem_of_here.
      * left. apply elem_of_app. right. by apply list_elem_of_further.
  - split; [|split; [|split]].
    + apply pairwise_app. split; [done|]. split; [repeat constructor|].
      intros x y Hx Hy. apply list_elem_of_singleton in Hy as ->. auto.
    + intros _. rewrite existsb_app. cbn [existsb]. rewrite Hqn, bool_decide_eq_true_2 by done.
      by rewrite orb_true_r.
    + intros t Ht _. apply elem_of_app. by left.
    + intros t [Ht|Ht%list_elem_of_singleton]%elem_of_app; auto.
Qed.

Definition sample_peer (node machine : string) : TrustedPeer :=
  mkTrusted node "pc" "" machine "rdp" 3389 no_identity zero_time zero_time.

Lemma AddTrustedPeer_distinct_witness :
  let c := set_trusted (defaultConfig (Ok "h")) [sample_peer "n1" "m1"; sample_peer "n2" "m2"] in
  let p := sample_peer "n2" "m1" in
  trusted_distinct (Trusted (AddTrustedPeer c p 7)) /\
  (tp_NodeID p <> "" -> IsTrusted (AddTrustedPeer c p 7) (tp_NodeID p) = true) /\
  (forall t, t ∈ Trusted c -> sameTrustedMachine t p = false -> t ∈ Trusted (AddTrustedPeer c p 7)) /\
  (forall t, t ∈ Trusted (AddTrustedPeer c p 7) ->
     t ∈ Trusted c \/ t = stamp_trusted p 7 \/
     exists d, d ∈ Trusted c /\ sameTrustedMachine d p = true /\
       t = mergeTrustedPeer d (stamp_trusted p 7)).
Proof.
  apply (AddTrustedPeer_distinct
    (set_trusted (defaultConfig (Ok "h")) [sample_peer "n1" "m1"; sample_peer "n2" "m2"])).
  repeat constructor.
Defined.

Lemma IsTrusted_spec c n : IsTrusted c n = true <-> exists t, t ∈ Trusted c /\ tp_NodeID t = n.
Proof.
  unfold IsTrusted. rewrite existsb_exists. split; intros (t & Ht & Hn); exists t;
    rewrite bool_decide_eq_true in *; (split; [|done]); by apply list_elem_of_In.
Qed.

(** Removing trust removes it.  With one entry per machine,
    [RemoveTrustedPeer] reports whether the node was trusted, the node is not
    trusted afterwards, every other node keeps its trust, and the entries stay
    one per machine. *)
Lemma RemoveTrustedPeer_revokes c n
  (Hd : trusted_distinct (Trusted c)) (Hn : n <> "") :
  snd (RemoveTrustedPeer c n) = IsTrusted c n /\
  IsTrusted (fst (RemoveTrustedPeer c n)) n = false /\
  (forall m, m <> n -> IsTrusted (fst (RemoveTrustedPeer c n)) m = IsTrusted c m) /\
  trusted_distinct (Trusted (fst (RemoveTrustedPeer c n))).
Proof.
  unfold RemoveTrustedPeer.
  destruct (remove_first_spec (fun t => bool_decide (tp_NodeID t = n)) (Trusted c))
    as [(a & x & b & El & Hx & Ha & ->)|[Hno ->]]; cbn [fst snd].
  - unfold trusted_distinct, IsTrusted. cbn [Trusted set_trusted]. unfold trusted_distinct in Hd.
    rewrite El in *. go_bool.
    apply pairwise_app in Hd as (H1 & H2 & H12). apply pairwise_cons in H2 as [H2 H3].
    split; [|split; [|split]].
    + symmetry. rewrite existsb_app. cbn [existsb]. rewrite (bool_decide_eq_true_2 (_ = n)) by done.
      by rewrite orb_true_r.
    + apply not_true_iff_false. rewrite existsb_app, orb_true_iff, !existsb_exists.
      intros [(y & Hy & Hyn)|(y & Hy & Hyn)]; apply list_elem_of_In in Hy.
      * apply Ha in Hy. cbn in Hy. congruence.
      * apply H2 in Hy. go_bool. unfold sameTrustedMachine in Hy. go_bool.
        assert (same_nonempty (tp_NodeID x) (tp_NodeID y) = true); [|congruence].
        apply same_nonempty_spec. split; congruence.
    + intros m Hm. rewrite !existsb_app. cbn [existsb].
      rewrite (bool_decide_eq_false_2 (tp_NodeID x = m)) by congruence. done.
    + apply pairwise_app. split; [done|]. split; [done|]. intros y z Hy Hz.
      apply H12; [done|by apply list_elem_of_further].
  - assert (Hf : IsTrusted c n = false).
    { apply not_true_iff_false. rewrite IsTrusted_spec. intros (t & Ht & Htn).
      apply Hno in Ht. go_bool. done. }
    split; [done|]. split; [exact Hf|]. split; [done|]. exact Hd.
Qed.

Lemma RemoveTrustedPeer_revokes_witness :
  let c := set_trusted (defaultConfig (Ok "h")) [sample_peer "n1" "m1"; sample_peer "n2" "m2"] in
  snd (RemoveTrustedPeer c "n2") = IsTrusted c "n2" /\
  IsTrusted (fst (RemoveTrustedPeer c "n2")) "n2" = false /\
  (forall m, m <> "n2"%string -> IsTrusted (fst (RemoveTrustedPeer c "n2")) m = IsTrusted c m) /\
  trusted_distinct (Trusted (fst (RemoveTrustedPeer c "n2"))).
Proof.
  apply (RemoveTrustedPeer_revokes
    (set_trusted (defaultConfig (Ok "h")) [sample_peer "n1" "m1"; sample_peer "n2" "m2"]) "n2").
  - repeat constructor.
  - discriminate.
Defined.

(** The law of the TOML codec: decoding what was encoded gives it back over
    any base. *)
Class TomlLaws `{Toml} : Prop := {
  toml_roundtrip c s base : toml_marshal c = Ok s -> toml_unmarshal s base = Ok c;
}.

(** The saved configuration is the running one.  [Save] always leaves the
    configuration normalized in memory: the share backend is one of the four,
    its mode is on, every mode is set and the publish interval is positive;
    and normalizing again changes nothing.  When [Save] reports no error the
    next [Load] returns exactly that configuration; on an error the file is as
    before. *)
Lemma Save_Load `{TomlLaws} c file mkdir write hostname gen mkdir' write' :
  let '(c', file', r) := Save c file mkdir write in
  config_normal c' /\ NormalizeNetworkBackend c' = c' /\
  Remotes c' = Remotes c /\ Trusted c' = Trusted c /\
  (forall e, r = Err e -> file' = file) /\
  (r = Ok tt -> exists data, file' = Some data /\
     Load hostname (Some (Ok data)) gen mkdir' write' = Ok c').
Proof.
  unfold Save. pose proof (normalize_normal c) as Hn.
  pose proof (normalize_id _ Hn) as Hi.
  pose proof (normalize_lists c) as Hr.
  destruct Hr as [Hr Ht]. set (c' := NormalizeNetworkBackend c) in *.
  destruct mkdir as [[]|e]; [|do 5 (split; [done|]); done].
  destruct (toml_marshal c') as [data|e] eqn:Em; [|do 5 (split; [done|]); done].
  destruct write as [[]|e]; [|do 5 (split; [done|]); done].
  do 5 (split; [done|]). intros _. exists data. split; [done|].
  unfold Load. rewrite (toml_roundtrip c' data _ Em). cbn. by rewrite Hi.
Qed.

(** A codec for a single configuration shows that the law can hold. *)
Definition one_config : Config := NormalizeNetworkBackend (defaultConfig (Ok "h")).
#[local] Instance one_toml : Toml := {|
  toml_marshal c := if bool_decide (c = one_config) then Ok "saved" else Err "unsupported";
  toml_unmarshal s base := if bool_decide (s = "saved") then Ok one_config else Err "parse error";
|}.

#[local] Instance one_toml_laws : TomlLaws.
Proof. split. intros c s base. cbn. case_bool_decide as H; [|done]. intros [= <-]. by subst. Qed.

Lemma Save_Load_witness :
  let '(c', file', r) := Save (defaultConfig (Ok "h")) None (Ok tt) (Ok tt) in
  config_normal c' /\ NormalizeNetworkBackend c' = c' /\
  Remotes c' = [] /\ Trusted c' = [] /\
  (forall e, r = Err e -> file' = None) /\
  (r = Ok tt -> exists data, file' = Some data /\
     Load (Ok "h") (Some (Ok data)) (Err "rand") (Ok tt) (Ok tt) = Ok c').
Proof.
  exact (Save_Load (defaultConfig (Ok "h")) None (Ok tt) (Ok tt) (Ok "h") (Err "rand") (Ok tt) (Ok tt)).
Defined.
