(* ===== verification/Url.v ===== *)
(** * Url: the part of [net/url] that invite links use

    Query escaping, [url.Values] and the split of a URL at [?] and [#].  What
    [url.Parse] checks of scheme, host and path beyond that split is the
    operation [url_valid] of the class [UrlCheck]. *)

From S2P Require Import Prelude GoStrings.

(** ** Query escaping *)

Definition unreserved (b : byte) : bool :=
  let z := b2z b in
  ((48 <=? z) && (z <=? 57)) || ((65 <=? z) && (z <=? 90)) || ((97 <=? z) && (z <=? 122))
  || (z =? 45) || (z =? 95) || (z =? 46) || (z =? 126).

Definition upper_hex_digit (z : Z) : byte := z2b (if z <? 10 then 48 + z else 55 + z).

(** [url.QueryEscape] *)
Fixpoint escape_bytes (l : bytes) : bytes :=
  match l with
  | [] => []
  | b :: r =>
    (if unreserved b then [b]
     else if bool_decide (b = x20) then [x2b]
     else [x25; upper_hex_digit (b2z b / 16); upper_hex_digit (b2z b mod 16)])
    ++ escape_bytes r
  end.

(** [url.QueryUnescape]; [None] is an [EscapeError]. *)
Fixpoint unescape_bytes (l : bytes) : option bytes :=
  match l with
  | [] => Some []
  | x25 :: h :: d :: r =>
      x ← hex_val h; y ← hex_val d; rest ← unescape_bytes r; Some (z2b (x * 16 + y) :: rest)
  | x25 :: _ => None
  | x2b :: r => rest ← unescape_bytes r; Some (x20 :: rest)
  | b :: r => rest ← unescape_bytes r; Some (b :: rest)
  end.

(** ** [url.Values] *)

Notation Values := (gmap string (list string)).

(** Split at every [&]. *)
Fixpoint split_amp (l : bytes) : list bytes :=
  match l with
  | [] => [[]]
  | x26 :: r => [] :: split_amp r
  | b :: r => match split_amp r with
              | s :: ss => (b :: s) :: ss
              | [] => [[b]]
              end
  end.

(** [strings.Cut(l, "=")], the value empty when there is no [=]. *)
Fixpoint cut_eq (l : bytes) : bytes * bytes :=
  match l with
  | [] => ([], [])
  | x3d :: r => ([], r)
  | b :: r => let '(k, v) := cut_eq r in (b :: k, v)
  end.

Definition values_add (q : Values) (k v : string) : Values :=
  <[k := default [] (q !! k) ++ [v]]> q.
Definition values_set (q : Values) (k v : string) : Values := <[k := [v]]> q.
Definition values_get (q : Values) (k : string) : string :=
  match q !! k with Some (v :: _) => v | _ => "" end.

(** One segment of [ParseQuery]. *)
Definition parse_segment (q : Values) (seg : bytes) : Values :=
  if bool_decide (x3b ∈ seg) then q
  else if bool_decide (seg = []) then q
  else
    let '(k, v) := cut_eq seg in
    match unescape_bytes k, unescape_bytes v with
    | Some k, Some v => values_add q (of_bytes k) (of_bytes v)
    | _, _ => q
    end.

(** [(u.RawQuery).Query] *)
Definition ParseQuery (raw : bytes) : Values :=
  fold_left parse_segment (split_amp raw) ∅.

(** Sorted insertion by byte order. *)
Fixpoint insert_sorted (x : string * list string) (l : list (string * list string))
  : list (string * list string) :=
  match l with
  | [] => [x]
  | y :: r => if String.leb (fst x) (fst y) then x :: l else y :: insert_sorted x r
  end.
Definition sort_pairs (l : list (string * list string)) : list (string * list string) :=
  fold_right insert_sorted [] l.

Definition encode_pair (k v : string) : bytes :=
  escape_bytes (to_bytes k) ++ [x3d] ++ escape_bytes (to_bytes v).

Fixpoint join_amp (l : list bytes) : bytes :=
  match l with
  | [] => []
  | [s] => s
  | s :: r => s ++ [x26] ++ join_amp r
  end.

Definition segments (l : list (string * list string)) : list bytes :=
  flat_map (fun kv => map (encode_pair (fst kv)) (snd kv)) l.

(** [Values.Encode] *)
Definition Values_Encode (q : Values) : bytes := join_amp (segments (sort_pairs (map_to_list q))).

(** ** Parsing a URL *)

Class UrlCheck : Type := { url_valid : string -> bool }.

Record Url : Type := mkUrl { u_base : string; u_raw_query : bytes; u_fragment : string }.

(** [url.Parse]: the fragment after the first [#], the query after the first
    [?] before it. *)
Definition Parse `{UrlCheck} (raw : string) : option Url :=
  if url_valid raw then
    let '(u, frag) := match cut raw "#" with Some (a, b) => (a, b) | None => (raw, "") end in
    let '(base, q) := match cut u "?" with Some (a, b) => (a, b) | None => (u, "") end in
    Some (mkUrl base (to_bytes q) frag)
  else None.

(** [u.String()] of a URL whose base is already in normal form. *)
Definition url_string (u : Url) : string :=
  (u_base u ++ (if bool_decide (u_raw_query u = []) then "" else "?" ++ of_bytes (u_raw_query u))
   ++ (if bool_decide (u_fragment u = "") then "" else "#" ++ u_fragment u))%string.

Definition Query (u : Url) : Values := ParseQuery (u_raw_query u).
Definition set_query (u : Url) (q : Values) : Url := mkUrl (u_base u) (Values_Encode q) (u_fragment u).

(** ** The query round trip *)

Lemma upper_hex_val z : 0 <= z < 16 -> hex_val (upper_hex_digit z) = Some z.
Proof.
  intros Hz.
  assert (H : forallb (fun k => bool_decide (hex_val (upper_hex_digit (Z.of_nat k)) = Some (Z.of_nat k)))
                (List.seq 0 16) = true) by (vm_compute; reflexivity).
  rewrite forallb_forall in H. specialize (H (Z.to_nat z) ltac:(apply in_seq; lia)).
  go_bool. by rewrite Z2Nat.id in H by lia.
Qed.

Lemma unescape_plain b r :
  b <> x25 -> b <> x2b -> unescape_bytes (b :: r) = rest ← unescape_bytes r; Some (b :: rest).
Proof. by destruct b. Qed.

Lemma unreserved_plain b : unreserved b = true -> b <> x25 /\ b <> x2b.
Proof. by destruct b. Qed.

Lemma unescape_escape l : unescape_bytes (escape_bytes l) = Some l.
Proof.
  induction l as [|b l IH]; [done|]. cbn [escape_bytes].
  destruct (unreserved b) eqn:E.
  - apply unreserved_plain in E as [H1 H2]. cbn [app]. rewrite unescape_plain by done.
    by rewrite IH.
  - case_bool_decide as Hb; [subst b; cbn; by rewrite IH|].
    cbn [app unescape_bytes]. pose proof (b2z_range b).
    rewrite !upper_hex_val by (try apply Z.mod_pos_bound; try split;
      try apply Z.div_pos; try apply Z.div_lt_upper_bound; lia).
    cbn. rewrite IH. cbn. f_equal. f_equal.
    rewrite <- (z2b_b2z b) at 3. f_equal. rewrite (Z.div_mod (b2z b) 16) at 3; lia.
Qed.

(** Bytes of an escaped text: no [&], [=], [;], [#], [?] and no space. *)
Definition query_byte (b : byte) : bool :=
  unreserved b || bool_decide (b = x25) || bool_decide (b = x2b).

Lemma escape_query_bytes l : Forall (fun b => query_byte b = true) (escape_bytes l).
Proof.
  assert (Hd : forall z, 0 <= z < 16 -> query_byte (upper_hex_digit z) = true).
  { intros z Hz.
    assert (H : forallb (fun k => query_byte (upper_hex_digit (Z.of_nat k))) (List.seq 0 16) = true)
      by (vm_compute; reflexivity).
    rewrite forallb_forall in H. specialize (H (Z.to_nat z) ltac:(apply in_seq; lia)).
    by rewrite Z2Nat.id in H by lia. }
  induction l as [|b l IH]; [constructor|]. cbn [escape_bytes]. apply Forall_app. split; [|done].
  destruct (unreserved b) eqn:E; [repeat constructor; unfold query_byte; by rewrite E|].
  case_bool_decide; [by repeat constructor|]. pose proof (b2z_range b).
  constructor; [done|]. constructor; [|constructor; [|constructor]]; apply Hd.
  - split; [apply Z.div_pos; lia|apply Z.div_lt_upper_bound; lia].
  - apply Z.mod_pos_bound. lia.
Qed.

Lemma query_byte_facts b :
  query_byte b = true ->
  b <> x26 /\ b <> x3d /\ b <> x3b /\ b <> x23 /\ b <> x3f /\ printable b = true.
Proof. by destruct b. Qed.

Lemma cut_eq_app k v : Forall (fun b => query_byte b = true) k -> cut_eq (k ++ [x3d] ++ v) = (k, v).
Proof.
  induction 1 as [|b k Hb Hk IH]; [done|]. cbn [app].
  apply query_byte_facts in Hb as (_ & Hb & _).
  assert (Hc : cut_eq (b :: k ++ [x3d] ++ v) = let '(k, v) := cut_eq (k ++ [x3d] ++ v) in (b :: k, v))
    by (by destruct b).
  cbn [app] in Hc, IH. by rewrite Hc, IH.
Qed.

Lemma parse_segment_encode q k v :
  parse_segment q (encode_pair k v) = values_add q k v.
Proof.
  unfold parse_segment, encode_pair.
  pose proof (escape_query_bytes (to_bytes k)) as Hk.
  pose proof (escape_query_bytes (to_bytes v)) as Hv.
  rewrite bool_decide_eq_false_2.
  2:{ intros [Hi|[Hi|Hi]%elem_of_cons]%elem_of_app.
      - rewrite Forall_forall in Hk. apply Hk, query_byte_facts in Hi. tauto.
      - discriminate Hi.
      - rewrite Forall_forall in Hv. apply Hv, query_byte_facts in Hi. tauto. }
  rewrite bool_decide_eq_false_2 by (by destruct (escape_bytes (to_bytes k))).
  rewrite cut_eq_app by done. by rewrite !unescape_escape, !of_to_bytes.
Qed.

Definition amp_free (s : bytes) : Prop := Forall (fun b => b <> x26) s.

Lemma split_amp_plain s r :
  amp_free s -> split_amp (s ++ r) =
  match split_amp r with h :: t => (s ++ h) :: t | [] => [s] end.
Proof.
  induction 1 as [|b s Hb Hs IH]; cbn [app].
  - destruct r as [|b r]; [done|]. destruct (split_amp (b :: r)) eqn:E; [|done].
    exfalso. revert E. cbn. destruct b; try done; by destruct (split_amp r).
  - assert (Hc : split_amp (b :: s ++ r) =
        match split_amp (s ++ r) with h :: ss => (b :: h) :: ss | [] => [[b]] end)
      by (by destruct b).
    rewrite Hc, IH. by destruct (split_amp r).
Qed.

Lemma split_amp_join l :
  Forall amp_free l -> l <> [] -> split_amp (join_amp l) = l.
Proof.
  induction 1 as [|s l Hs Hl IH]; [done|]. intros _. destruct l as [|s' l].
  - cbn. pose proof (split_amp_plain s [] Hs) as H. rewrite app_nil_r in H.
    rewrite H. cbn. by rewrite app_nil_r.
  - cbn [join_amp]. rewrite split_amp_plain by done. cbn [app split_amp].
    rewrite app_nil_r. f_equal. by apply IH.
Qed.

Lemma encode_pair_bytes k v b :
  b ∈ encode_pair k v -> query_byte b = true \/ b = x3d.
Proof.
  unfold encode_pair. intros [Hb|[Hb|Hb]%elem_of_cons]%elem_of_app; [left|by right|left].
  - pose proof (escape_query_bytes (to_bytes k)) as H. rewrite Forall_forall in H. auto.
  - pose proof (escape_query_bytes (to_bytes v)) as H. rewrite Forall_forall in H. auto.
Qed.

Lemma segments_amp_free l : Forall amp_free (segments l).
Proof.
  apply Forall_forall. intros s Hs. unfold segments in Hs.
  apply list_elem_of_In, in_flat_map in Hs as ([k vs] & _ & Hs).
  apply in_map_iff in Hs as (v & <- & _). apply Forall_forall. intros b Hb.
  apply encode_pair_bytes in Hb as [Hb|Hb]; [apply query_byte_facts in Hb; tauto|by subst].
Qed.

(** Adding all values of one key, then the others. *)
Lemma fold_parse_segments l (q : Values) :
  NoDup l.*1 -> (forall k, k ∈ l.*1 -> q !! k = None) ->
  Forall (fun kv => snd kv <> []) l ->
  fold_left parse_segment (segments l) q = list_to_map l ∪ q.
Proof.
  revert q. induction l as [|[k vs] l IH]; intros q Hnd Hq Hne.
  - cbn. by rewrite (left_id_L ∅ (∪)).
  - unfold segments. cbn [flat_map fst snd]. fold (segments l). rewrite fold_left_app.
    cbn in Hnd. apply NoDup_cons in Hnd as [Hk Hnd]. inversion_clear Hne as [|? ? Hvs Hne'].
    assert (Hvals : forall ws us, q !! k = None ->
      fold_left parse_segment (map (encode_pair k) ws) (<[k := us]> q) = <[k := us ++ ws]> q).
    { intros ws; induction ws as [|w ws IHw]; intros us Hqk; cbn [map fold_left].
      - by rewrite app_nil_r.
      - rewrite parse_segment_encode. unfold values_add. rewrite lookup_insert_eq. cbn.
        rewrite insert_insert_eq, IHw by done. by rewrite <- app_assoc. }
    assert (Hqk : q !! k = None) by (apply Hq; cbn; by apply list_elem_of_here).
    cbn in Hvs. destruct vs as [|v vs]; [done|]. cbn [map fold_left].
    rewrite parse_segment_encode. unfold values_add at 1. rewrite Hqk. cbn [default app from_option].
    rewrite Hvals by done. rewrite IH.
    + cbn. rewrite <- insert_union_l, <- insert_union_r; [done|].
      by apply not_elem_of_list_to_map.
    + done.
    + intros k' Hk'. rewrite lookup_insert_ne by (intros ->; done).
      apply Hq. cbn. by apply list_elem_of_further.
    + done.
Qed.

Lemma insert_sorted_perm x l : insert_sorted x l ≡ₚ x :: l.
Proof.
  induction l as [|y l IH]; cbn; [done|]. destruct (String.leb _ _); [done|].
  rewrite IH. by apply Permutation_swap.
Qed.

Lemma sort_pairs_perm l : sort_pairs l ≡ₚ l.
Proof. induction l as [|x l IH]; cbn; [done|]. by rewrite insert_sorted_perm, IH. Qed.

(** [ParseQuery] inverts [Values.Encode] for values without empty lists. *)
Lemma ParseQuery_Encode (q : Values) :
  map_Forall (fun _ vs => vs <> []) q -> ParseQuery (Values_Encode q) = q.
Proof.
  intros Hne. unfold ParseQuery, Values_Encode.
  set (l := sort_pairs (map_to_list q)). pose proof (sort_pairs_perm (map_to_list q)) as Hp.
  fold l in Hp.
  assert (Hl : Forall (fun kv => snd kv <> []) l).
  { rewrite Hp. apply Forall_forall. intros [k vs] Hkv.
    apply elem_of_map_to_list in Hkv. by apply (Hne k vs). }
  assert (Hnd : NoDup l.*1) by (rewrite Hp; apply NoDup_fst_map_to_list).
  assert (Hm : list_to_map l = q).
  { rewrite <- (list_to_map_to_list q). by apply list_to_map_proper. }
  destruct (decide (segments l = [])) as [He|He].
  - assert (l = []) as El.
    { destruct l as [|[k vs] l']; [done|]. inversion_clear Hl as [|? ? Hv _]. cbn in Hv.
      by destruct vs. }
    rewrite El. cbn. rewrite <- Hm, El. done.
  - rewrite split_amp_join by (done || apply segments_amp_free).
    rewrite fold_parse_segments; [by rewrite (right_id_L ∅ (∪))|done| |done].
    intros k _. apply lookup_empty.
Qed.

(** The encoded query passes through the split of a URL. *)
Lemma Encode_bytes (q : Values) :
  Forall (fun b => b <> x23 /\ b <> x3f /\ printable b = true) (Values_Encode q).
Proof.
  assert (H : forall l, Forall (fun s => Forall (fun b => query_byte b = true \/ b = x3d) s) l ->
    Forall (fun b => b <> x23 /\ b <> x3f /\ printable b = true) (join_amp l)).
  { intros l; induction 1 as [|s l Hs Hl IH]; [constructor|].
    assert (Hs' : Forall (fun b => b <> x23 /\ b <> x3f /\ printable b = true) s).
    { eapply Forall_impl; [exact Hs|]. cbn. intros b [Hb| ->]; [|done].
      apply query_byte_facts in Hb. tauto. }
    destruct l; [done|]. cbn [join_amp]. apply Forall_app. split; [done|]. by constructor. }
  apply H, Forall_forall. intros s Hs. apply Forall_forall. intros b Hb.
  unfold segments in Hs. apply list_elem_of_In, in_flat_map in Hs as ([k vs] & _ & Hs).
  apply in_map_iff in Hs as (v & <- & _). by apply encode_pair_bytes in Hb.
Qed.
