(* ===== verification/InviteUrl.v ===== *)
(** * InviteUrl: the query parameters of an invite link

    The [with...] and [...FromURL] helpers of [internal/pairing/pairing.go]
    over the model of [net/url], and the shape of the links they build. *)

From S2P Require Import Prelude GoStrings Base58 Crypto Rendezvous Url.

Definition inviteFormatVersion : Z := 1.

Section InviteUrl.
Context `{UrlCheck}.

(** Parse, set one parameter, print; an unparsable link is left alone. *)
Definition with_param (rawURL k v : string) : string :=
  match Parse rawURL with
  | None => rawURL
  | Some u => url_string (set_query u (values_set (Query u) k v))
  end.

Definition withInviteVersion (rawURL : string) : string :=
  with_param rawURL "v" (itoa inviteFormatVersion).

Definition withIrohEndpointTicket (rawURL ticket : string) : string :=
  with_param rawURL "iroh_ticket" ticket.

Definition withInviteBackend (rawURL backend : string) : string :=
  let backend := trim_space backend in
  if bool_decide (backend = "") then rawURL else with_param rawURL "backend" backend.

Definition withInviteAddrs (rawURL peerID : string) (addrs : list string) : string :=
  match Parse rawURL with
  | None => rawURL
  | Some u =>
    let q := Query u in
    let q := if bool_decide (peerID = "") then q else values_set q "peer" peerID in
    let q := fold_left (fun q a => values_add q "addr" a) addrs q in
    url_string (set_query u q)
  end.

Definition query_get (rawURL k : string) : string :=
  match Parse rawURL with None => "" | Some u => values_get (Query u) k end.

Definition irohEndpointTicketFromURL (rawURL : string) : string :=
  query_get rawURL "iroh_ticket".

Definition inviteBackendFromURL (rawURL : string) : string :=
  let b := trim_space (query_get rawURL "backend") in
  if bool_decide (b ∈ ["libp2p_relay"; "libp2p_dht"; "bittorrent_dht"; "iroh"]) then b else "".

Definition InviteNetworkBackend (rawURL : string) : string :=
  let b := inviteBackendFromURL rawURL in
  if bool_decide (b <> "") then b
  else if bool_decide (irohEndpointTicketFromURL rawURL <> "") then "iroh"
  else "".

Definition inviteAddrsFromURL (rawURL : string) : list string :=
  match Parse rawURL with None => [] | Some u => default [] (Query u !! "addr"%string) end.

Definition invitePeerFromURL (rawURL : string) : string := query_get rawURL "peer".

Definition validateInviteFormatVersion (rawURL : string) : res unit :=
  match Parse rawURL with
  | None => Err "invalid link"
  | Some u =>
    let rawVersion := trim_space (values_get (Query u) "v") in
    if bool_decide (rawVersion = "") then Ok tt
    else match atoi rawVersion with
         | None => Err "invalid invite format version"
         | Some version =>
           if version <=? 0 then Err "invalid invite format version"
           else if inviteFormatVersion <? version then Err "unsupported invite format version"
           else Ok tt
         end
  end.

(** [pubKeyToPeerID] *)
Definition pubKeyToPeerID `{Crypto} (pubKeyBytes : bytes) : res string :=
  pub ← UnmarshalEd25519PublicKey pubKeyBytes;
  IDFromPublicKey pub.

Definition InvitePeerID `{Crypto} (rawURL : string) : string :=
  match DecodeURL rawURL with
  | Err _ => ""
  | Ok t =>
    match pubKeyToPeerID (PubKey t) with
    | Err _ => ""
    | Ok peerID =>
      if bool_decide (inviteAddrsFromURL rawURL <> []) &&
         bool_decide (invitePeerFromURL rawURL <> "")
      then invitePeerFromURL rawURL
      else peerID
    end
  end.
End InviteUrl.

(** ** Generated links *)

(** [url.Parse] accepts a [deskaccess] link whose host is base58 text and
    whose query is printable and holds no [#]. *)
Class UrlCheckLaws `{UrlCheck} : Prop := {
  url_valid_invite b q :
    Forall (fun x => is_Some (b58_index x)) (to_bytes b) ->
    Forall (fun x => x <> x23 /\ x <> x3f /\ printable x = true) q ->
    url_valid (url_string (mkUrl (URLScheme ++ "://" ++ b) q "")) = true;
}.

#[export] Instance any_url : UrlCheck := {| url_valid _ := true |}.
#[export] Instance any_url_laws : UrlCheckLaws.
Proof. by split. Qed.

(** A link with the base58 text [b] and the query [q]. *)
Definition invite_link (b : string) (q : Values) : string :=
  url_string (mkUrl (URLScheme ++ "://" ++ b) (Values_Encode q) "").

Definition b58_text (b : string) : Prop := Forall (fun x => is_Some (b58_index x)) (to_bytes b).
Definition full (q : Values) : Prop := map_Forall (fun _ vs => vs <> []) q.

Lemma full_set q k v : full q -> full (values_set q k v).
Proof. intros Hq. by apply map_Forall_insert_2. Qed.

Lemma full_empty : full (∅ : Values).
Proof. apply map_Forall_empty. Qed.

Lemma link_base_bytes b :
  b58_text b ->
  Forall (fun x => x <> x23 /\ x <> x3f /\ printable x = true) (to_bytes (URLScheme ++ "://" ++ b)).
Proof.
  intros Hb. rewrite !to_bytes_app. repeat (apply Forall_app; split).
  - by repeat constructor.
  - by repeat constructor.
  - eapply Forall_impl; [exact Hb|]. intros x Hx. apply base58_printable in Hx. tauto.
Qed.

(** An encoded query is read back behind a base without [#] and [?]. *)
Lemma Parse_url_string `{UrlCheck} base (q : Values) :
  Forall (fun x => x <> x23 /\ x <> x3f /\ printable x = true) (to_bytes base) ->
  url_valid (url_string (mkUrl base (Values_Encode q) "")) = true ->
  Parse (url_string (mkUrl base (Values_Encode q) "")) = Some (mkUrl base (Values_Encode q) "").
Proof.
  intros Hbase Hv. unfold Parse. rewrite Hv.
  unfold url_string. cbn [u_base u_raw_query u_fragment]. rewrite string_app_nil_r.
  pose proof (Encode_bytes q) as Hq.
  assert (Hb1 : Forall (fun c => c <> byte_of_ascii "?") (to_bytes base))
    by (eapply Forall_impl; [exact Hbase|]; cbn; tauto).
  assert (Hb2 : Forall (fun c => c <> byte_of_ascii "#") (to_bytes base))
    by (eapply Forall_impl; [exact Hbase|]; cbn; tauto).
  case_bool_decide as He.
  - rewrite string_app_nil_r, (cut_none base "#"), (cut_none base "?") by done.
    cbn. by rewrite He.
  - change ("?" ++ of_bytes (Values_Encode q))%string with (String "?" (of_bytes (Values_Encode q))).
    rewrite cut_none.
    2:{ rewrite to_bytes_app, to_bytes_cons, to_of_bytes. apply Forall_app. split; [done|].
        constructor; [done|]. eapply Forall_impl; [exact Hq|]. cbn. tauto. }
    rewrite cut_app_char by done. by rewrite to_of_bytes.
Qed.

Section Links.
Context `{UrlCheckLaws}.

Lemma Parse_link b q :
  b58_text b -> Parse (invite_link b q) = Some (mkUrl (URLScheme ++ "://" ++ b) (Values_Encode q) "").
Proof.
  intros Hb. apply Parse_url_string; [by apply link_base_bytes|].
  apply url_valid_invite; [done|apply Encode_bytes].
Qed.

Lemma query_get_link b q k :
  b58_text b -> full q -> query_get (invite_link b q) k = values_get q k.
Proof.
  intros Hb Hq. unfold query_get. rewrite Parse_link by done. unfold Query.
  cbn [u_raw_query]. by rewrite ParseQuery_Encode.
Qed.

Lemma with_param_link b q k v :
  b58_text b -> full q -> with_param (invite_link b q) k v = invite_link b (values_set q k v).
Proof.
  intros Hb Hq. unfold with_param. rewrite Parse_link by done.
  unfold Query, set_query. cbn [u_base u_raw_query u_fragment]. by rewrite ParseQuery_Encode.
Qed.

Lemma DecodeURL_link b q :
  b58_text b -> DecodeURL (invite_link b q) = DecodeURL (URLScheme ++ "://" ++ b)%string.
Proof.
  intros Hb. unfold invite_link, url_string. cbn [u_base u_raw_query u_fragment].
  rewrite string_app_nil_r. case_bool_decide as He; [by rewrite string_app_nil_r|].
  pose proof (Encode_bytes q) as Hq. set (e := Values_Encode q) in *.
  rewrite string_app_assoc, (string_app_assoc "://"), <- !(string_app_assoc URLScheme).
  unfold DecodeURL. rewrite !urlPrefix_scheme. rewrite (url_payload_encoded b) by done.
  rewrite (url_payload_query b) by done. done.
Qed.
End Links.

(** The backends an invite may name. *)
Definition invite_backends : list string := ["libp2p_relay"; "libp2p_dht"; "bittorrent_dht"; "iroh"].

Definition version_backend (backend : string) : Values :=
  values_set (values_set ∅ "v" (itoa inviteFormatVersion)) "backend" backend.

Lemma full_version_backend b : full (version_backend b).
Proof. apply full_set, full_set, full_empty. Qed.

Lemma invite_backend_trim b : b ∈ invite_backends -> trim_space b = b /\ b <> "".
Proof.
  intros Hb. repeat (apply elem_of_cons in Hb as [->|Hb]; [by split|]).
  by apply not_elem_of_nil in Hb.
Qed.

Lemma token_b58 t : b58_text (base58Encode (token_buf t)).
Proof. apply base58Encode_alphabet. Qed.

Section Shapes.
Context `{UrlCheckLaws}.

Lemma link_shape t backend :
  backend ∈ invite_backends ->
  withInviteBackend (withInviteVersion (Encode t)) backend =
  invite_link (base58Encode (token_buf t)) (version_backend backend).
Proof.
  intros Hb. destruct (invite_backend_trim _ Hb) as [Htrim Hne].
  assert (He : Encode t = invite_link (base58Encode (token_buf t)) ∅).
  { unfold invite_link, url_string. cbn. by rewrite !string_app_nil_r. }
  rewrite He. unfold withInviteVersion, withInviteBackend.
  rewrite with_param_link by (apply token_b58 || apply full_empty). rewrite Htrim.
  rewrite bool_decide_eq_false_2 by done.
  by rewrite with_param_link by (apply token_b58 || apply full_set, full_empty).
Qed.

Lemma ticket_shape t backend ticket :
  withIrohEndpointTicket (invite_link (base58Encode (token_buf t)) (version_backend backend)) ticket
  = invite_link (base58Encode (token_buf t)) (values_set (version_backend backend) "iroh_ticket" ticket).
Proof. apply with_param_link; [apply token_b58|apply full_version_backend]. Qed.

Lemma DecodeURL_token_link t q :
  token_typed t -> DecodeURL (invite_link (base58Encode (token_buf t)) q) = Ok (token_norm t).
Proof.
  intros Ht. rewrite DecodeURL_link by apply token_b58. by apply decode_encode_token.
Qed.
End Shapes.


