(* ===== verification/Invites.v ===== *)
(** * Invites: the host's invite store of [internal/pairing/pairing.go]

    The [Manager]'s two maps of invite pointers and every operation on them:
    [generateURL], [findActiveInvite], [findActivePairingInvite],
    [DeletePendingPairingInvitesExceptBackend], [ListInvites], [RevokeInvite],
    [RenameInvite], [verifyAndConsume] and the body of [sweepLoop].

    The two maps share [*invite] pointers, so the store has a heap of invites
    and the maps hold locations.  An operation runs under [Manager.mu] and
    reads the clock once, as [now].  A loop over a Go map takes the iteration
    order as an argument. *)

From S2P Require Import Prelude GoStrings Base58 Crypto Url Rendezvous Sessions Config Proofs InviteUrl.

Definition maxStoredInvites : nat := 500.

Record invite : Type := mkInvite {
  ID : string;
  inv_InviteID : bytes;
  Secret : bytes;
  inv_Mode : string;
  Protocol : string;
  inv_TargetPort : Z;          (** uint16 *)
  Label : string;
  URL : string;
  CreatedAt : Z;
  inv_ExpiresAt : Z;
  Revoked : bool;
  Used : bool;
  UsedBy : string;
  UsedByID : string;
  UsedAt : Z;
}.

Record InviteView : Type := mkView {
  v_ID : string; v_Mode : string; v_Protocol : string; v_Label : string; v_Status : string;
  v_CreatedAt : Z; v_ExpiresAt : Z; v_UsedBy : string; v_UsedByID : string; v_UsedAt : Z;
}.

Definition year : Z := 365 * 24 * hour.

(** [t.After(time.Now().Add(99 * 365 * 24 * time.Hour))]: the no-expiry
    sentinel. *)
Definition far_future (t now : Z) : bool := now + 99 * year <? t.

(** [inv.active()] *)
Definition active (inv : invite) (now : Z) : bool :=
  if Revoked inv || (bool_decide (inv_Mode inv = "onetime") && Used inv) then false
  else if far_future (inv_ExpiresAt inv) now then true
  else is_zero_time (inv_ExpiresAt inv) || (now <? inv_ExpiresAt inv).

Definition Status (inv : invite) (now : Z) : string :=
  if Revoked inv then "revoked"
  else if Used inv then "used"
  else if negb (is_zero_time (inv_ExpiresAt inv)) && (inv_ExpiresAt inv <? now) then "expired"
  else "pending".

Definition effectiveTargetPort (inv : option invite) : Z :=
  match inv with
  | None => DefaultPort ProtoRDP
  | Some i => if inv_TargetPort i =? 0 then DefaultPort (ParseProtocol (Protocol i))
              else inv_TargetPort i
  end.

Definition view (inv : invite) (now : Z) : InviteView :=
  mkView (ID inv) (inv_Mode inv) (Protocol inv) (Label inv) (Status inv now)
    (CreatedAt inv) (inv_ExpiresAt inv) (UsedBy inv) (UsedByID inv) (UsedAt inv).

Definition with_view_expiry (v : InviteView) (t : Z) : InviteView :=
  mkView (v_ID v) (v_Mode v) (v_Protocol v) (v_Label v) (v_Status v)
    (v_CreatedAt v) t (v_UsedBy v) (v_UsedByID v) (v_UsedAt v).

Definition defaultLabel (mode proto : string) : string :=
  let p := to_upper proto in
  let p := if bool_decide (p = "") then "RDP"%string else p in
  (if bool_decide (mode = "pairing") then p ++ " Pairing invite" else p ++ " one-time access")%string.

Definition inviteKey (id : bytes) : string := hex_encode id.

(** ** The manager *)

Record Manager : Type := mkManager {
  heap : gmap nat invite;
  next_loc : nat;                      (** the allocator: locations below are used *)
  invites : gmap string nat;
  byInviteID : gmap string nat;
  sessions : SessionStore;
  cfg : Config;
  nodeID : string;                     (** [m.n.NodeID()] *)
}.

Definition set_maps (m : Manager) (a b : gmap string nat) : Manager :=
  mkManager (heap m) (next_loc m) a b (sessions m) (cfg m) (nodeID m).
Definition set_cfg (m : Manager) (c : Config) : Manager :=
  mkManager (heap m) (next_loc m) (invites m) (byInviteID m) (sessions m) c (nodeID m).
Definition set_heap (m : Manager) (h : gmap nat invite) : Manager :=
  mkManager h (next_loc m) (invites m) (byInviteID m) (sessions m) (cfg m) (nodeID m).
Definition set_sessions (m : Manager) (s : SessionStore) : Manager :=
  mkManager (heap m) (next_loc m) (invites m) (byInviteID m) s (cfg m) (nodeID m).

(** The invite an id of [m.invites] points to. *)
Definition invite_of (m : Manager) (id : string) : option invite :=
  l ← invites m !! id; heap m !! l.

Definition activeNetworkBackend (m : Manager) : string := ActiveNetworkBackend (Some (cfg m)).

(** [delete(m.byInviteID, inviteKey(inv.InviteID[:]))] *)
Definition drop_key (m : Manager) (inv : invite) : Manager :=
  set_maps m (invites m) (delete (inviteKey (inv_InviteID inv)) (byInviteID m)).
Definition drop_id (m : Manager) (id : string) : Manager :=
  set_maps m (delete id (invites m)) (byInviteID m).

Section Manager.
Context `{Crypto} `{UrlCheck}.

Definition inviteStoredBackend (inv : invite) : string :=
  if bool_decide (URL inv = "") then "" else InviteNetworkBackend (URL inv).

(** The first id of the iteration [order] whose invite satisfies [p]. *)
Definition find_invite (m : Manager) (order : list string) (p : invite -> bool) : option invite :=
  List.find p (omap (invite_of m) order).

Definition findActiveInvite (m : Manager) (order : list string) (now : Z)
    (mode proto : string) (targetPort : Z) : option (string * InviteView) :=
  match find_invite m order (fun inv =>
          bool_decide (inv_Mode inv = mode) && bool_decide (Protocol inv = proto) &&
          (inv_TargetPort inv =? targetPort) && bool_decide (URL inv <> "") && active inv now) with
  | Some inv => Some (URL inv, with_view_expiry (view inv now) zero_time)
  | None => None
  end.

Definition findActivePairingInvite (m : Manager) (order : list string) (now : Z)
    (backend : string) : option (string * InviteView) :=
  match find_invite m order (fun inv =>
          bool_decide (inv_Mode inv = "pairing") && bool_decide (URL inv <> "") &&
          active inv now && bool_decide (inviteStoredBackend inv = backend)) with
  | Some inv =>
    let v := view inv now in
    Some (URL inv, if far_future (inv_ExpiresAt inv) now then with_view_expiry v zero_time else v)
  | None => None
  end.

(** One round of the loop of [DeletePendingPairingInvitesExceptBackend]. *)
Definition delete_pending_step (now : Z) (backend : string) (st : Manager * nat) (id : string)
  : Manager * nat :=
  let '(m, deleted) := st in
  match invite_of m id with
  | None => st
  | Some inv =>
    if bool_decide (inv_Mode inv <> "pairing") || Used inv || Revoked inv || negb (active inv now)
    then st
    else if bool_decide (inviteStoredBackend inv = backend) then st
    else (drop_id (drop_key m inv) id, S deleted)
  end.

Definition DeletePendingPairingInvitesExceptBackend (m : Manager) (order : list string)
    (now : Z) (backend : string) : Manager * nat :=
  fold_left (delete_pending_step now backend) order (m, O).

(** What [generateURL] reads from outside: iteration orders, the clock,
    [rand.Read] results, the node's relay mask and the iroh backend's
    ticket (or why there is none). *)
Record gen_env : Type := mkGenEnv {
  ge_order : list string;
  ge_now : Z;
  ge_invite_id : res bytes;
  ge_secret : res bytes;
  ge_display : bytes;
  ge_relay_mask : Z;
  ge_ticket : res string;
}.

(** The raw public half of an ed25519 private key: [priv.Public()] copies
    [priv[32:]] into 32 bytes and panics on a shorter key. *)
Definition ed25519_Public (priv : bytes) : outcome bytes :=
  if (length priv <? 32)%nat then Panic "slice bounds out of range"
  else Return (take 32 (drop 32 priv ++ repeat x00 32)).

(** The token of a new invite. *)
Definition new_token (pub : bytes) (relayMask : Z) (inviteID secret : bytes) (expiresAt : Z)
    (mode proto : string) (targetPort : Z) : Token :=
  mkToken pub relayMask inviteID secret expiresAt
    (if bool_decide (mode = "pairing") then 1 else 0) (ParseProtocol proto) (u16 targetPort).

Definition invite_expiry (now ttl : Z) : Z :=
  if 0 <? ttl then now + ttl else now + 100 * year.

(** The link of a token, before any ticket. *)
Definition link_of_token (m : Manager) (t : Token) (activeBackend : string)
    (relayAddrs : option (list string)) : string :=
  let u := withInviteVersion (Encode t) in
  match relayAddrs with
  | None => withInviteBackend u activeBackend
  | Some addrs => withInviteAddrs u (nodeID m) addrs
  end.

(** [m.invites[displayID] = inv; m.byInviteID[inviteKey(inv.InviteID[:])] = inv] *)
Definition register (m : Manager) (inv : invite) : Manager :=
  let l := next_loc m in
  mkManager (<[l := inv]> (heap m)) (S l) (<[ID inv := l]> (invites m))
    (<[inviteKey (inv_InviteID inv) := l]> (byInviteID m)) (sessions m) (cfg m) (nodeID m).

(** The minting half of [generateURL], after the reuse checks. *)
Definition mint (m : Manager) (e : gen_env) (mode : string) (ttl : Z) (label proto : string)
    (targetPort : Z) (relayAddrs : option (list string)) (activeBackend : string)
  : Manager * outcome (res (string * InviteView)) :=
  match PrivateKeyBytes (cfg m) with
  | Err err => (m, Return (Err ("load key: " ++ err)%string))
  | Ok privKey =>
    let mask := match relayAddrs with
                | Some _ => 255
                | None => if bool_decide (activeBackend = "libp2p_relay") then ge_relay_mask e else 0
                end in
    if bool_decide (relayAddrs = None) && bool_decide (activeBackend = "libp2p_relay") && (mask =? 0)
    then (m, Return (Err "not connected to any relay"))
    else
    match ge_invite_id e, ge_secret e with
    | Err err, _ => (m, Return (Err err))
    | _, Err err => (m, Return (Err err))
    | Ok inviteID, Ok secret =>
      match ed25519_Public privKey with
      | Panic p => (m, Panic p)
      | Return pub =>
        let expiresAt := invite_expiry (ge_now e) ttl in
        let t := new_token pub mask inviteID secret expiresAt mode proto targetPort in
        let displayID := hex_encode (ge_display e) in
        let label := if bool_decide (label = "") then defaultLabel mode proto else label in
        let proto := if bool_decide (proto = "") then "rdp" else proto in
        let url := link_of_token m t activeBackend relayAddrs in
        let ticketed :=
          if bool_decide (relayAddrs = None) && bool_decide (activeBackend = "iroh")
          then withIrohEndpointTicket url <$> wrap_err "create iroh endpoint ticket: " (ge_ticket e)
          else Ok url in
        match ticketed with
        | Err err => (m, Return (Err err))
        | Ok url =>
          let inv := mkInvite displayID inviteID secret mode proto (u16 targetPort) label url
                       (ge_now e) expiresAt false false "" "" zero_time in
          let v := view inv (ge_now e) in
          let v := with_view_expiry v (if ttl =? 0 then zero_time else expiresAt) in
          (register m inv, Return (Ok (url, v)))
        end
      end
    end
  end.

Definition generateURL (m : Manager) (e : gen_env) (mode : string) (ttl : Z)
    (label proto : string) (targetPort : Z) (relayAddrs : option (list string))
  : Manager * outcome (res (string * InviteView)) :=
  let live := bool_decide (relayAddrs = None) in
  let m := if live then set_cfg m (NormalizeNetworkBackend (cfg m)) else m in
  let activeBackend := activeNetworkBackend m in
  let pairing := bool_decide (mode = "pairing") in
  let m := if pairing && live
           then fst (DeletePendingPairingInvitesExceptBackend m (ge_order e) (ge_now e) activeBackend)
           else m in
  let found :=
    if pairing && live then findActivePairingInvite m (ge_order e) (ge_now e) activeBackend
    else if negb pairing && (ttl =? 0) && live
    then findActiveInvite m (ge_order e) (ge_now e) mode proto (u16 targetPort)
    else None in
  match found with
  | Some (url, v) => (m, Return (Ok (url, v)))
  | None => mint m e mode ttl label proto targetPort relayAddrs activeBackend
  end.

(** ** Listing, revoking, renaming *)

(** Insertion by [CreatedAt], newest first. *)
Fixpoint insert_view (v : InviteView) (l : list InviteView) : list InviteView :=
  match l with
  | [] => [v]
  | w :: r => if v_CreatedAt v <? v_CreatedAt w then w :: insert_view v r else v :: l
  end.

Definition ListInvites (m : Manager) (order : list string) (now : Z) : list InviteView :=
  fold_right insert_view []
    (map (fun inv => let v := view inv now in
            if far_future (inv_ExpiresAt inv) now then with_view_expiry v zero_time else v)
         (omap (invite_of m) order)).

(** [RevokeInvite]; [save] is the outcome of writing the configuration. *)
Definition RevokeInvite (m : Manager) (id : string) (save : res unit) : Manager * res unit :=
  match invite_of m id with
  | None => (m, Err "invite not found")
  | Some inv =>
    let m := drop_id (drop_key m inv) id in
    if bool_decide (inv_Mode inv = "pairing") && bool_decide (UsedByID inv <> "") then
      let c := fst (RemoveTrustedPeer (cfg m) (UsedByID inv)) in
      let c := fst (RemoveRemote c (UsedByID inv)) in
      (set_cfg m (NormalizeNetworkBackend c), wrap_err "save trust cleanup: " save)
    else (m, Ok tt)
  end.

Definition with_label (inv : invite) (label : string) : invite :=
  mkInvite (ID inv) (inv_InviteID inv) (Secret inv) (inv_Mode inv) (Protocol inv)
    (inv_TargetPort inv) label (URL inv) (CreatedAt inv) (inv_ExpiresAt inv) (Revoked inv)
    (Used inv) (UsedBy inv) (UsedByID inv) (UsedAt inv).

Definition RenameInvite (m : Manager) (id label : string) : Manager * res unit :=
  match invites m !! id with
  | None => (m, Err "invite not found")
  | Some l =>
    match heap m !! l with
    | None => (m, Err "invite not found")
    | Some inv => (set_heap m (<[l := with_label inv label]> (heap m)), Ok tt)
    end
  end.

(** ** Verifying *)

Definition validInviteProofLocked (m : Manager) (inv : invite) (proof : bytes)
    (remotePeerID mode : string) (now : Z) : bool :=
  let w := TimeWindow now in
  existsb (fun offset =>
    EqualProof proof
      (InviteProof (Secret inv) (inv_InviteID inv) (nodeID m) remotePeerID mode (i64 (w + offset))))
    [-1; 0; 1].

Definition mark_used (inv : invite) (now : Z) : invite :=
  mkInvite (ID inv) (inv_InviteID inv) (Secret inv) (inv_Mode inv) (Protocol inv)
    (inv_TargetPort inv) (Label inv) (URL inv) (CreatedAt inv) (inv_ExpiresAt inv) (Revoked inv)
    (if bool_decide (inv_Mode inv = "onetime") then true else Used inv)
    (UsedBy inv) (UsedByID inv) now.

(** [verifyAndConsume]: the location of the accepted invite. *)
Definition verifyAndConsume (m : Manager) (inviteID proof : bytes) (remotePeerID mode : string)
    (now : Z) : Manager * res nat :=
  if negb (Z.of_nat (length inviteID) =? InviteIDSize) then (m, Err "invalid link")
  else if negb (Z.of_nat (length proof) =? ProofSize) then (m, Err "invalid invite proof")
  else
    match byInviteID m !! inviteKey inviteID with
    | None => (m, Err "invalid link")
    | Some l =>
      match heap m !! l with
      | None => (m, Err "invalid link")
      | Some inv =>
        if bool_decide (inv_InviteID inv <> inviteID) then (m, Err "invalid link")
        else if Revoked inv then (m, Err "link has been revoked")
        else if bool_decide (inv_Mode inv = "onetime") && Used inv
        then (m, Err "link already used")
        else if bool_decide (inv_Mode inv <> "pairing") &&
                negb (is_zero_time (inv_ExpiresAt inv)) &&
                (inv_ExpiresAt inv <? now + 99 * year) && (inv_ExpiresAt inv <? now)
        then (drop_key m inv, Err "link has expired")
        else if bool_decide (mode <> inv_Mode inv) then (m, Err "invite mode mismatch")
        else if negb (validInviteProofLocked m inv proof remotePeerID mode now)
        then (m, Err "invalid invite proof")
        else (set_heap m (<[l := mark_used inv now]> (heap m)), Ok l)
      end
    end.

(** ** Sweeping *)

Definition sweep_expired_step (now : Z) (m : Manager) (id : string) : Manager :=
  match invite_of m id with
  | None => m
  | Some inv =>
    if negb (is_zero_time (inv_ExpiresAt inv)) && (inv_ExpiresAt inv <? now + 99 * year) &&
       (inv_ExpiresAt inv <? now)
    then drop_key m inv else m
  end.

(** Insertion by [CreatedAt], oldest first. *)
Fixpoint insert_aged (x : string * Z) (l : list (string * Z)) : list (string * Z) :=
  match l with
  | [] => [x]
  | y :: r => if snd y <? snd x then y :: insert_aged x r else x :: l
  end.

Definition trim_step (m : Manager) (id : string) : Manager :=
  match invite_of m id with
  | None => m
  | Some inv => drop_id (drop_key m inv) id
  end.

(** The body of one tick of [sweepLoop]; [order] and [order2] are the two
    iteration orders. *)
Definition sweepTick (m : Manager) (order order2 : list string) (now : Z) : Manager :=
  let m := fold_left (sweep_expired_step now) order m in
  if (maxStoredInvites <? size (invites m))%nat then
    let items := fold_right insert_aged []
      (omap (fun id => inv ← invite_of m id; Some (id, CreatedAt inv)) order2) in
    fold_left trim_step (take (length items - maxStoredInvites) items).*1 m
  else m.
End Manager.

(** ** Operations and runs *)

(** The handler's record of who used an invite. *)
Definition with_user (inv : invite) (usedBy usedByID : string) (now : Z) : invite :=
  mkInvite (ID inv) (inv_InviteID inv) (Secret inv) (inv_Mode inv) (Protocol inv)
    (inv_TargetPort inv) (Label inv) (URL inv) (CreatedAt inv) (inv_ExpiresAt inv) (Revoked inv)
    (Used inv) usedBy usedByID now.

Definition record_user (m : Manager) (l : nat) (usedBy usedByID : string) (now : Z) : Manager :=
  match heap m !! l with
  | None => m
  | Some inv => set_heap m (<[l := with_user inv usedBy usedByID now]> (heap m))
  end.

(** Everything that can happen to the store: its operations, and changes of
    the configuration and the session store by the rest of the program. *)
Inductive iop : Type :=
| IGenerate (e : gen_env) (mode : string) (ttl : Z) (label proto : string) (port : Z)
    (addrs : option (list string))
| IDeletePending (order : list string) (now : Z) (backend : string)
| IRevoke (id : string) (save : res unit)
| IRename (id label : string)
| IVerify (inviteID proof : bytes) (peer mode : string) (now : Z)
| IRecordUser (l : nat) (usedBy usedByID : string) (now : Z)
| ISweep (order order2 : list string) (now : Z)
| IOther (c : Config) (s : SessionStore).

Section Runs.
Context `{Crypto} `{UrlCheck}.

Definition apply_op (m : Manager) (o : iop) : Manager :=
  match o with
  | IGenerate e mode ttl label proto port addrs =>
    fst (generateURL m e mode ttl label proto port addrs)
  | IDeletePending order now backend =>
    fst (DeletePendingPairingInvitesExceptBackend m order now backend)
  | IRevoke id save => fst (RevokeInvite m id save)
  | IRename id label => fst (RenameInvite m id label)
  | IVerify inviteID proof peer mode now => fst (verifyAndConsume m inviteID proof peer mode now)
  | IRecordUser l a b now => record_user m l a b now
  | ISweep order order2 now => sweepTick m order order2 now
  | IOther c s => set_sessions (set_cfg m c) s
  end.

(** The invite an operation accepts. *)
Definition accepts (m : Manager) (o : iop) : option nat :=
  match o with
  | IVerify inviteID proof peer mode now =>
    match snd (verifyAndConsume m inviteID proof peer mode now) with Ok l => Some l | Err _ => None end
  | _ => None
  end.

(** A run and the invites it accepts, in order. *)
Fixpoint run_ops (m : Manager) (ops : list iop) : Manager * list nat :=
  match ops with
  | [] => (m, [])
  | o :: r =>
    let '(m', acc) := run_ops (apply_op m o) r in
    (m', match accepts m o with Some l => l :: acc | None => acc end)
  end.

(** ** Primitive changes *)

(** What an update of an invite keeps. *)
Definition same_core (i i' : invite) : Prop :=
  ID i' = ID i /\ inv_InviteID i' = inv_InviteID i /\ Secret i' = Secret i /\
  inv_Mode i' = inv_Mode i /\ Protocol i' = Protocol i /\ inv_TargetPort i' = inv_TargetPort i /\
  inv_ExpiresAt i' = inv_ExpiresAt i /\ Revoked i' = Revoked i /\ (Used i = true -> Used i' = true).

(** The primitive changes; [P m inv] is what is asked of a registration. *)
Inductive prim (P : Manager -> invite -> Prop) (m : Manager) : Manager -> Prop :=
| p_expire inv : prim P m (drop_key m inv)
| p_remove id inv : invite_of m id = Some inv -> prim P m (drop_id (drop_key m inv) id)
| p_register inv : P m inv -> prim P m (register m inv)
| p_update l i i' : heap m !! l = Some i -> same_core i i' ->
    prim P m (set_heap m (<[l := i']> (heap m)))
| p_cfg c : prim P m (set_cfg m c)
| p_sessions s : prim P m (set_sessions m s).

Lemma same_core_refl i : same_core i i.
Proof. by repeat split. Qed.

(** [m'] lists no id that [m] does not. *)
Definition fewer_ids (m m' : Manager) : Prop :=
  forall id, invites m !! id = None -> invites m' !! id = None.

Section Prims.
Context (P : Manager -> invite -> Prop).

Lemma fewer_ids_refl m : rtc (prim P) m m /\ fewer_ids m m.
Proof. split; [done|by intros id]. Qed.

Lemma fold_prims {X} (f : Manager -> X -> Manager) (l : list X) m :
  (forall m x, rtc (prim P) m (f m x)) -> rtc (prim P) m (fold_left f l m).
Proof.
  intros Hf. revert m. induction l as [|x l IH]; intros m; cbn; [done|].
  etrans; [apply Hf|apply IH].
Qed.

Lemma delete_pending_prims l now b m n :
  let m' := fst (fold_left (delete_pending_step now b) l (m, n)) in
  rtc (prim P) m m' /\ fewer_ids m m'.
Proof.
  revert m n. induction l as [|id l IH]; intros m n; cbn [fold_left]; [apply fewer_ids_refl|].
  cbn [delete_pending_step]. destruct (invite_of m id) as [inv|] eqn:E; [|apply IH].
  destruct (_ || _ || _ || _); [apply IH|]. case_bool_decide; [apply IH|].
  destruct (IH (drop_id (drop_key m inv) id) (S n)) as [Ha Hb]. split.
  - etrans; [apply rtc_once, (p_remove P m id inv E)|exact Ha].
  - intros x Hx. apply Hb. cbn. apply lookup_delete_None. by right.
Qed.

(** Whatever id a generated invite gets, its registration satisfies [P]. *)
Definition gen_ok (m : Manager) (o : iop) : Prop :=
  match o with
  | IGenerate e _ _ _ _ _ _ =>
    forall m' inv, fewer_ids m m' -> ID inv = hex_encode (ge_display e) -> P m' inv
  | _ => True
  end.

Lemma generateURL_prims m e mode ttl label proto port addrs :
  gen_ok m (IGenerate e mode ttl label proto port addrs) ->
  rtc (prim P) m (fst (generateURL m e mode ttl label proto port addrs)).
Proof.
  intros Hg. unfold generateURL. cbv zeta. set (live := bool_decide (addrs = None)).
  set (m1 := if live then _ else m).
  assert (H1 : rtc (prim P) m m1 /\ fewer_ids m m1).
  { unfold m1. destruct live; [|apply fewer_ids_refl]. split; [apply rtc_once; constructor|by intros id]. }
  destruct H1 as [H1 F1].
  set (m2 := if _ && live then _ else m1).
  assert (H2 : rtc (prim P) m1 m2 /\ fewer_ids m1 m2).
  { unfold m2. destruct (_ && live); [apply delete_pending_prims|apply fewer_ids_refl]. }
  destruct H2 as [H2 F2].
  destruct (if _ && live then findActivePairingInvite _ _ _ _ else _) as [[u v]|]; cbn [fst].
  - by etrans.
  - etrans; [exact H1|]. etrans; [exact H2|].
    assert (HP : forall inv, ID inv = hex_encode (ge_display e) -> P m2 inv).
    { intros inv Hid. apply Hg; [|done]. intros id Hn. by apply F2, F1. }
    clear Hg. unfold mint. repeat (case_match; cbn [fst]); try done;
      apply rtc_once; constructor; by apply HP.
Qed.

Lemma apply_op_prims m o : gen_ok m o -> rtc (prim P) m (apply_op m o).
Proof.
  intros Hg. destruct o as [e mode ttl label proto port addrs|order now b|id save|id label
    |iid pf peer mode now|l a b now|o1 o2 now|c s]; cbn [apply_op].
  - by apply generateURL_prims.
  - apply delete_pending_prims.
  - unfold RevokeInvite. destruct (invite_of m id) as [inv|] eqn:E; [|done].
    destruct (_ && _); cbn [fst].
    + etrans; [apply rtc_once, (p_remove P m id inv E)|]. apply rtc_once. constructor.
    + by apply rtc_once, p_remove.
  - unfold RenameInvite. destruct (invites m !! id) as [l|]; [|done].
    destruct (heap m !! l) as [i|] eqn:E; [|done]. apply rtc_once, (p_update P m l i); [done|].
    by repeat split.
  - unfold verifyAndConsume. repeat case_match; try done; cbn [fst].
    + apply rtc_once. constructor.
    + apply rtc_once. eapply p_update; [done|]. repeat split; try done. cbn.
      intros Hu. rewrite Hu. by destruct (bool_decide (inv_Mode i = "onetime")).
  - unfold record_user. destruct (heap m !! l) as [i|] eqn:E; [|done].
    apply rtc_once, (p_update P m l i); [done|]. by repeat split.
  - unfold sweepTick. set (m1 := fold_left _ o1 m).
    assert (H1 : rtc (prim P) m m1).
    { apply fold_prims. intros m' id. unfold sweep_expired_step.
      destruct (invite_of m' id); [|done]. destruct (_ && _ && _); [|done].
      apply rtc_once. constructor. }
    destruct (_ <? _)%nat; [|done]. etrans; [exact H1|]. apply fold_prims.
    intros m' id. unfold trim_step. destruct (invite_of m' id) as [i|] eqn:E; [|done].
    by apply rtc_once, p_remove.
  - etrans; [apply rtc_once, p_cfg|apply rtc_once, p_sessions].
Qed.
End Prims.
End Runs.

(** ** Invariants *)

(** The store's pointers: allocated below [next_loc]; each map holds pointers
    to existing invites under their own key. *)
Record inv_ok (m : Manager) : Prop := {
  ok_alloc l i : heap m !! l = Some i -> (l < next_loc m)%nat;
  ok_invites id l : invites m !! id = Some l -> exists i, heap m !! l = Some i /\ ID i = id;
  ok_index k l : byInviteID m !! k = Some l ->
    exists i, heap m !! l = Some i /\ k = inviteKey (inv_InviteID i);
}.

(** Every invite that can be presented is listed under its id. *)
Definition listed (m : Manager) : Prop :=
  forall k l i, byInviteID m !! k = Some l -> heap m !! l = Some i -> invites m !! ID i = Some l.

(** How the store may change: invites keep their core, a used one stays used,
    and the maps gain only new invites. *)
Record evolves (m m' : Manager) : Prop := {
  ev_alloc : (next_loc m <= next_loc m')%nat;
  ev_node : nodeID m' = nodeID m;
  ev_heap l i : heap m !! l = Some i -> exists i', heap m' !! l = Some i' /\ same_core i i';
  ev_index k l : (l < next_loc m)%nat -> byInviteID m' !! k = Some l -> byInviteID m !! k = Some l;
}.

#[export] Instance evolves_preorder : PreOrder evolves.
Proof.
  split.
  - intros m. split; auto. intros l i Hl. exists i. split; [done|]. by repeat split.
  - intros m1 m2 m3 [A1 N1 H1 I1] [A2 N2 H2 I2]. split.
    + lia.
    + congruence.
    + intros l i Hl. destruct (H1 l i Hl) as (i2 & Hl2 & C1).
      destruct (H2 l i2 Hl2) as (i3 & Hl3 & C2). exists i3. split; [done|].
      unfold same_core in *. intuition congruence.
    + intros k l Hl Hk. apply I1; [done|]. apply I2; [lia|done].
Qed.

Lemma evolves_same m m' :
  heap m' = heap m -> next_loc m' = next_loc m -> byInviteID m' = byInviteID m ->
  nodeID m' = nodeID m -> evolves m m'.
Proof.
  intros H1 H2 H3 H4. split; rewrite ?H1, ?H2, ?H3; auto.
  intros l i Hl. exists i. split; [done|]. by repeat split.
Qed.

Definition NewManager (c : Config) (node : string) : Manager :=
  mkManager ∅ 0 ∅ ∅ NewSessionStore c node.

Lemma NewManager_ok c n : inv_ok (NewManager c n) /\ listed (NewManager c n).
Proof.
  unfold NewManager, listed. split; [split|]; cbn.
  - intros l i Hl. by rewrite lookup_empty in Hl.
  - intros id l Hl. by rewrite lookup_empty in Hl.
  - intros k l Hl. by rewrite lookup_empty in Hl.
  - intros k l i Hl. by rewrite lookup_empty in Hl.
Qed.

Lemma inviteKey_inj a b : inviteKey a = inviteKey b -> a = b.
Proof. apply hex_encode_inj. Qed.

Lemma update_lookup {A} (h : gmap nat A) l i i' l' j :
  h !! l = Some i -> <[l := i']> h !! l' = Some j ->
  (l' = l /\ j = i') \/ (l' <> l /\ h !! l' = Some j).
Proof.
  intros Hl Hj. destruct (decide (l' = l)) as [->|Hne].
  - rewrite lookup_insert_eq in Hj. simplify_eq. by left.
  - rewrite lookup_insert_ne in Hj by done. by right.
Qed.

Section InvariantSteps.
Context `{Crypto} `{UrlCheck}.

Lemma drop_ok m inv a :
  inv_ok m -> (forall id l, a !! id = Some l -> invites m !! id = Some l) ->
  inv_ok (set_maps m a (delete (inviteKey (inv_InviteID inv)) (byInviteID m))).
Proof.
  intros [A I X] Ha. split; cbn.
  - done.
  - intros id l Hl. apply I. by apply Ha.
  - intros k l Hl. apply lookup_delete_Some in Hl as [_ Hl]. by apply X.
Qed.

Lemma update_ok m l i i' :
  heap m !! l = Some i -> same_core i i' -> inv_ok m ->
  inv_ok (set_heap m (<[l := i']> (heap m))).
Proof.
  intros Hl (Hid & Hiid & _) [A I X]. split; cbn.
  - intros l' j Hj. destruct (update_lookup _ _ _ _ _ _ Hl Hj) as [[-> _]|[_ Hj']]; eauto.
  - intros id l' Hl'. destruct (I id l' Hl') as (j & Hj & Hjd).
    destruct (decide (l' = l)) as [->|Hne].
    + exists i'. rewrite lookup_insert_eq. split; [done|]. congruence.
    + exists j. by rewrite lookup_insert_ne.
  - intros k l' Hl'. destruct (X k l' Hl') as (j & Hj & Hjd).
    destruct (decide (l' = l)) as [->|Hne].
    + exists i'. rewrite lookup_insert_eq. split; [done|]. congruence.
    + exists j. by rewrite lookup_insert_ne.
Qed.

Lemma register_ok m inv : inv_ok m -> inv_ok (register m inv).
Proof.
  intros [A I X]. unfold register. split; cbn.
  - intros l i Hl. destruct (decide (l = next_loc m)) as [->|Hne]; [lia|].
    rewrite lookup_insert_ne in Hl by done. apply A in Hl. lia.
  - intros id l Hl. apply lookup_insert_Some in Hl as [[<- <-]|[Hne Hl]].
    + exists inv. by rewrite lookup_insert_eq.
    + destruct (I id l Hl) as (i & Hi & Hid). exists i.
      apply A in Hi as Hlt. rewrite lookup_insert_ne by lia. done.
  - intros k l Hl. apply lookup_insert_Some in Hl as [[<- <-]|[Hne Hl]].
    + exists inv. by rewrite lookup_insert_eq.
    + destruct (X k l Hl) as (i & Hi & Hid). exists i.
      apply A in Hi as Hlt. rewrite lookup_insert_ne by lia. done.
Qed.

Lemma prim_ok P m m' : prim P m m' -> inv_ok m -> inv_ok m'.
Proof.
  intros Hp Hok. destruct Hp as [inv|id inv Hi|inv Hf|l i i' Hl Hc|c|s].
  - apply drop_ok; auto.
  - apply (drop_ok m inv); [done|]. intros id' l Hl. by apply lookup_delete_Some in Hl as [_ ?].
  - by apply register_ok.
  - by eapply update_ok.
  - by destruct Hok.
  - by destruct Hok.
Qed.

Lemma prim_evolves P m m' : inv_ok m -> prim P m m' -> evolves m m'.
Proof.
  intros Hok Hp. destruct Hp as [inv|id inv Hi|inv Hf|l i i' Hl Hc|c|s]; [| | | |by apply evolves_same|by apply evolves_same].
  - split; cbn; [done|done|intros l i Hl; exists i; split; [done|apply same_core_refl]|].
    intros k l _ Hk. by apply lookup_delete_Some in Hk as [_ ?].
  - split; cbn; [done|done|intros l i Hl; exists i; split; [done|apply same_core_refl]|].
    intros k l _ Hk. by apply lookup_delete_Some in Hk as [_ ?].
  - split; cbn; [lia|done| |].
    + intros l i Hl. exists i. split; [|apply same_core_refl].
      apply (ok_alloc m Hok) in Hl as Hlt. rewrite lookup_insert_ne by lia. done.
    + intros k l Hlt Hk. apply lookup_insert_Some in Hk as [[_ <-]|[_ Hk]]; [lia|done].
  - split; cbn; [done|done| |done].
    intros l' j Hj. destruct (decide (l' = l)) as [->|Hne].
    + exists i'. rewrite lookup_insert_eq. split; [done|]. by simplify_eq.
    + exists j. rewrite lookup_insert_ne by done. split; [done|apply same_core_refl].
Qed.

Lemma prims_ok P m m' : rtc (prim P) m m' -> inv_ok m -> inv_ok m' /\ evolves m m'.
Proof.
  induction 1 as [m|m1 m2 m3 Hp _ IH]; intros Hok; [by split|].
  pose proof (prim_ok P _ _ Hp Hok) as Hok2. destruct (IH Hok2) as [Hok3 Hev].
  split; [done|]. etrans; [by apply (prim_evolves P)|done].
Qed.

Lemma apply_op_ok m o : inv_ok m -> inv_ok (apply_op m o) /\ evolves m (apply_op m o).
Proof.
  intros Hok. apply (prims_ok (fun _ _ => True)); [|done]. apply apply_op_prims. by destruct o.
Qed.

(** What an accepted verification says of the store. *)
Lemma verify_inv m iid pf peer mode now m' l :
  verifyAndConsume m iid pf peer mode now = (m', Ok l) ->
  exists i, byInviteID m !! inviteKey iid = Some l /\ heap m !! l = Some i /\
    Z.of_nat (length iid) = InviteIDSize /\ inv_InviteID i = iid /\ Revoked i = false /\
    ~ (inv_Mode i = "onetime" /\ Used i = true) /\
    (inv_Mode i = "pairing" \/ inv_ExpiresAt i = zero_time \/ now <= inv_ExpiresAt i \/
       now + 99 * year <= inv_ExpiresAt i) /\
    mode = inv_Mode i /\ validInviteProofLocked m i pf peer mode now = true /\
    Z.of_nat (length pf) = ProofSize /\
    m' = set_heap m (<[l := mark_used i now]> (heap m)).
Proof.
  unfold verifyAndConsume. intros Hv.
  destruct (negb (_ =? InviteIDSize)) eqn:E1; [done|].
  destruct (negb (_ =? ProofSize)) eqn:E2; [done|].
  destruct (byInviteID m !! inviteKey iid) as [l'|] eqn:E3; [|done].
  destruct (heap m !! l') as [i|] eqn:E4; [|done].
  destruct (bool_decide (inv_InviteID i <> iid)) eqn:E5; [done|].
  destruct (Revoked i) eqn:E6; [done|].
  destruct (bool_decide (inv_Mode i = "onetime") && Used i) eqn:E7; [done|].
  destruct (bool_decide (inv_Mode i <> "pairing") && _ && _ && _) eqn:E8; [done|].
  destruct (bool_decide (mode <> inv_Mode i)) eqn:E9; [done|].
  destruct (negb (validInviteProofLocked _ _ _ _ _ _)) eqn:E10; [done|].
  injection Hv as <- <-. go_bool. apply dec_stable in E5, E9.
  exists i. split; [done|]. split; [done|]. split; [done|]. split; [done|]. split; [done|].
  split.
  { intros [Hm Hu]. rewrite Hm, Hu in E7. done. }
  split; [|done].
  destruct (decide (inv_Mode i = "pairing")) as [?|Hp]; [by left|right].
  destruct (decide (inv_ExpiresAt i = zero_time)) as [?|Hz]; [by left|right].
  rewrite bool_decide_eq_true_2 in E8 by done. unfold is_zero_time in E8.
  rewrite (proj2 (Z.eqb_neq _ _) Hz) in E8. cbn [negb andb] in E8.
  apply andb_false_iff in E8 as [E8|E8]; go_bool; [by right|by left].
Qed.

Lemma accepts_spec m o l :
  accepts m o = Some l ->
  exists iid pf peer mode now, o = IVerify iid pf peer mode now /\
    verifyAndConsume m iid pf peer mode now = (apply_op m o, Ok l).
Proof.
  destruct o as [| | | |iid pf peer mode now| | |]; cbn; try done.
  destruct (verifyAndConsume m iid pf peer mode now) as [m' [l'|]] eqn:E; cbn; [|done].
  intros [= ->]. exists iid, pf, peer, mode, now. by rewrite E.
Qed.
End InvariantSteps.

(** ** Consequences for runs *)

Section RunFacts.
Context `{Crypto} `{UrlCheck}.

Lemma run_ops_ok m ops : inv_ok m -> inv_ok (fst (run_ops m ops)) /\ evolves m (fst (run_ops m ops)).
Proof.
  revert m. induction ops as [|o ops IH]; intros m Hok; cbn [run_ops]; [by split|].
  destruct (apply_op_ok m o Hok) as [Hok' Hev]. destruct (IH _ Hok') as [H1 H2].
  destruct (run_ops (apply_op m o) ops) as [m' acc]. cbn in *. split; [done|]. by etrans.
Qed.

Lemma run_ops_cons m o ops :
  run_ops m (o :: ops) =
  (fst (run_ops (apply_op m o) ops),
   match accepts m o with
   | Some l => l :: snd (run_ops (apply_op m o) ops)
   | None => snd (run_ops (apply_op m o) ops) end).
Proof. cbn. by destruct (run_ops (apply_op m o) ops). Qed.

Lemma evolves_run m o ops : inv_ok m -> evolves m (fst (run_ops (apply_op m o) ops)).
Proof.
  intros Hok. destruct (apply_op_ok m o Hok) as [Hok' Hev].
  etrans; [exact Hev|]. by apply run_ops_ok.
Qed.

(** An invite no key points to is never accepted again. *)
Lemma unreachable_never_accepted m ops l :
  inv_ok m -> (l < next_loc m)%nat -> (forall k, byInviteID m !! k <> Some l) ->
  l ∉ snd (run_ops m ops).
Proof.
  revert m. induction ops as [|o ops IH]; intros m Hok Hlt Hno.
  { cbn. apply not_elem_of_nil. }
  rewrite run_ops_cons. cbn [snd]. destruct (apply_op_ok m o Hok) as [Hok' Hev].
  assert (Hrest : l ∉ snd (run_ops (apply_op m o) ops)).
  { apply IH; [done|pose proof (ev_alloc _ _ Hev); lia|].
    intros k Hk. by apply (ev_index _ _ Hev) in Hk; [apply Hno in Hk|]. }
  destruct (accepts m o) as [l'|] eqn:Ea; [|done].
  intros [->|Hin]%elem_of_cons; [|done].
  apply accepts_spec in Ea as (iid & pf & peer & mode & now & -> & Hv).
  apply verify_inv in Hv as (i & Hk & _). by apply Hno in Hk.
Qed.

(** A used one-time invite is never accepted again. *)
Lemma used_never_accepted m ops l i :
  inv_ok m -> heap m !! l = Some i -> inv_Mode i = "onetime" -> Used i = true ->
  l ∉ snd (run_ops m ops).
Proof.
  revert m i. induction ops as [|o ops IH]; intros m i Hok Hl Hm Hu.
  { cbn. apply not_elem_of_nil. }
  rewrite run_ops_cons. cbn [snd]. destruct (apply_op_ok m o Hok) as [Hok' Hev].
  destruct (ev_heap _ _ Hev l i Hl) as (i' & Hl' & Hc).
  assert (Hrest : l ∉ snd (run_ops (apply_op m o) ops)).
  { apply (IH _ i'); [done|done| |]; unfold same_core in Hc; intuition congruence. }
  destruct (accepts m o) as [l'|] eqn:Ea; [|done].
  intros [->|Hin]%elem_of_cons; [|done].
  apply accepts_spec in Ea as (iid & pf & peer & mode & now & -> & Hv).
  apply verify_inv in Hv as (j & _ & Hj & _ & _ & _ & Hnu & _). simplify_eq. by apply Hnu.
Qed.

(** An accepted one-time invite is used afterwards. *)
Lemma accepted_used m o l i :
  accepts m o = Some l -> heap m !! l = Some i -> inv_Mode i = "onetime" ->
  exists i', heap (apply_op m o) !! l = Some i' /\ inv_Mode i' = "onetime" /\ Used i' = true.
Proof.
  intros Ha Hl Hm. apply accepts_spec in Ha as (iid & pf & peer & mode & now & -> & Hv).
  apply verify_inv in Hv as Hv'. destruct Hv' as (j & _ & Hj & _ & _ & _ & _ & _ & _ & _ & _ & ->).
  rewrite Hl in Hj. injection Hj as <-. cbn [heap set_heap]. exists (mark_used i now). rewrite lookup_insert_eq.
  split; [done|]. cbn. by rewrite Hm.
Qed.

(** ** Listing *)

(** The display id of an invite an operation creates is not in use. *)
Definition fresh_id (m : Manager) (o : iop) : Prop :=
  match o with
  | IGenerate e _ _ _ _ _ _ => invites m !! hex_encode (ge_display e) = None
  | _ => True
  end.

Fixpoint fresh_ids (m : Manager) (ops : list iop) : Prop :=
  match ops with
  | [] => True
  | o :: r => fresh_id m o /\ fresh_ids (apply_op m o) r
  end.

Lemma listed_update m l i i' :
  inv_ok m -> heap m !! l = Some i -> same_core i i' -> listed m ->
  listed (set_heap m (<[l := i']> (heap m))).
Proof.
  intros Hok Hl (Hid & _) HL k l' j Hk Hj. cbn in *.
  destruct (update_lookup _ _ _ _ _ _ Hl Hj) as [[-> ->]|[_ Hj']]; [rewrite Hid|]; by eapply HL.
Qed.

Lemma listed_expire m inv : listed m -> listed (drop_key m inv).
Proof.
  intros HL k l i Hk Hi. cbn in *. apply lookup_delete_Some in Hk as [_ Hk]. by eapply HL.
Qed.

Lemma listed_remove m id inv :
  inv_ok m -> invite_of m id = Some inv -> listed m -> listed (drop_id (drop_key m inv) id).
Proof.
  intros Hok Hinv HL k l i Hk Hi. cbn in *. apply lookup_delete_Some in Hk as [Hne Hk].
  pose proof (HL k l i Hk Hi) as Hid. rewrite lookup_delete_ne; [done|].
  intros ->. unfold invite_of in Hinv. rewrite Hid in Hinv. cbn in Hinv. simplify_eq.
  destruct (ok_index m Hok k l Hk) as (j & Hj & ->). congruence.
Qed.

Lemma listed_register m inv :
  inv_ok m -> invites m !! ID inv = None -> listed m -> listed (register m inv).
Proof.
  intros Hok Hf HL k l i Hk Hi. unfold register in *. cbn in *.
  apply lookup_insert_Some in Hk as [[_ <-]|[Hne Hk]].
  - rewrite lookup_insert_eq in Hi. simplify_eq. by rewrite lookup_insert_eq.
  - destruct (ok_index m Hok k l Hk) as (j & Hj & _).
    pose proof (ok_alloc m Hok l j Hj) as Hlt. rewrite lookup_insert_ne in Hi by lia.
    pose proof (HL k l i Hk Hi) as Hid. rewrite lookup_insert_ne; [done|]. congruence.
Qed.

Definition fresh_register (m : Manager) (inv : invite) : Prop := invites m !! ID inv = None.

Lemma prim_listed m m' :
  prim fresh_register m m' -> inv_ok m -> listed m -> inv_ok m' /\ listed m'.
Proof.
  intros Hp Hok HL. split; [by eapply prim_ok|].
  destruct Hp as [inv|id inv Hi|inv Hf|l i i' Hl Hc|c|s].
  - by apply listed_expire.
  - by apply listed_remove.
  - by apply listed_register.
  - by eapply listed_update.
  - exact HL.
  - exact HL.
Qed.

Lemma apply_op_listed m o :
  fresh_id m o -> inv_ok m -> listed m -> inv_ok (apply_op m o) /\ listed (apply_op m o).
Proof.
  intros Hf Hok HL.
  assert (Hp : rtc (prim fresh_register) m (apply_op m o)).
  { apply apply_op_prims. destruct o; cbn in *; try done.
    intros m' inv Hfew Hid. unfold fresh_register. rewrite Hid. by apply Hfew. }
  revert Hok HL. generalize (apply_op m o) Hp. clear. intros m' Hp.
  induction Hp as [m|m1 m2 m3 Hp _ IH]; intros Hok HL; [by split|].
  destruct (prim_listed _ _ Hp Hok HL). auto.
Qed.

Lemma run_ops_listed m ops :
  fresh_ids m ops -> inv_ok m -> listed m -> listed (fst (run_ops m ops)).
Proof.
  revert m. induction ops as [|o ops IH]; intros m Hf Hok HL; [done|].
  destruct Hf as [Hf Hfs]. rewrite run_ops_cons. cbn [fst].
  destruct (apply_op_listed m o Hf Hok HL) as [Hok' HL']. by apply IH.
Qed.
End RunFacts.

Section VerifyFacts.
Context `{Crypto}.

Lemma validInviteProof_spec m i pf peer mode now :
  - 2 ^ 62 <= TimeWindow now <= 2 ^ 62 ->
  validInviteProofLocked m i pf peer mode now = true <->
  exists w, TimeWindow now - 1 <= w <= TimeWindow now + 1 /\
    pf = InviteProof (Secret i) (inv_InviteID i) (nodeID m) peer mode w.
Proof.
  unfold validInviteProofLocked, EqualProof. cbv zeta. generalize (TimeWindow now). intros t Ht.
  change (2 ^ 62) with 4611686018427387904 in Ht.
  cbn [existsb]. rewrite !i64_small by (change (2 ^ 63) with 9223372036854775808; lia).
  rewrite !orb_true_iff, !bool_decide_eq_true. split.
  - intros [Hp|[Hp|[Hp|Hp]]]; [exists (t + -1)|exists (t + 0)|exists (t + 1)|done]; (split; [lia|done]).
  - intros (w & Hw & ->).
    assert (w = t + -1 \/ w = t + 0 \/ w = t + 1) as [->|[->| ->]] by lia; auto.
Qed.

Lemma verify_ok m iid pf peer now l i :
  byInviteID m !! inviteKey iid = Some l -> heap m !! l = Some i ->
  Z.of_nat (length iid) = InviteIDSize -> inv_InviteID i = iid -> Revoked i = false ->
  ~ (inv_Mode i = "onetime" /\ Used i = true) ->
  (inv_Mode i = "pairing" \/ inv_ExpiresAt i = zero_time \/ now <= inv_ExpiresAt i \/
     now + 99 * year <= inv_ExpiresAt i) ->
  validInviteProofLocked m i pf peer (inv_Mode i) now = true ->
  Z.of_nat (length pf) = ProofSize ->
  verifyAndConsume m iid pf peer (inv_Mode i) now =
    (set_heap m (<[l := mark_used i now]> (heap m)), Ok l).
Proof.
  intros Hk Hi Hl Hid Hr Hu Hx Hp Hpl. unfold verifyAndConsume.
  rewrite Hl, Hpl, Hk, Hi, Hr, Hp. rewrite !Z.eqb_refl. cbn [negb].
  rewrite (bool_decide_eq_false_2 (inv_InviteID i <> iid)) by tauto.
  rewrite (bool_decide_eq_false_2 (inv_Mode i <> inv_Mode i)) by tauto.
  assert (H1 : bool_decide (inv_Mode i = "onetime") && Used i = false).
  { apply not_true_iff_false. rewrite andb_true_iff, bool_decide_eq_true. done. }
  rewrite H1.
  assert (H2 : bool_decide (inv_Mode i <> "pairing") && negb (is_zero_time (inv_ExpiresAt i)) &&
      (inv_ExpiresAt i <? now + 99 * year) && (inv_ExpiresAt i <? now) = false).
  { apply not_true_iff_false. rewrite !andb_true_iff, bool_decide_eq_true, negb_true_iff.
    unfold is_zero_time. rewrite Z.eqb_neq, !Z.ltb_lt.
    destruct Hx as [?|[?|[?|?]]]; intuition lia. }
  by rewrite H2.
Qed.

Context `{UrlCheck}.

Lemma accepted_at_most_once m ops l i :
  inv_ok m -> heap (fst (run_ops m ops)) !! l = Some i -> inv_Mode i = "onetime" ->
  (count_occ Nat.eq_dec (snd (run_ops m ops)) l <= 1)%nat.
Proof.
  revert m. induction ops as [|o ops IH]; intros m Hok Hl Hm; [cbn; lia|].
  rewrite run_ops_cons in *. cbn [fst snd] in *. destruct (apply_op_ok m o Hok) as [Hok' Hev].
  destruct (accepts m o) as [l'|] eqn:Ea; [|by apply IH].
  destruct (decide (l' = l)) as [->|Hne]; [|cbn; destruct (Nat.eq_dec l' l); [done|by apply IH]].
  apply accepts_spec in Ea as Hs. destruct Hs as (iid & pf & peer & mode & now & _ & Hv).
  apply verify_inv in Hv as (i0 & _ & Hi0 & _).
  destruct (ev_heap _ _ (evolves_run m o ops Hok) l i0 Hi0) as (i1 & Hi1 & Hc).
  assert (inv_Mode i0 = "onetime") as Hm0 by (unfold same_core in Hc; intuition congruence).
  destruct (accepted_used m o l i0 Ea Hi0 Hm0) as (i2 & Hi2 & Hm2 & Hu2).
  pose proof (used_never_accepted _ ops l i2 Hok' Hi2 Hm2 Hu2) as Hnin.
  cbn. destruct (Nat.eq_dec l l); [|done].
  rewrite (proj1 (count_occ_not_In _ _ _)); [lia|]. by rewrite <- list_elem_of_In.
Qed.
End VerifyFacts.

Section MintFacts.
Context `{CryptoLaws} `{UrlCheckLaws}.

Lemma valid_backend_invite b : validNetworkBackend b = true -> b ∈ invite_backends.
Proof. intros Hb. apply validNetworkBackend_cases in Hb. set_solver. Qed.

Lemma active_backend_valid m : validNetworkBackend (activeNetworkBackend m) = true.
Proof.
  unfold activeNetworkBackend, ActiveNetworkBackend.
  by destruct (validNetworkBackend (CanonicalNetworkBackend _)) eqn:E.
Qed.

Lemma delete_pending_keeps l now b m n :
  let m' := fst (fold_left (delete_pending_step now b) l (m, n)) in
  next_loc m' = next_loc m /\ nodeID m' = nodeID m.
Proof.
  revert m n. induction l as [|id l IH]; intros m n; cbn [fold_left]; [done|].
  cbn [delete_pending_step]. destruct (invite_of m id) as [inv|]; [|apply IH].
  destruct (_ || _ || _ || _); [apply IH|]. case_bool_decide; [apply IH|].
  destruct (IH (drop_id (drop_key m inv) id) (S n)) as [-> ->]. done.
Qed.

(** What [mint] puts in the link and in the store. *)
Definition minted (m : Manager) (e : gen_env) (mode : string) (ttl : Z)
    (m' : Manager) (url : string) (v : InviteView) : Prop :=
  exists iid secret pub mask proto port q inv,
    ge_invite_id e = Ok iid /\ ge_secret e = Ok secret /\ length pub = 32%nat /\
    (mask = 0 \/ mask = ge_relay_mask e) /\
    url = invite_link (base58Encode (token_buf (new_token pub mask iid secret
            (invite_expiry (ge_now e) ttl) mode proto port))) q /\
    m' = register m inv /\ ID inv = v_ID v /\ inv_InviteID inv = iid /\ Secret inv = secret /\
    inv_Mode inv = mode /\ inv_ExpiresAt inv = invite_expiry (ge_now e) ttl /\
    Revoked inv = false /\ Used inv = false.

Lemma mint_spec m e mode ttl label proto port b m' url v :
  b ∈ invite_backends ->
  mint m e mode ttl label proto port None b = (m', Return (Ok (url, v))) ->
  minted m e mode ttl m' url v.
Proof.
  intros Hb. unfold mint. destruct (PrivateKeyBytes (cfg m)) as [priv|]; [|done]. cbv zeta.
  set (mask := if bool_decide (b = "libp2p_relay") then ge_relay_mask e else 0).
  destruct (_ && _ && (mask =? 0)); [done|].
  destruct (ge_invite_id e) as [iid|] eqn:Ei; [|done].
  destruct (ge_secret e) as [secret|] eqn:Es; [|done].
  destruct (ed25519_Public priv) as [pub|] eqn:Ep; [|done].
  set (t := new_token _ _ _ _ _ _ _ _).
  unfold link_of_token. rewrite link_shape by done.
  rewrite (bool_decide_eq_true_2 (None = None)) by done. cbn [andb].
  destruct (if bool_decide (b = "iroh") then _ else _) as [u|] eqn:Eu; [|done].
  assert (Hq : exists q, u = invite_link (base58Encode (token_buf t)) q).
  { revert Eu. case_bool_decide; intros Eu; [|simplify_eq; by eexists].
    destruct (ge_ticket e) as [ticket|]; [|done].
    cbn [wrap_err fmap res_fmap] in Eu. injection Eu as <-. eexists. apply ticket_shape. }
  destruct Hq as [q ->]. intros Hr. injection Hr as <- <- <-.
  exists iid, secret, pub, mask, proto, port, q. eexists.
  split; [done|]. split; [done|]. split.
  { unfold ed25519_Public in Ep. destruct (_ <? 32)%nat eqn:El; simplify_eq.
    apply Nat.ltb_ge in El. rewrite length_take, length_app, length_drop. cbn [length repeat]. lia. }
  split; [unfold mask; by destruct (bool_decide (b = "libp2p_relay")); [right|left]|].
  split; [reflexivity|]. split; [reflexivity|]. repeat split.
Qed.

Lemma generateURL_mints m e mode ttl label proto port m' url v :
  generateURL m e mode ttl label proto port None = (m', Return (Ok (url, v))) ->
  next_loc m' = S (next_loc m) ->
  exists m0, next_loc m0 = next_loc m /\ nodeID m0 = nodeID m /\ minted m0 e mode ttl m' url v.
Proof.
  unfold generateURL. rewrite (bool_decide_eq_true_2 (None = None)) by done. cbv zeta.
  set (m1 := set_cfg m _). rewrite !andb_true_r.
  set (b := activeNetworkBackend m1).
  set (m2 := if bool_decide (mode = "pairing") then _ else m1).
  assert (Hk : next_loc m2 = next_loc m /\ nodeID m2 = nodeID m).
  { unfold m2. case_bool_decide; [|done]. unfold DeletePendingPairingInvitesExceptBackend.
    destruct (delete_pending_keeps (ge_order e) (ge_now e) b m1 0) as [-> ->]. done. }
  destruct Hk as [Hk1 Hk2].
  destruct (if bool_decide (mode = "pairing") then findActivePairingInvite _ _ _ _ else _) as [[u w]|].
  - intros Hr Hn. injection Hr as <- _ _. lia.
  - intros Hr Hn. exists m2. split; [done|]. split; [done|].
    apply mint_spec in Hr; [done|]. apply valid_backend_invite, active_backend_valid.
Qed.

Lemma new_token_typed pub mask iid secret exp mode proto port :
  length pub = 32%nat -> 0 <= mask < 256 -> length iid = 16%nat -> length secret = 32%nat ->
  token_typed (new_token pub mask iid secret exp mode proto port).
Proof.
  intros Hp Hm Hi Hs. unfold token_typed, new_token. cbn.
  split; [done|]. split; [done|]. split; [done|]. split; [done|].
  split; [case_bool_decide; lia|]. split; [|apply Z.mod_pos_bound; lia].
  unfold ParseProtocol. repeat case_bool_decide; done.
Qed.
End MintFacts.

(** A link that was minted, on both sides. *)
Lemma generated_link_ok `{CryptoLaws} `{UrlCheckLaws}
    m e mode ttl label proto port m' url v peer now clientNow
  (Hg : generateURL m e mode ttl label proto port None = (m', Return (Ok (url, v))))
  (Hnew : next_loc m' = S (next_loc m))
  (Hmode : mode = "onetime" \/ mode = "pairing")
  (Hrand : forall iid secret, ge_invite_id e = Ok iid -> ge_secret e = Ok secret ->
             length iid = 16%nat /\ length secret = 32%nat)
  (Hmask : 0 <= ge_relay_mask e < 256)
  (Hnow : - 2 ^ 62 <= TimeWindow now <= 2 ^ 62)
  (Hclock : TimeWindow now - 1 <= TimeWindow clientNow <= TimeWindow now + 1)
  (Hexp : now <= invite_expiry (ge_now e) ttl) :
  exists t, DecodeURL url = Ok t /\ ModeString t = mode /\ nodeID m' = nodeID m /\
    snd (verifyAndConsume m' (InviteID t)
           (InviteProof (InviteSecret t) (InviteID t) (nodeID m) peer (ModeString t)
              (TimeWindow clientNow)) peer (ModeString t) now) = Ok (next_loc m) /\
    invites m' !! v_ID v = Some (next_loc m).
Proof.
  destruct (generateURL_mints _ _ _ _ _ _ _ _ _ _ Hg Hnew) as (m0 & Hn0 & Hid0 & iid & secret & pub &
    mask & pr & po & q & inv & Ei & Es & Hpub & Hm & -> & -> & HID & Hiid & Hsec & Hmd & Hx & Hr & Hu).
  destruct (Hrand iid secret Ei Es) as [Hli Hls].
  assert (Hmk : 0 <= mask < 256) by (destruct Hm as [->| ->]; lia).
  set (t := new_token _ _ _ _ _ _ _ _).
  pose proof (new_token_typed pub mask iid secret (invite_expiry (ge_now e) ttl) mode pr po
    Hpub Hmk Hli Hls) as Ht.
  exists (token_norm t). split; [by apply DecodeURL_token_link|].
  split; [by destruct Hmode as [->| ->]|]. split; [done|].
  assert (Hms : ModeString (token_norm t) = inv_Mode inv).
  { rewrite Hmd. by destruct Hmode as [->| ->]. }
  rewrite Hms. change (InviteID (token_norm t)) with iid.
  change (InviteSecret (token_norm t)) with secret. split.
  - rewrite (verify_ok (register m0 inv) iid _ peer now (next_loc m0) inv); cbn [snd].
    + by rewrite Hn0.
    + unfold register; cbn. rewrite Hiid. apply lookup_insert_eq.
    + unfold register; cbn. apply lookup_insert_eq.
    + unfold InviteIDSize. lia.
    + done.
    + done.
    + intros [_ Hu']. congruence.
    + right. right. left. by rewrite Hx.
    + apply validInviteProof_spec; [done|]. exists (TimeWindow clientNow). split; [done|].
      rewrite Hsec, Hiid. cbn [nodeID register]. by rewrite Hid0.
    + unfold InviteProof. by rewrite hmac_length.
  - unfold register; cbn. rewrite HID, <- Hn0. apply lookup_insert_eq.
Qed.

(** ** Properties *)


Definition sample_invite : invite :=
  mkInvite "0a0b0c0d" (repeat x01 16) (repeat x02 32) "onetime" "rdp" 0 "For Alice" "deskaccess://x"
    0 (hour) false false "" "" zero_time.

Definition sample_manager : Manager :=
  register (NewManager (defaultConfig (Ok "h")) "12D3KooWhost") sample_invite.


(** C20: a one-time invite is redeemed at most once.  In every run of the store
    from its creation, whatever is generated, deleted, revoked, renamed,
    verified, recorded and swept in whatever order, each one-time invite is
    accepted at most once. *)
Theorem onetime_accepted_once `{Crypto} `{UrlCheck} c node ops l i
  (Hl : heap (fst (run_ops (NewManager c node) ops)) !! l = Some i)
  (Hm : inv_Mode i = "onetime") :
  (count_occ Nat.eq_dec (snd (run_ops (NewManager c node) ops)) l <= 1)%nat.
Proof. apply (accepted_at_most_once _ _ _ i); [apply NewManager_ok|done|done]. Qed.

Definition sample_gen : gen_env :=
  mkGenEnv [] 0 (Ok (repeat x01 16)) (Ok (repeat x02 32)) [x0a; x0b; x0c; x0d] 0 (Ok "ticket").

Definition sample_config : Config :=
  let d := defaultConfig (Ok "h") in
  mkConfig (Network d) (mkNode (hex_encode (repeat x03 64)) "h") (Relay d) (DHT d) (BTDHT d)
    (Iroh d) (RDP d) [] [].

Definition sample_ops : list iop :=
  let pf := InviteProof (repeat x02 32) (repeat x01 16) "12D3KooWhost" "12D3KooWc" "onetime" 0 in
  [IGenerate sample_gen "onetime" hour "" "ssh" 22 None;
   IVerify (repeat x01 16) pf "12D3KooWc" "onetime" second;
   IVerify (repeat x01 16) pf "12D3KooWc" "onetime" (2 * second)].

Lemma onetime_accepted_once_witness :
  snd (run_ops (NewManager sample_config "12D3KooWhost") sample_ops) = [0%nat] /\
  (count_occ Nat.eq_dec (snd (run_ops (NewManager sample_config "12D3KooWhost") sample_ops)) 0 <= 1)%nat.
Proof.
  split; [vm_compute; reflexivity|].
  eapply (onetime_accepted_once sample_config "12D3KooWhost" sample_ops 0).
  - vm_compute. reflexivity.
  - reflexivity.
Defined.

(** C23: a revoked invite is dead.  After [RevokeInvite] of a listed invite, in
    any run before and after, whether or not saving the configuration
    succeeded, the invite is no longer listed and no later operation accepts
    it. *)
Theorem revoked_never_accepted `{Crypto} `{UrlCheck} c node ops1 id l save ops2
  (Hid : invites (fst (run_ops (NewManager c node) ops1)) !! id = Some l) :
  let m := fst (RevokeInvite (fst (run_ops (NewManager c node) ops1)) id save) in
  invites m !! id = None /\ l ∉ snd (run_ops m ops2).
Proof.
  destruct (run_ops_ok (NewManager c node) ops1 (proj1 (NewManager_ok c node))) as [Hok _].
  set (m0 := fst (run_ops _ ops1)) in *. cbv zeta.
  destruct (ok_invites m0 Hok id l Hid) as (i & Hi & Hiid).
  pose proof (ok_alloc m0 Hok l i Hi) as Hlt.
  assert (Hm : exists c', fst (RevokeInvite m0 id save) = set_cfg (drop_id (drop_key m0 i) id) c').
  { unfold RevokeInvite, invite_of. rewrite Hid. cbn. rewrite Hi. destruct (_ && _); cbn [fst].
    - by eexists.
    - by exists (cfg m0). }
  destruct Hm as [c' Hm]. pose proof (apply_op_ok m0 (IRevoke id save) Hok) as [Hok' _].
  cbn [apply_op] in Hok'. rewrite Hm in *. split; [cbn; apply lookup_delete_eq|].
  apply unreachable_never_accepted; [done|exact Hlt|].
  cbn. intros k Hk. apply lookup_delete_Some in Hk as [Hne Hk].
  destruct (ok_index m0 Hok k l Hk) as (j & Hj & ->). congruence.
Qed.

Lemma revoked_never_accepted_witness :
  let m := fst (RevokeInvite (fst (run_ops (NewManager sample_config "12D3KooWhost")
             (take 1 sample_ops))) "0a0b0c0d" (Ok tt)) in
  invites m !! "0a0b0c0d"%string = None /\ 0%nat ∉ snd (run_ops m (drop 1 sample_ops)).
Proof.
  apply (revoked_never_accepted sample_config "12D3KooWhost" (take 1 sample_ops) "0a0b0c0d" 0
           (Ok tt) (drop 1 sample_ops)).
  vm_compute. reflexivity.
Defined.

(** What can be redeemed can be revoked.  As long as generated display ids
    are not reused, every invite that an operation accepts is in the host's
    list under its id at that moment, so [RevokeInvite] reaches it. *)
Lemma accepted_is_listed `{Crypto} `{UrlCheck} c node ops o l
  (Hfresh : fresh_ids (NewManager c node) ops)
  (Ho : accepts (fst (run_ops (NewManager c node) ops)) o = Some l) :
  exists i, heap (fst (run_ops (NewManager c node) ops)) !! l = Some i /\
    invites (fst (run_ops (NewManager c node) ops)) !! ID i = Some l.
Proof.
  destruct (NewManager_ok c node) as [Hok HL].
  pose proof (run_ops_listed _ _ Hfresh Hok HL) as HL'.
  apply accepts_spec in Ho as (iid & pf & peer & mode & now & _ & Hv).
  apply verify_inv in Hv as (i & Hk & Hi & _). exists i. split; [done|]. by eapply HL'.
Qed.

Lemma accepted_is_listed_witness :
  exists i, heap (fst (run_ops (NewManager sample_config "12D3KooWhost") (take 1 sample_ops))) !! 0%nat
      = Some i /\
    invites (fst (run_ops (NewManager sample_config "12D3KooWhost") (take 1 sample_ops))) !! ID i
      = Some 0%nat.
Proof.
  apply (accepted_is_listed sample_config "12D3KooWhost" (take 1 sample_ops)
    (IVerify (repeat x01 16)
       (InviteProof (repeat x02 32) (repeat x01 16) "12D3KooWhost" "12D3KooWc" "onetime" 0)
       "12D3KooWc" "onetime" second)).
  - split; [reflexivity|exact I].
  - vm_compute. reflexivity.
Defined.
