(* ===== verification/PairingHost.v ===== *)
(** * PairingHost: the pairing stream handler of [internal/pairing/pairing.go]

    [handleIncomingConn] from the request frame to the response: the version
    and node-id checks, the identity proof, the trusted and the invite path,
    the session token and the signed response.  It composes the frame, proof,
    invite, configuration and session components. *)

From S2P Require Import Prelude GoStrings Crypto Url Wire Frames Rendezvous Sessions Config Identity Proofs InviteUrl Invites.

Definition BackendIroh : string := "iroh".

(** ** Configured defaults *)

Definition configuredProtocol (m : Manager) : string :=
  Protocol_String (ParseProtocol (rdp_Protocol (RDP (cfg m)))).

Definition configuredTargetPort (m : Manager) : Z :=
  let fallback := DefaultPort (ParseProtocol (rdp_Protocol (RDP (cfg m)))) in
  let target := trim_space (TargetAddr (RDP (cfg m))) in
  match cut_last target ":" with
  | Some (_, after) =>
    if bool_decide (after = "") then fallback
    else match atoi after with
         | Some port => if (0 <? port) && (port <=? 65535) then port else fallback
         | None => fallback
         end
  | None => fallback
  end.

(** A response that carries no session. *)
Definition reject (msg : string) : PairResponse :=
  mkPairResponse false msg "" [] "" 0 "" None None.

Section Host.
Context `{Crypto} `{UrlCheck} `{Codec PairRequest}.

Definition pairRequestNodeID (req : PairRequest) (transportPeerID transportBackend : string)
  : res string :=
  let nodeID := trim_space (pr_NodeID req) in
  if bool_decide (nodeID = "") then
    if bool_decide (transportBackend = BackendIroh)
    then Err "pairing request is missing DeskAccess node id"
    else Ok (trim_space transportPeerID)
  else match peer_Decode nodeID with
       | Err _ => Err "invalid DeskAccess node id in pairing request"
       | Ok _ => Ok nodeID
       end.

(** What the handler reads from outside: the clock, the local identity, the
    random session token, the clock of the store's sweep, and the current
    iroh ticket. *)
Record host_env : Type := mkHostEnv {
  he_now : Z;
  he_sweep_now : Z;
  he_identity : option Identity;
  he_token : res bytes;
  he_ticket : res string;
}.

(** The trust entry written for an authenticated peer. *)
Definition trust_entry (req : PairRequest) (peer protocol : string) (port now : Z) : TrustedPeer :=
  let '(backend, hardware, vendor, version, root) :=
    identityInfoFromAttestation (pr_Attestation req) in
  mkTrusted peer (pr_Label req) (identityProofPublicKeyHex (pr_Identity req))
    (identityProofMachineID (pr_Identity req)) protocol port
    (mkInfo backend hardware vendor version root) zero_time now.

(** [m.cfg.AddTrustedPeer(...)] followed by [m.cfg.Save()]. *)
Definition trust (m : Manager) (req : PairRequest) (peer protocol : string) (port now : Z)
  : Manager :=
  set_cfg m (NormalizeNetworkBackend
               (AddTrustedPeer (cfg m) (trust_entry req peer protocol port now) now)).

(** The [req.Mode == "trusted"] branch. *)
Definition authorize_trusted (m : Manager) (e : host_env) (req : PairRequest) (peer : string)
  : Manager * res (string * Z) :=
  match find_trusted (cfg m) peer with
  | None => (m, Err "peer not in trusted list - use an invite link first")
  | Some t =>
    match verifyStoredIdentity (tp_PublicKey t) (tp_MachineID t) (pr_Identity req) with
    | Err _ => (m, Err "trusted identity mismatch - create a fresh invite link")
    | Ok _ =>
      let protocol := pick (tp_Protocol t) (configuredProtocol m) in
      let port := pick_port (tp_TargetPort t) (configuredTargetPort m) in
      let protocol := if bool_decide (pr_Protocol req = "") then protocol
                      else Protocol_String (ParseProtocol (pr_Protocol req)) in
      let port := pick_port (pr_TargetPort req) port in
      (trust m req peer protocol port (he_now e), Ok (protocol, port))
    end
  end.

(** The invite branch. *)
Definition authorize_invite (m : Manager) (e : host_env) (req : PairRequest) (peer : string)
  : Manager * res (string * Z) :=
  let '(m, r) := verifyAndConsume m (pr_InviteID req) (pr_Proof req) peer (pr_Mode req) (he_now e) in
  match r with
  | Err err => (m, Err err)
  | Ok l =>
    match heap m !! l with
    | None => (m, Err "invalid link")
    | Some inv =>
      let port := effectiveTargetPort (Some inv) in
      let protocol := Protocol_String (ParseProtocol (Protocol inv)) in
      let m := record_user m l (pr_Label req) peer (he_now e) in
      let m := if bool_decide (pr_Mode req = "pairing")
               then trust m req peer protocol port (he_now e) else m in
      (m, Ok (protocol, port))
    end
  end.

Definition authorize (m : Manager) (e : host_env) (req : PairRequest) (peer : string)
  : Manager * res (string * Z) :=
  if bool_decide (pr_Mode req = "trusted") then authorize_trusted m e req peer
  else authorize_invite m e req peer.

(** The session token, the response proof and the response. *)
Definition respond (m : Manager) (e : host_env) (req : PairRequest) (peer transportBackend : string)
    (protocol : string) (port : Z) : Manager * PairResponse :=
  let '(issued, s) := Issue (sessions m) (he_token e) (he_now e) (he_sweep_now e) peer port in
  let m := set_sessions m s in
  match issued with
  | Err _ => (m, reject "failed to issue session token")
  | Ok token =>
    match localProof (he_identity e) (PrivateKeyBytes (cfg m)) "response" (nodeID m) peer
            (pr_InviteID req) (pr_Proof req) token (pr_Mode req) (TimeWindow (he_now e)) with
    | Err _ => (m, reject "failed to sign identity proof")
    | Ok proof =>
      let ticket := if bool_decide (transportBackend = BackendIroh)
                    then match he_ticket e with Ok t => t | Err _ => "" end else "" in
      (m, mkPairResponse true "authenticated" (nc_Label (Node (cfg m))) token protocol port ticket
            (attestationForIdentity (he_identity e)) (Some proof))
    end
  end.

(** The handler once the request is decoded. *)
Definition handle_request (m : Manager) (e : host_env) (req : PairRequest)
    (remotePeerID transportBackend : string) : Manager * PairResponse :=
  if Version <? pr_Version req then (m, reject "unsupported protocol version")
  else
    match pairRequestNodeID req remotePeerID transportBackend with
    | Err err => (m, reject err)
    | Ok peer =>
      match verifyIdentityProof (he_now e) (pr_Identity req) (pr_Attestation req) "request"
              peer (nodeID m) (pr_InviteID req) (pr_Proof req) [] (pr_Mode req) with
      | Err err => (m, reject ("identity proof rejected: " ++ err)%string)
      | Ok _ =>
        let '(m, r) := authorize m e req peer in
        match r with
        | Err err => (m, reject err)
        | Ok (protocol, port) => respond m e req peer transportBackend protocol port
        end
      end
    end.

(** [handleIncomingConn] on a stream that delivers the bytes [input]; the
    response is the payload of the one frame it writes, if it writes one. *)
Definition handleIncomingConn (m : Manager) (e : host_env) (input : bytes)
    (remotePeerID transportBackend : string) : Manager * option PairResponse :=
  match ReadFrame input with
  | Err _ => (m, None)
  | Ok (msgType, payload, _) =>
    if bool_decide (msgType <> MsgPairRequest) then (m, None)
    else match unmarshal payload with
         | Err _ => (m, None)
         | Ok req =>
           let '(m, resp) := handle_request m e req remotePeerID transportBackend in
           (m, Some resp)
         end
  end.
End Host.

(** ** Lemmas *)

Section HostFacts.
Context `{Crypto} `{Codec PairRequest}.

(** What an accepted request shows. *)
Lemma handle_request_ok m e req remote backend m' resp :
  handle_request m e req remote backend = (m', resp) -> ps_OK resp = true ->
  exists peer m1 protocol port token proof,
    pr_Version req <= Version /\
    pairRequestNodeID req remote backend = Ok peer /\
    verifyIdentityProof (he_now e) (pr_Identity req) (pr_Attestation req) "request" peer (nodeID m)
      (pr_InviteID req) (pr_Proof req) [] (pr_Mode req) = Ok tt /\
    authorize m e req peer = (m1, Ok (protocol, port)) /\
    he_token e = Ok token /\ ps_SessionToken resp = token /\
    ps_Protocol resp = protocol /\ ps_TargetPort resp = port /\
    ps_Identity resp = Some proof /\
    localProof (he_identity e) (PrivateKeyBytes (cfg m1)) "response" (nodeID m1) peer
      (pr_InviteID req) (pr_Proof req) token (pr_Mode req) (TimeWindow (he_now e)) = Ok proof /\
    m' = set_sessions m1 (snd (Issue (sessions m1) (Ok token) (he_now e) (he_sweep_now e) peer port)).
Proof.
  unfold handle_request. destruct (Version <? pr_Version req) eqn:Ev; [by intros [= <- <-]|].
  destruct (pairRequestNodeID req remote backend) as [peer|] eqn:Ep; [|by intros [= <- <-]].
  destruct (verifyIdentityProof _ _ _ _ _ _ _ _ _ _) as [[]|] eqn:Ei; [|by intros [= <- <-]].
  destruct (authorize m e req peer) as [m1 [[protocol port]|err]] eqn:Ea; [|by intros [= <- <-]].
  unfold respond. destruct (he_token e) as [token|err] eqn:Et; [|by intros [= <- <-]].
  cbn [Issue]. cbn [cfg nodeID set_sessions].
  destruct (localProof _ _ _ _ _ _ _ _ _ _) as [proof|err] eqn:El; [|by intros [= <- <-]].
  intros [= <- <-] _. exists peer, m1, protocol, port, token, proof. go_bool.
  repeat (split; [first [done|lia]|]). done.
Qed.
End HostFacts.

Section TrustFacts.
Context `{Crypto} `{Codec PairRequest}.

(** What authorizes a peer: a trust entry whose stored identity matches, or
    an invite it proved. *)
Definition authorized (m : Manager) (e : host_env) (req : PairRequest) (peer : string) : Prop :=
  (pr_Mode req = "trusted" /\ exists t, find_trusted (cfg m) peer = Some t /\
     verifyStoredIdentity (tp_PublicKey t) (tp_MachineID t) (pr_Identity req) = Ok tt) \/
  (pr_Mode req <> "trusted" /\ exists m1 l,
     verifyAndConsume m (pr_InviteID req) (pr_Proof req) peer (pr_Mode req) (he_now e)
       = (m1, Ok l)).

Lemma authorize_ok m e req peer m1 pp :
  authorize m e req peer = (m1, Ok pp) -> authorized m e req peer.
Proof.
  unfold authorize, authorized. case_bool_decide as Hm.
  - unfold authorize_trusted. destruct (find_trusted (cfg m) peer) as [t|]; [|done].
    destruct (verifyStoredIdentity _ _ _) as [[]|] eqn:Ev; [|done]. intros _. left. eauto.
  - unfold authorize_invite.
    destruct (verifyAndConsume _ _ _ _ _ _) as [m2 [l|err]] eqn:Ev; [|done]. intros _. right. eauto.
Qed.

(** [verifyAndConsume] leaves the configuration and the sessions alone. *)
Lemma verifyAndConsume_frame m iid pf peer mode now m' r :
  verifyAndConsume m iid pf peer mode now = (m', r) ->
  cfg m' = cfg m /\ sessions m' = sessions m /\ nodeID m' = nodeID m.
Proof. unfold verifyAndConsume. intros Hv. repeat case_match; by simplify_eq. Qed.

(** What [authorize] does to the trusted peers and to the sessions. *)
Lemma authorize_frame m e req peer m1 r :
  authorize m e req peer = (m1, r) ->
  sessions m1 = sessions m /\ nodeID m1 = nodeID m /\
  (Trusted (cfg m1) = Trusted (cfg m) \/
   (authorized m e req peer /\ (pr_Mode req = "trusted" \/ pr_Mode req = "pairing") /\
    exists protocol port,
      Trusted (cfg m1) =
      Trusted (AddTrustedPeer (cfg m) (trust_entry req peer protocol port (he_now e)) (he_now e)))).
Proof.
  intros Ha. assert (Ht : forall c, Trusted (NormalizeNetworkBackend c) = Trusted c)
    by (intros c; apply normalize_lists).
  destruct r as [pp|err].
  - pose proof (authorize_ok _ _ _ _ _ _ Ha) as Hok. revert Ha. unfold authorize.
    case_bool_decide as Hm.
    + unfold authorize_trusted. destruct (find_trusted (cfg m) peer) as [t|]; [|done].
      destruct (verifyStoredIdentity _ _ _) as [[]|]; [|done]. intros Ha. injection Ha as <- _.
      split; [done|]. split; [done|]. right. split; [done|]. split; [by left|].
      eexists _, _. unfold trust. cbn [cfg set_cfg]. apply Ht.
    + unfold authorize_invite.
      destruct (verifyAndConsume _ _ _ _ _ _) as [m2 [l|err]] eqn:Ev; [|done].
      apply verifyAndConsume_frame in Ev as (Ec & Es & En).
      destruct (heap m2 !! l) as [inv|] eqn:Eh; [|done]. intros Ha. injection Ha as <- _.
      unfold record_user. rewrite Eh.
      case_bool_decide as Hp; cbn [sessions nodeID cfg set_heap trust set_cfg];
        (split; [done|]); (split; [done|]).
      * right. split; [done|]. split; [by right|]. eexists _, _.
        unfold trust. cbn [cfg set_cfg set_heap]. rewrite Ht, Ec. reflexivity.
      * left. by rewrite Ec.
  - revert Ha. unfold authorize. case_bool_decide as Hm.
    + unfold authorize_trusted. repeat case_match; intros; simplify_eq. all: by split; [|split; [|left]].
    + unfold authorize_invite.
      destruct (verifyAndConsume _ _ _ _ _ _) as [m2 [l|err']] eqn:Ev;
        apply verifyAndConsume_frame in Ev as (Ec & Es & En).
      * destruct (heap m2 !! l); [done|]. intros; simplify_eq.
        split; [done|]. split; [done|]. left. by rewrite Ec.
      * intros; simplify_eq. split; [done|]. split; [done|]. left. by rewrite Ec.
Qed.
End TrustFacts.

(** ** Properties *)

(** C2: no session without authentication.  When the pairing handler answers
    OK, the stream held a pairing request of a supported version whose peer
    proved its identity for this host with the "request" role over exactly
    this invite id, invite proof and mode, and the peer is authorized: by a
    trust entry whose stored identity matches the proof, or by an invite whose
    MAC it knows.  The token sent is the fresh random one, it is live for two
    minutes with the full number of uses, and it is bound to that peer and to
    the target port of the response; for an invite that port is the
    invite's. *)
Theorem pairing_requires_authentication `{Crypto} `{Codec PairRequest} m e input remote backend m' resp
  (Hh : handleIncomingConn m e input remote backend = (m', Some resp))
  (Hok : ps_OK resp = true)
  (Hclock : he_now e <= he_sweep_now e <= he_now e + SessionTokenTTL) :
  exists req payload rest peer token,
    ReadFrame input = Ok (MsgPairRequest, payload, rest) /\ unmarshal payload = Ok req /\
    pairRequestNodeID req remote backend = Ok peer /\
    verifyIdentityProof (he_now e) (pr_Identity req) (pr_Attestation req) "request" peer (nodeID m)
      (pr_InviteID req) (pr_Proof req) [] (pr_Mode req) = Ok tt /\
    authorized m e req peer /\
    he_token e = Ok token /\ ps_SessionToken resp = token /\
    svc_live (sessions m') token =
      Some (he_now e + SessionTokenTTL, mkGrant peer (ps_TargetPort resp), SessionTokenMaxUses) /\
    (pr_Mode req <> "trusted" -> exists l inv,
       byInviteID m !! inviteKey (pr_InviteID req) = Some l /\ heap m !! l = Some inv /\
       ps_TargetPort resp = effectiveTargetPort (Some inv)).
Proof.
  unfold handleIncomingConn in Hh.
  destruct (ReadFrame input) as [[[t payload] rest]|] eqn:Er; [|done].
  destruct (bool_decide (t <> MsgPairRequest)) eqn:Et; [done|]. go_bool. apply dec_stable in Et. subst t.
  destruct (unmarshal payload) as [req|] eqn:Eu; [|done].
  destruct (handle_request m e req remote backend) as [m2 resp2] eqn:Eh. injection Hh as -> ->.
  destruct (handle_request_ok _ _ _ _ _ _ _ Eh Hok) as
    (peer & m1 & protocol & port & token & proof & _ & Hp & Hi & Ha & Htk & Hst & _ & Hport & _ & _ & ->).
  exists req, payload, rest, peer, token. repeat (split; [first [done|by eapply authorize_ok]|]). split.
  - rewrite Hport. cbn [sessions set_sessions].
    destruct (Issue (sessions m1) (Ok token) (he_now e) (he_sweep_now e) peer port) as [r s] eqn:Ei.
    cbn [snd]. refine (proj2 (svc_issue_ok _ token _ (he_sweep_now e) peer port r s Ei _)). lia.
  - intros Hm. revert Ha. unfold authorize. rewrite bool_decide_eq_false_2 by done.
    unfold authorize_invite. destruct (verifyAndConsume _ _ _ _ _ _) as [m3 [l|]] eqn:Ev; [|done].
    apply verify_inv in Ev as (i & Hk & Hl & _ & _ & _ & _ & _ & _ & _ & _ & ->).
    cbn [heap set_heap]. rewrite lookup_insert_eq. intros Ha. injection Ha as _ _ Hpp.
    exists l, i. split; [done|]. split; [done|]. by rewrite Hport, <- Hpp.
Qed.


(** ** Concrete requests *)

Definition host_node : string := of_bytes (to_bytes "12D3KooW" ++ repeat x03 32).

(** The client's proof for a request to [host_node] at window 0. *)
Definition sample_proof (iid pf : bytes) (mode : string) : option IdentityProof :=
  match localProof None (Ok sample_key) "request" sample_node host_node iid pf [] mode 0 with
  | Ok p => Some p
  | Err _ => None
  end.

Definition sample_request (iid pf : bytes) (mode : string) (port : Z) : PairRequest :=
  mkPairRequest 1 sample_node iid pf mode "laptop" "" port None (sample_proof iid pf mode).

(** A codec that knows one request. *)
Definition one_request (r : PairRequest) : Codec PairRequest :=
  {| marshal _ := Ok [x7b; x7d]; unmarshal _ := Ok r |}.

Definition sample_frame : bytes := frame_header MsgPairRequest [x7b; x7d] ++ [x7b; x7d].

Definition sample_env : host_env :=
  mkHostEnv second (2 * second) None (Ok (repeat x09 16)) (Ok "ticket").

Definition invited_host : Manager :=
  fst (run_ops (NewManager sample_config host_node) (take 1 sample_ops)).

Definition invite_request : PairRequest :=
  sample_request (repeat x01 16)
    (InviteProof (repeat x02 32) (repeat x01 16) host_node sample_node "onetime" 0) "onetime" 0.

Definition invite_response : PairResponse :=
  mkPairResponse true "authenticated" "h" (repeat x09 16) "ssh" 22 "" None
    match localProof None (PrivateKeyBytes sample_config) "response" host_node sample_node
            (repeat x01 16) (pr_Proof invite_request) (repeat x09 16) "onetime" 0 with
    | Ok p => Some p | Err _ => None end.

Definition invite_run : Manager * option PairResponse :=
  handleIncomingConn (H1 := one_request invite_request) invited_host sample_env sample_frame
    sample_node "libp2p".

Lemma pairing_requires_authentication_witness :
  snd invite_run = Some invite_response /\
  exists peer token, svc_live (sessions (fst invite_run)) token =
    Some (he_now sample_env + SessionTokenTTL, mkGrant peer 22, SessionTokenMaxUses).
Proof.
  assert (Hs : snd invite_run = Some invite_response) by (vm_compute; reflexivity).
  split; [exact Hs|].
  assert (Hr : handleIncomingConn (H1 := one_request invite_request) invited_host sample_env
      sample_frame sample_node "libp2p" = (fst invite_run, Some invite_response))
    by (rewrite <- Hs; apply surjective_pairing).
  assert (Hc : he_now sample_env <= he_sweep_now sample_env <= he_now sample_env + SessionTokenTTL)
    by (vm_compute; split; discriminate).
  destruct (pairing_requires_authentication (H0 := one_request invite_request) invited_host sample_env
    sample_frame sample_node "libp2p" (fst invite_run) invite_response Hr eq_refl Hc)
    as (req & payload & rest & peer & token & _ & _ & _ & _ & _ & _ & _ & Hl & _).
  exists peer, token. exact Hl.
Defined.

(** Which port a session gets.  For a trusted peer the session's port is
    the one the request names, if it names one, and otherwise the entry's,
    and otherwise the configured one; and the entry is updated with it.  The
    stored port does not limit what a trusted peer may ask for. *)
Lemma trusted_session_port `{Crypto} `{Codec PairRequest} m e req remote backend m' resp t peer
  (Hh : handle_request m e req remote backend = (m', resp)) (Hok : ps_OK resp = true)
  (Hmode : pr_Mode req = "trusted")
  (Hpeer : pairRequestNodeID req remote backend = Ok peer)
  (Ht : find_trusted (cfg m) peer = Some t) :
  let port := if 0 <? pr_TargetPort req then pr_TargetPort req
              else if 0 <? tp_TargetPort t then tp_TargetPort t
              else configuredTargetPort m in
  ps_TargetPort resp = port /\
  Trusted (cfg m') =
    Trusted (AddTrustedPeer (cfg m) (trust_entry req peer (ps_Protocol resp) port (he_now e)) (he_now e)).
Proof.
  destruct (handle_request_ok _ _ _ _ _ _ _ Hh Hok) as
    (peer' & m1 & protocol & port & token & proof & _ & Hp & _ & Ha & _ & _ & Hpr & Hpo & _ & _ & ->).
  rewrite Hpeer in Hp. injection Hp as <-. rewrite Hpr, Hpo.
  revert Ha. unfold authorize. rewrite bool_decide_eq_true_2 by done.
  unfold authorize_trusted. rewrite Ht.
  destruct (verifyStoredIdentity _ _ _) as [[]|]; [|done]. intros Ha. injection Ha as <- <- <-.
  split; [done|]. cbn [cfg set_sessions trust set_cfg]. apply normalize_lists.
Qed.

Definition trusting_host : Manager :=
  let c := sample_config in
  NewManager (AddTrustedPeer c (mkTrusted sample_node "laptop" ""
    (MachineID (Some (mkIdentity (Some sample_key) None BackendSoftware None))) "ssh" 22
    no_identity zero_time zero_time) 0) host_node.

Definition trusted_request : PairRequest := sample_request [] [] "trusted" 5900.

Definition trusted_response : PairResponse :=
  mkPairResponse true "authenticated" "h" (repeat x09 16) "ssh" 5900 "" None
    match localProof None (PrivateKeyBytes sample_config) "response" host_node sample_node
            [] [] (repeat x09 16) "trusted" 0 with
    | Ok p => Some p | Err _ => None end.

Definition sample_entry : TrustedPeer :=
  match find_trusted (cfg trusting_host) sample_node with
  | Some t => t
  | None => trust_entry trusted_request sample_node "ssh" 22 0
  end.

(** An entry for port 22 opens port 5900. *)
Lemma trusted_session_port_witness :
  snd (handle_request trusting_host sample_env trusted_request sample_node "libp2p") = trusted_response /\
  tp_TargetPort sample_entry = 22 /\ ps_TargetPort trusted_response = 5900.
Proof.
  assert (Hs : snd (handle_request trusting_host sample_env trusted_request sample_node "libp2p")
               = trusted_response) by (vm_compute; reflexivity).
  assert (Hp : pairRequestNodeID trusted_request sample_node "libp2p" = Ok sample_node)
    by (vm_compute; reflexivity).
  assert (Hf : find_trusted (cfg trusting_host) sample_node = Some sample_entry)
    by (vm_compute; reflexivity).
  assert (Hok : ps_OK trusted_response = true) by (vm_compute; reflexivity).
  assert (Hm : pr_Mode trusted_request = "trusted"%string) by (vm_compute; reflexivity).
  split; [exact Hs|]. split; [vm_compute; reflexivity|].
  pose proof (fun m' => trusted_session_port (H0 := one_request trusted_request) trusting_host sample_env
    trusted_request sample_node "libp2p" m' trusted_response sample_entry sample_node) as Hx.
  destruct (handle_request trusting_host sample_env trusted_request sample_node "libp2p") as [m' resp].
  cbn [snd] in Hs. subst resp.
  destruct (Hx m' eq_refl Hok Hm Hp Hf) as [Hport _].
  exact Hport.
Defined.
