(* ===== verification/Bridge.v ===== *)
(** * Bridge: the byte copy of [internal/tunnel/tunnel.go]

    [copyWithProgress] and [writeFullWithDeadline], the classification of the
    errors that end a copy, and [bridgeLogged], which runs one copy per
    direction and tears the two streams down once. *)

From S2P Require Import Prelude GoStrings.

(** An error of a stream: its text and what [errors.Is] says of it. *)
Record io_error : Type := mkIoError {
  e_text : string;
  e_is_eof : bool;
  e_is_closed : bool;
}.

Definition EOF : io_error := mkIoError "EOF" true false.
Definition ErrShortWrite : io_error := mkIoError "short write" false false.

(** ** Errors that end a copy *)

Definition isUseOfClosedNetworkConnection (err : option io_error) : bool :=
  match err with
  | None => false
  | Some e => contains (to_lower (e_text e)) "use of closed network connection"
  end.

Definition isConnectionReset (err : option io_error) : bool :=
  match err with
  | None => false
  | Some e =>
    let msg := to_lower (e_text e) in
    contains msg "connection reset by peer" ||
    contains msg "forcibly closed by the remote host" ||
    contains msg "wsarecv"
  end.

Definition isIrohRemoteClosed (err : option io_error) : bool :=
  match err with
  | None => false
  | Some e =>
    let msg := to_lower (trim_space (e_text e)) in
    bool_decide (msg = "internal_error (remote)") ||
    contains msg "application error 0x0 (remote)" ||
    contains msg "canceled by remote with error code 0"
  end.

Definition errors_is_eof (err : option io_error) : bool :=
  match err with Some e => e_is_eof e | None => false end.
Definition errors_is_closed (err : option io_error) : bool :=
  match err with Some e => e_is_closed e | None => false end.

Definition isTunnelClosedError (err : option io_error) : bool :=
  errors_is_closed err || isUseOfClosedNetworkConnection err ||
  isConnectionReset err || isIrohRemoteClosed err.

Definition bridgeCopyFailed (err : option io_error) : bool :=
  bool_decide (err <> None) && negb (errors_is_eof err) && negb (isTunnelClosedError err).

Definition bridgeCloseCause (err : option io_error) : string :=
  if bool_decide (err = None) then "nil"
  else if errors_is_eof err then "eof"
  else if isTunnelClosedError err then "closed" else "".

(** ** Writing *)

(** A destination: the bytes it took, the number of calls, what each call of
    [Write] reports for the data passed, and the result of [WriteChunkSize]
    when it has that method. *)
Record sink : Type := mkSink {
  s_out : bytes;
  s_calls : nat;
  s_write : nat -> bytes -> Z * option io_error;
  s_chunk : option Z;
}.

(** The contract of [io.Writer] as far as the loop needs it. *)
Definition sink_ok (d : sink) : Prop :=
  forall k p, 0 <= fst (s_write d k p) <= Z.of_nat (length p).

Definition writeChunkSize (d : sink) : Z :=
  match s_chunk d with
  | Some size => if 0 <? size then size else 0
  | None => 0
  end.

Definition sink_write (d : sink) (p : bytes) : sink * (Z * option io_error) :=
  let r := s_write d (s_calls d) p in
  (mkSink (s_out d ++ take (Z.to_nat (fst r)) p) (S (s_calls d)) (s_write d) (s_chunk d), r).

(** The loop from offset [total]; [None] is fuel exhausted. *)
Fixpoint write_loop (fuel : nat) (d : sink) (p : bytes) (chunkSize total : Z)
  : option (sink * Z * option io_error) :=
  let len := Z.of_nat (length p) in
  if total <? len then
    match fuel with
    | O => None
    | S fuel =>
      let e := if (0 <? chunkSize) && (chunkSize <? len - total) then total + chunkSize else len in
      let '(d, (n, err)) := sink_write d (take (Z.to_nat (e - total)) (drop (Z.to_nat total) p)) in
      let total := if 0 <? n then total + n else total in
      match err with
      | Some _ => Some (d, total, err)
      | None => if n =? 0 then Some (d, total, Some ErrShortWrite)
                else write_loop fuel d p chunkSize total
      end
    end
  else Some (d, total, None).

Definition writeFullWithDeadline (fuel : nat) (d : sink) (p : bytes)
  : option (sink * Z * option io_error) :=
  write_loop fuel d p (writeChunkSize d) 0.

Definition bridgeWriteBufferSize : nat := Nat.mul 32 1024.

(** [copyWithProgress] from a source whose reads return [reads] one after
    the other; [None] is a source that blocks (the list ends) or fuel that
    runs out. *)
Fixpoint copyWithProgress (fuel : nat) (d : sink) (reads : list (bytes * option io_error)) (total : Z)
  : option (sink * Z * option io_error) :=
  match reads with
  | [] => None
  | (buf, er) :: reads =>
    let nr := Z.of_nat (length buf) in
    if 0 <? nr then
      '(d, nw, ew) ← writeFullWithDeadline fuel d buf;
      let total := if 0 <? nw then total + nw else total in
      match ew with
      | Some _ => Some (d, total, ew)
      | None =>
        if negb (nr =? nw) then Some (d, total, Some ErrShortWrite)
        else match er with
             | Some _ => Some (d, total, er)
             | None => copyWithProgress fuel d reads total
             end
      end
    else match er with
         | Some _ => Some (d, total, er)
         | None => copyWithProgress fuel d reads total
         end
  end.

(** ** The two directions *)

Inductive side : Type := SideA | SideB.
#[export] Instance side_eq_dec : EqDecision side.
Proof. solve_decision. Defined.

(** What a stream implements beyond [io.ReadWriteCloser]. *)
Record endpoint : Type := mkEndpoint { has_CloseWrite : bool; has_AbortClose : bool }.

Inductive close_event : Type :=
  | EvCloseWrite (s : side)
  | EvAbortClose (s : side)
  | EvClose (s : side).
#[export] Instance close_event_eq_dec : EqDecision close_event.
Proof. solve_decision. Defined.

Section Bridge.
Variable caps : side -> endpoint.

Definition closeWrite (s : side) : list close_event :=
  if has_CloseWrite (caps s) then [EvCloseWrite s] else [].

Definition closeGraceful (s : side) : list close_event := [EvClose s].

Definition closeAbortive (s : side) : list close_event :=
  if has_AbortClose (caps s) then [EvAbortClose s] else closeGraceful s.

(** The state shared by the two goroutines: whether [teardownOnce] ran, and
    the calls made on the streams. *)
Record bridge_state : Type := mkBridge { torn : bool; closes : list close_event }.

Definition teardown (abortive : bool) (st : bridge_state) : bridge_state :=
  if torn st then st
  else mkBridge true
         (closes st ++ (if abortive then closeAbortive SideA ++ closeAbortive SideB
                        else closeGraceful SideA ++ closeGraceful SideB)).

(** The end of the goroutine that copies to [dst], whose copy ended with
    [err]. *)
Definition copy_ended (st : bridge_state) (dst : side) (err : option io_error) : bridge_state * bool :=
  let failed := bridgeCopyFailed err in
  (if failed then teardown true st else mkBridge (torn st) (closes st ++ closeWrite dst), failed).

(** [bridgeLogged] when the goroutine that copies to [first] ends first;
    [err s] is how the copy to [s] ends. *)
Definition bridgeLogged (first : side) (err : side -> option io_error) : bridge_state * bool :=
  let second := match first with SideA => SideB | SideB => SideA end in
  let '(st, firstFailed) := copy_ended (mkBridge false []) first (err first) in
  let '(st, secondFailed) := copy_ended st second (err second) in
  (teardown false st, firstFailed || secondFailed).
End Bridge.

(** ** Lemmas *)

Lemma sink_write_ok d p :
  sink_ok d ->
  let '(d', (n, err)) := sink_write d p in
  sink_ok d' /\ s_chunk d' = s_chunk d /\ 0 <= n <= Z.of_nat (length p) /\
  s_out d' = s_out d ++ take (Z.to_nat n) p.
Proof.
  intros Hd. unfold sink_write. pose proof (Hd (s_calls d) p) as Hn.
  destruct (s_write d (s_calls d) p) as [n err] eqn:E. cbn [fst s_chunk s_out] in *.
  split; [exact Hd|done].
Qed.

(** From an offset inside the buffer the loop ends, has written a prefix of
    what was left, and reports its length; without an error it is all of it. *)
Lemma write_loop_total fuel d p chunk total :
  sink_ok d -> 0 <= total <= Z.of_nat (length p) -> Z.of_nat (length p) - total <= Z.of_nat fuel ->
  exists d' t err, write_loop fuel d p chunk total = Some (d', t, err) /\
    sink_ok d' /\ s_chunk d' = s_chunk d /\ total <= t <= Z.of_nat (length p) /\
    s_out d' = s_out d ++ take (Z.to_nat (t - total)) (drop (Z.to_nat total) p) /\
    (err = None -> t = Z.of_nat (length p)).
Proof.
  revert d total. induction fuel as [|fuel IH]; intros d total Hd Ht Hf.
  - cbn. rewrite (proj2 (Z.ltb_ge _ _)) by lia. exists d, total, None.
    split; [done|]. split; [done|]. split; [done|]. split; [lia|].
    split; [|lia]. rewrite Z.sub_diag, take_0. by rewrite app_nil_r.
  - cbn [write_loop]. destruct (total <? _) eqn:El; go_bool.
    2:{ exists d, total, None. split; [done|]. split; [done|]. split; [done|]. split; [lia|].
        split; [|lia]. rewrite Z.sub_diag, take_0. by rewrite app_nil_r. }
    match goal with |- context [Z.to_nat (?x - total)] => set (e := x) end.
    assert (He : total < e <= Z.of_nat (length p)).
    { unfold e. destruct (_ && _) eqn:Ee; go_bool; lia. }
    set (q := take (Z.to_nat (e - total)) (drop (Z.to_nat total) p)).
    assert (Hq : Z.of_nat (length q) = e - total).
    { unfold q. rewrite length_take, length_drop. lia. }
    pose proof (sink_write_ok d q Hd) as Hw.
    destruct (sink_write d q) as [d1 [n err]]. destruct Hw as (Hd1 & Hc1 & Hn & Ho).
    assert (Hsum : (if 0 <? n then total + n else total) = total + n)
      by (destruct (0 <? n) eqn:En; go_bool; lia).
    rewrite Hsum.
    assert (Hpre : take (Z.to_nat n) q = take (Z.to_nat n) (drop (Z.to_nat total) p)).
    { unfold q. rewrite take_take. f_equal. lia. }
    destruct err as [er|].
    + exists d1, (total + n), (Some er). split; [done|]. split; [done|]. split; [done|].
      split; [lia|]. split; [|done]. rewrite Ho, Hpre. do 3 f_equal. lia.
    + destruct (n =? 0) eqn:E0; go_bool.
      * exists d1, (total + n), (Some ErrShortWrite). split; [done|]. split; [done|].
        split; [done|]. split; [lia|]. split; [|done]. rewrite Ho, Hpre. do 3 f_equal. lia.
      * destruct (IH d1 (total + n) Hd1 ltac:(lia) ltac:(lia))
          as (d2 & t & er & Hl & Hd2 & Hc2 & Htt & Ho2 & Hall).
        exists d2, t, er. split; [done|]. split; [done|]. split; [congruence|]. split; [lia|].
        split; [|done]. rewrite Ho2, Ho, Hpre, <- app_assoc. f_equal.
        replace (Z.to_nat (t - total)) with (Z.to_nat n + Z.to_nat (t - (total + n)))%nat by lia.
        rewrite <- take_take_drop, drop_drop. do 3 f_equal. lia.
Qed.

(** What a source delivers up to and including its first error, and that
    error. *)
Fixpoint source_data (reads : list (bytes * option io_error)) : bytes :=
  match reads with
  | [] => []
  | (buf, Some _) :: _ => buf
  | (buf, None) :: reads => buf ++ source_data reads
  end.

Fixpoint source_end (reads : list (bytes * option io_error)) : option io_error :=
  match reads with
  | [] => None
  | (_, Some e) :: _ => Some e
  | (_, None) :: reads => source_end reads
  end.

(** A sink that takes whatever it is given. *)
Definition accepts_all (d : sink) : Prop :=
  forall k p, s_write d k p = (Z.of_nat (length p), None).

Lemma accepts_all_ok d : accepts_all d -> sink_ok d.
Proof. intros Ha k p. rewrite Ha. cbn. lia. Qed.

Lemma write_loop_behaviour fuel d p chunk total d' t err :
  write_loop fuel d p chunk total = Some (d', t, err) -> s_write d' = s_write d.
Proof.
  revert d total. induction fuel as [|fuel IH]; intros d total; cbn [write_loop];
    destruct (total <? _); try (intros; by simplify_eq).
  unfold sink_write. destruct (s_write d (s_calls d) _) as [n er]. cbn [fst].
  destruct er; [by intros; simplify_eq/=|]. destruct (n =? 0); [by intros; simplify_eq/=|].
  intros H. apply IH in H. done.
Qed.

(** A sink that takes everything never makes the loop fail. *)
Lemma write_loop_all fuel d p chunk total d' t err :
  accepts_all d -> 0 <= total <= Z.of_nat (length p) ->
  write_loop fuel d p chunk total = Some (d', t, err) -> err = None.
Proof.
  intros Ha. revert d Ha total. induction fuel as [|fuel IH]; intros d Ha total Ht;
    cbn [write_loop]; destruct (total <? _) eqn:El; try (intros; by simplify_eq).
  match goal with |- context [Z.to_nat (?x - total)] => set (e := x) end.
  assert (He : total < e <= Z.of_nat (length p)).
  { unfold e. destruct (_ && _) eqn:Ee; go_bool; lia. }
  unfold sink_write. rewrite Ha. cbn [fst]. rewrite length_take, length_drop.
  destruct (_ =? 0) eqn:E0; go_bool; [lia|].
  rewrite (proj2 (Z.ltb_lt 0 _)) by lia. intros H.
  eapply IH in H; [done| |]; [intros k q; apply Ha|lia].
Qed.

(** One buffer. *)
Lemma writeFull_total fuel d p :
  sink_ok d -> (length p <= fuel)%nat ->
  exists d' t err, writeFullWithDeadline fuel d p = Some (d', t, err) /\
    sink_ok d' /\ (accepts_all d -> accepts_all d' /\ err = None) /\
    0 <= t <= Z.of_nat (length p) /\
    s_out d' = s_out d ++ take (Z.to_nat t) p /\ (err = None -> t = Z.of_nat (length p)).
Proof.
  intros Hd Hf. unfold writeFullWithDeadline.
  destruct (write_loop_total fuel d p (writeChunkSize d) 0 Hd ltac:(lia) ltac:(lia))
    as (d' & t & err & Hw & Hd' & _ & Ht & Ho & Hall).
  rewrite drop_0, Z.sub_0_r in Ho. exists d', t, err. split; [done|]. split; [done|].
  split; [|by split].
  intros Ha. split.
  - intros k q. rewrite (write_loop_behaviour _ _ _ _ _ _ _ _ Hw). apply Ha.
  - eapply write_loop_all; [done| |done]. lia.
Qed.

(** ** Properties *)


(** Sixteen-byte chunks. *)
Definition chunked_sink : sink :=
  mkSink [] 0 (fun _ p => (Z.of_nat (length p), None)) (Some 16).


(** The bridge is torn down exactly once.  In whichever order the two
    copies end and however they end, each of the two streams gets exactly one
    closing call; it is the abortive one (where the stream has it) exactly
    when a direction failed, that is ended with an error that is neither EOF
    nor a closed stream, and this is also the result; a direction that ended
    normally half-closes its destination. *)
Lemma bridge_torn_once caps first err :
  let '(st, failed) := bridgeLogged caps first err in
  failed = bridgeCopyFailed (err SideA) || bridgeCopyFailed (err SideB) /\
  torn st = true /\
  (forall s, List.filter (fun e => bool_decide (e = EvAbortClose s) || bool_decide (e = EvClose s)) (closes st)
             = [if failed && has_AbortClose (caps s) then EvAbortClose s else EvClose s]) /\
  (forall s, EvCloseWrite s ∈ closes st <->
             has_CloseWrite (caps s) = true /\ bridgeCopyFailed (err s) = false).
Proof.
  unfold bridgeLogged, copy_ended, teardown, closeAbortive, closeGraceful, closeWrite.
  destruct first, (bridgeCopyFailed (err SideA)) eqn:EA, (bridgeCopyFailed (err SideB)) eqn:EB;
    cbn [torn closes andb orb]; (split; [done|]); (split; [done|]);
    (split; [intros []; cbn [app];
             destruct (has_AbortClose (caps SideA)), (has_AbortClose (caps SideB)),
               (has_CloseWrite (caps SideA)), (has_CloseWrite (caps SideB)); reflexivity|]);
    intros []; rewrite ?EA, ?EB;
    destruct (has_AbortClose (caps SideA)), (has_AbortClose (caps SideB)),
      (has_CloseWrite (caps SideA)), (has_CloseWrite (caps SideB)); cbn [app];
    rewrite ?elem_of_cons, ?elem_of_nil; naive_solver.
Qed.
