(* ===== verification/TunnelHost.v ===== *)
(** * TunnelHost: the host side of [internal/tunnel/tunnel.go]

    [handleIncomingConn]: the tunnel handshake on a stream, the check of the
    session token through the [SessionService] interface, and the dial of the
    local service.  A slice [remote[:12]] of a shorter string panics. *)

From S2P Require Import Prelude GoStrings GoNet Crypto Wire Frames Sessions Config.

(** The handler's state: the session store shared with the pairing manager,
    and the configuration. *)
Record TunnelManager (S : Type) : Type := mkTunnelManager {
  tm_sessions : S;
  tm_cfg : Config;
}.
Arguments mkTunnelManager {S} _ _.
Arguments tm_sessions {S} _.
Arguments tm_cfg {S} _.

(** ** Addresses *)

Definition is_bracket (b : byte) : bool := bool_decide (b = x5b) || bool_decide (b = x5d).

Definition connectTargetHost (host : string) : string :=
  let host := trim_space (trim_set is_bracket host) in
  if bool_decide (host = "") then "127.0.0.1" else host.

Definition isLoopbackHost (host : string) : bool :=
  let host := connectTargetHost host in
  if equal_fold host "localhost" then true
  else match ParseIP host with
       | Some ip => IsLoopback ip
       | None => false
       end.

Definition splitTargetAddr (addr : string) : string * string :=
  match SplitHostPort addr with
  | Err _ => (addr, "")
  | Ok hp => hp
  end.

Definition targetAddrForPort (c : Config) (port : Z) : string :=
  if (0 <? port) && (port <=? 65535) then JoinHostPort "127.0.0.1" (itoa port)
  else if bool_decide (trim_space (TargetAddr (RDP c)) <> "") then TargetAddr (RDP c)
  else "127.0.0.1:3389".

Definition configuredTargetPort (c : Config) : Z :=
  let target := trim_space (TargetAddr (RDP c)) in
  if bool_decide (target = "") then 3389
  else match cut_last target ":" with
       | Some (_, after) =>
         if bool_decide (after = "") then 3389
         else match atoi after with
              | Some parsed => if (0 <? parsed) && (parsed <=? 65535) then parsed else 3389
              | None => 3389
              end
       | None => 3389
       end.

(** ** The handler *)

(** What the handler does to the stream and to the network. *)
Inductive tunnel_event : Type :=
  | SendPong (p : TunnelPong)
  | SendError (e : TunnelError)
  | SendReady (r : TunnelReady)
  | ResetStream
  | EndStream
  | DialTCP (addr : string)
  | BridgeTo (addr : string).

(** What the handler reads from outside: the clock, whether the pong and the
    ready frame can be written, and which dials succeed. *)
Record tunnel_env : Type := mkTunnelEnv {
  te_now : Z;
  te_pong_ok : bool;
  te_ready_ok : bool;
  te_dial_ok : string -> bool;
}.

Section Host.
Context `{Crypto} {S : Type} `{SessionService S} `{Codec TunnelHello} `{Codec TunnelPing}.

Definition tunnelHelloNodeID (hello : TunnelHello) (transportPeerID transportBackend : string)
  : res string :=
  let nodeID := trim_space (th_NodeID hello) in
  if bool_decide (nodeID = "") then
    if bool_decide (transportBackend = "iroh")
    then Err "tunnel hello is missing DeskAccess node id; upgrade DeskAccess on the client and try again"
    else Ok (trim_space transportPeerID)
  else match peer_Decode nodeID with
       | Err _ => Err "invalid DeskAccess node id in tunnel hello"
       | Ok _ => Ok nodeID
       end.

(** [proxyToService]: the dial of the local service. *)
Definition proxyToService (e : tunnel_env) (remote targetAddr : string) : outcome (list tunnel_event) :=
  _ ← first12 remote;
  if te_dial_ok e targetAddr then Return [DialTCP targetAddr; BridgeTo targetAddr]
  else Return [DialTCP targetAddr; EndStream].

(** The authorization of a hello by peer [requestPeerID]: the session token,
    its peer and port, and the target host.  The result is the granted port
    and the address to dial. *)
Definition authorize_hello (m : TunnelManager S) (now : Z) (hello : TunnelHello)
    (requestPeerID : string) : TunnelManager S * res (Z * string) :=
  let '(grant, s) := svc_verify (tm_sessions m) (th_SessionToken hello) now in
  let m := mkTunnelManager s (tm_cfg m) in
  match grant with
  | Err err => (m, Err err)
  | Ok grant =>
    if bool_decide (PeerID grant <> requestPeerID)
    then (m, Err "session token was not issued for this peer")
    else
      let grantedPort := if TargetPort grant <=? 0 then configuredTargetPort (tm_cfg m)
                         else TargetPort grant in
      if (0 <? th_TargetPort hello) && negb (th_TargetPort hello =? grantedPort)
      then (m, Err ("target port " ++ itoa (th_TargetPort hello) ++ " was not granted by the invite")%string)
      else
        let targetAddr := targetAddrForPort (tm_cfg m) grantedPort in
        if bool_decide (trim_space (th_TargetHost hello) <> "") &&
           negb (isLoopbackHost (th_TargetHost hello))
        then (m, Err "only loopback targets are allowed")
        else (m, Ok (grantedPort, targetAddr))
  end.

(** The handler once the hello is decoded. *)
Definition handle_hello (m : TunnelManager S) (e : tunnel_env) (hello : TunnelHello)
    (remote transportBackend : string) : outcome (TunnelManager S * list tunnel_event) :=
  let refuse reason := [SendError (mkTunnelError reason); EndStream] in
  if Version <? th_Version hello then
    _ ← first12 remote;
    Return (m, refuse ("unsupported protocol version " ++ itoa (th_Version hello))%string)
  else if bool_decide (th_Method hello <> "") && negb (equal_fold (th_Method hello) "CONNECT") then
    _ ← first12 remote;
    Return (m, refuse ("unsupported tunnel method " ++ quote (th_Method hello))%string)
  else match tunnelHelloNodeID hello remote transportBackend with
       | Err err => Return (m, refuse err)
       | Ok requestPeerID =>
         let '(m, r) := authorize_hello m (te_now e) hello requestPeerID in
         match r with
         | Err err => Return (m, refuse err)
         | Ok (grantedPort, targetAddr) =>
           let ready := SendReady (mkTunnelReady (nc_Label (Node (tm_cfg m))) 200 "Connection Established") in
           if te_ready_ok e then
             ev ← proxyToService e requestPeerID targetAddr;
             Return (m, ready :: ev)
           else Return (m, [ready; ResetStream])
         end
       end.

(** [handleIncomingConn] on a stream that delivers the bytes [input]. *)
Definition handleIncomingConn (m : TunnelManager S) (e : tunnel_env) (input : bytes)
    (remote transportBackend : string) : outcome (TunnelManager S * list tunnel_event) :=
  match ReadFrame input with
  | Err _ => _ ← first12 remote; Return (m, [ResetStream])
  | Ok (msgType, payload, _) =>
    if bool_decide (msgType = MsgTunnelPing) then
      match unmarshal (A := TunnelPing) payload with
      | Err _ => _ ← first12 remote; Return (m, [ResetStream])
      | Ok ping =>
        _ ← first12 remote;
        Return (m, SendPong (mkTunnelPong (unix (te_now e))) :: if te_pong_ok e then [] else [ResetStream])
      end
    else if bool_decide (msgType <> MsgTunnelHello) then
      _ ← first12 remote; Return (m, [ResetStream])
    else match unmarshal (A := TunnelHello) payload with
         | Err _ => Return (m, [ResetStream])
         | Ok hello => handle_hello m e hello remote transportBackend
         end
  end.
End Host.

(** ** Lemmas *)

Lemma configuredTargetPort_range c : 0 < configuredTargetPort c <= 65535.
Proof.
  unfold configuredTargetPort. repeat case_match; go_bool; lia.
Qed.

Section HostFacts.
Context `{Crypto} {S : Type} `{Hsvc : SessionService S} `{!SessionLaws S}.
Context `{Codec TunnelHello} `{Codec TunnelPing}.

(** The port a grant opens. *)
Definition granted_port (c : Config) (g : SessionGrant) : Z :=
  if TargetPort g <=? 0 then configuredTargetPort c else TargetPort g.

(** An authorized hello: the token is live, not expired, issued for this
    peer, and the ports and hosts named are the granted ones. *)
Definition hello_granted (m : TunnelManager S) (now : Z) (hello : TunnelHello) (peer : string)
    (exp n : Z) (g : SessionGrant) : Prop :=
  svc_live (tm_sessions m) (th_SessionToken hello) = Some (exp, g, n) /\
  now <= exp /\ 0 < n /\ PeerID g = peer /\
  (0 < th_TargetPort hello -> th_TargetPort hello = granted_port (tm_cfg m) g) /\
  (trim_space (th_TargetHost hello) <> "" -> isLoopbackHost (th_TargetHost hello) = true).

Lemma authorize_hello_ok m now hello peer m' p addr :
  authorize_hello m now hello peer = (m', Ok (p, addr)) ->
  exists exp n g, hello_granted m now hello peer exp n g /\
    p = granted_port (tm_cfg m) g /\ addr = targetAddrForPort (tm_cfg m) p /\
    tm_cfg m' = tm_cfg m /\
    svc_live (tm_sessions m') (th_SessionToken hello)
      = (if n =? 1 then None else Some (exp, g, n - 1)).
Proof.
  unfold authorize_hello.
  destruct (svc_verify (tm_sessions m) (th_SessionToken hello) now) as [[g|err] s] eqn:Ev; [|done].
  cbn [tm_cfg]. destruct (bool_decide (PeerID g <> peer)) eqn:Ep; [done|].
  apply bool_decide_eq_false, dec_stable in Ep.
  fold (granted_port (tm_cfg m) g). set (gp := granted_port (tm_cfg m) g).
  destruct (_ && negb (_ =? gp)) eqn:Et; [done|].
  destruct (_ && negb (isLoopbackHost _)) eqn:Eh; [done|]. intros [= <- <- <-].
  destruct (svc_verify_ok _ _ _ _ _ Ev) as (exp & n & Hl & Hn & Hp & Hl').
  exists exp, n, g. split; [|done]. split; [done|]. split; [done|]. split; [done|]. split; [done|].
  split.
  - intros Hpos. apply andb_false_iff in Et as [Et|Et]; go_bool; [lia|done].
  - intros Hne. apply andb_false_iff in Eh as [Eh|Eh]; go_bool; [by apply dec_stable in Eh|done].
Qed.

Lemma authorize_hello_accepts m now hello peer exp n g :
  hello_granted m now hello peer exp n g ->
  exists m', authorize_hello m now hello peer
    = (m', Ok (granted_port (tm_cfg m) g, targetAddrForPort (tm_cfg m) (granted_port (tm_cfg m) g))) /\
    tm_cfg m' = tm_cfg m /\
    svc_live (tm_sessions m') (th_SessionToken hello)
      = (if n =? 1 then None else Some (exp, g, n - 1)).
Proof.
  intros (Hl & Hn & Hp & Hpeer & Hport & Hhost).
  destruct (svc_verify_accepts _ _ _ _ _ _ Hl Hn Hp) as [s Hv].
  destruct (svc_verify_ok _ _ _ _ _ Hv) as (exp' & n' & Hl' & _ & _ & Hl2).
  rewrite Hl in Hl'. injection Hl' as <- <-.
  unfold authorize_hello. rewrite Hv. cbn [tm_cfg]. rewrite bool_decide_eq_false_2 by (by intros []).
  fold (granted_port (tm_cfg m) g).
  replace (_ && negb (_ =? _)) with false.
  2:{ destruct (0 <? th_TargetPort hello) eqn:E; [|done]. go_bool. rewrite Hport by done.
      by rewrite Z.eqb_refl. }
  replace (_ && negb (isLoopbackHost _)) with false.
  2:{ case_bool_decide as Hne; [|done]. by rewrite Hhost. }
  by eexists.
Qed.

Lemma proxyToService_events e remote addr ev :
  proxyToService e remote addr = Return ev ->
  (12 <= String.length remote)%nat /\
  ev = DialTCP addr :: (if te_dial_ok e addr then [BridgeTo addr] else [EndStream]).
Proof.
  unfold proxyToService. destruct (first12 remote) as [t|] eqn:E; [|done]. cbn.
  intros Hev. split; [apply first12_return; eauto|]. destruct (te_dial_ok e addr); by simplify_eq.
Qed.

(** What the handler can do once the hello is decoded. *)
Lemma handle_hello_cases m e hello remote backend m' ev :
  handle_hello m e hello remote backend = Return (m', ev) ->
  (exists reason, ev = [SendError (mkTunnelError reason); EndStream] /\
     (m' = m \/ m' = mkTunnelManager (snd (svc_verify (tm_sessions m) (th_SessionToken hello) (te_now e))) (tm_cfg m))) \/
  (exists peer addr p, th_Version hello <= Version /\
     (th_Method hello = "" \/ equal_fold (th_Method hello) "CONNECT" = true) /\
     tunnelHelloNodeID hello remote backend = Ok peer /\
     authorize_hello m (te_now e) hello peer = (m', Ok (p, addr)) /\
     ev = SendReady (mkTunnelReady (nc_Label (Node (tm_cfg m'))) 200 "Connection Established") ::
          (if te_ready_ok e then
             DialTCP addr :: (if te_dial_ok e addr then [BridgeTo addr] else [EndStream])
           else [ResetStream])).
Proof.
  unfold handle_hello. destruct (Version <? th_Version hello) eqn:Ev.
  { destruct (first12 remote); [|done]. intros Hr. cbn in Hr. simplify_eq. left. eauto. }
  destruct (_ && negb (equal_fold _ _)) eqn:Em.
  { destruct (first12 remote); [|done]. intros Hr. cbn in Hr. simplify_eq. left. eauto. }
  destruct (tunnelHelloNodeID hello remote backend) as [peer|err] eqn:Ep.
  2:{ intros Hr. simplify_eq. left. eauto. }
  destruct (authorize_hello m (te_now e) hello peer) as [m1 [[p addr]|err]] eqn:Ea.
  - intros Hr. right. exists peer, addr, p.
    assert (Hm : m1 = m').
    { destruct (te_ready_ok e); [|by simplify_eq]. destruct (proxyToService _ _ _); cbn in Hr; by simplify_eq. }
    subst m1. split; [go_bool; lia|]. split.
    { apply andb_false_iff in Em as [Em|Em]; go_bool; [left; by apply dec_stable in Em|by right]. }
    split; [done|]. split; [done|]. destruct (te_ready_ok e); [|by simplify_eq].
    destruct (proxyToService _ _ _) as [ev'|] eqn:Ex; cbn in Hr; [|done].
    apply proxyToService_events in Ex as [_ ->]. by simplify_eq.
  - intros Hr. simplify_eq. left. exists err. split; [done|]. right.
    revert Ea. unfold authorize_hello. destruct (svc_verify _ _ _) as [[g|?] s]; cbn; [|by intros; simplify_eq].
    repeat case_match; intros; by simplify_eq.
Qed.
End HostFacts.

(** ** Properties *)


(** ** Concrete streams *)

Definition one_hello (h : TunnelHello) : Codec TunnelHello :=
  {| marshal _ := Ok [x7b; x7d]; unmarshal _ := Ok h |}.
Definition one_ping : Codec TunnelPing :=
  {| marshal _ := Ok [x7b; x7d]; unmarshal _ := Ok (mkTunnelPing 0) |}.

Definition client_node : string := of_bytes (to_bytes "12D3KooW" ++ repeat x07 32).
Definition sample_token : bytes := repeat x09 16.
Definition sample_hello : TunnelHello :=
  mkTunnelHello 1 client_node "connect" sample_token "[::1]" 22 "s1".
Definition hello_frame : bytes := frame_header MsgTunnelHello [x7b; x7d] ++ [x7b; x7d].

Definition sample_store : SessionStore := {[ sample_token := mkEntry second (mkGrant client_node 22) 2 ]}.

Definition host_config : Config :=
  let d := defaultConfig (Ok "host"%string) in
  mkConfig (Network d) (Node d) (Relay d) (DHT d) (BTDHT d) (Iroh d)
    (mkRDP "" "10.0.0.9:3389" "rdp") [] [].
Definition sample_tunnel : TunnelManager SessionStore := mkTunnelManager sample_store host_config.

Definition sample_tunnel_env : tunnel_env := mkTunnelEnv 0 true true (fun _ => true).

Definition sample_run : outcome (TunnelManager SessionStore * list tunnel_event) :=
  handleIncomingConn (H1 := one_hello sample_hello) (H2 := one_ping) sample_tunnel sample_tunnel_env
    hello_frame client_node "bittorrent_dht".
Definition sample_events : list tunnel_event :=
  [SendReady (mkTunnelReady "host" 200 "Connection Established"); DialTCP "127.0.0.1:22";
   BridgeTo "127.0.0.1:22"].


(** a granted hello opens the service.  When a stream holds a hello of a
    supported version and the CONNECT method whose token was granted to its
    peer, and the local service answers, the host writes the ready frame with
    status 200 first, then dials the granted port once and bridges, having
    consumed exactly one use of the token. *)
Lemma granted_hello_bridged `{Crypto} {S} `{SessionService S} `{!SessionLaws S}
  `{Codec TunnelHello} `{Codec TunnelPing} (m : TunnelManager S) e payload input rest
  (hello : TunnelHello) peer remote backend exp n g
  (Hr : ReadFrame input = Ok (MsgTunnelHello, payload, rest)) (Hu : unmarshal payload = Ok hello)
  (Hv : th_Version hello <= Version)
  (Hmeth : th_Method hello = "" \/ equal_fold (th_Method hello) "CONNECT" = true)
  (Hp : tunnelHelloNodeID hello remote backend = Ok peer)
  (Hlen : (12 <= String.length peer)%nat)
  (Hg : hello_granted m (te_now e) hello peer exp n g)
  (Hready : te_ready_ok e = true)
  (Hdial : te_dial_ok e (targetAddrForPort (tm_cfg m) (granted_port (tm_cfg m) g)) = true) :
  let addr := targetAddrForPort (tm_cfg m) (granted_port (tm_cfg m) g) in
  exists m',
    handleIncomingConn m e input remote backend =
      Return (m', [SendReady (mkTunnelReady (nc_Label (Node (tm_cfg m))) 200 "Connection Established");
                   DialTCP addr; BridgeTo addr]) /\
    tm_cfg m' = tm_cfg m /\
    svc_live (tm_sessions m') (th_SessionToken hello) = (if n =? 1 then None else Some (exp, g, n - 1)).
Proof.
  intros addr. unfold handleIncomingConn. rewrite Hr, bool_decide_eq_false_2, bool_decide_eq_false_2, Hu by
    (try done; intros Hne; by apply Hne).
  unfold handle_hello. rewrite (proj2 (Z.ltb_ge _ _)) by lia.
  replace (_ && negb (equal_fold _ _)) with false.
  2:{ destruct Hmeth as [->| ->]; [done|by rewrite andb_false_r]. }
  rewrite Hp. destruct (authorize_hello_accepts _ _ _ _ _ _ _ Hg) as (m' & -> & Hc & Hl).
  exists m'. rewrite Hready. unfold proxyToService. fold addr. fold addr in Hdial. rewrite Hdial.
  apply first12_return in Hlen as [t ->]. cbn [mbind outcome_bind]. rewrite Hc. done.
Qed.

Lemma granted_hello_bridged_witness :
  exists m', handleIncomingConn (H1 := one_hello sample_hello) (H2 := one_ping) sample_tunnel
      sample_tunnel_env hello_frame client_node "iroh" =
    Return (m', [SendReady (mkTunnelReady "host" 200 "Connection Established");
                 DialTCP (targetAddrForPort host_config 22); BridgeTo (targetAddrForPort host_config 22)]).
Proof.
  assert (Hg : hello_granted sample_tunnel (te_now sample_tunnel_env) sample_hello client_node second 2
                 (mkGrant client_node 22)).
  { split; [vm_compute; reflexivity|]. split; [vm_compute; discriminate|].
    split; [vm_compute; reflexivity|]. split; [reflexivity|].
    split; [vm_compute; reflexivity|]. intros _. vm_compute. reflexivity. }
  assert (Hr : ReadFrame hello_frame = Ok (MsgTunnelHello, [x7b; x7d], [])) by (vm_compute; reflexivity).
  assert (Hp : tunnelHelloNodeID sample_hello client_node "iroh" = Ok client_node)
    by (vm_compute; reflexivity).
  assert (Hv : th_Version sample_hello <= Version) by (vm_compute; discriminate).
  assert (Hm : equal_fold (th_Method sample_hello) "CONNECT" = true) by (vm_compute; reflexivity).
  assert (Hl : (12 <= String.length client_node)%nat) by (vm_compute; lia).
  destruct (granted_hello_bridged (H1 := one_hello sample_hello) (H2 := one_ping) sample_tunnel
    sample_tunnel_env [x7b; x7d] hello_frame [] sample_hello client_node client_node "iroh" second 2
    (mkGrant client_node 22) Hr eq_refl Hv (or_intror Hm) Hp Hl Hg eq_refl eq_refl) as (m' & Hx & _).
  exists m'. exact Hx.
Defined.

(** when the tunnel handler panics.  It returns on every input as long as
    the transport's id of the peer and the node id the stream is mapped to
    have twelve bytes; with a shorter transport id any stream that does not
    start with a readable frame brings the process down. *)
Lemma tunnel_panics_on_short_id `{Crypto} {S} `{SessionService S}
  `{Codec TunnelHello} `{Codec TunnelPing} (m : TunnelManager S) e remote backend :
  ((exists input why, handleIncomingConn m e input remote backend = Panic why) ->
     (String.length remote < 12)%nat \/
     exists hello peer, tunnelHelloNodeID hello remote backend = Ok peer /\ (String.length peer < 12)%nat) /\
  ((String.length remote < 12)%nat -> forall input err, ReadFrame input = Err err ->
     exists why, handleIncomingConn m e input remote backend = Panic why).
Proof.
  split.
  - intros (input & why & Hh). destruct (decide (String.length remote < 12)%nat) as [|Hl]; [by left|right].
    apply Nat.nlt_ge, first12_return in Hl as [t Ht].
    unfold handleIncomingConn in Hh. rewrite Ht in Hh.
    destruct (ReadFrame input) as [[[ty payload] rest]|]; [|done].
    destruct (bool_decide _); [by destruct (unmarshal payload)|].
    destruct (bool_decide _); [done|]. destruct (unmarshal payload) as [hello|]; [|done].
    unfold handle_hello in Hh. rewrite Ht in Hh. destruct (_ <? _); [done|].
    destruct (_ && _); [done|].
    destruct (tunnelHelloNodeID hello remote backend) as [peer|] eqn:Ep; [|done].
    destruct (authorize_hello _ _ _ _) as [m1 [[p addr]|]]; [|done].
    destruct (te_ready_ok e); [|done]. exists hello, peer. split; [done|].
    apply Nat.nle_gt. intros Hl. apply first12_return in Hl as [t' Ht'].
    unfold proxyToService in Hh. rewrite Ht' in Hh. cbn in Hh. by destruct (te_dial_ok e addr).
  - intros Hl input err Hr. unfold handleIncomingConn. rewrite Hr. unfold first12.
    rewrite (proj2 (Nat.ltb_lt _ _)) by done. by eexists.
Qed.
