(* ===== verification/Dht.v ===== *)
(** * Dht: the libp2p DHT client of [internal/dht/dht.go]

    Which nodes it starts from, the key under which an identity is published
    and which peers it takes as providers and relays.  The Kademlia library,
    the multiaddr and CID codecs and the peer store are parameters; tickers and
    log lines are left out. *)

From stdpp Require Import gmap.
From S2P Require Import Prelude GoStrings Crypto Config.

(** [peer.AddrInfo] *)
Record AddrInfo : Type := mkAddrInfo { ai_ID : string; ai_Addrs : list string }.

Definition aminoBootstrap : list string :=
  ["/ip4/147.75.80.110/tcp/4001/p2p/QmbFgm5zan8P6eWWmeyfncR5feYEMPbht5b1FW1C37aQ7y";
   "/ip4/147.75.80.110/udp/4001/quic-v1/p2p/QmbFgm5zan8P6eWWmeyfncR5feYEMPbht5b1FW1C37aQ7y";
   "/ip4/147.75.195.153/tcp/4001/p2p/QmW9m57aiBDHAkKj9nmFSEn7ZqrcF1fZS4bipsTCHburei";
   "/ip4/147.75.195.153/udp/4001/quic-v1/p2p/QmW9m57aiBDHAkKj9nmFSEn7ZqrcF1fZS4bipsTCHburei";
   "/ip4/147.75.70.221/tcp/4001/p2p/Qme8g49gm3q4Acp7xWBKg3nAa9fxZ1YmyDJdyGgoG6LsXh";
   "/ip4/147.75.70.221/udp/4001/quic-v1/p2p/Qme8g49gm3q4Acp7xWBKg3nAa9fxZ1YmyDJdyGgoG6LsXh"]%string.

(** The addresses the client is started from, if the DHT is on. *)
Definition bootstrap_addrs (c : DHTConfig) : option (list string) :=
  if bool_decide (dht_Mode c = "disabled") then None
  else if bool_decide (dht_Mode c = "custom") then Some (dht_Bootstrap c)
  else if bool_decide (dht_Mode c = "mixed") then Some (aminoBootstrap ++ dht_Bootstrap c)
  else Some aminoBootstrap.

(** [parse] is [ma.NewMultiaddr] with [peer.AddrInfoFromP2pAddr]; addresses
    that do not parse are left out. *)
Definition parseMultiaddrs (parse : string -> option AddrInfo) (addrs : list string) : list AddrInfo := omap parse addrs.

Section Dht.
Context `{Crypto}.

Definition identityTag : bytes := to_bytes "DeskAccess:identity:v1:".

(** The digest in the CID ([cid] builds a raw CID v1 of it). *)
Definition IdentityProviderCID {C : Type} (cid : bytes -> C) (publicKey : bytes) : res C :=
  if bool_decide (publicKey = []) then Err "empty public key" else Ok (cid (sha256 (identityTag ++ publicKey))).

(** The client and how far the start got: [new] is [kaddht.New], [hostKey] the
    host's raw public key. *)
Inductive started (C : Type) : Type :=
  | Disabled
  | NotStarted (err : string)
  | LibraryLeft (err : string)        (** the library's client runs on *)
  | Started (identityCID : C).
Arguments Disabled {C}.
Arguments NotStarted {C} err.
Arguments LibraryLeft {C} err.
Arguments Started {C} identityCID.

Definition New {C : Type} (cid : bytes -> C) (parse : string -> option AddrInfo) (new : list AddrInfo -> res unit)
    (hostKey : res bytes) (cfg : DHTConfig) : started C :=
  match bootstrap_addrs cfg with
  | None => Disabled
  | Some addrs =>
    match new (parseMultiaddrs parse addrs) with
    | Err err => NotStarted err
    | Ok _ =>
      match hostKey with
      | Err err => LibraryLeft ("read host public key: " ++ err)
      | Ok pub => match IdentityProviderCID cid pub with
                  | Err err => LibraryLeft err
                  | Ok c => Started c
                  end
      end
    end
  end.

(** The providers, in the order they are found; [stored] is the peer store. *)
Fixpoint first_provider (stored : string -> list string) (expected : string) (found : list AddrInfo) : res AddrInfo :=
  match found with
  | [] => Err "identity provider not found"
  | info :: r =>
    if bool_decide (ai_ID info = "") then first_provider stored expected r
    else if bool_decide (expected <> "") && bool_decide (ai_ID info <> expected) then first_provider stored expected r
    else if bool_decide (ai_Addrs info <> []) then Ok info
    else if bool_decide (stored (ai_ID info) <> []) then Ok (mkAddrInfo (ai_ID info) (stored (ai_ID info)))
    else Ok info
  end.

Definition FindIdentityProvider {C : Type} (cid : bytes -> C) (find_providers : C -> list AddrInfo)
    (stored : string -> list string) (publicKey : bytes) (expected : string) : res AddrInfo :=
  c ← IdentityProviderCID cid publicKey;
  first_provider stored expected (find_providers c).
End Dht.
Arguments Disabled {C}.
Arguments NotStarted {C} err.
Arguments LibraryLeft {C} err.
Arguments Started {C} identityCID.

(** The peers of the routing table that relay; [protocols] is the peer store's. *)
Definition RelayPeers (table : list string) (protocols : string -> list string) (stored : string -> list string)
  : list AddrInfo :=
  omap (fun pid =>
    if existsb (fun p => bool_decide (p = "/libp2p/circuit/relay/0.2.0/hop"%string)) (protocols pid)
    then (if bool_decide (stored pid <> []) then Some (mkAddrInfo pid (stored pid)) else None)
    else None) table.

(** [WaitReady]: the size of the routing table at each tick until the context
    ends. *)
Fixpoint WaitReady (sizes : list nat) : bool :=
  match sizes with
  | [] => false
  | n :: r => if (0 <? n)%nat then true else WaitReady r
  end.

(** ** Facts *)

(** With an expected peer only that one is taken. *)
Lemma first_provider_expected stored expected found info :
  expected <> ""%string -> first_provider stored expected found = Ok info -> ai_ID info = expected.
Proof.
  intros He. induction found as [|x r IH]; cbn; [done|]. case_bool_decide; [done|].
  rewrite (bool_decide_eq_true_2 (expected <> "")) by done. cbn. case_bool_decide as Hx; [done|].
  case_bool_decide; [by intros [= <-]|]. case_bool_decide; by intros [= <-].
Qed.

(** It is found whenever the library finds it. *)
Lemma first_provider_found stored expected found x :
  expected <> ""%string -> x ∈ found -> ai_ID x = expected -> exists info, first_provider stored expected found = Ok info.
Proof.
  intros He Hx Hid. induction found as [|y r IH]; [by apply not_elem_of_nil in Hx|]. cbn.
  destruct (decide (ai_ID y = expected)) as [Hy|Hy].
  - rewrite (bool_decide_eq_false_2 (ai_ID y = "")) by congruence.
    rewrite (bool_decide_eq_false_2 (ai_ID y <> expected)) by (intros Hn; by apply Hn). rewrite andb_false_r.
    repeat case_bool_decide; by eexists.
  - apply elem_of_cons in Hx as [<-|Hx]; [done|]. specialize (IH Hx).
    case_bool_decide; [done|]. rewrite !bool_decide_eq_true_2 by done. exact IH.
Qed.

Lemma RelayPeers_dialable table protocols stored info :
  info ∈ RelayPeers table protocols stored -> ai_ID info ∈ table /\ ai_Addrs info <> [] /\
    "/libp2p/circuit/relay/0.2.0/hop"%string ∈ protocols (ai_ID info).
Proof.
  unfold RelayPeers. intros (pid & Hp & Hi)%list_elem_of_omap. destruct (existsb _ _) eqn:E; [|done].
  case_bool_decide; [|done]. injection Hi as <-. split; [done|]. split; [done|].
  apply existsb_exists in E as (p & Hin & ->%bool_decide_eq_true). by apply list_elem_of_In.
Qed.

(** A start that fails on the host's key leaves the library's client running. *)
Lemma failed_start_leaves_library `{Crypto} parse new :
  new (parseMultiaddrs parse aminoBootstrap) = Ok tt ->
  New (fun b => b) parse new (Err "no key") (mkDHT "public" []) = LibraryLeft "read host public key: no key".
Proof.
  intros Hn. unfold New. change (bootstrap_addrs (mkDHT "public" [])) with (Some aminoBootstrap). cbv beta iota. by rewrite Hn.
Qed.
