(* ===== verification/NetNode.v ===== *)
(** * NetNode: the libp2p node of [internal/node/node.go] and [resolve.go]

    The relay bookkeeping, the network life cycle, the filters on dial
    addresses and the resolution of a peer.  The libp2p host, the multiaddr
    library and the DHT client are third-party: the class [Multiaddr] and
    oracles of the operations. *)

From S2P Require Import Prelude GoStrings GoNet Crypto Config.

(** The multiaddr operations the node calls. *)
Class Multiaddr (A : Type) : Type := {
  NewMultiaddr : string -> res A;
  ma_String : A -> string;
  ValueForProtocol : A -> string -> option string;     (** "ip4" or "ip6" *)
  AddrInfoFromP2pAddr : A -> res (bytes * list A);      (** peer id, addresses *)
  circuit_join : A -> bytes -> string -> A;             (** address, relay id, target id *)
}.

(** A multiaddr prints as a string that parses to it again. *)
Class MultiaddrLaws (A : Type) `{Multiaddr A} : Prop :=
  NewMultiaddr_String a : NewMultiaddr (ma_String a) = Ok a.

Definition PublicRelays : list string := [
  "/ip4/147.75.80.110/tcp/4001/p2p/QmbFgm5zan8P6eWWmeyfncR5feYEMPbht5b1FW1C37aQ7y";
  "/ip4/147.75.80.110/udp/4001/quic-v1/p2p/QmbFgm5zan8P6eWWmeyfncR5feYEMPbht5b1FW1C37aQ7y";
  "/ip4/147.75.195.153/tcp/4001/p2p/QmW9m57aiBDHAkKj9nmFSEn7ZqrcF1fZS4bipsTCHburei";
  "/ip4/147.75.195.153/udp/4001/quic-v1/p2p/QmW9m57aiBDHAkKj9nmFSEn7ZqrcF1fZS4bipsTCHburei";
  "/ip4/147.75.70.221/tcp/4001/p2p/Qme8g49gm3q4Acp7xWBKg3nAa9fxZ1YmyDJdyGgoG6LsXh";
  "/ip4/147.75.70.221/udp/4001/quic-v1/p2p/Qme8g49gm3q4Acp7xWBKg3nAa9fxZ1YmyDJdyGgoG6LsXh"]%string.

(** [short]: the first twelve bytes, with an ellipsis. *)
Definition short (id : string) : string :=
  if (12 <? String.length id)%nat
  then (String.substring 0 12 id ++ of_bytes [xe2; x80; xa6])%string else id.

(** [allowlistGater.isAllowed] *)
Fixpoint isAllowed (allowed : list string) (pid : string) : bool :=
  match allowed with
  | [] => false
  | a :: r => if bool_decide (a = pid) then true else isAllowed r pid
  end.

Section Node.
Context {A : Type} `{Multiaddr A} `{Crypto}.

(** [peer.AddrInfo] *)
Record AddrInfo : Type := mkAddrInfo { ai_ID : bytes; ai_Addrs : list A }.

(** [Node].  The cancel functions and the DHT client are booleans (set or
    nil), and so is the libp2p host. *)
Record NodeState : Type := mkNodeState {
  n_cfg : Config;
  n_Host : bool;
  n_PeerID : string;
  activeLibp2pBackend : string;
  n_relayAddrs : list A;
  relayInfos : list AddrInfo;
  relayRefusedUntil : list Z;
  lastRelayErr : string;
  lastDHTErr : string;
  dhtClient : bool;
  relayCancel : bool;
  dhtCancel : bool;
  dhtGen : Z;
  testRelayMask : Z;
  allowLoopbackDial : bool;
}.

(** ** Address filters *)

(** The first of the two protocols the address has decides. *)
Definition isLoopbackMultiaddr (addr : A) : bool :=
  let test v := match ParseIP v with Some ip => IsLoopback ip | None => false end in
  match ValueForProtocol addr "ip4" with
  | Some v => test v
  | None => match ValueForProtocol addr "ip6" with
            | Some v => test v
            | None => false
            end
  end.

Fixpoint filterNonLoopbackMultiaddrs (addrs : list A) : list A :=
  match addrs with
  | [] => []
  | a :: r => if isLoopbackMultiaddr a then filterNonLoopbackMultiaddrs r
              else a :: filterNonLoopbackMultiaddrs r
  end.

Fixpoint filter_dialable (seen out : list string) (raw : list string) : list string :=
  match raw with
  | [] => out
  | s :: r =>
    match NewMultiaddr s with
    | Err _ => filter_dialable seen out r
    | Ok ma =>
      if isLoopbackMultiaddr ma then filter_dialable seen out r
      else let key := ma_String ma in
           if bool_decide (key ∈ seen) then filter_dialable seen out r
           else filter_dialable (key :: seen) (out ++ [key]) r
    end
  end.

Definition FilterExternallyDialableAddrs (rawAddrs : list string) : list string :=
  filter_dialable [] [] rawAddrs.

Fixpoint append_unique (seen : list string) (dst src : list A) : list A :=
  match src with
  | [] => dst
  | a :: r => if bool_decide (ma_String a ∈ seen) then append_unique seen dst r
              else append_unique (ma_String a :: seen) (dst ++ [a]) r
  end.

Definition appendUniqueMultiaddrs (dst src : list A) : list A :=
  append_unique (ma_String <$> dst) dst src.

(** The loop of [buildAddrInfo]: the addresses kept and the number of loopback
    addresses skipped. *)
Fixpoint dial_addrs (allowLoopback : bool) (raw : list string) : list A * Z :=
  match raw with
  | [] => ([], 0)
  | s :: r =>
    let '(addrs, skipped) := dial_addrs allowLoopback r in
    match NewMultiaddr s with
    | Err _ => (addrs, skipped)
    | Ok ma => if negb allowLoopback && isLoopbackMultiaddr ma then (addrs, skipped + 1)
               else (ma :: addrs, skipped)
    end
  end.

Definition buildAddrInfo (n : NodeState) (peerID : string) (relayAddrs : list string) : res AddrInfo :=
  pid ← wrap_err "invalid peer id: " (peer_Decode peerID);
  let '(addrs, skippedLoopback) := dial_addrs (allowLoopbackDial n) relayAddrs in
  if bool_decide (addrs = []) && (0 <? skippedLoopback)
  then Err ("only loopback addresses available for peer " ++ short peerID ++
            "; create a fresh invite with a reachable backend or configure a public relay")%string
  else Ok (mkAddrInfo pid addrs).

Definition buildAllRelayAddrs (hostPeerID : string) : list string :=
  (fun relay => relay ++ "/p2p-circuit/p2p/" ++ hostPeerID)%string <$> PublicRelays.

(** ** Which backend is on *)

Definition relayEnabled (n : NodeState) : bool :=
  bool_decide (activeLibp2pBackend n = "libp2p_relay") &&
  bool_decide (relay_Mode (Relay (n_cfg n)) <> "") &&
  bool_decide (relay_Mode (Relay (n_cfg n)) <> "disabled").

Definition dhtEnabled (n : NodeState) : bool :=
  bool_decide (activeLibp2pBackend n = "libp2p_dht") &&
  bool_decide (dht_Mode (DHT (n_cfg n)) <> "") &&
  bool_decide (dht_Mode (DHT (n_cfg n)) <> "disabled").

Definition libp2pActive (n : NodeState) : bool := relayEnabled n || dhtEnabled n.

Definition configuredLibp2pBackend (c : Config) : string :=
  let b := ActiveNetworkBackend (Some c) in
  if bool_decide (b = "libp2p_relay") || bool_decide (b = "libp2p_dht") then b else "".

(** ** Updates of the state *)

Definition set_relays (n : NodeState) (infos : list AddrInfo) (refused : list Z) (addrs : list A) : NodeState :=
  mkNodeState (n_cfg n) (n_Host n) (n_PeerID n) (activeLibp2pBackend n) addrs infos refused
    (lastRelayErr n) (lastDHTErr n) (dhtClient n) (relayCancel n) (dhtCancel n) (dhtGen n)
    (testRelayMask n) (allowLoopbackDial n).

Definition set_life (n : NodeState) (host : bool) (backend : string) (client rc dc : bool) (gen : Z) : NodeState :=
  mkNodeState (n_cfg n) host (n_PeerID n) backend (n_relayAddrs n) (relayInfos n) (relayRefusedUntil n)
    (lastRelayErr n) (lastDHTErr n) client rc dc gen (testRelayMask n) (allowLoopbackDial n).

Definition setRelayError (n : NodeState) (err : option string) : NodeState :=
  mkNodeState (n_cfg n) (n_Host n) (n_PeerID n) (activeLibp2pBackend n) (n_relayAddrs n) (relayInfos n)
    (relayRefusedUntil n) (match err with None => "" | Some e => e end) (lastDHTErr n) (dhtClient n)
    (relayCancel n) (dhtCancel n) (dhtGen n) (testRelayMask n) (allowLoopbackDial n).

Definition setDHTError (n : NodeState) (err : option string) : NodeState :=
  mkNodeState (n_cfg n) (n_Host n) (n_PeerID n) (activeLibp2pBackend n) (n_relayAddrs n) (relayInfos n)
    (relayRefusedUntil n) (lastRelayErr n) (match err with None => "" | Some e => e end) (dhtClient n)
    (relayCancel n) (dhtCancel n) (dhtGen n) (testRelayMask n) (allowLoopbackDial n).

(** ** Relays *)

(** [filterNonLoopback] and merge of one configured relay. *)
Fixpoint merge_relay (infos : list AddrInfo) (id : bytes) (addrs : list A) : list AddrInfo :=
  match infos with
  | [] => [mkAddrInfo id addrs]
  | i :: r => if bool_decide (ai_ID i = id)
              then mkAddrInfo id (appendUniqueMultiaddrs (ai_Addrs i) addrs) :: r
              else i :: merge_relay r id addrs
  end.

Definition add_relay (infos : list AddrInfo) (raw : string) : list AddrInfo :=
  match NewMultiaddr raw with
  | Err _ => infos
  | Ok ma =>
    match AddrInfoFromP2pAddr ma with
    | Err _ => infos
    | Ok (id, addrs) =>
      let addrs := filterNonLoopbackMultiaddrs addrs in
      if bool_decide (addrs = []) then infos else merge_relay infos id addrs
    end
  end.

(** The addresses the mode selects; [None] when relays are off. *)
Definition configured_relays (c : Config) : option (list string) :=
  let mode := relay_Mode (Relay c) in
  if bool_decide (mode = "") || bool_decide (mode = "disabled") then None
  else if bool_decide (mode = "custom") then Some (relay_Servers (Relay c))
  else if bool_decide (mode = "mixed") then Some (PublicRelays ++ relay_Servers (Relay c))
  else Some PublicRelays.

Definition resolveRelays (c : Config) : res (list AddrInfo) :=
  match configured_relays c with
  | None => Ok []
  | Some raw =>
    let infos := fold_left add_relay raw [] in
    if bool_decide (infos = []) then Err "no valid relay addresses configured" else Ok infos
  end.

Fixpoint hasRelayInfo (infos : list AddrInfo) (id : bytes) : bool :=
  match infos with
  | [] => false
  | i :: r => if bool_decide (ai_ID i = id) then true else hasRelayInfo r id
  end.

(** [addDHTRelays] when the DHT client has a routing table of [size] entries
    and offers [candidates]. *)
Definition addDHTRelays (n : NodeState) (size : Z) (candidates : list AddrInfo) : NodeState :=
  if negb (dhtClient n) || (size =? 0) then n
  else if bool_decide (candidates = []) then n
  else fold_left (fun n info =>
         if hasRelayInfo (relayInfos n) (ai_ID info) then n
         else set_relays n (relayInfos n ++ [info]) (relayRefusedUntil n ++ [zero_time]) (n_relayAddrs n))
       candidates n.

(** What the network answers a reservation: connecting, then reserving. *)
Record relay_env : Type := mkRelayEnv {
  re_now : Z;
  re_connect : AddrInfo -> option string;
  re_reserve : AddrInfo -> res (list A);
}.

(** One relay of [reserveAll]: its new cool-off and its result.  Contacting it
    on a nil host panics. *)
Definition reserve_one (host : bool) (e : relay_env) (target : string) (refused : Z) (ri : AddrInfo)
  : outcome (Z * res (list A)) :=
  if negb (is_zero_time refused) && (re_now e <? refused) then Return (refused, Ok [])
  else if negb host then Panic "nil pointer dereference"
  else match re_connect e ri with
       | Some err => Return (refused, Err err)
       | None =>
         match re_reserve e ri with
         | Err err =>
           Return (if contains err "RESERVATION_REFUSED" then re_now e + 30 * minute else refused, Err err)
         | Ok addrs =>
           Return (zero_time, Ok ((fun a => circuit_join a (ai_ID ri) target) <$> addrs))
         end
       end.

(** All relays, each goroutine at its own index.  Reading [relayRefusedUntil]
    past its end panics. *)
Fixpoint reserve_each (host : bool) (e : relay_env) (target : string) (infos : list AddrInfo)
    (refused : list Z) : outcome (list Z * list (res (list A))) :=
  match infos, refused with
  | [], _ => Return (refused, [])
  | _ :: _, [] => Panic "index out of range"
  | i :: infos, r :: refused =>
    '(r', res) ← reserve_one host e target r i;
    '(rs, results) ← reserve_each host e target infos refused;
    Return (r' :: rs, res :: results)
  end.

Fixpoint last_error (results : list (res (list A))) : option string :=
  match results with
  | [] => None
  | r :: rest => match last_error rest with
                 | Some e => Some e
                 | None => match r with Err e => Some e | Ok _ => None end
                 end
  end.

Definition reserved (results : list (res (list A))) : list A :=
  concat ((fun r => match r with Ok a => a | Err _ => [] end) <$> results).

Definition failures (results : list (res (list A))) : nat :=
  length (List.filter (fun r => negb (is_ok r)) results).

Definition reserveAll (n : NodeState) (e : relay_env) : outcome (NodeState * option string) :=
  '(refused, results) ← reserve_each (n_Host n) e (n_PeerID n) (relayInfos n) (relayRefusedUntil n);
  let addrs := reserved results in
  let n' := set_relays n (relayInfos n) refused addrs in
  if bool_decide (addrs = []) then
    let lastErr := match last_error results with
                   | Some err => err | None => "all relay candidates skipped" end in
    Return (n', Some ("all relay reservations failed (" ++ pretty (failures results) ++ "/" ++
      pretty (length (relayInfos n)) ++ " relays failed; public libp2p relays are best-effort, use a custom/self-hosted relay for reliable relay mode): "
      ++ lastErr)%string)
  else Return (setRelayError n' None, None).

(** [RelayMask] when [connected] tells which peers are connected. *)
Fixpoint mask_bits (connected : bytes -> bool) (i : Z) (infos : list AddrInfo) : Z :=
  match infos with
  | [] => 0
  | r :: infos =>
    if 8 <=? i then 0
    else let rest := mask_bits connected (i + 1) infos in
         if connected (ai_ID r) then Z.lor (u8 (Z.shiftl 1 i)) rest else rest
  end.

Definition RelayMask (n : NodeState) (connected : bytes -> bool) : Z :=
  if negb (testRelayMask n =? 0) then testRelayMask n
  else if negb (relayEnabled n) then 0
  else if negb (n_Host n) then 0
  else mask_bits connected 0 (relayInfos n).

Definition RelayAddrs (n : NodeState) : list string :=
  if relayEnabled n then ma_String <$> n_relayAddrs n else [].

(** ** Life cycle *)

(** [startRelayLoops] *)
Definition startRelayLoops (n : NodeState) : NodeState :=
  if relayEnabled n
  then set_life n (n_Host n) (activeLibp2pBackend n) (dhtClient n) true (dhtCancel n) (dhtGen n)
  else n.

(** [startDHT]: the goroutine it starts carries the new generation and
    reports with [dhtReady]. *)
Definition startDHT (n : NodeState) : NodeState :=
  if negb (dhtEnabled n)
  then set_life n (n_Host n) (activeLibp2pBackend n) false (relayCancel n) false (dhtGen n)
  else if negb (n_Host n) then setDHTError n (Some "libp2p host is not running")
  else set_life n true (activeLibp2pBackend n) (dhtClient n) (relayCancel n) true (u64 (dhtGen n + 1)).

(** The end of the goroutine of generation [gen]: [dht.New] returned [r], and
    [cancelled] is whether its context was cancelled by then. *)
Definition dhtReady (n : NodeState) (gen : Z) (r : res unit) (cancelled : bool) : NodeState :=
  match r with
  | Err err => if cancelled then n else setDHTError n (Some err)
  | Ok _ =>
    if dhtGen n =? gen
    then setDHTError (set_life n (n_Host n) (activeLibp2pBackend n) true (relayCancel n) (dhtCancel n)
                        (dhtGen n)) None
    else n
  end.

(** What starting a host meets: the connection manager, the new host's peer
    id, the relays, and closing a host. *)
Record start_env : Type := mkStartEnv {
  se_connmgr : option string;
  se_host : res string;
  se_relays : relay_env;
  se_close : option string;
}.

Definition set_host (n : NodeState) (id : string) : NodeState :=
  mkNodeState (n_cfg n) true id (activeLibp2pBackend n) (n_relayAddrs n) (relayInfos n)
    (relayRefusedUntil n) (lastRelayErr n) (lastDHTErr n) (dhtClient n) (relayCancel n) (dhtCancel n)
    (dhtGen n) (testRelayMask n) (allowLoopbackDial n).

(** [n.relayInfos = relayInfos; n.relayRefusedUntil = make([]time.Time, len(relayInfos))] *)
Definition install_relays (n : NodeState) (infos : list AddrInfo) : NodeState :=
  set_relays n infos (repeat zero_time (length infos)) (n_relayAddrs n).

(** The reservation that only records its error. *)
Definition try_reserve (n : NodeState) (e : relay_env) : outcome NodeState :=
  '(n, err) ← reserveAll n e;
  match err with
  | Some er => Return (setRelayError n (Some er))
  | None => Return n
  end.

Definition startLibp2pHost (n : NodeState) (e : start_env) : outcome (NodeState * option string) :=
  if n_Host n then Return (n, None)
  else match se_connmgr e with
  | Some err => Return (n, Some err)
  | None =>
    match se_host e with
    | Err err => Return (n, Some ("create libp2p host: " ++ err)%string)
    | Ok id =>
      let n := set_host n id in
      let n := match resolveRelays (n_cfg n) with
               | Err err => setRelayError n (Some err)
               | Ok infos => install_relays n infos
               end in
      n ← (if relayEnabled n && negb (bool_decide (relayInfos n = []))
           then try_reserve n (se_relays e) else Return n);
      Return (startDHT (startRelayLoops n), None)
    end
  end.

Definition StopLibp2p (n : NodeState) (closeErr : option string) : NodeState * option string :=
  let n' := set_life (set_relays n [] [] []) false "" false false false (dhtGen n) in
  (n', if n_Host n then closeErr else None).

(** [UnmarshalEd25519PrivateKey(privKeyBytes[:64])] *)
Definition load_key (c : Config) : outcome (res bytes) :=
  match PrivateKeyBytes c with
  | Err err => Return (Err ("load private key: " ++ err)%string)
  | Ok b => if (length b <? 64)%nat then Panic "slice bounds out of range"
            else Return (wrap_err "unmarshal libp2p key: " (UnmarshalEd25519PrivateKey (take 64 b)))
  end.

Definition applyNetworkConfig (n : NodeState) (activeBackend : string) (e : start_env)
  : outcome (NodeState * option string) :=
  let n := set_life (set_relays n [] [] []) (n_Host n) activeBackend false false false (dhtGen n) in
  if negb (libp2pActive n) then Return (StopLibp2p n (se_close e))
  else if negb (n_Host n) then
    key ← load_key (n_cfg n);
    match key with
    | Err err => Return (n, Some err)
    | Ok _ => startLibp2pHost n e
    end
  else
    n ← (if relayEnabled n then
           match resolveRelays (n_cfg n) with
           | Err err => Return (setRelayError n (Some err))
           | Ok infos => try_reserve (install_relays n infos) (se_relays e)
           end
         else Return n);
    Return (startDHT (startRelayLoops n), None).

Definition ApplyNetworkConfig (n : NodeState) (e : start_env) : outcome (NodeState * option string) :=
  applyNetworkConfig n (configuredLibp2pBackend (n_cfg n)) e.

Definition StartLibp2p (n : NodeState) (backend : string) (e : start_env)
  : outcome (NodeState * option string) :=
  let backend := CanonicalNetworkBackend backend in
  if negb (bool_decide (backend = "libp2p_relay")) && negb (bool_decide (backend = "libp2p_dht"))
  then Return (n, Some ("unsupported libp2p backend " ++ quote backend)%string)
  else applyNetworkConfig n backend e.

(** [New] *)
Definition NewNode (c : Config) (e : start_env) : outcome (res NodeState) :=
  key ← load_key c;
  match key with
  | Err err => Return (Err err)
  | Ok k =>
    match IDFromPublicKey (ed25519_public k) with
    | Err err => Return (Err ("derive peer id: " ++ err)%string)
    | Ok pid =>
      let n := mkNodeState c false pid (configuredLibp2pBackend c) [] [] [] "" "" false false false 0 0 false in
      if negb (libp2pActive n) then Return (Ok n)
      else '(n, err) ← startLibp2pHost n e;
           Return (match err with Some er => Err er | None => Ok n end)
    end
  end.

(** [pingRelays] on the relays it copied under the lock and the host it finds
    afterwards; the result is whether it starts a reconnection. *)
Fixpoint pingRelays (host : bool) (connected : bytes -> bool) (infos : list AddrInfo) : outcome bool :=
  match infos with
  | [] => Return false
  | i :: r => if negb host then Panic "nil pointer dereference"
              else if connected (ai_ID i) then pingRelays host connected r else Return true
  end.

(** [Close]: the loops are cancelled and the DHT client is dropped. *)
Definition CloseNode (n : NodeState) (closeErr : option string) : NodeState * option string :=
  (set_life n (n_Host n) (activeLibp2pBackend n) false (relayCancel n) (dhtCancel n) (dhtGen n),
   if n_Host n then closeErr else None).

(** ** The DHT client of a lookup *)

(** What one round of [waitDHTClient] reads. *)
Record dht_tick : Type := mkTick { tk_client : bool; tk_enabled : bool; tk_lastErr : string }.

(** [waitDHTClient]: one element per round; the context ends after the last. *)
Fixpoint waitDHTClient (ticks : list dht_tick) : res unit :=
  match ticks with
  | [] => Err "DHT is not ready"
  | t :: r =>
    if tk_client t then Ok tt
    else if negb (tk_enabled t) then Err "DHT is disabled"
    else match r with
         | [] => if bool_decide (tk_lastErr t <> "")
                 then Err ("DHT is not ready: " ++ tk_lastErr t)%string else Err "DHT is not ready"
         | _ => waitDHTClient r
         end
  end.

(** What the DHT client answers a lookup. *)
Record dht_env : Type := mkDhtEnv {
  de_ticks : list dht_tick;
  de_ready : bool;
  de_find_peer : bytes -> res AddrInfo;
  de_find_identity : bytes -> bytes -> res AddrInfo;
  de_connect : AddrInfo -> option string;
}.

Definition WaitDHTReady (e : dht_env) : res unit :=
  _ ← waitDHTClient (de_ticks e);
  if negb (de_ready e) then Err "DHT bootstrap not ready" else Ok tt.

Definition FindPeerAddrs (e : dht_env) (peerID : string) : res (list string) :=
  pid ← wrap_err "invalid peer id: " (peer_Decode peerID);
  _ ← WaitDHTReady e;
  info ← wrap_err "DHT find peer: " (de_find_peer e pid);
  let out := ma_String <$> filterNonLoopbackMultiaddrs (ai_Addrs info) in
  if bool_decide (out = []) then Err "DHT returned no externally dialable addresses" else Ok out.

Definition FindIdentityAddrs (n : NodeState) (e : dht_env) (publicKeyHex expectedPeerID : string)
  : res (list string) :=
  key ← wrap_err "decode public key: " (of_option "encoding/hex: invalid byte" (hex_decode publicKeyHex));
  expected ← wrap_err "invalid peer id: " (peer_Decode expectedPeerID);
  _ ← WaitDHTReady e;
  info ← de_find_identity e key expected;
  if bool_decide (ai_Addrs info <> []) then
    let out := ma_String <$> filterNonLoopbackMultiaddrs (ai_Addrs info) in
    if bool_decide (out = []) then Err "identity provider returned only loopback addresses" else Ok out
  else if negb (n_Host n) then Err "libp2p host is not running"
  else match de_connect e info with
       | Some err => Err ("connect to identity provider: " ++ err)%string
       | None => Ok []
       end.

(** ** Streams *)

(** [ConnTypeFor] from the remote multiaddrs of the peer's connections. *)
Definition ConnTypeFor (n : NodeState) (conns : bytes -> list string) (peerID : string) : string :=
  if negb (n_Host n) then "unknown"
  else match peer_Decode peerID with
       | Err _ => "unknown"
       | Ok pid =>
         if existsb (fun a => negb (contains a "p2p-circuit")) (conns pid) then "direct"
         else if bool_decide (conns pid <> []) then "relayed" else "unknown"
       end.

(** [OpenTunnel] and [OpenPairing]: the dial and the new stream; [what] names
    the step in the error. *)
Definition open_stream {St : Type} (n : NodeState) (what : string) (connect : AddrInfo -> option string)
    (newStream : bytes -> res St) (peerID : string) (relayAddrs : list string) : res St :=
  if negb (n_Host n) then Err "libp2p host is not running"
  else
    info ← buildAddrInfo n peerID relayAddrs;
    match connect info with
    | Some err => Err (what ++ ": " ++ err)%string
    | None => newStream (ai_ID info)
    end.

Definition OpenTunnel {St} n connect (newStream : string -> bytes -> res St) peerID relayAddrs :=
  open_stream n "connect to peer" connect (newStream "/DeskAccess/tunnel/1.0.0"%string) peerID relayAddrs.

Definition OpenPairing {St} n connect (newStream : string -> bytes -> res St) peerID relayAddrs :=
  open_stream n "connect for pairing" connect (newStream "/DeskAccess/pairing/1.0.0"%string) peerID relayAddrs.

(** ** Resolving a peer *)

Record candidate : Type := mkCandidate { c_addrs : list string; c_source : string }.

Definition probeConnection (n : NodeState) (connect : AddrInfo -> option string)
    (hostPeerID : string) (relayAddrs : list string) : option string :=
  if negb (n_Host n) then Some "libp2p host is not running"
  else match buildAddrInfo n hostPeerID relayAddrs with
       | Err err => Some err
       | Ok info => connect info
       end.

(** The candidate sets, in priority order. *)
Definition candidates (n : NodeState) (hostPeerID : string) (presenceAddrs storedAddrs btDHTAddrs : list string)
  : list candidate :=
  let tier addrs source := if bool_decide (addrs = []) then [] else [mkCandidate addrs source] in
  tier presenceAddrs "presence"%string ++ tier storedAddrs "stored"%string ++
  tier btDHTAddrs "bittorrent-dht"%string ++
  (if relayEnabled n then tier (buildAllRelayAddrs hostPeerID) "all-relays"%string else []).

(** The results arrive in some order; the first without an error wins. *)
Fixpoint first_success (hostPeerID : string) (probe : candidate -> option string)
    (arrivals : list candidate) (lastErr : string) : outcome (res candidate) :=
  match arrivals with
  | [] => _ ← first12 hostPeerID;
          Return (Err ("could not reach " ++ String.substring 0 12 hostPeerID ++
                       " via discovered addresses: " ++ lastErr)%string)
  | c :: r =>
    match probe c with
    | None => _ ← first12 hostPeerID; Return (Ok c)
    | Some err => _ ← first12 hostPeerID; first_success hostPeerID probe r err
    end
  end.

(** [ResolveAddrs]; [order] is the order in which the parallel probes end. *)
Definition ResolveAddrs (n : NodeState) (connect : AddrInfo -> option string) (hostPeerID : string)
    (presenceAddrs storedAddrs btDHTAddrs : list string) (order : list candidate -> list candidate)
  : outcome (res candidate) :=
  let sets := candidates n hostPeerID presenceAddrs storedAddrs btDHTAddrs in
  if bool_decide (sets = []) then
    id ← first12 hostPeerID; Return (Err ("no dial addresses available for peer " ++ id)%string)
  else first_success hostPeerID (fun c => probeConnection n connect hostPeerID (c_addrs c)) (order sets) "".

End Node.

Arguments AddrInfo A : clear implicits.
Arguments NodeState A : clear implicits.
Arguments relay_env A : clear implicits.
Arguments start_env A : clear implicits.
Arguments dht_env A : clear implicits.

(** ** Lemmas *)

Section NodeFacts.
Context {A : Type} `{Multiaddr A} `{Crypto}.

(** The addresses of a list of strings. *)
Definition parsed (raw : list string) : list A :=
  omap (fun s => match NewMultiaddr s with Ok a => Some a | Err _ => None end) raw.

Lemma filterNonLoopback_filter (l : list A) :
  filterNonLoopbackMultiaddrs l = List.filter (fun a => negb (isLoopbackMultiaddr a)) l.
Proof. induction l as [|a l IH]; cbn; [done|]. by destruct (isLoopbackMultiaddr a); rewrite <- IH. Qed.

Lemma dial_addrs_spec allow raw :
  fst (dial_addrs allow raw) =
    List.filter (fun a => allow || negb (isLoopbackMultiaddr a)) (parsed raw) /\
  0 <= snd (dial_addrs allow raw) /\
  (0 < snd (dial_addrs allow raw) <-> allow = false /\ Exists (fun a => isLoopbackMultiaddr a = true) (parsed raw)).
Proof.
  induction raw as [|s raw (IH1 & IH2 & IH3)]; cbn.
  - split; [done|]. split; [done|]. split; [lia|]. intros [_ Hx]. by apply Exists_nil in Hx.
  - unfold parsed in *. cbn. destruct (dial_addrs allow raw) as [addrs skipped]. cbn [fst snd] in *.
    destruct (NewMultiaddr s) as [a|]; cbn; [|done]. subst addrs.
    destruct allow; cbn in *.
    + split; [done|]. split; [done|]. rewrite IH3. naive_solver.
    + destruct (isLoopbackMultiaddr a) eqn:Ea; cbn.
      * split; [done|]. split; [lia|].
        split; [intros _; split; [reflexivity|by apply Exists_cons_hd]|intros _; lia].
      * split; [done|]. split; [done|]. rewrite IH3, Exists_cons, Ea.
        split; intros [_ Hx]; (split; [reflexivity|]); [by right|by destruct Hx].
Qed.

Definition relay_ids (infos : list (AddrInfo A)) : list bytes := ai_ID <$> infos.

(** The relay tables of a node: one cool-off per relay, one relay per peer. *)
Definition tables_ok (n : NodeState A) : Prop :=
  length (relayRefusedUntil n) = length (relayInfos n) /\ NoDup (relay_ids (relayInfos n)).

Lemma hasRelayInfo_spec infos id : hasRelayInfo infos id = true <-> id ∈ relay_ids infos.
Proof.
  unfold relay_ids. induction infos as [|i infos IH]; cbn.
  - split; [done|]. by intros ?%not_elem_of_nil.
  - rewrite elem_of_cons, <- IH. case_bool_decide; naive_solver.
Qed.

Lemma merge_relay_ids infos id addrs :
  relay_ids (merge_relay infos id addrs) =
    if hasRelayInfo infos id then relay_ids infos else relay_ids infos ++ [id].
Proof.
  unfold relay_ids. induction infos as [|i infos IH]; cbn; [done|].
  case_bool_decide as Hi; cbn; [by rewrite Hi|]. rewrite IH. by destruct (hasRelayInfo infos id).
Qed.

Lemma NoDup_snoc {B} (l : list B) x : NoDup l -> x ∉ l -> NoDup (l ++ [x]).
Proof.
  intros Hl Hx. apply NoDup_app. split; [done|]. split; [|apply NoDup_singleton].
  intros y Hy ->%list_elem_of_singleton. done.
Qed.

Lemma merge_relay_nodup infos id addrs :
  NoDup (relay_ids infos) -> NoDup (relay_ids (merge_relay infos id addrs)).
Proof.
  intros Hn. rewrite merge_relay_ids. destruct (hasRelayInfo infos id) eqn:Eh; [done|].
  apply NoDup_snoc; [done|]. rewrite <- hasRelayInfo_spec. by rewrite Eh.
Qed.

Lemma resolveRelays_nodup c infos : resolveRelays c = Ok infos -> NoDup (relay_ids infos).
Proof.
  unfold resolveRelays. destruct (configured_relays c) as [raw|].
  2:{ intros [= <-]. constructor. }
  assert (Hf : forall l, NoDup (relay_ids l) -> NoDup (relay_ids (fold_left add_relay raw l))).
  { induction raw as [|s raw IH]; intros l Hl; cbn; [done|]. apply IH. unfold add_relay.
    destruct (NewMultiaddr s) as [a|]; [|done]. destruct (AddrInfoFromP2pAddr a) as [[id addrs]|]; [|done].
    case_bool_decide; [done|]. by apply merge_relay_nodup. }
  case_bool_decide; [done|]. intros [= <-]. apply Hf. constructor.
Qed.

Lemma reserve_each_length host e target infos refused rs results :
  reserve_each host e target infos refused = Return (rs, results) ->
  length refused = length infos -> length rs = length infos /\ length results = length infos.
Proof.
  revert refused rs results. induction infos as [|i infos IH]; intros refused rs results; cbn.
  - intros [= <- <-]. by destruct refused.
  - destruct refused as [|r refused]; [done|].
    destruct (reserve_one host e target r i) as [[r' res]|]; cbn; [|done].
    destruct (reserve_each host e target infos refused) as [[rs' results']|] eqn:Er; cbn; [|done].
    intros [= <- <-] [= Hl]. destruct (IH _ _ _ Er Hl) as [Hr Hs]. cbn [length]. by rewrite Hr, Hs.
Qed.

Lemma reserve_each_no_index host e target infos refused :
  length refused = length infos -> reserve_each host e target infos refused <> Panic "index out of range".
Proof.
  revert refused. induction infos as [|i infos IH]; intros [|r refused]; cbn; try done.
  intros [= Hl]. specialize (IH _ Hl).
  destruct (reserve_one host e target r i) as [[r' res]|msg] eqn:Eo; cbn.
  - by destruct (reserve_each host e target infos refused) as [[rs' results']|].
  - revert Eo. unfold reserve_one. repeat case_match; intros; by simplify_eq.
Qed.

(** With a running host nothing panics. *)
Lemma reserve_each_returns e target infos refused :
  length refused = length infos -> exists r, reserve_each true e target infos refused = Return r.
Proof.
  revert refused. induction infos as [|i infos IH]; intros [|r refused]; cbn; try done; eauto.
  intros [= Hl]. destruct (IH _ Hl) as [[rs results] ->].
  destruct (reserve_one true e target r i) as [[r' res]|msg] eqn:Eo; cbn; [eauto|].
  revert Eo. unfold reserve_one. repeat case_match; intros; by simplify_eq.
Qed.

(** An operation keeps the tables and never reads past them. *)
Definition keeps_tables {B} (proj : B -> NodeState A) (m : outcome B) : Prop :=
  match m with
  | Return b => tables_ok (proj b)
  | Panic msg => msg <> "index out of range"%string
  end.

Lemma set_relays_ok n infos refused addrs :
  length refused = length infos -> NoDup (relay_ids infos) -> tables_ok (set_relays n infos refused addrs).
Proof. by split. Qed.

Lemma reserveAll_tables n e : tables_ok n -> keeps_tables fst (reserveAll n e).
Proof.
  intros [Hl Hn]. unfold reserveAll.
  pose proof (reserve_each_no_index (n_Host n) e (n_PeerID n) _ _ Hl) as Hx.
  destruct (reserve_each _ _ _ _ _) as [[rs results]|msg] eqn:Er; cbn.
  - destruct (reserve_each_length _ _ _ _ _ _ _ Er Hl) as [Hrs _].
    case_bool_decide; cbn; by split.
  - intros ->. done.
Qed.

Lemma reserveAll_returns n e :
  tables_ok n -> n_Host n = true -> exists r, reserveAll n e = Return r.
Proof.
  intros [Hl _] Hh. unfold reserveAll. rewrite Hh.
  destruct (reserve_each_returns e (n_PeerID n) _ _ Hl) as [[rs results] ->]. cbn.
  case_bool_decide; eauto.
Qed.

Lemma try_reserve_tables n e : tables_ok n -> keeps_tables id (try_reserve n e).
Proof.
  intros Hn. unfold try_reserve. pose proof (reserveAll_tables n e Hn) as Hk.
  destruct (reserveAll n e) as [[n' [err|]]|]; done.
Qed.

Lemma install_relays_ok n c infos : resolveRelays c = Ok infos -> tables_ok (install_relays n infos).
Proof.
  intros Hr. apply set_relays_ok; [by rewrite repeat_length|]. by eapply resolveRelays_nodup.
Qed.

Lemma start_loops_tables n : tables_ok n -> tables_ok (startDHT (startRelayLoops n)).
Proof. intros Hn. unfold startDHT, startRelayLoops. by repeat case_match. Qed.

Lemma startLibp2pHost_tables n e : tables_ok n -> keeps_tables fst (startLibp2pHost n e).
Proof.
  intros Hn. unfold startLibp2pHost. destruct (n_Host n); [done|]. destruct (se_connmgr e); [done|].
  destruct (se_host e) as [id|]; [|done].
  set (n1 := match resolveRelays _ with Ok _ => _ | Err _ => _ end).
  assert (H1 : tables_ok n1).
  { unfold n1. destruct (resolveRelays _) eqn:Er; [by eapply install_relays_ok|done]. }
  destruct (relayEnabled n1 && _); cbn; [|by apply start_loops_tables].
  pose proof (try_reserve_tables n1 (se_relays e) H1) as Ht.
  destruct (try_reserve n1 (se_relays e)); cbn in *; [by apply start_loops_tables|done].
Qed.

Lemma load_key_panic c msg : load_key c = Panic msg -> msg <> "index out of range"%string.
Proof. unfold load_key. repeat case_match; intros; by simplify_eq. Qed.

Lemma keeps_bind {B} (proj : B -> NodeState A) (m : outcome (NodeState A)) k :
  keeps_tables id m -> (forall n, tables_ok n -> keeps_tables proj (k n)) -> keeps_tables proj (m ≫= k).
Proof. destruct m as [n|msg]; [|done]. intros Hn Hk. by apply Hk. Qed.

Lemma applyNetworkConfig_tables n b e : keeps_tables fst (applyNetworkConfig n b e).
Proof.
  unfold applyNetworkConfig. set (n0 := set_life _ _ _ _ _ _ _).
  assert (Hn0 : tables_ok n0) by (split; [done|constructor]).
  destruct (libp2pActive n0); cbn [negb]; [|split; [done|constructor]].
  destruct (n_Host n0); cbn [negb].
  - apply keeps_bind; [|intros n' Hn'; by apply start_loops_tables].
    destruct (relayEnabled n0); [|done].
    destruct (resolveRelays (n_cfg n0)) as [infos|] eqn:Er; [|done].
    by eapply try_reserve_tables, install_relays_ok.
  - destruct (load_key (n_cfg n0)) as [[k|]|] eqn:Ek; [by apply startLibp2pHost_tables|done|].
    by eapply load_key_panic.
Qed.

Lemma addDHTRelays_tables n size cands : tables_ok n -> tables_ok (addDHTRelays n size cands).
Proof.
  intros Hn. unfold addDHTRelays. destruct (_ || _); [done|]. case_bool_decide as Hc; [done|].
  clear Hc. revert n Hn. induction cands as [|i cands IH]; intros n Hn; cbn; [done|]. apply IH.
  destruct (hasRelayInfo (relayInfos n) (ai_ID i)) eqn:Eh; [done|]. destruct Hn as [Hl Hn].
  apply set_relays_ok; [rewrite !length_app; cbn; lia|].
  unfold relay_ids. rewrite fmap_app. apply NoDup_snoc; [done|].
  fold (relay_ids (relayInfos n)). rewrite <- hasRelayInfo_spec. by rewrite Eh.
Qed.

(** The operations on a node, in the order the goroutines take its lock. *)
Inductive node_op : Type :=
  | OpReserve (e : relay_env A)
  | OpAddDHT (size : Z) (cands : list (AddrInfo A))
  | OpStart (backend : string) (e : start_env A)
  | OpApply (e : start_env A)
  | OpStop (closeErr : option string)
  | OpDHTReady (gen : Z) (r : res unit) (cancelled : bool)
  | OpRelayError (err : option string)
  | OpClose (closeErr : option string).

Definition apply_node_op (n : NodeState A) (o : node_op) : outcome (NodeState A) :=
  match o with
  | OpReserve e => '(n, _) ← reserveAll n e; Return n
  | OpAddDHT size cands => Return (addDHTRelays n size cands)
  | OpStart b e => '(n, _) ← StartLibp2p n b e; Return n
  | OpApply e => '(n, _) ← ApplyNetworkConfig n e; Return n
  | OpStop err => Return (fst (StopLibp2p n err))
  | OpDHTReady gen r c => Return (dhtReady n gen r c)
  | OpRelayError err => Return (setRelayError n err)
  | OpClose err => Return (fst (CloseNode n err))
  end.

Fixpoint run_node (n : NodeState A) (ops : list node_op) : outcome (NodeState A) :=
  match ops with
  | [] => Return n
  | o :: ops => n ← apply_node_op n o; run_node n ops
  end.

Lemma keeps_fst {E} (m : outcome (NodeState A * E)) :
  keeps_tables fst m -> keeps_tables id ('(n, _) ← m; Return n).
Proof. by destruct m as [[n err]|]. Qed.

Lemma apply_node_op_tables n o : tables_ok n -> keeps_tables id (apply_node_op n o).
Proof.
  intros Hn. destruct o as [e|size cands|b e|e|err|gen r c|err|err]; cbn [apply_node_op].
  - by apply keeps_fst, reserveAll_tables.
  - by apply addDHTRelays_tables.
  - apply keeps_fst. unfold StartLibp2p. destruct (_ && _); [done|]. apply applyNetworkConfig_tables.
  - apply keeps_fst, applyNetworkConfig_tables.
  - split; [done|constructor].
  - unfold dhtReady. destruct r; cbn; repeat case_match; done.
  - done.
  - done.
Qed.
End NodeFacts.

Section MaskFacts.
Context {A : Type} `{Multiaddr A}.

Lemma testbit_one i j : 0 <= i < 8 -> 0 <= j -> Z.testbit (u8 (Z.shiftl 1 i)) j = (i =? j).
Proof.
  intros Hi Hj. rewrite Z.shiftl_1_l. unfold u8. rewrite wrap_small.
  - rewrite Z.pow2_bits_eqb by lia. done.
  - split; [apply Z.pow_nonneg; lia|]. apply Z.pow_lt_mono_r; lia.
Qed.

Lemma mask_bits_testbit connected i (infos : list (AddrInfo A)) j :
  0 <= i -> 0 <= j ->
  Z.testbit (mask_bits connected i infos) j =
    (i <=? j) && (j <? 8) &&
    match infos !! Z.to_nat (j - i) with Some r => connected (ai_ID r) | None => false end.
Proof.
  revert i. induction infos as [|r infos IH]; intros i Hi Hj; cbn [mask_bits].
  - by rewrite Z.bits_0, lookup_nil, andb_false_r.
  - destruct (8 <=? i) eqn:E8; go_bool.
    { rewrite Z.bits_0. destruct (i <=? j) eqn:E1, (j <? 8) eqn:E2; go_bool; try done. lia. }
    specialize (IH (i + 1) ltac:(lia) Hj).
    destruct (decide (i = j)) as [->|Hne].
    + rewrite Z.sub_diag, Z.leb_refl. change (Z.to_nat 0) with 0%nat.
      rewrite (proj2 (Z.ltb_lt j 8)) by lia. rewrite (proj2 (Z.leb_gt (j + 1) j)) in IH by lia.
      change ((r :: infos) !! 0%nat) with (Some r). cbn [andb] in *.
      destruct (connected (ai_ID r)); [|exact IH].
      by rewrite Z.lor_spec, testbit_one, Z.eqb_refl by lia.
    + assert (Hrest : Z.testbit (mask_bits connected (i + 1) infos) j =
        (i <=? j) && (j <? 8) && match (r :: infos) !! Z.to_nat (j - i) with
                                 | Some r => connected (ai_ID r) | None => false end).
      { rewrite IH. destruct (i <=? j) eqn:E1; go_bool.
        - rewrite (proj2 (Z.leb_le (i + 1) j)) by lia.
          replace (Z.to_nat (j - i)) with (S (Z.to_nat (j - (i + 1)))) by lia. done.
        - by rewrite (proj2 (Z.leb_gt (i + 1) j)) by lia. }
      destruct (connected (ai_ID r)); [|done].
      rewrite Z.lor_spec, testbit_one, Hrest, (proj2 (Z.eqb_neq i j)) by (done || lia). done.
Qed.
End MaskFacts.

(** ** Properties *)

(** A node dials exactly the addresses it may.  For a decodable peer id the
    addresses of the dial are the parsable ones of the input, in order,
    without the loopback ones unless the node allows them; the input is
    refused only when loopback addresses are all it has. *)
Lemma dial_addresses_exact {A} `{Multiaddr A} `{Crypto} (n : NodeState A) id raw :
  match buildAddrInfo n id raw with
  | Ok info =>
    peer_Decode id = Ok (ai_ID info) /\
    ai_Addrs info = List.filter (fun a => allowLoopbackDial n || negb (isLoopbackMultiaddr a)) (parsed raw)
  | Err _ =>
    is_ok (peer_Decode id) = false \/
    (allowLoopbackDial n = false /\ parsed raw <> [] /\
     Forall (fun a => isLoopbackMultiaddr a = true) (parsed raw))
  end.
Proof.
  unfold buildAddrInfo. destruct (peer_Decode id) as [pid|]; cbn; [|by left].
  destruct (dial_addrs_spec (allowLoopbackDial n) raw) as (Ha & Hp & Hs).
  destruct (dial_addrs (allowLoopbackDial n) raw) as [addrs skipped]. cbn [fst snd] in *.
  case_bool_decide as He; cbn [andb]; [|done].
  destruct (0 <? skipped) eqn:E0; [|done]. go_bool.
  apply Hs in E0 as [Hal Hex]. right. split; [done|]. split.
  - intros Hn. rewrite Hn in Hex. by apply Exists_nil in Hex.
  - apply Forall_forall. intros a Hin. destruct (isLoopbackMultiaddr a) eqn:Ea; [done|].
    assert (Hf : a ∈ addrs) by (rewrite Ha; apply elem_of_list_filter; by rewrite Hal, Ea).
    rewrite He in Hf. by apply not_elem_of_nil in Hf.
Qed.

(** C32: the relay tables stay aligned.  In every run of the node's operations,
    network errors, restarts and outdated DHT goroutines included, there is
    one cool-off entry per relay and one relay per peer; [reserveAll] never
    reads past the cool-off table, and on a running host it never panics. *)
Theorem relay_tables_aligned {A} `{Multiaddr A} `{Crypto} c e (n : NodeState A) ops
  (Hnew : NewNode c e = Return (Ok n)) :
  match run_node n ops with
  | Return n' => tables_ok n' /\
                 (forall e, n_Host n' = true -> exists r, reserveAll n' e = Return r)
  | Panic msg => msg <> "index out of range"%string
  end.
Proof.
  assert (Hn : tables_ok n).
  { revert Hnew. unfold NewNode. destruct (load_key c) as [[k|]|]; [|done..]. cbn [mbind outcome_bind].
    destruct (IDFromPublicKey _) as [pid|]; [|done]. set (n0 := mkNodeState _ _ _ _ _ _ _ _ _ _ _ _ _ _ _).
    assert (Hn0 : tables_ok n0) by (split; [done|constructor]).
    destruct (negb (libp2pActive n0)); [by intros [= <-]|].
    pose proof (startLibp2pHost_tables n0 e Hn0) as Hk.
    destruct (startLibp2pHost n0 e) as [[n1 [err|]]|]; cbn in *; [done| |done]. by intros [= <-]. }
  clear Hnew. revert n Hn. induction ops as [|o ops IH]; intros n Hn; cbn [run_node].
  - split; [done|]. intros e'. by apply reserveAll_returns.
  - pose proof (apply_node_op_tables n o Hn) as Hk.
    destruct (apply_node_op n o) as [n'|msg]; [by apply IH|done].
Qed.

(** The relay mask.  The mask of a node is a byte whose bit [i] says
    whether the node is connected to the [i]-th of its first eight relays; it
    is zero while relays are off or the host is down. *)
Lemma relay_mask_bits {A} `{Multiaddr A} (n : NodeState A) connected
  (Htest : testRelayMask n = 0) :
  0 <= RelayMask n connected < 256 /\
  (forall i r, relayInfos n !! i = Some r -> (i < 8)%nat ->
     Z.testbit (RelayMask n connected) (Z.of_nat i) = relayEnabled n && n_Host n && connected (ai_ID r)) /\
  (relayEnabled n = false \/ n_Host n = false -> RelayMask n connected = 0).
Proof.
  unfold RelayMask. rewrite Htest. cbn [negb Z.eqb].
  destruct (relayEnabled n), (n_Host n); cbn [negb andb];
    try (split; [lia|]; split; [intros; apply Z.bits_0|done]).
  assert (Hhigh : forall j, 8 <= j -> Z.testbit (mask_bits connected 0 (relayInfos n)) j = false).
  { intros j Hj. rewrite mask_bits_testbit by lia. rewrite (proj2 (Z.ltb_ge j 8)) by lia.
    by rewrite andb_false_r. }
  split; [|split].
  - assert (Hm : mask_bits connected 0 (relayInfos n) = mask_bits connected 0 (relayInfos n) mod 2 ^ 8).
    { apply Z.bits_inj'. intros j Hj. destruct (decide (j < 8)).
      - by rewrite Z.mod_pow2_bits_low by lia.
      - rewrite Z.mod_pow2_bits_high by lia. apply Hhigh. lia. }
    rewrite Hm. apply Z.mod_pos_bound. lia.
  - intros i r Hi H8. rewrite mask_bits_testbit by lia. rewrite Z.sub_0_r, Nat2Z.id, Hi.
    rewrite (proj2 (Z.leb_le 0 _)), (proj2 (Z.ltb_lt _ 8)) by lia. done.
  - intros [?|?]; done.
Qed.

(** C33: a resolved peer was reached.  In whatever order the parallel probes
    end, [ResolveAddrs] returns one of the candidate sets, with its source,
    whose probe connected, and it finds one whenever one is reachable. *)
Theorem resolve_finds_reachable {A} `{Multiaddr A} `{Crypto} (n : NodeState A) connect id
  presence stored bt order
  (Hid : (12 <= String.length id)%nat) (Horder : forall l, order l ≡ₚ l) :
  let sets := candidates n id presence stored bt in
  let reached c := probeConnection n connect id (c_addrs c) = None in
  exists r, ResolveAddrs n connect id presence stored bt order = Return r /\
    (forall c, r = Ok c -> c ∈ sets /\ reached c) /\
    (is_ok r = true <-> Exists reached sets).
Proof.
  intros sets reached. apply first12_return in Hid as [t Ht]. unfold ResolveAddrs. fold sets.
  case_bool_decide as He.
  - rewrite Ht. eexists. split; [done|]. split; [done|]. rewrite He. split; [done|].
    intros Hx. by apply Exists_nil in Hx.
  - assert (Hf : forall l last, exists r,
      first_success id (fun c => probeConnection n connect id (c_addrs c)) l last = Return r /\
      (forall c, r = Ok c -> c ∈ l /\ reached c) /\ (is_ok r = true <-> Exists reached l)).
    { induction l as [|c l IH]; intros last; cbn [first_success]; rewrite Ht; cbn [mbind outcome_bind].
      - eexists. split; [done|]. split; [done|]. split; [done|]. intros Hx. by apply Exists_nil in Hx.
      - destruct (probeConnection n connect id (c_addrs c)) as [err|] eqn:Ep.
        + destruct (IH err) as (r & -> & Hr & Hok). exists r. split; [done|]. split.
          * intros c' Hc'. destruct (Hr c' Hc'). split; [by right|done].
          * rewrite Hok, Exists_cons. split; [by right|]. intros [Hc|]; [|done].
            unfold reached in Hc. congruence.
        + exists (Ok c). split; [done|]. split.
          * intros c' [= <-]. split; [by left|done].
          * split; [|done]. intros _. by apply Exists_cons_hd. }
    destruct (Hf (order sets) ""%string) as (r & Hr & Hc & Hok). exists r. split; [done|]. split.
    + intros c Hrc. rewrite <- (Horder sets). by apply Hc.
    + rewrite Hok. by rewrite (Horder sets).
Qed.

(** ** A concrete multiaddr library *)

Definition toy_maddr : Type := { s : string | String.prefix "/" s = true }.

Definition toy_text (a : toy_maddr) : string := `a.

Definition toy_new (s : string) : res toy_maddr :=
  match Bool.bool_dec (String.prefix "/" s) true with
  | left Hs => Ok (exist _ s Hs)
  | right _ => Err "must begin with /"
  end.

Lemma toy_prefix (a : toy_maddr) t : String.prefix "/" (toy_text a ++ t) = true.
Proof.
  destruct a as [s Hs]. cbn. apply prefix_spec in Hs as [r ->].
  rewrite string_app_assoc. apply prefix_app.
Qed.

Definition toy_component (s name : string) : option string :=
  '(_, rest) ← cut s ("/" ++ name ++ "/")%string;
  Some match cut rest "/" with Some (v, _) => v | None => rest end.

#[export] Instance toy_multiaddr : Multiaddr toy_maddr := {
  NewMultiaddr := toy_new;
  ma_String := toy_text;
  ValueForProtocol a p := toy_component (toy_text a) p;
  AddrInfoFromP2pAddr a :=
    match cut (toy_text a) "/p2p/" with
    | None => Err "invalid p2p multiaddr"
    | Some (t, id) => t' ← toy_new t; Ok (to_bytes id, [t'])
    end;
  circuit_join a r t :=
    exist _ (toy_text a ++ "/p2p/" ++ of_bytes r ++ "/p2p-circuit/p2p/" ++ t)%string (toy_prefix a _);
}.

#[export] Instance toy_multiaddr_laws : MultiaddrLaws toy_maddr.
Proof.
  intros [s Hs]. unfold NewMultiaddr, ma_String. cbn. unfold toy_new.
  destruct (Bool.bool_dec (String.prefix "/" s) true) as [Hs'|]; [|done].
  f_equal. f_equal. apply Eqdep_dec.UIP_dec, Bool.bool_dec.
Qed.

(** A host whose second relay refuses. *)
Definition relay_config : Config :=
  let d := defaultConfig (Ok "host"%string) in
  mkConfig (mkNetwork "libp2p_relay") (mkNode (hex_encode (repeat x03 64)) "h")
    (mkRelay "public" [] []) (mkDHT "public" []) (BTDHT d) (Iroh d) (RDP d) [] [].

Definition relay_answers : relay_env toy_maddr :=
  mkRelayEnv 0 (fun _ => None)
    (fun i => if bool_decide (ai_ID i = to_bytes "QmW9m57aiBDHAkKj9nmFSEn7ZqrcF1fZS4bipsTCHburei")
              then Err "error: RESERVATION_REFUSED"%string else Ok (take 1 (ai_Addrs i))).

Definition relay_start : start_env toy_maddr :=
  mkStartEnv None (Ok "12D3KooWhost"%string) relay_answers None.

Definition relay_node : NodeState toy_maddr :=
  match NewNode relay_config relay_start with
  | Return (Ok n) => n
  | _ => mkNodeState relay_config false "" "" [] [] [] "" "" false false false 0 0 false
  end.

(** The three public relays are merged, the second one cools off, and a second
    round skips it. *)
Lemma relay_tables_aligned_witness :
  NewNode relay_config relay_start = Return (Ok relay_node) /\
  length (relayInfos relay_node) = 3%nat /\ length (n_relayAddrs relay_node) = 2%nat /\
  relayRefusedUntil relay_node = [zero_time; 30 * minute; zero_time] /\
  match run_node relay_node [OpReserve relay_answers; OpStop None; OpStart "libp2p_dht" relay_start;
                             OpDHTReady 1 (Ok tt) false] with
  | Return n' => tables_ok n'
  | Panic _ => False
  end.
Proof.
  assert (Hn : NewNode relay_config relay_start = Return (Ok relay_node)) by (vm_compute; reflexivity).
  split; [exact Hn|]. split; [vm_compute; reflexivity|]. split; [vm_compute; reflexivity|].
  split; [vm_compute; reflexivity|].
  pose proof (relay_tables_aligned relay_config relay_start relay_node
    [OpReserve relay_answers; OpStop None; OpStart "libp2p_dht" relay_start; OpDHTReady 1 (Ok tt) false] Hn)
    as Hx.
  destruct (run_node _ _) as [n'|msg] eqn:Er; [exact (proj1 Hx)|].
  clear Hx. vm_compute in Er. discriminate Er.
Defined.

Lemma relay_mask_bits_witness :
  RelayMask relay_node (fun id => bool_decide (id = to_bytes "QmW9m57aiBDHAkKj9nmFSEn7ZqrcF1fZS4bipsTCHburei")) = 2 /\
  0 <= RelayMask relay_node (fun _ => true) < 256.
Proof.
  split; [vm_compute; reflexivity|].
  exact (proj1 (relay_mask_bits relay_node (fun _ => true) eq_refl)).
Defined.

Lemma resolve_finds_reachable_witness :
  exists r, ResolveAddrs relay_node (fun i => if bool_decide (ai_Addrs i = []) then Some "no addresses"%string else None)
      "12D3KooWpeer" ["/ip4/127.0.0.1/tcp/1"%string] ["/ip4/10.0.0.2/tcp/1"%string] [] (fun l => rev l) = Return r /\
    is_ok r = true.
Proof.
  assert (Hl : (12 <= String.length "12D3KooWpeer")%nat) by (cbn; lia).
  destruct (resolve_finds_reachable relay_node
    (fun i => if bool_decide (ai_Addrs i = []) then Some "no addresses"%string else None)
    "12D3KooWpeer" ["/ip4/127.0.0.1/tcp/1"%string] ["/ip4/10.0.0.2/tcp/1"%string] [] (fun l => rev l) Hl
    (fun l => Permutation_sym (Permutation_rev l))) as (r & Hr & _ & Hok).
  exists r. split; [exact Hr|]. apply Hok.
  apply Exists_cons_tl, Exists_cons_hd. vm_compute. reflexivity.
Defined.

(** A DHT goroutine that outlives a stop installs its client on the stopped
    node: stopping does not advance the generation. *)
Example dht_client_after_stop :
  match run_node relay_node [OpStart "libp2p_dht" relay_start; OpStop None; OpDHTReady 1 (Ok tt) true] with
  | Return n' => n_Host n' = false /\ dhtClient n' = true
  | Panic _ => False
  end.
Proof. by vm_compute. Qed.
