(* ===== verification/NodeLoops.v ===== *)
(** * NodeLoops: the background loops of [internal/node/node.go]

    The keepalive, the reconnection with its backoff and the refresh of the
    reservations, over the node of [NetNode].  Between two rounds of a loop
    the node may be changed by others; tickers are the ticks they deliver. *)

From S2P Require Import Prelude GoStrings Config NetNode.

Definition keepAliveInterval : Z := 25 * second.
Definition reservationRefresh : Z := 20 * minute.
Definition reconnectBackoff : Z := 5 * second.
Definition reconnectMaxWait : Z := 2 * minute.

(** The next wait. *)
Definition next_backoff (backoff : Z) : Z := if backoff <? reconnectMaxWait then 2 * backoff else backoff.

Section Loops.
Context {A : Type} `{Multiaddr A}.

(** ** Reconnecting *)

(** One round: the DHT's routing table, what the network answers, whether the
    context is done during the wait, and what others do to the node meanwhile. *)
Record round : Type := mkRound {
  rd_size : Z;
  rd_candidates : list (AddrInfo A);
  rd_env : relay_env A;
  rd_done : bool;
  rd_meanwhile : NodeState A -> NodeState A;
}.

Inductive reconnect_end : Type :=
  | Reconnected (fired : list string)   (** with the addresses announced *)
  | Cancelled
  | StillTrying.

(** [reconnectWithBackoff] over the rounds so far, with the waits it made;
    [attempt] counts from 1. *)
Fixpoint reconnect (n : NodeState A) (attempt backoff : Z) (rounds : list round)
  : outcome (NodeState A * reconnect_end * list Z) :=
  match rounds with
  | [] => Return (n, StillTrying, [])
  | rd :: rounds =>
    let n := if 3 <? attempt then addDHTRelays n (rd_size rd) (rd_candidates rd) else n in
    '(n, err) ← reserveAll n (rd_env rd);
    if bool_decide (err = None) && bool_decide (RelayAddrs n <> []) then
      Return (setRelayError n None, Reconnected (ma_String <$> n_relayAddrs n), [])
    else if rd_done rd then Return (n, Cancelled, [])
    else
      '(n, r, waits) ← reconnect (rd_meanwhile rd n) (attempt + 1) (next_backoff backoff) rounds;
      Return (n, r, backoff :: waits)
  end.
Definition reconnectWithBackoff (n : NodeState A) (rounds : list round) := reconnect n 1 reconnectBackoff rounds.

(** ** Refreshing *)

(** A tick of [reservationRefreshLoop]: the node and the addresses announced. *)
Definition refresh (n : NodeState A) (e : relay_env A) : outcome (NodeState A * option (list string)) :=
  '(n, err) ← reserveAll n e;
  match err with
  | Some err => Return (setRelayError n (Some err), None)
  | None => let n := setRelayError n None in Return (n, Some (ma_String <$> n_relayAddrs n))
  end.

(** ** Keeping alive *)

(** A tick of [keepAliveLoop]: the host and the connections it finds, and how
    many of the running reconnections ended before it. *)
Record tick : Type := mkTick { tk_host : bool; tk_connected : bytes -> bool; tk_infos : list (AddrInfo A); tk_ended : nat }.

(** The number of running [reconnectWithBackoff] goroutines. *)
Fixpoint keepAlive (running : nat) (ticks : list tick) : outcome nat :=
  match ticks with
  | [] => Return running
  | t :: ticks =>
    start ← pingRelays (tk_host t) (tk_connected t) (tk_infos t);
    keepAlive (running - tk_ended t + (if start : bool then 1 else 0)) ticks
  end.

(** ** Lemmas *)

(** The waits: doubled from five seconds up to the first that is not below two
    minutes, which is 160 seconds. *)
Definition wait (k : nat) : Z := Z.min (reconnectBackoff * 2 ^ Z.of_nat k) (160 * second).

Lemma wait_next k : next_backoff (wait k) = wait (S k).
Proof.
  unfold wait, next_backoff, reconnectBackoff, reconnectMaxWait.
  replace (2 ^ Z.of_nat (S k)) with (2 * 2 ^ Z.of_nat k) by (rewrite Nat2Z.inj_succ, Z.pow_succ_r; lia).
  destruct (decide (k <= 4)%nat) as [Hk|Hk].
  - do 5 (destruct k as [|k]; [vm_compute; reflexivity|]). lia.
  - assert (32 <= 2 ^ Z.of_nat k) by (change 32 with (2 ^ 5); apply Z.pow_le_mono_r; lia).
    unfold minute, second. rewrite (proj2 (Z.ltb_ge _ _)) by lia. lia.
Qed.

Lemma addDHTRelays_host (n : NodeState A) size cands :
  n_Host (addDHTRelays n size cands) = n_Host n /\ relayEnabled (addDHTRelays n size cands) = relayEnabled n.
Proof.
  unfold addDHTRelays. destruct (_ || _); [done|]. case_bool_decide; [done|]. clear. revert n.
  induction cands as [|i cands IH]; intros n; [done|]. cbn [fold_left]. destruct (hasRelayInfo _ _); [done|].
  by destruct (IH (set_relays n (relayInfos n ++ [i]) (relayRefusedUntil n ++ [zero_time]) (n_relayAddrs n))) as [-> ->].
Qed.

Lemma reserveAll_frame (n : NodeState A) e n' err :
  reserveAll n e = Return (n', err) ->
  n_Host n' = n_Host n /\ relayEnabled n' = relayEnabled n /\ (err = None -> n_relayAddrs n' <> [] /\ lastRelayErr n' = ""%string).
Proof.
  unfold reserveAll. destruct (reserve_each _ _ _ _ _) as [[rs results]|]; [|done]. cbn. case_bool_decide; by intros [= <- <-].
Qed.

(** Some relay that is not cooling off connects and grants an address. *)
Definition grants (n : NodeState A) (e : relay_env A) : Prop :=
  exists i ri r, relayInfos n !! i = Some ri /\ relayRefusedUntil n !! i = Some r /\
    (is_zero_time r = true \/ r <= re_now e) /\ re_connect e ri = None /\ exists a l, re_reserve e ri = Ok (a :: l).

Lemma reserve_each_grants (e : relay_env A) target infos : forall refused rs results i ri r a l,
  reserve_each true e target infos refused = Return (rs, results) ->
  infos !! i = Some ri -> refused !! i = Some r -> (is_zero_time r = true \/ r <= re_now e) ->
  re_connect e ri = None -> re_reserve e ri = Ok (a :: l) -> reserved results <> [].
Proof.
  induction infos as [|x infos IH]; intros [|y refused] rs results i ri r a l; cbn [reserve_each]; try done.
  destruct (reserve_one true e target y x) as [[r' res]|] eqn:E1; [|done]. cbn.
  destruct (reserve_each true e target infos refused) as [[rs' results']|] eqn:E2; [|done].
  intros [= <- <-]. destruct i as [|i]; cbn; unfold reserved; cbn [fmap list_fmap concat].
  - intros [= ->] [= ->] Hr Hc Hv. unfold reserve_one in E1. rewrite Hc, Hv in E1.
    destruct (negb (is_zero_time r) && (re_now e <? r)) eqn:Ec.
    + apply andb_true_iff in Ec as [Ez El]. destruct Hr as [Hr|Hr]; [by rewrite Hr in Ez|]. apply Z.ltb_lt in El. lia.
    + by injection E1 as <- <-.
  - intros Hi Hj Hr Hc Hv Hn. apply app_eq_nil in Hn as [_ Hn]. by eapply (IH _ _ _ _ _ _ _ _ E2).
Qed.

Lemma reserveAll_grants (n : NodeState A) e :
  tables_ok n -> n_Host n = true -> grants n e -> exists n', reserveAll n e = Return (n', None).
Proof.
  intros Ht Hh (i & ri & r & Hi & Hr & Hc & Hn & a & l & Hv).
  destruct (reserveAll_returns n e Ht Hh) as [[n' err] Hx]. exists n'. rewrite Hx. unfold reserveAll in Hx. rewrite Hh in Hx.
  destruct (reserve_each true e (n_PeerID n) (relayInfos n) (relayRefusedUntil n)) as [[rs results]|] eqn:Ee; [|done].
  pose proof (reserve_each_grants _ _ _ _ _ _ _ _ _ _ _ Ee Hi Hr Hc Hn Hv) as Hne. cbn in Hx.
  rewrite bool_decide_eq_false_2 in Hx by done. by injection Hx as <- <-.
Qed.

(** Others keep the node up while a reconnection runs. *)
Definition undisturbed (rd : round) : Prop :=
  forall n, tables_ok n -> n_Host n = true -> relayEnabled n = true ->
    tables_ok (rd_meanwhile rd n) /\ n_Host (rd_meanwhile rd n) = true /\ relayEnabled (rd_meanwhile rd n) = true.

(** The node a round tries to reserve on. *)
Definition prepared (n : NodeState A) (attempt : Z) (rd : round) : NodeState A :=
  if 3 <? attempt then addDHTRelays n (rd_size rd) (rd_candidates rd) else n.

Lemma prepared_ok n attempt rd :
  tables_ok n -> tables_ok (prepared n attempt rd) /\ n_Host (prepared n attempt rd) = n_Host n /\
    relayEnabled (prepared n attempt rd) = relayEnabled n.
Proof. unfold prepared. destruct (3 <? attempt); [|done]. split; [by apply addDHTRelays_tables|apply addDHTRelays_host]. Qed.

Lemma reconnect_run rounds : forall n attempt k,
  tables_ok n -> n_Host n = true -> relayEnabled n = true -> Forall undisturbed rounds ->
  exists n' r waits, reconnect n attempt (wait k) rounds = Return (n', r, waits) /\
    (length waits <= length rounds)%nat /\ waits = wait <$> seq k (length waits) /\
    match r with
    | Reconnected fired => RelayAddrs n' = fired /\ fired <> [] /\ lastRelayErr n' = ""%string
    | Cancelled => exists rd, rounds !! length waits = Some rd /\ rd_done rd = true
    | StillTrying => length waits = length rounds /\ Forall (fun rd => rd_done rd = false) rounds
    end.
Proof.
  induction rounds as [|rd rounds IH]; intros n attempt k Ht Hh He Hu.
  { exists n, StillTrying, []. by repeat split. }
  apply Forall_cons in Hu as [Hrd Hu]. cbn [reconnect]. fold (prepared n attempt rd).
  destruct (prepared_ok n attempt rd Ht) as (Ht1 & Hh1 & He1). rewrite Hh in Hh1. rewrite He in He1.
  destruct (reserveAll_returns _ (rd_env rd) Ht1 Hh1) as [[n2 err] Hx]. rewrite Hx. cbn.
  destruct (reserveAll_frame _ _ _ _ Hx) as (Hh2 & He2 & Hok). rewrite Hh1 in Hh2. rewrite He1 in He2.
  pose proof (reserveAll_tables _ (rd_env rd) Ht1) as Ht2. rewrite Hx in Ht2. cbn in Ht2.
  case_bool_decide as Herr; cbn [andb].
  - destruct (Hok Herr) as [Ha _]. rewrite bool_decide_eq_true_2 by (unfold RelayAddrs; rewrite He2; by destruct (n_relayAddrs n2)).
    eexists _, _, []. split; [done|]. split; [cbn; lia|]. split; [done|].
    split; [unfold RelayAddrs; cbn; by change (relayEnabled (setRelayError n2 None)) with (relayEnabled n2); rewrite He2|].
    split; [by destruct (n_relayAddrs n2)|done].
  - destruct (rd_done rd) eqn:Ed.
    + exists n2, Cancelled, []. split; [done|]. split; [cbn; lia|]. split; [done|]. by exists rd.
    + destruct (Hrd n2 Ht2 Hh2 He2) as (Ht3 & Hh3 & He3). rewrite wait_next.
      destruct (IH (rd_meanwhile rd n2) (attempt + 1) (S k) Ht3 Hh3 He3 Hu) as (n' & r & waits & -> & Hl & Hw & Hr).
      exists n', r, (wait k :: waits). split; [done|]. split; [cbn; lia|]. split; [cbn; by f_equal|].
      destruct r; [done|done|]. cbn. destruct Hr as [-> Hf]. split; [done|by constructor].
Qed.
End Loops.

(** A goroutine more with every tick that finds a relay disconnected, while
    the earlier ones still try. *)
Lemma keepAlive_accumulates {A} (ticks : list (tick (A := A))) running :
  Forall (fun t => tk_host t = true /\ tk_ended t = 0%nat /\ exists i, i ∈ tk_infos t /\ tk_connected t (ai_ID i) = false) ticks ->
  keepAlive running ticks = Return (running + length ticks)%nat.
Proof.
  intros Hf. revert running. induction Hf as [|t ticks (Hh & He & i & Hi & Hc) Hf IH]; intros running; cbn [keepAlive length].
  { f_equal. lia. }
  assert (Hp : forall infos, i ∈ infos -> pingRelays (tk_host t) (tk_connected t) infos = Return true).
  { induction infos as [|j infos IHi]; [by intros ?%not_elem_of_nil|]. intros Hj. cbn [pingRelays]. rewrite Hh. cbn [negb].
    apply elem_of_cons in Hj as [<-|Hj]; [by rewrite Hc|]. rewrite Hh in IHi. destruct (tk_connected t (ai_ID j)); auto. }
  rewrite (Hp _ Hi). cbn [mbind outcome_bind]. rewrite IH, He. f_equal. lia.
Qed.

(** A refresh that succeeds announces the addresses and clears the error; one
    that fails keeps the reason and announces nothing. *)
Lemma refresh_outcome {A} `{Multiaddr A} (n : NodeState A) e n' fired :
  refresh n e = Return (n', fired) ->
  match fired with
  | Some addrs => addrs = ma_String <$> n_relayAddrs n' /\ addrs <> [] /\ lastRelayErr n' = ""%string
  | None => exists n1 err, reserveAll n e = Return (n1, Some err) /\ lastRelayErr n' = err
  end.
Proof.
  unfold refresh. destruct (reserveAll n e) as [[n1 [err|]]|] eqn:E; [..|done]; cbn; intros [= <- <-]; [by eauto|].
  destruct (reserveAll_frame _ _ _ _ E) as (_ & _ & Hok). destruct (Hok eq_refl) as [Ha _].
  split; [done|]. split; [|done]. cbn. by destruct (n_relayAddrs n1).
Qed.

(** ** The first of several *)

(** [parallelFirst] of [resolve.go] over the results in the order they arrive:
    the index of the first success, or -1 with the last error. *)
Fixpoint parallelFirst (arrivals : list (nat * option string)) (lastErr : option string) : Z * option string :=
  match arrivals with
  | [] => (-1, lastErr)
  | (i, None) :: _ => (Z.of_nat i, None)
  | (_, Some err) :: r => parallelFirst r (Some err)
  end.

(** In whatever order the functions end, one that succeeded is found exactly
    when there is one; without any function there is no error either. *)
Lemma parallelFirst_spec arrivals : forall last,
  match parallelFirst arrivals last with
  | (i, None) => (exists n, i = Z.of_nat n /\ (n, None) ∈ arrivals) \/ (i = -1 /\ arrivals = [] /\ last = None)
  | (i, Some err) => i = -1 /\ (forall n, (n, None) ∉ arrivals) /\ ((exists n, (n, Some err) ∈ arrivals) \/ last = Some err)
  end.
Proof.
  induction arrivals as [|[n [err|]] r IH]; intros last; cbn [parallelFirst].
  - destruct last; [|by right]. split; [done|]. split; [|by right]. intros n. by apply not_elem_of_nil.
  - specialize (IH (Some err)). destruct (parallelFirst r (Some err)) as [i [e|]].
    + destruct IH as (-> & Hn & He). split; [done|]. split.
      * intros m [[=]|Hm]%elem_of_cons. by apply (Hn m).
      * left. destruct He as [[m Hm]|[= ->]]; [exists m; by right|exists n; by left].
    + destruct IH as [(m & -> & Hm)|(_ & _ & [=])]. left. exists m. split; [done|]. by right.
  - left. exists n. split; [done|]. by left.
Qed.

(** ** Properties *)

(** C38: the reconnection is bounded in its waits and never gives up early.
    On a node that stays up it never panics; it waits 5, 10, 20, 40, 80 and
    from then on 160 seconds between its attempts (the last doubling overshoots
    [reconnectMaxWait]); it ends when an attempt has reserved addresses, which are
    announced and leave no error, or when its context is done during a wait,
    and for no other reason; and an attempt reserves when some relay that is
    not cooling off connects and grants an address. *)
Theorem reconnect_settles {A} `{Multiaddr A} (n : NodeState A) rounds
  (Ht : tables_ok n) (Hh : n_Host n = true) (He : relayEnabled n = true) (Hu : Forall undisturbed rounds) :
  (exists n' r waits, reconnectWithBackoff n rounds = Return (n', r, waits) /\
     waits = wait <$> seq 0 (length waits) /\ Forall (fun w => 5 * second <= w <= 160 * second) waits /\
     match r with
     | Reconnected fired => RelayAddrs n' = fired /\ fired <> [] /\ lastRelayErr n' = ""%string
     | Cancelled => exists rd, rounds !! length waits = Some rd /\ rd_done rd = true
     | StillTrying => length waits = length rounds /\ Forall (fun rd => rd_done rd = false) rounds
     end) /\
  (forall attempt backoff rd rest, grants (prepared n attempt rd) (rd_env rd) ->
     exists n' fired, reconnect n attempt backoff (rd :: rest) = Return (n', Reconnected fired, []) /\ fired <> []).
Proof.
  split.
  - destruct (reconnect_run rounds n 1 0 Ht Hh He Hu) as (n' & r & waits & Hr & _ & Hw & Hm).
    exists n', r, waits. split; [exact Hr|]. split; [done|]. split; [|done]. rewrite Hw. apply Forall_fmap, Forall_forall.
    intros k _. cbn. unfold wait, reconnectBackoff.
    assert (1 <= 2 ^ Z.of_nat k) by (change 1 with (2 ^ 0); apply Z.pow_le_mono_r; lia). unfold second. lia.
  - intros attempt backoff rd rest Hg. destruct (prepared_ok n attempt rd Ht) as (Ht1 & Hh1 & He1).
    rewrite Hh in Hh1. rewrite He in He1. destruct (reserveAll_grants _ _ Ht1 Hh1 Hg) as [n2 Hx].
    destruct (reserveAll_frame _ _ _ _ Hx) as (_ & He2 & Hok). destruct (Hok eq_refl) as [Ha _].
    cbn [reconnect]. fold (prepared n attempt rd). rewrite Hx. cbn [mbind outcome_bind].
    rewrite bool_decide_eq_true_2, bool_decide_eq_true_2
      by (try done; unfold RelayAddrs; rewrite He2, He1; by destruct (n_relayAddrs n2)).
    eexists _, _. split; [done|]. by destruct (n_relayAddrs n2).
Qed.

(** Every relay is down in the first round; in the second two of them grant. *)
Definition down_round : round (A := toy_maddr) :=
  mkRound 0 [] (mkRelayEnv second (fun _ => Some "dial backoff"%string) (fun _ => Err "unreachable"%string)) false (fun n => n).
Definition up_round : round (A := toy_maddr) := mkRound 0 [] relay_answers false (fun n => n).

Lemma reconnect_settles_witness :
  exists n' fired, reconnectWithBackoff relay_node [down_round; up_round] = Return (n', Reconnected fired, [5 * second]) /\
    length fired = 2%nat /\ lastRelayErr n' = ""%string.
Proof.
  assert (Ht : tables_ok relay_node).
  { split; [vm_compute; reflexivity|]. apply (bool_decide_eq_true_1 (NoDup (relay_ids (relayInfos relay_node)))). vm_compute. reflexivity. }
  assert (Hu : Forall undisturbed [down_round; up_round]).
  { constructor; [|constructor; [|constructor]]; intros n H1 H2 H3; exact (conj H1 (conj H2 H3)). }
  destruct (reconnect_settles relay_node [down_round; up_round] Ht eq_refl eq_refl Hu) as [(n' & r & waits & Hr & _ & _ & Hm) _].
  assert (Hv : match reconnectWithBackoff relay_node [down_round; up_round] with
               | Return (_, Reconnected fired, waits) => length fired = 2%nat /\ waits = [5 * second]
               | _ => False end) by (vm_compute; split; reflexivity).
  rewrite Hr in Hv. destruct r as [fired| |]; [|destruct Hv|destruct Hv].
  exists n', fired. destruct Hv as [Hl Hw]. destruct Hm as (_ & _ & He).
  split; [rewrite Hr, Hw; reflexivity|]. split; [exact Hl|exact He].
Defined.
