(* ===== verification/Presence.v ===== *)
(** * Presence: the presence table of [internal/presence/presence.go]

    Announcements received from the pubsub topic, the DHT cold start and the
    sweep of silent peers over one table, and what the rest of the program
    asks of it.  A slice [id[:12]] in a log line panics on a short id. *)

From S2P Require Import Prelude GoStrings Crypto Wire Config NetNode.

Definition announceInterval : Z := 20 * second.
Definition offlineAfter : Z := 65 * second.

Record Announcement : Type := mkAnnouncement {
  an_NodeID : string;
  an_Label : string;
  an_RelayAddrs : list string;
  an_Timestamp : Z;
}.

Record Status : Type := mkPeerStatus {
  pe_NodeID : string;
  pe_Label : string;
  pe_Online : bool;
  pe_LastSeen : Z;
  pe_RelayAddrs : list string;
}.

Record Presence : Type := mkPresence {
  pm_peers : gmap string Status;
  pm_cfg : Config;
  pm_onChange : bool;                 (** a callback is registered *)
}.

Definition set_peers (m : Presence) (peers : gmap string Status) : Presence :=
  mkPresence peers (pm_cfg m) (pm_onChange m).

Definition OnChange (m : Presence) (fn : bool) : Presence := mkPresence (pm_peers m) (pm_cfg m) fn.

(** ** Questions *)

Definition All (m : Presence) : list Status :=
  (fun r => match pm_peers m !! rc_NodeID r with
            | Some s => s
            | None => mkPeerStatus (rc_NodeID r) (rc_Label r) false zero_time []
            end) <$> Remotes (pm_cfg m).

Definition IsOnline (m : Presence) (nodeID : string) : bool :=
  match pm_peers m !! nodeID with Some s => pe_Online s | None => false end.

Definition GetPeerAddrs (m : Presence) (nodeID : string) : list string :=
  match pm_peers m !! nodeID with
  | Some s => if pe_Online s then pe_RelayAddrs s else []
  | None => []
  end.

(** [notify]: the lists the callback is given. *)
Definition notify (m : Presence) : list (list Status) := if pm_onChange m then [All m] else [].

(** ** Announcements *)

(** [updateRemoteAddrs]: the first remote with the node id. *)
Fixpoint update_remote (nodeID : string) (addrs : list string) (l : list RemoteConfig) : list RemoteConfig :=
  match l with
  | [] => []
  | r :: l' =>
    if bool_decide (rc_NodeID r = nodeID)
    then mkRemote (rc_Label r) (rc_NodeID r) (rc_PublicKey r) (rc_MachineID r) (rc_Backend r) (rc_Protocol r)
           (rc_TargetPort r) addrs (rc_IrohTicket r) (rc_DirectQUICAddrs r) (rc_Identity r) (rc_AddedAt r)
           (rc_LastConnectedAt r) :: l'
    else r :: update_remote nodeID addrs l'
  end.

Definition updateRemoteAddrs (c : Config) (nodeID : string) (addrs : list string) : Config :=
  set_remotes c (update_remote nodeID addrs (Remotes c)).

Section Announcements.
Context {A : Type} `{Multiaddr A} `{Codec Announcement}.

(** [announce] and [announceOffline]: the bytes published. *)
Definition announce (self : string) (c : Config) (relayAddrs : list string) (now : Z) : res bytes :=
  marshal (mkAnnouncement self (nc_Label (Node c)) (FilterExternallyDialableAddrs (A := A) relayAddrs) now).
Definition announceOffline (self : string) (c : Config) (now : Z) : res bytes :=
  marshal (mkAnnouncement self (nc_Label (Node c)) [] now).

(** [receiveLoop] on one announcement: the table, and the callback's calls. *)
Definition receive_announcement (m : Presence) (ann : Announcement) (now : Z)
  : outcome (Presence * list (list Status)) :=
  let id := an_NodeID ann in
  match pm_peers m !! id with
  | Some existing as known =>
    if bool_decide (an_RelayAddrs ann = []) then
      let m := set_peers m (<[id := mkPeerStatus (pe_NodeID existing) (pe_Label existing) false
                                      (pe_LastSeen existing) []]> (pm_peers m)) in
      Return (m, notify m)
    else
      let addrs := FilterExternallyDialableAddrs (A := A) (an_RelayAddrs ann) in
      let m := mkPresence (<[id := mkPeerStatus id (an_Label ann) true now addrs]> (pm_peers m))
                 (updateRemoteAddrs (pm_cfg m) id addrs) (pm_onChange m) in
      _ ← (if pe_Online existing then Return ""%string else first12 id);
      Return (m, notify m)
  | None =>
    let addrs := FilterExternallyDialableAddrs (A := A) (an_RelayAddrs ann) in
    let m := mkPresence (<[id := mkPeerStatus id (an_Label ann) true now addrs]> (pm_peers m))
               (updateRemoteAddrs (pm_cfg m) id addrs) (pm_onChange m) in
    _ ← first12 id;
    Return (m, notify m)
  end.

(** [receiveLoop] on one message of the topic. *)
Definition receive (m : Presence) (self from : string) (data : bytes) (now : Z)
  : outcome (Presence * list (list Status)) :=
  if bool_decide (from = self) then Return (m, [])
  else match unmarshal data with
       | Err _ => Return (m, [])
       | Ok ann => receive_announcement m ann now
       end.

(** ** The cold start *)

(** The lookup of one remote: the relay addresses found for it, if it is not
    known and could be reached. *)
Definition cold_lookup `{Crypto} (m : Presence) (find : bytes -> res (AddrInfo A)) (connect : AddrInfo A -> option string)
    (remote : RemoteConfig) : outcome (option (list string)) :=
  match peer_Decode (rc_NodeID remote) with
  | Err _ => Return None
  | Ok pid =>
    match pm_peers m !! rc_NodeID remote with
    | Some _ => Return None
    | None =>
      match find pid with
      | Err _ => _ ← first12 (rc_NodeID remote); Return None
      | Ok info =>
        match connect info with
        | Some _ => _ ← first12 (rc_NodeID remote); Return None
        | None =>
          _ ← first12 (rc_NodeID remote);
          let relayAddrs := FilterExternallyDialableAddrs (A := A)
            (List.filter (fun a => contains a "p2p-circuit") (ma_String <$> ai_Addrs info)) in
          Return (if bool_decide (relayAddrs = []) then None else Some relayAddrs)
        end
      end
    end
  end.
End Announcements.

(** The record of what the lookup found, under the lock again. *)
Definition cold_record (m : Presence) (remote : RemoteConfig) (addrs : list string) (now : Z)
  : Presence * list (list Status) :=
  let m := match pm_peers m !! rc_NodeID remote with
           | Some _ => m
           | None => set_peers m (<[rc_NodeID remote :=
                       mkPeerStatus (rc_NodeID remote) (rc_Label remote) true now addrs]> (pm_peers m))
           end in
  (m, notify m).

(** ** The sweep *)

Definition sweep_status (now : Z) (s : Status) : Status :=
  mkPeerStatus (pe_NodeID s) (pe_Label s) (pe_Online s && (now - pe_LastSeen s <? offlineAfter))
    (pe_LastSeen s) (pe_RelayAddrs s).

(** The peers whose state the sweep changes. *)
Definition swept (m : Presence) (now : Z) : list Status :=
  List.filter (fun s => pe_Online s && negb (pe_Online (sweep_status now s))) (snd <$> map_to_list (pm_peers m)).

Definition sweep (m : Presence) (now : Z) : outcome (Presence * list (list Status)) :=
  if existsb (fun s => (String.length (pe_NodeID s) <? 12)%nat) (swept m now)
  then Panic "slice bounds out of range"
  else
    let m' := set_peers m (sweep_status now <$> pm_peers m) in
    Return (m', if bool_decide (swept m now = []) then [] else notify m').

(** ** Runs *)

Section Runs.
Context {A : Type} `{Multiaddr A} `{Codec Announcement}.

Inductive presence_op : Type :=
  | PReceive (self from : string) (data : bytes) (now : Z)
  | PCold (remote : RemoteConfig) (addrs : list string) (now : Z)
  | PSweep (now : Z)
  | POnChange (fn : bool).

Definition presence_step (m : Presence) (o : presence_op) : outcome Presence :=
  match o with
  | PReceive self from data now => '(m, _) ← receive (A := A) m self from data now; Return m
  | PCold remote addrs now => Return (fst (cold_record m remote addrs now))
  | PSweep now => '(m, _) ← sweep m now; Return m
  | POnChange fn => Return (OnChange m fn)
  end.

Fixpoint presence_run (m : Presence) (ops : list presence_op) : outcome Presence :=
  match ops with
  | [] => Return m
  | o :: r => m ← presence_step m o; presence_run m r
  end.

(** The operation tells the addresses of a peer at a time. *)
Definition tells (o : presence_op) (id : string) (addrs : list string) (t : Z) : Prop :=
  match o with
  | PReceive self from data now =>
    from <> self /\ now = t /\ exists ann, unmarshal data = Ok ann /\ an_NodeID ann = id /\
      addrs = FilterExternallyDialableAddrs (A := A) (an_RelayAddrs ann)
  | PCold remote found now => rc_NodeID remote = id /\ addrs = found /\ now = t
  | _ => False
  end.
End Runs.

(** ** Lemmas *)

Section PresenceFacts.
Context {A : Type} `{Multiaddr A} `{Codec Announcement}.

(** Every entry is of its key, and an online entry was told by an operation. *)
Definition heard (hist : list presence_op) (m : Presence) : Prop :=
  forall id s, pm_peers m !! id = Some s -> pe_NodeID s = id /\
    (pe_Online s = true -> exists o, o ∈ hist /\ tells (A := A) o id (pe_RelayAddrs s) (pe_LastSeen s)).

Lemma heard_insert hist o m id s c fn :
  heard hist m -> pe_NodeID s = id ->
  (pe_Online s = true -> tells (A := A) o id (pe_RelayAddrs s) (pe_LastSeen s)) ->
  heard (hist ++ [o]) (mkPresence (<[id := s]> (pm_peers m)) c fn).
Proof.
  intros Hm Hid Hs j t Ht. cbn in Ht. apply lookup_insert_Some in Ht as [(-> & ->)|(Hne & Hj)].
  - split; [done|]. intros Ho. exists o. split; [set_solver|auto].
  - destruct (Hm j t Hj) as [Hn Ht]. split; [done|]. intros Ho. destruct (Ht Ho) as (o' & Ho' & ?).
    exists o'. split; [set_solver|done].
Qed.

Lemma heard_mono hist o m m' : heard hist m -> pm_peers m' = pm_peers m -> heard (hist ++ [o]) m'.
Proof.
  intros Hm He id s. rewrite He. intros Hs. destruct (Hm id s Hs) as [Hn Ht]. split; [done|].
  intros Ho. destruct (Ht Ho) as (o' & ? & ?). exists o'. split; [set_solver|done].
Qed.

Lemma heard_step hist m o m' :
  heard hist m -> presence_step (A := A) m o = Return m' -> heard (hist ++ [o]) m'.
Proof.
  intros Hm Hs. destruct o as [self from data now|remote addrs now|now|fn]; cbn [presence_step] in Hs.
  - unfold receive in Hs. case_bool_decide as Hf; [injection Hs as <-; by eapply heard_mono|].
    destruct (unmarshal data) as [ann|] eqn:Eu; [|injection Hs as <-; by eapply heard_mono].
    assert (Ht : tells (A := A) (PReceive self from data now) (an_NodeID ann)
              (FilterExternallyDialableAddrs (A := A) (an_RelayAddrs ann)) now) by (cbn; naive_solver).
    unfold receive_announcement in Hs. destruct (pm_peers m !! an_NodeID ann) as [ex|] eqn:Ep.
    + case_bool_decide; [injection Hs as <-; apply heard_insert; [done|by destruct (Hm _ _ Ep)|done]|].
      destruct (if pe_Online ex then _ else _); [|done]. injection Hs as <-. by apply heard_insert.
    + destruct (first12 _); [|done]. injection Hs as <-. by apply heard_insert.
  - injection Hs as <-. unfold cold_record. cbn [fst].
    destruct (pm_peers m !! rc_NodeID remote); [by eapply heard_mono|]. by apply heard_insert.
  - unfold sweep in Hs. destruct (existsb _ _); [done|]. injection Hs as <-.
    intros id s. cbn. rewrite lookup_fmap_Some. intros (s0 & <- & Hs0).
    destruct (Hm id s0 Hs0) as [Hn Ht]. split; [done|]. cbn. intros [Ho _]%andb_true_iff.
    destruct (Ht Ho) as (o' & ? & ?). exists o'. split; [set_solver|done].
  - injection Hs as <-. by eapply heard_mono.
Qed.

Lemma heard_run hist m ops m' :
  heard hist m -> presence_run (A := A) m ops = Return m' -> heard (hist ++ ops) m'.
Proof.
  revert hist m. induction ops as [|o ops IH]; intros hist m Hm Hr; cbn in Hr.
  - injection Hr as <-. by rewrite app_nil_r.
  - destruct (presence_step m o) as [m1|] eqn:Es; [|done]. cbn in Hr.
    apply (IH (hist ++ [o]) m1) in Hr; [by rewrite <- app_assoc in Hr|]. by eapply heard_step.
Qed.
End PresenceFacts.

(** ** Properties *)

(** C34: online means recently heard.  After a sweep, a peer is online only if
    some announcement or cold start of the run told its addresses less than
    65 seconds before the sweep, and the addresses handed out for it are
    exactly those. *)
Theorem online_means_recent {A} `{Multiaddr A} `{Codec Announcement} c fn ops m now m' calls id
  (Hr : presence_run (A := A) (mkPresence ∅ c fn) ops = Return m)
  (Hs : sweep m now = Return (m', calls))
  (Ho : IsOnline m' id = true) :
  exists o t, o ∈ ops /\ tells (A := A) o id (GetPeerAddrs m' id) t /\ now - t < offlineAfter.
Proof.
  assert (Hh : heard (A := A) ops m).
  { apply (heard_run [] (mkPresence ∅ c fn) ops m); [|done]. intros j s Hj. cbn in Hj. by rewrite lookup_empty in Hj. }
  unfold sweep in Hs. destruct (existsb _ _); [done|]. injection Hs as <- _.
  unfold IsOnline, GetPeerAddrs in *. cbn [pm_peers set_peers] in *. rewrite lookup_fmap in *.
  destruct (pm_peers m !! id) as [s|] eqn:Es; [|done]. cbn in Ho |- *. rewrite Ho.
  apply andb_true_iff in Ho as [Ho Hage]. go_bool.
  destruct (Hh id s Es) as [_ Ht]. destruct (Ht Ho) as (o & ? & ?). by exists o, (pe_LastSeen s).
Qed.

(** A peer can crash the process.  The receive loop panics exactly on a
    message of another node that decodes to an announcement with a node id
    shorter than twelve bytes, unless that id is online already or it is the
    goodbye of a known id; nothing checks that the id is the sender's. *)
Lemma receive_panics_iff {A} `{Multiaddr A} `{Codec Announcement} (m : Presence) self from data now :
  (exists msg, receive (A := A) m self from data now = Panic msg) <->
  from <> self /\ exists ann, unmarshal data = Ok ann /\ (String.length (an_NodeID ann) < 12)%nat /\
    IsOnline m (an_NodeID ann) = false /\
    (an_RelayAddrs ann = [] -> pm_peers m !! an_NodeID ann = None).
Proof.
  assert (Hf : forall s : string, (exists msg, first12 s = Panic msg) <-> (String.length s < 12)%nat).
  { intros s. pose proof (first12_return s) as Hl. destruct (first12 s) as [t|msg].
    - split; [by intros [? ?]|]. destruct (proj2 Hl) as []; [by exists t|lia..].
    - split; [|by eexists]. intros _. destruct (Nat.lt_ge_cases (String.length s) 12) as [|Hge]; [done|].
      by destruct (proj1 Hl Hge). }
  unfold receive. case_bool_decide as Hs; [naive_solver|].
  destruct (unmarshal data) as [ann|] eqn:Eu; [|naive_solver].
  unfold receive_announcement, IsOnline. specialize (Hf (an_NodeID ann)).
  destruct (pm_peers m !! an_NodeID ann) as [ex|] eqn:Ep.
  - case_bool_decide as Hg; [naive_solver|]. destruct (pe_Online ex) eqn:Eo.
    + split; [by intros [? ?]|]. intros (_ & ? & [= <-] & _ & Hon & _). by rewrite Ep, Eo in Hon.
    + destruct (first12 (an_NodeID ann)) as [t|msg]; cbn.
      * split; [by intros [? ?]|]. intros (_ & ? & [= <-] & Hlen & _). apply Hf in Hlen as [? ?]. done.
      * split; [intros _|by eexists]. split; [done|]. exists ann. rewrite Ep, Eo. naive_solver.
  - destruct (first12 (an_NodeID ann)) as [t|msg]; cbn.
    + split; [by intros [? ?]|]. intros (_ & ? & [= <-] & Hlen & _). apply Hf in Hlen as [? ?]. done.
    + split; [intros _|by eexists]. split; [done|]. exists ann. rewrite Ep. naive_solver.
Qed.

Definition sample_peer : string := "12D3KooWpeer".
Definition sample_announcement : Announcement :=
  mkAnnouncement sample_peer "desk" ["/ip4/1.2.3.4/tcp/4001"%string; "/ip4/127.0.0.1/tcp/4001"%string] 0.
#[local] Instance sample_codec : Codec Announcement :=
  {| marshal _ := Ok [x7b; x7d];
     unmarshal b := if decide (b = [x7b; x7d]) then Ok sample_announcement
                    else Ok (mkAnnouncement (of_bytes b) "" [] 0) |}.
Definition no_peers : Presence := mkPresence ∅ (defaultConfig (Ok "h")) true.
Definition heard_ops : list presence_op :=
  [PReceive "self" "other" [x7b; x7d] (10 * second); PSweep (20 * second)].
Definition heard_table : Presence :=
  match presence_run (A := toy_maddr) no_peers heard_ops with Return m => m | Panic _ => no_peers end.
Definition heard_swept : Presence * list (list Status) :=
  match sweep heard_table (70 * second) with Return r => r | Panic _ => (no_peers, []) end.

Lemma online_means_recent_witness :
  exists o t, o ∈ heard_ops /\ tells (A := toy_maddr) o sample_peer ["/ip4/1.2.3.4/tcp/4001"%string] t /\
    70 * second - t < offlineAfter.
Proof.
  assert (Hr : presence_run (A := toy_maddr) no_peers heard_ops = Return heard_table) by (vm_compute; reflexivity).
  assert (Hs : sweep heard_table (70 * second) = Return (fst heard_swept, snd heard_swept)) by (vm_compute; reflexivity).
  assert (Ho : IsOnline (fst heard_swept) sample_peer = true) by (vm_compute; reflexivity).
  assert (Ha : GetPeerAddrs (fst heard_swept) sample_peer = ["/ip4/1.2.3.4/tcp/4001"%string]) by (vm_compute; reflexivity).
  rewrite <- Ha.
  exact (online_means_recent (A := toy_maddr) (defaultConfig (Ok "h")) true heard_ops heard_table (70 * second)
    (fst heard_swept) (snd heard_swept) sample_peer Hr Hs Ho).
Defined.

(** The goodbye of a peer not heard before puts it online, without addresses. *)
Lemma unknown_goodbye_is_online :
  match receive (A := toy_maddr) no_peers "self" "other" (to_bytes "12D3KooWquiet") second with
  | Return (m, _) => IsOnline m "12D3KooWquiet" = true /\ GetPeerAddrs m "12D3KooWquiet" = []
  | Panic _ => False
  end.
Proof. vm_compute. done. Qed.

(** An announcement without a node id ends the process. *)
Lemma empty_id_panics :
  receive (A := toy_maddr) no_peers "self" "other" [] second = Panic "slice bounds out of range".
Proof. vm_compute. done. Qed.
