(* ===== verification/LocalProxy.v ===== *)
(** * LocalProxy: the client's local listener of [internal/tunnel/tunnel.go]

    [LocalProxy] tracks the local connections and the remote streams it
    bridges.  Each method is atomic under the proxy's lock except [Close],
    whose last part ([notifyClosed]) is a step of its own. *)

From S2P Require Import Prelude GoStrings.
From stdpp Require Import gmap sets.

(** Connections, remote streams and callbacks are numbered. *)
Record proxyStream : Type := mkStream { ps_client : nat; ps_remote : option nat }.

(** What the proxy does to the outside. *)
Inductive proxy_event : Type :=
  | ClosedConn (c : nat)
  | ClosedRemote (r : nat)
  | ClosedListener
  | Fired (fn : nat).
#[export] Instance proxy_event_eq_dec : EqDecision proxy_event.
Proof. solve_decision. Defined.

Record LocalProxy : Type := mkProxy {
  conns : gset nat;
  streams : gmap string proxyStream;
  connectionPath : string;
  connectionAddr : string;
  closed : bool;
  onClose : option (list nat);   (** the composed callback, oldest first *)
  closeOnce : bool;              (** [closeOnce] has run *)
  events : list proxy_event;     (** newest last *)
}.

Definition newLocalProxy : LocalProxy := mkProxy ∅ ∅ "" "" false None false [].

(** ** Updates *)

Definition set_tables (p : LocalProxy) (cs : gset nat) (ss : gmap string proxyStream) (cl : bool)
    (ev : list proxy_event) : LocalProxy :=
  mkProxy cs ss (connectionPath p) (connectionAddr p) cl (onClose p) (closeOnce p) (events p ++ ev).

Definition close_remote (r : option nat) : list proxy_event :=
  match r with Some r => [ClosedRemote r] | None => [] end.

(** ** Methods *)

Definition normalizeConnectionPath (path : string) : string :=
  let p := to_lower (trim_space path) in
  if bool_decide (p = "direct") then "direct"
  else if bool_decide (p = "relay") || bool_decide (p = "relayed") then "relayed"
  else if bool_decide (p = "iroh_virtual") then "direct" else "unknown".

Definition SetConnectionPath (p : LocalProxy) (path addr : string) : LocalProxy :=
  let path := normalizeConnectionPath path in
  if bool_decide (path = "") || bool_decide (path = "unknown") then p
  else mkProxy (conns p) (streams p) path
         (if bool_decide (trim_space addr <> "") then trim_space addr else connectionAddr p)
         (closed p) (onClose p) (closeOnce p) (events p).

Definition ConnectionPath (p : LocalProxy) : string :=
  if bool_decide (connectionPath p = "") then "unknown" else connectionPath p.

(** [SetOnClose(fn)]; [None] is a nil function. *)
Definition SetOnClose (p : LocalProxy) (fn : option nat) : LocalProxy :=
  let composed := match onClose p, fn with
                  | None, None => None
                  | None, Some f => Some [f]
                  | Some prev, None => Some prev
                  | Some prev, Some f => Some (prev ++ [f])
                  end in
  mkProxy (conns p) (streams p) (connectionPath p) (connectionAddr p) (closed p) composed (closeOnce p)
    (events p ++ match fn with Some f => if closed p then [Fired f] else [] | None => [] end).

Definition track (p : LocalProxy) (conn : nat) : LocalProxy :=
  if closed p then set_tables p (conns p) (streams p) true [ClosedConn conn]
  else set_tables p ({[conn]} ∪ conns p) (streams p) false [].

Definition untrack (p : LocalProxy) (conn : nat) : LocalProxy :=
  set_tables p (conns p ∖ {[conn]}) (streams p) (closed p) [].

Definition trackStream (p : LocalProxy) (streamID : string) (client : nat) (remote : option nat)
  : LocalProxy * bool :=
  if closed p then (set_tables p (conns p) (streams p) true (ClosedConn client :: close_remote remote), false)
  else (set_tables p ({[client]} ∪ conns p) (<[streamID := mkStream client remote]> (streams p)) false [], true).

Definition untrackStream (p : LocalProxy) (streamID : string) (client : nat) : LocalProxy :=
  set_tables p (conns p ∖ {[client]}) (delete streamID (streams p)) (closed p) [].

Definition CloseStream (p : LocalProxy) (streamID : string) : LocalProxy :=
  match streams p !! streamID with
  | None => p
  | Some s => set_tables p (conns p ∖ {[ps_client s]}) (delete streamID (streams p)) (closed p)
                (ClosedConn (ps_client s) :: close_remote (ps_remote s))
  end.

(** The connections and remotes of the tables, in some order of the maps. *)
Definition close_all (p : LocalProxy) : list proxy_event :=
  (ClosedConn <$> elements (conns p)) ++
  concat ((fun kv => close_remote (ps_remote (snd kv))) <$> map_to_list (streams p)).

(** [Close] up to [notifyClosed]; a second call does nothing. *)
Definition Close (p : LocalProxy) : LocalProxy :=
  if closed p then p else set_tables p ∅ ∅ true (ClosedListener :: close_all p).

Definition notifyClosed (p : LocalProxy) : LocalProxy :=
  if closeOnce p then p
  else mkProxy (conns p) (streams p) (connectionPath p) (connectionAddr p) (closed p) (onClose p) true
         (events p ++ match onClose p with Some fns => Fired <$> fns | None => [] end).

Definition CloseConnections (p : LocalProxy) : LocalProxy :=
  set_tables p ∅ ∅ (closed p) (close_all p).

Definition ActiveClients (p : LocalProxy) : nat := size (conns p).
Definition ActiveStreams (p : LocalProxy) : nat := size (streams p).

(** ** Runs *)

(** The steps of the goroutines that share a proxy, in the order they take its
    lock. *)
Inductive proxy_op : Type :=
  | OpTrack (c : nat)
  | OpUntrack (c : nat)
  | OpTrackStream (id : string) (c : nat) (r : option nat)
  | OpUntrackStream (id : string) (c : nat)
  | OpCloseStream (id : string)
  | OpClose
  | OpNotify
  | OpCloseConnections
  | OpSetOnClose (fn : option nat)
  | OpSetPath (path addr : string).

Definition apply_proxy (p : LocalProxy) (o : proxy_op) : LocalProxy :=
  match o with
  | OpTrack c => track p c
  | OpUntrack c => untrack p c
  | OpTrackStream id c r => fst (trackStream p id c r)
  | OpUntrackStream id c => untrackStream p id c
  | OpCloseStream id => CloseStream p id
  | OpClose => Close p
  | OpNotify => notifyClosed p
  | OpCloseConnections => CloseConnections p
  | OpSetOnClose fn => SetOnClose p fn
  | OpSetPath path addr => SetConnectionPath p path addr
  end.

Definition run_proxy (p : LocalProxy) (ops : list proxy_op) : LocalProxy := fold_left apply_proxy ops p.

(** ** Specification *)

(** The connections handed to the proxy, and those a bridge gave back. *)
Definition hands_conn (c : nat) (o : proxy_op) : bool :=
  match o with
  | OpTrack c' | OpTrackStream _ c' _ => bool_decide (c' = c)
  | _ => false
  end.

Definition gives_back (c : nat) (o : proxy_op) : bool :=
  match o with
  | OpUntrack c' | OpUntrackStream _ c' => bool_decide (c' = c)
  | _ => false
  end.

Definition hands_remote (id : string) (r : nat) (o : proxy_op) : bool :=
  match o with OpTrackStream id' _ r' => bool_decide (id' = id /\ r' = Some r) | _ => false end.

(** The stream id is given back, or used for another stream. *)
Definition frees_id (id : string) (r : nat) (o : proxy_op) : bool :=
  match o with
  | OpUntrackStream id' _ => bool_decide (id' = id)
  | OpTrackStream id' _ r' => bool_decide (id' = id /\ r' <> Some r)
  | _ => false
  end.

(** ** Lemmas *)

Definition held (p : LocalProxy) (id : string) (r : nat) : Prop :=
  exists s, streams p !! id = Some s /\ ps_remote s = Some r.

Record proxy_inv (ops : list proxy_op) (p : LocalProxy) : Prop := {
  inv_closed : closed p = true -> conns p = ∅ /\ streams p = ∅;
  inv_conn c : existsb (hands_conn c) ops = true -> existsb (gives_back c) ops = false ->
    c ∈ conns p \/ ClosedConn c ∈ events p;
  inv_remote id r : existsb (hands_remote id r) ops = true -> existsb (frees_id id r) ops = false ->
    held p id r \/ ClosedRemote r ∈ events p;
}.

Lemma close_all_conn p c : c ∈ conns p -> ClosedConn c ∈ close_all p.
Proof.
  intros Hc. apply elem_of_app. left. apply list_elem_of_fmap. exists c.
  split; [done|]. by apply elem_of_elements.
Qed.

Lemma close_all_remote p id r : held p id r -> ClosedRemote r ∈ close_all p.
Proof.
  intros (s & Hs & Hr). apply elem_of_app. right. apply list_elem_of_In, in_concat.
  exists (close_remote (ps_remote s)). split.
  - apply list_elem_of_In, list_elem_of_fmap. exists (id, s). split; [done|]. by apply elem_of_map_to_list.
  - rewrite Hr. by left.
Qed.

Lemma existsb_snoc {A} (f : A -> bool) l x : existsb f (l ++ [x]) = existsb f l || f x.
Proof. rewrite existsb_app. cbn. by rewrite orb_false_r. Qed.

Ltac proxy_cases o :=
  destruct o; cbn [apply_proxy]; unfold track, untrack, trackStream, untrackStream, CloseStream, Close,
    notifyClosed, CloseConnections, SetConnectionPath, SetOnClose in *; repeat case_match; cbn in *.

Lemma events_mono p o e : e ∈ events p -> e ∈ events (apply_proxy p o).
Proof. intros He. proxy_cases o; rewrite ?elem_of_app; auto. Qed.

(** A tracked connection stays tracked or is closed, unless it is given back. *)
Lemma conn_kept p o c :
  c ∈ conns p -> gives_back c o = false ->
  c ∈ conns (apply_proxy p o) \/ ClosedConn c ∈ events (apply_proxy p o).
Proof.
  intros Hc Hg. pose proof (close_all_conn p c Hc) as Ha.
  proxy_cases o; go_bool; rewrite ?elem_of_app, ?elem_of_cons;
    try (first [left; exact Hc|right; right; right; exact Ha|right; right; exact Ha|left; clear Ha; set_solver]).
  destruct (decide (c = ps_client p0)) as [->|]; set_solver.
Qed.

Lemma conn_handed p o c :
  hands_conn c o = true ->
  c ∈ conns (apply_proxy p o) \/ ClosedConn c ∈ events (apply_proxy p o).
Proof.
  intros Hh. proxy_cases o; try discriminate; go_bool; subst; rewrite ?elem_of_app, ?elem_of_cons; set_solver.
Qed.

Lemma remote_kept p o id r :
  held p id r -> frees_id id r o = false ->
  held (apply_proxy p o) id r \/ ClosedRemote r ∈ events (apply_proxy p o).
Proof.
  intros Hh Hf. pose proof (close_all_remote p id r Hh) as Ha. destruct Hh as (s & Hs & Hr).
  unfold held. proxy_cases o; go_bool; rewrite ?elem_of_app, ?elem_of_cons; eauto.
  - left. destruct (decide (id0 = id)) as [->|Hne].
    + rewrite lookup_insert_eq. eexists. split; [done|]. cbn.
      destruct (decide (r0 = Some r)) as [|Hn]; [done|]. by destruct Hf.
    + rewrite lookup_insert_ne by done. eauto.
  - left. rewrite lookup_delete_ne by done. eauto.
  - destruct (decide (id0 = id)) as [->|Hne].
    + right. right. right. replace p0 with s by congruence. rewrite Hr. by left.
    + left. rewrite lookup_delete_ne by done. eauto.
Qed.

Lemma remote_handed p o id r :
  hands_remote id r o = true ->
  held (apply_proxy p o) id r \/ ClosedRemote r ∈ events (apply_proxy p o).
Proof.
  intros Hh. unfold held. proxy_cases o; try discriminate; go_bool; destruct Hh as [-> ->].
  - right. apply elem_of_app. right. right. left.
  - left. rewrite lookup_insert_eq. by eexists.
Qed.

Lemma closed_step p o :
  (closed p = true -> conns p = ∅ /\ streams p = ∅) ->
  closed (apply_proxy p o) = true -> conns (apply_proxy p o) = ∅ /\ streams (apply_proxy p o) = ∅.
Proof.
  intros Hc. proxy_cases o; try done; intros Hcl; try (destruct (Hc Hcl) as [-> ->]); try done;
    rewrite ?delete_empty; split; set_solver.
Qed.

Lemma proxy_step ops p o : proxy_inv ops p -> proxy_inv (ops ++ [o]) (apply_proxy p o).
Proof.
  intros [Hc Hcon Hrem]. split.
  - by apply closed_step.
  - intros c. rewrite !existsb_snoc, orb_true_iff, orb_false_iff. intros [Hh|Hh] [Hg Hgo]; [|by apply conn_handed].
    destruct (Hcon c Hh Hg) as [Hin|Hev]; [by apply conn_kept|right; by apply events_mono].
  - intros id r. rewrite !existsb_snoc, orb_true_iff, orb_false_iff.
    intros [Hh|Hh] [Hg Hgo]; [|by apply remote_handed].
    destruct (Hrem id r Hh Hg) as [Hin|Hev]; [by apply remote_kept|right; by apply events_mono].
Qed.

Lemma run_proxy_inv ops : proxy_inv ops (run_proxy newLocalProxy ops).
Proof.
  induction ops as [|o ops IH] using rev_ind.
  - split; cbn; [done| |]; by intros.
  - unfold run_proxy. rewrite fold_left_app. cbn. by apply proxy_step.
Qed.

(** ** Properties *)

(** A closed proxy leaves nothing open.  In every interleaving of the
    proxy's methods that contains [Close], every connection handed to the
    proxy, before or after, was closed unless its bridge gave it back, every
    remote stream was closed unless its stream id was given back or reused,
    the tables are empty, and closing again changes nothing. *)
Lemma proxy_leaves_nothing_open ops (Hc : closed (run_proxy newLocalProxy ops) = true) :
  let p := run_proxy newLocalProxy ops in
  conns p = ∅ /\ streams p = ∅ /\ Close p = p /\
  (forall c, existsb (hands_conn c) ops = true -> existsb (gives_back c) ops = false ->
     ClosedConn c ∈ events p) /\
  (forall id r, existsb (hands_remote id r) ops = true -> existsb (frees_id id r) ops = false ->
     ClosedRemote r ∈ events p).
Proof.
  intros p. destruct (run_proxy_inv ops) as [Hcl Hcon Hrem]. fold p in Hc, Hcl, Hcon, Hrem.
  destruct (Hcl Hc) as [He1 He2]. split; [done|]. split; [done|]. split; [unfold Close; by rewrite Hc|]. split.
  - intros c Hh Hg. destruct (Hcon c Hh Hg) as [Hin|]; [|done]. rewrite He1 in Hin. set_solver.
  - intros id r Hh Hg. destruct (Hrem id r Hh Hg) as [(s & Hs & _)|]; [|done]. by rewrite He2, lookup_empty in Hs.
Qed.

Lemma proxy_leaves_nothing_open_witness :
  closed (run_proxy newLocalProxy [OpTrack 1; OpTrackStream "s" 1 (Some 7%nat); OpClose; OpTrackStream "t" 2 (Some 8%nat)]) = true /\
  ClosedRemote 8 ∈ events (run_proxy newLocalProxy
    [OpTrack 1; OpTrackStream "s" 1 (Some 7%nat); OpClose; OpTrackStream "t" 2 (Some 8%nat)]).
Proof.
  assert (Hc : closed (run_proxy newLocalProxy [OpTrack 1; OpTrackStream "s" 1 (Some 7%nat); OpClose;
    OpTrackStream "t" 2 (Some 8%nat)]) = true) by (vm_compute; reflexivity).
  split; [exact Hc|].
  refine (proj2 (proj2 (proj2 (proj2 (proxy_leaves_nothing_open _ Hc)))) "t"%string 8%nat _ _);
    vm_compute; reflexivity.
Defined.

(** A callback registered between the two parts of [Close] fires twice. *)
Example callback_fires_twice :
  events (run_proxy newLocalProxy [OpClose; OpSetOnClose (Some 1%nat); OpNotify])
    = [ClosedListener; Fired 1; Fired 1].
Proof. by vm_compute. Qed.
