(* ===== verification/Netbackend.v ===== *)
(** * Netbackend: the transport backends of [internal/netbackend/netbackend.go]

    The registry that maps names to backends, and the libp2p and iroh backends
    built on the node and on the sidecar.  A backend is a record of its
    operations; the optional interfaces it may implement are options. *)

From S2P Require Import Prelude GoStrings Crypto Config NetNode.

Definition BackendLibp2pRelay : string := "libp2p_relay".
Definition BackendLibp2pDHT : string := "libp2p_dht".
Definition BackendIroh : string := "iroh".
Definition BackendBitTorrentDHT : string := "bittorrent_dht".

Record Target : Type := mkTarget {
  t_PeerID : string;
  t_RelayAddrs : list string;
  t_IrohTicket : string;
  t_QUICEndpoint : string;
}.

Record PairingTarget : Type := mkPairingTarget {
  pt_Backend : string;
  pt_PeerID : string;
  pt_PublicKeyHex : string;
  pt_IrohTicket : string;
  pt_RelayAddrs : list string;
  pt_PresenceAddrs : list string;
  pt_StoredAddrs : list string;
  pt_DirectQUICAddrs : list string;
}.

Section Backends.
Context {St : Type}.

Record PairingSession : Type := mkPairingSession {
  s_Stream : St;
  s_RelayAddrs : list string;
  s_IrohTicket : string;
  s_DirectQUICAddrs : list string;
  s_QUICEndpoint : string;
}.

(** [StreamBackend] with the optional [PairingSessionBackend],
    [LifecycleBackend], [TunnelCloser] and [DisplayAddrBackend]. *)
Record StreamBackend : Type := mkBackend {
  sb_Name : string;
  sb_OpenPairing : Target -> res St;
  sb_OpenTunnel : Target -> res St;
  sb_session : option (PairingTarget -> outcome (res PairingSession));
  sb_lifecycle : option ((string -> option string) * option string);   (** [Start], [Stop] *)
  sb_CloseTunnel : option (string -> string -> Z);
  sb_display : option (Target -> string);
}.

#[local] Notation Registry := (gmap string StreamBackend).
Definition NewRegistry : Registry := ∅.

Definition Register (r : Registry) (backend : option StreamBackend) (aliases : list string) : Registry :=
  match backend with
  | None => r
  | Some b => fold_left (fun r name => if bool_decide (name = "") then r else <[name := b]> r)
                (sb_Name b :: aliases) r
  end.

Definition Unregister (r : Registry) (names : list string) : Registry :=
  fold_left (fun r name => delete name r) names r.

Definition Get (r : Registry) (name : string) : option StreamBackend := r !! name.

Definition MustGet (r : Registry) (name : string) : res StreamBackend :=
  of_option (name ++ " backend is not running")%string (Get r name).

Definition Start (r : Registry) (name : string) : option string :=
  match MustGet r name with
  | Err err => Some err
  | Ok b => match sb_lifecycle b with None => None | Some (start, _) => start name end
  end.

Definition Stop (r : Registry) (name : string) : option string :=
  match Get r name with
  | None => None
  | Some b => match sb_lifecycle b with None => None | Some (_, stop) => stop end
  end.

Definition OpenPairingSession (r : Registry) (name : string) (target : PairingTarget)
  : outcome (res PairingSession) :=
  match MustGet r name with
  | Err err => Return (Err err)
  | Ok b =>
    let target := mkPairingTarget name (pt_PeerID target) (pt_PublicKeyHex target) (pt_IrohTicket target)
      (pt_RelayAddrs target) (pt_PresenceAddrs target) (pt_StoredAddrs target) (pt_DirectQUICAddrs target) in
    match sb_session b with
    | Some f => f target
    | None =>
      Return (stream ← sb_OpenPairing b (mkTarget (pt_PeerID target) (pt_RelayAddrs target)
                                           (pt_IrohTicket target) "");
              Ok (mkPairingSession stream (pt_RelayAddrs target) (pt_IrohTicket target)
                    (pt_DirectQUICAddrs target) ""))
    end
  end.

(** ** The libp2p backend *)

(** What the libp2p backend meets on the network. *)
Record libp2p_env (A : Type) : Type := mkLibp2pEnv {
  le_connect : AddrInfo A -> option string;
  le_stream : string -> bytes -> res St;          (** protocol, peer *)
  le_dht : dht_env A;
  le_order : list candidate -> list candidate;     (** arrival order of the probes *)
}.

Section Libp2p.
Context {A : Type} `{Multiaddr A} `{Crypto}.

Definition not_running {B} (backend : string) : res B := Err (backend ++ " backend is not running")%string.

Definition libp2p_OpenPairing (n : option (NodeState A)) (e : libp2p_env A) (t : Target) : res St :=
  match n with
  | None => not_running "libp2p"
  | Some n => OpenPairing n (le_connect A e) (le_stream A e) (t_PeerID t) (t_RelayAddrs t)
  end.

Definition libp2p_OpenTunnel (n : option (NodeState A)) (e : libp2p_env A) (t : Target) : res St :=
  match n with
  | None => not_running "libp2p"
  | Some n => OpenTunnel n (le_connect A e) (le_stream A e) (t_PeerID t) (t_RelayAddrs t)
  end.

(** The addresses the DHT has for the peer, when the backend is the DHT. *)
Definition dht_pairing_addrs (n : NodeState A) (e : libp2p_env A) (t : PairingTarget) : res (list string) :=
  match FindIdentityAddrs n (le_dht A e) (pt_PublicKeyHex t) (pt_PeerID t) with
  | Ok addrs => Ok addrs
  | Err _ => FindPeerAddrs (le_dht A e) (pt_PeerID t)
  end.

Definition libp2p_OpenPairingSession (n : option (NodeState A)) (e : libp2p_env A) (t : PairingTarget)
  : outcome (res PairingSession) :=
  match n with
  | None => Return (not_running "libp2p")
  | Some nd =>
    let found := if bool_decide (pt_RelayAddrs t = []) && bool_decide (pt_Backend t = BackendLibp2pDHT)
                 then dht_pairing_addrs nd e t else Ok (pt_RelayAddrs t) in
    match found with
    | Err err => Return (Err err)
    | Ok relayAddrs =>
      resolved ← (if bool_decide (relayAddrs = []) then
                    r ← ResolveAddrs nd (le_connect A e) (pt_PeerID t) (pt_PresenceAddrs t)
                          (pt_StoredAddrs t) [] (le_order A e);
                    Return (c_addrs <$> r)
                  else Return (Ok relayAddrs));
      Return (relayAddrs ← resolved;
              stream ← libp2p_OpenPairing n e (mkTarget (pt_PeerID t) relayAddrs "" "");
              Ok (mkPairingSession stream relayAddrs "" [] ""))
    end
  end.

Definition Libp2pBackend (n : option (NodeState A)) (e : libp2p_env A)
    (start : string -> option string) (stop : option string) : StreamBackend :=
  mkBackend BackendLibp2pRelay (libp2p_OpenPairing n e) (libp2p_OpenTunnel n e)
    (Some (libp2p_OpenPairingSession n e)) (Some (start, stop)) None None.
End Libp2p.

(** ** The iroh backend *)

(** The sidecar the backend wraps. *)
Record iroh_inner : Type := mkIrohInner {
  in_Ticket : res string;
  in_OpenPairing : string -> res St;
  in_OpenTunnel : string -> res St;
  in_CloseTunnel : string -> string -> Z;
}.

Definition TicketContext (b : option iroh_inner) : res string :=
  match b with None => not_running "iroh" | Some i => in_Ticket i end.

Definition iroh_OpenPairing (b : option iroh_inner) (t : Target) : res St :=
  match b with None => not_running "iroh" | Some i => in_OpenPairing i (t_IrohTicket t) end.

Definition iroh_OpenTunnel (b : option iroh_inner) (t : Target) : res St :=
  match b with None => not_running "iroh" | Some i => in_OpenTunnel i (t_IrohTicket t) end.

Definition iroh_OpenPairingSession (b : option iroh_inner) (t : PairingTarget)
  : outcome (res PairingSession) :=
  Return (if bool_decide (trim_space (pt_IrohTicket t) = "")
          then Err "paired remote has no iroh endpoint ticket"
          else stream ← iroh_OpenPairing b (mkTarget (pt_PeerID t) [] (pt_IrohTicket t) "");
               Ok (mkPairingSession stream [] (pt_IrohTicket t) [] "")).

Definition iroh_CloseTunnel (b : option iroh_inner) (peerID reason : string) : Z :=
  match b with None => 0 | Some i => in_CloseTunnel i peerID reason end.

Definition IrohSidecarBackend (b : option iroh_inner) : StreamBackend :=
  mkBackend BackendIroh (iroh_OpenPairing b) (iroh_OpenTunnel b) (Some (iroh_OpenPairingSession b)) None
    (Some (iroh_CloseTunnel b)) None.
End Backends.

Arguments PairingSession St : clear implicits.
Arguments StreamBackend St : clear implicits.
Notation Registry St := (gmap string (StreamBackend St)).
Arguments libp2p_env St A : clear implicits.
Arguments iroh_inner St : clear implicits.

(** ** Lemmas *)

Section RegistryFacts.
Context {St : Type}.
Implicit Type r : Registry St.

(** A registered backend answers to its name and its aliases, and the other
    names are not touched. *)
Lemma Register_lookup r b aliases name :
  Get (Register r (Some b) aliases) name =
    if bool_decide (name <> "" /\ name ∈ sb_Name b :: aliases) then Some b else Get r name.
Proof. apply insert_each_lookup. Qed.

Lemma Unregister_lookup r names name :
  Get (Unregister r names) name = if bool_decide (name ∈ names) then None else Get r name.
Proof. apply delete_each_lookup. Qed.
End RegistryFacts.
