(* ===== verification/BtDht.v ===== *)
(** * BtDht: the BitTorrent DHT client of [internal/btdht]

    The record a node publishes and looks up ([btdht.go]), its bencoding, and
    the direct QUIC backend that dials the addresses of a record
    ([backend.go]).  The DHT itself, ed25519 and the QUIC transport are
    arguments. *)

From S2P Require Import Prelude GoStrings GoNet Crypto Wire Config NetNode Netbackend.

Definition recordMaxAge : Z := 2 * hour.
Definition recordSchema : Z := 1.

(** [Record] *)
Record Announced : Type := mkAnnounced {
  rec_Version : Z;
  rec_NodeID : string;
  rec_Label : string;
  rec_RelayAddrs : list string;
  rec_DirectQUICAddrs : list string;
  rec_Timestamp : Z;
}.

(** ** Bencoded byte strings *)

(** The loop to the colon: its index, or -1. *)
Fixpoint bencode_colon (i : Z) (l : bytes) : res Z :=
  match l with
  | [] => Ok (-1)
  | b :: r => if bool_decide (b = x3a) then Ok i
              else match digit_val b with
                   | None => Err "invalid byte string length"
                   | Some _ => bencode_colon (i + 1) r
                   end
  end.

(** [decodeBencodeBytes]: [start+n] is an [int] sum, and the slice
    [in[start:start+n]] panics when it wraps. *)
Definition decodeBencodeBytes (l : bytes) : outcome (res bytes) :=
  match bencode_colon 0 l with
  | Err err => Return (Err err)
  | Ok colon =>
    if colon <=? 0 then Return (Err "missing byte string separator")
    else match atoi (of_bytes (take (Z.to_nat colon) l)) with
         | None => Return (Err "strconv.Atoi: value out of range")
         | Some n =>
           let start := colon + 1 in
           let stop := i64 (start + n) in
           if (n <? 0) || (Z.of_nat (length l) <? stop) then Return (Err "byte string length exceeds payload")
           else if stop <? start then Panic "slice bounds out of range"
           else Return (Ok (take (Z.to_nat n) (drop (Z.to_nat start) l)))
         end
  end.

(** ** The client *)

Record Client : Type := mkClient {
  cl_ready : bool;
  cl_lastError : string;
  cl_lastPublishErr : string;
  cl_lastPublished : Z;
}.

Definition newClient : Client := mkClient false "" "" zero_time.

Definition setStatus (c : Client) (ready : bool) (err : string) : Client :=
  mkClient ready err (cl_lastPublishErr c) (cl_lastPublished c).

Definition setPublishStatus (c : Client) (err : string) (at_ : Z) : Client :=
  mkClient (cl_ready c) (cl_lastError c) err (if is_zero_time at_ then cl_lastPublished c else at_).

(** How a call with a deadline ends: well, with an error in time, or with an
    error and the deadline passed. *)
Inductive call_end : Type :=
  | Done
  | Failed (err : string)
  | TimedOut (err : string).

(** [err != nil && ctx.Err() == nil] *)
Definition failed_in_time (e : call_end) : option string :=
  match e with Failed err => Some err | _ => None end.

Definition bootstrap (c : Client) (e : call_end) : Client :=
  match failed_in_time e with
  | Some err => setStatus c false err
  | None => setStatus c true ""
  end.

(** [PublishNow]: the client after it, and the record it put. *)
Definition PublishNow `{Codec Announced} (c : Client) (nodeID label : string) (addrs quicAddrs : list string)
    (stamp now : Z) (put : bytes -> call_end) : Client * option Announced :=
  if bool_decide (addrs = []) && bool_decide (quicAddrs = [])
  then (setPublishStatus c "no relay or direct QUIC addresses available to publish" zero_time, None)
  else
    let rec := mkAnnounced recordSchema nodeID label addrs quicAddrs (unix stamp) in
    match marshal rec with
    | Err err => (setPublishStatus c err zero_time, None)
    | Ok payload =>
      match failed_in_time (put payload) with
      | Some err => (setPublishStatus c err zero_time, Some rec)
      | None => (setPublishStatus c "" now, Some rec)
      end
    end.

(** [WaitReady]: the states seen, one per tick, until the context ends. *)
Fixpoint WaitReady_loop (seen : list Client) : res unit :=
  match seen with
  | [] => Err "BitTorrent DHT not ready"
  | c :: r =>
    if cl_ready c then Ok tt
    else match r with
         | [] => if bool_decide (cl_lastError c <> "")
                 then Err ("BitTorrent DHT not ready: " ++ cl_lastError c)%string
                 else Err "BitTorrent DHT not ready"
         | _ => WaitReady_loop r
         end
  end.
Definition WaitReady (c : option unit) (seen : list Client) : res unit :=
  match c with None => Err "BitTorrent DHT disabled" | Some _ => WaitReady_loop seen end.

Section Lookup.
Context `{Codec Announced}.

(** [LookupRecord]; [fetch] is the DHT's answer for a public key. *)
Definition LookupRecord (fetch : option (bytes -> res bytes)) (now : Z) (publicKeyHex expectedNodeID : string)
  : outcome (res Announced) :=
  match fetch with
  | None => Return (Err "BitTorrent DHT disabled")
  | Some fetch =>
    match hex_decode publicKeyHex with
    | None => Return (Err "decode public key: encoding/hex: invalid byte")
    | Some key =>
      if negb (length key =? 32)%nat then Return (Err "public key must be 32 bytes")
      else match fetch key with
           | Err err => Return (Err err)
           | Ok value =>
             decoded ← decodeBencodeBytes value;
             Return (
               encoded ← wrap_err "decode record: " decoded;
               rec ← wrap_err "decode record json: " (unmarshal (A := Announced) encoded);
               if negb (rec_Version rec =? recordSchema)
               then Err ("unsupported record schema " ++ itoa (rec_Version rec))%string
               else if bool_decide (expectedNodeID <> "") && bool_decide (rec_NodeID rec <> expectedNodeID)
               then Err "record node mismatch"
               else if recordMaxAge <? now - of_unix (rec_Timestamp rec) then Err "record is stale"
               else Ok rec)
           end
    end
  end.

Definition Lookup (fetch : option (bytes -> res bytes)) (now : Z) (publicKeyHex expectedNodeID : string)
  : outcome (res (list string)) :=
  r ← LookupRecord fetch now publicKeyHex expectedNodeID;
  Return (rec ← r; if bool_decide (rec_RelayAddrs rec = []) then Err "record has no relay addresses"
                   else Ok (rec_RelayAddrs rec)).

Definition LookupDirectQUIC (fetch : option (bytes -> res bytes)) (now : Z) (publicKeyHex expectedNodeID : string)
  : outcome (res (list string * list string)) :=
  r ← LookupRecord fetch now publicKeyHex expectedNodeID;
  Return (rec ← r; Ok (rec_RelayAddrs rec, rec_DirectQUICAddrs rec)).
End Lookup.

(** ** Addresses *)

Definition isPublicHostPort (addr : string) : bool :=
  match SplitHostPort addr with
  | Err _ => false
  | Ok (host, _) =>
    match ParseIP (trim_set (fun b => bool_decide (b = x5b) || bool_decide (b = x5d)) host) with
    | None => true
    | Some ip => IsGlobalUnicast ip && negb (IsPrivate ip) && negb (IsLoopback ip) &&
                 negb (IsLinkLocalUnicast ip) && negb (IsUnspecified ip)
    end
  end.

Fixpoint order_addrs (seen public private : list string) (addrs : list string) : list string :=
  match addrs with
  | [] => public ++ private
  | a :: r =>
    let addr := trim_space a in
    if bool_decide (addr = "") || bool_decide (addr ∈ seen) then order_addrs seen public private r
    else if isPublicHostPort addr then order_addrs (addr :: seen) (public ++ [addr]) private r
    else order_addrs (addr :: seen) public (private ++ [addr]) r
  end.
Definition orderDirectQUICAddrs (addrs : list string) : list string := order_addrs [] [] [] addrs.

Definition directQUICEndpoint (publicKeyHex addr : string) : string :=
  let key := to_lower (trim_space publicKeyHex) in
  let addr := trim_space addr in
  if bool_decide (key = "") || bool_decide (addr = "") then "" else (key ++ "@" ++ addr)%string.

(** The address of an endpoint; [ConnectionDisplayAddr] trims it. *)
Definition endpoint_addr (endpoint : string) : string :=
  match cut endpoint "@" with Some (_, a) => a | None => endpoint end.
Definition ConnectionDisplayAddr (t : Target) : string :=
  let endpoint := trim_space (t_QUICEndpoint t) in
  match cut endpoint "@" with Some (_, a) => trim_space a | None => endpoint end.

(** ** The direct QUIC backend *)

Section Backend.
Context {St : Type}.

(** The transport's two dials. *)
Record transport : Type := mkTransport {
  tp_OpenPairing : string -> res St;
  tp_OpenTunnel : string -> res St;
}.

Definition quic_not_running {B} : res B := Err "BitTorrent DHT direct QUIC backend is not running".

Definition quic_OpenPairing (b : option transport) (t : Target) : res St :=
  match b with None => quic_not_running | Some b => tp_OpenPairing b (t_QUICEndpoint t) end.
Definition quic_OpenTunnel (b : option transport) (t : Target) : res St :=
  match b with None => quic_not_running | Some b => tp_OpenTunnel b (t_QUICEndpoint t) end.

(** The dials in the order in which they end: the first stream wins.  [Ok]
    carries it with its endpoint, and the streams of the dials that end
    later; [Err] the errors. *)
Fixpoint first_stream (errs : list string) (arrivals : list (string * res St))
  : (St * string * list St) + list string :=
  match arrivals with
  | [] => inr errs
  | (endpoint, Ok s) :: later =>
    inl (s, endpoint, omap (fun a => match snd a with Ok s => Some s | Err _ => None end) later)
  | (endpoint, Err err) :: later => first_stream (errs ++ [(endpoint_addr endpoint ++ ": " ++ err)%string]) later
  end.

Definition openFirstPairingStream (b : option transport) (order : list string -> list string) (peerID publicKeyHex : string)
    (addrs : list string) : res (St * string) :=
  let endpoints := List.filter (fun e => bool_decide (e <> "")) (directQUICEndpoint publicKeyHex <$> addrs) in
  if bool_decide (endpoints = []) then Err "discovered host addresses were invalid"
  else match first_stream [] ((fun e => (e, quic_OpenPairing b (mkTarget peerID [] "" e))) <$> order endpoints) with
       | inl (s, endpoint, _) => Ok (s, endpoint)
       | inr errs => Err ("discovered host addresses but direct UDP/QUIC failed; STUN may not work across this NAT pair: " ++
                          join "; " errs)%string
       end.

(** The addresses to dial: the target's, or else those of the peer's record. *)
Definition quic_discovered (discover : option (string -> string -> outcome (res (list string * list string))))
    (t : PairingTarget) : outcome (res (list string * list string)) :=
  match discover with
  | Some lookup =>
    if bool_decide (pt_DirectQUICAddrs t = []) && bool_decide (pt_PublicKeyHex t <> "")
    then r ← lookup (pt_PublicKeyHex t) (pt_PeerID t); Return (wrap_err "BitTorrent DHT lookup failed: " r)
    else Return (Ok (pt_RelayAddrs t, pt_DirectQUICAddrs t))
  | None => Return (Ok (pt_RelayAddrs t, pt_DirectQUICAddrs t))
  end.

Definition quic_OpenPairingSession (b : option transport) (discover : option (string -> string -> outcome (res (list string * list string))))
    (order : list string -> list string) (t : PairingTarget) : outcome (res (PairingSession St)) :=
  match b with
  | None => Return quic_not_running
  | Some _ =>
    found ← quic_discovered discover t;
    Return (
      '(relayAddrs, directAddrs) ← found;
      let ordered := orderDirectQUICAddrs directAddrs in
      if bool_decide (ordered = []) then
        if bool_decide (pt_PublicKeyHex t = "") then Err "paired host is missing its public key"
        else Err ("no direct QUIC address was found in BitTorrent DHT for " ++
                  String.substring 0 12 (pt_PeerID t))%string
      else
        '(stream, endpoint) ← openFirstPairingStream b order (pt_PeerID t) (pt_PublicKeyHex t) ordered;
        Ok (mkPairingSession stream relayAddrs "" ordered endpoint))
  end.

(** The backend as the registry sees it. *)
Definition DirectQUICBackend (b : option transport) discover order : StreamBackend St :=
  mkBackend BackendBitTorrentDHT (quic_OpenPairing b) (quic_OpenTunnel b)
    (Some (quic_OpenPairingSession b discover order)) None None (Some ConnectionDisplayAddr).
End Backend.
Arguments transport St : clear implicits.

(** ** Lemmas *)

Lemma digit_not_colon b : is_digit b -> b <> x3a.
Proof. intros [z Hz] ->. by vm_compute in Hz. Qed.

Lemma bencode_colon_split i d r :
  Forall is_digit d -> bencode_colon i (d ++ x3a :: r) = Ok (i + Z.of_nat (length d)).
Proof.
  intros Hd. revert i. induction Hd as [|b d [z Hz] Hd IH]; intros i; cbn [app bencode_colon length].
  - rewrite bool_decide_eq_true_2 by done. f_equal. lia.
  - rewrite bool_decide_eq_false_2 by (apply digit_not_colon; by exists z). rewrite Hz, IH. f_equal. lia.
Qed.

Lemma bencode_colon_inv i l j :
  bencode_colon i l = Ok j -> 0 <= i -> j = -1 \/ exists d r, l = d ++ x3a :: r /\ Forall is_digit d /\ j = i + Z.of_nat (length d).
Proof.
  revert i. induction l as [|b l IH]; intros i; cbn [bencode_colon]; [intros [= <-]; by left|].
  case_bool_decide as Hb.
  - intros [= <-] _. right. exists [], l. subst b. split; [done|]. split; [done|]. cbn. lia.
  - destruct (digit_val b) as [z|] eqn:Ez; [|done]. intros Hc Hi.
    destruct (IH _ Hc) as [->|(d & r & -> & Hd & ->)]; [lia|by left|right].
    exists (b :: d), r. split; [done|]. split; [constructor; [by exists z|done]|]. cbn [length]. lia.
Qed.

Lemma digits_colon_inj d r d' r' :
  Forall is_digit d -> Forall is_digit d' -> d ++ x3a :: r = d' ++ x3a :: r' -> d = d' /\ r = r'.
Proof.
  intros Hd. revert d'. induction Hd as [|b d Hb Hd IH]; intros d' Hd' He; destruct Hd' as [|b' d' Hb' Hd'].
  - by injection He as ->.
  - injection He as <- _. by destruct (digit_not_colon _ Hb').
  - injection He as -> _. by destruct (digit_not_colon _ Hb).
  - injection He as -> He. by destruct (IH d' Hd' He) as [-> ->].
Qed.

Lemma decode_split d r :
  d <> [] -> Forall is_digit d ->
  decodeBencodeBytes (d ++ x3a :: r) =
    match atoi (of_bytes d) with
    | None => Return (Err "strconv.Atoi: value out of range")
    | Some n =>
      let start := Z.of_nat (length d) + 1 in
      let stop := i64 (start + n) in
      if (n <? 0) || (start + Z.of_nat (length r) <? stop) then Return (Err "byte string length exceeds payload")
      else if stop <? start then Panic "slice bounds out of range"
      else Return (Ok (take (Z.to_nat n) r))
    end.
Proof.
  intros Hne Hd. unfold decodeBencodeBytes. rewrite bencode_colon_split by done. rewrite Z.add_0_l.
  assert (0 < Z.of_nat (length d)) by (destruct d; [done|cbn; lia]).
  rewrite (proj2 (Z.leb_gt _ _)) by lia. rewrite Nat2Z.id, take_app_length.
  destruct (atoi (of_bytes d)) as [n|]; [|done]. cbv zeta.
  replace (Z.of_nat (length (d ++ x3a :: r))) with (Z.of_nat (length d) + 1 + Z.of_nat (length r))
    by (rewrite length_app; cbn [length]; lia).
  replace (Z.to_nat (Z.of_nat (length d) + 1)) with (S (length d)) by lia.
  by rewrite (proj2 (take_drop_mid d r x3a)).
Qed.

(** What is not a length and a colon is refused. *)
Lemma decode_unsplit l :
  (forall d r, d <> [] -> Forall is_digit d -> l <> d ++ x3a :: r) -> exists e, decodeBencodeBytes l = Return (Err e).
Proof.
  intros Hno. unfold decodeBencodeBytes. destruct (bencode_colon 0 l) as [j|e] eqn:Ec; [|by eexists].
  destruct (bencode_colon_inv _ _ _ Ec ltac:(lia)) as [->|(d & r & Hl & Hd & ->)]; [by eexists|].
  destruct d as [|b d]; [by eexists|]. by destruct (Hno (b :: d) r).
Qed.

Lemma bencode_split_dec l :
  (exists d r, d <> [] /\ Forall is_digit d /\ l = d ++ x3a :: r) \/
  (forall d r, d <> [] -> Forall is_digit d -> l <> d ++ x3a :: r).
Proof.
  destruct (bencode_colon 0 l) as [j|e] eqn:Ec.
  - destruct (bencode_colon_inv _ _ _ Ec ltac:(lia)) as [->|(d & r & Hl & Hd & ->)].
    + right. intros d r Hne Hd ->. rewrite bencode_colon_split in Ec by done. injection Ec as Ec. lia.
    + destruct d as [|b d]; [|left; by exists (b :: d), r]. right. intros d' r' Hne Hd' ->.
      by destruct (digits_colon_inj [] r d' r' (Forall_nil_2 _) Hd' (eq_sym Hl)) as [<- _].
  - right. intros d r Hne Hd ->. by rewrite bencode_colon_split in Ec.
Qed.

Lemma atoi_range s n : atoi s = Some n -> - 2 ^ 63 <= n < 2 ^ 63.
Proof.
  unfold atoi. destruct (match to_bytes s with [] => _ | _ => _ end) as [z|]; [|done]. cbn.
  destruct ((_ <=? z) && _) eqn:E; [|done]. intros [= <-]. go_bool. lia.
Qed.

Lemma i64_wrapped z : 2 ^ 63 <= z < 2 ^ 64 -> i64 z = z - 2 ^ 64.
Proof.
  intros Hz. unfold i64. change (2 ^ 64) with (2 * 2 ^ 63) in *.
  rewrite <- (Z_mod_plus_full _ (-1)). rewrite Z.mod_small; lia.
Qed.

(** The addresses left in order: those in [public] and [private] and the new
    ones, each once, the public ones first. *)
Lemma order_addrs_spec addrs : forall seen pub priv,
  NoDup (pub ++ priv) -> (forall a, a ∈ seen <-> a ∈ pub ++ priv) ->
  Forall isPublicHostPort pub -> Forall (fun a => isPublicHostPort a = false) priv ->
  exists pub' priv', order_addrs seen pub priv addrs = pub' ++ priv' /\
    NoDup (pub' ++ priv') /\
    Forall isPublicHostPort pub' /\ Forall (fun a => isPublicHostPort a = false) priv' /\
    (forall a, a ∈ pub' ++ priv' <-> a ∈ pub ++ priv \/ (a <> ""%string /\ a ∈ trim_space <$> addrs)).
Proof.
  induction addrs as [|a l IH]; intros seen pub priv Hnd Hseen Hpub Hpriv; cbn [order_addrs].
  - exists pub, priv. repeat (split; [done|]). intros x. rewrite fmap_nil, elem_of_nil. tauto.
  - assert (Hstep : forall x, x <> ""%string /\ x ∈ trim_space <$> a :: l <->
       (x <> ""%string /\ x = trim_space a) \/ (x <> ""%string /\ x ∈ trim_space <$> l)).
    { intros x. rewrite fmap_cons, elem_of_cons. tauto. }
    destruct (bool_decide (trim_space a = "") || bool_decide (trim_space a ∈ seen)) eqn:Eskip.
    + destruct (IH seen pub priv) as (pub' & priv' & Heq & ? & ? & ? & Hin); [done..|].
      exists pub', priv'. repeat (split; [done|]). intros x. rewrite Hin, Hstep.
      apply orb_true_iff in Eskip as [?%bool_decide_eq_true|?%bool_decide_eq_true%Hseen]; naive_solver.
    + go_bool. match goal with Hn : trim_space a ∉ seen |- _ => rewrite Hseen in Hn end.
      destruct (isPublicHostPort (trim_space a)) eqn:Epub.
      * assert (Hp : (pub ++ [trim_space a]) ++ priv ≡ₚ trim_space a :: (pub ++ priv)) by
          (rewrite <- app_assoc; symmetry; apply Permutation_middle).
        destruct (IH (trim_space a :: seen) (pub ++ [trim_space a]) priv) as (pub' & priv' & Heq & ? & ? & ? & Hin).
        -- rewrite Hp. by constructor.
        -- intros x. by rewrite Hp, !elem_of_cons, Hseen.
        -- apply Forall_app. split; [done|]. constructor; [by rewrite Epub|done].
        -- done.
        -- exists pub', priv'. repeat (split; [done|]). intros x. rewrite Hin, Hp, Hstep, elem_of_cons. naive_solver.
      * assert (Hp : pub ++ priv ++ [trim_space a] ≡ₚ trim_space a :: (pub ++ priv)) by
          (rewrite app_assoc; symmetry; apply Permutation_cons_append).
        destruct (IH (trim_space a :: seen) pub (priv ++ [trim_space a])) as (pub' & priv' & Heq & ? & ? & ? & Hin).
        -- rewrite Hp. by constructor.
        -- intros x. by rewrite Hp, !elem_of_cons, Hseen.
        -- done.
        -- apply Forall_app. split; [done|]. by constructor.
        -- exists pub', priv'. repeat (split; [done|]). intros x. rewrite Hin, Hp, Hstep, elem_of_cons. naive_solver.
Qed.

Lemma orderDirectQUICAddrs_spec addrs :
  exists pub priv, orderDirectQUICAddrs addrs = pub ++ priv /\ NoDup (pub ++ priv) /\
    Forall isPublicHostPort pub /\ Forall (fun a => isPublicHostPort a = false) priv /\
    (forall a, a ∈ pub ++ priv <-> a <> ""%string /\ a ∈ trim_space <$> addrs).
Proof.
  destruct (order_addrs_spec addrs [] [] []) as (pub & priv & ? & ? & ? & ? & Hin); [constructor|done|constructor..|].
  exists pub, priv. repeat (split; [done|]). intros a. rewrite Hin. set_solver.
Qed.

(** The race of the dials: its winner is a dial that answered, and it has one
    when some dial answers. *)
Lemma first_stream_wins {St} (arrivals : list (string * res St)) : forall errs,
  match first_stream errs arrivals with
  | inl (s, endpoint, _) => (endpoint, Ok s) ∈ arrivals
  | inr _ => Forall (fun a => exists e, snd a = Err e) arrivals
  end.
Proof.
  induction arrivals as [|[endpoint [s|e]] l IH]; intros errs; cbn.
  - constructor.
  - left.
  - specialize (IH (errs ++ [(endpoint_addr endpoint ++ ": " ++ e)%string])).
    destruct (first_stream _ l) as [[[s' ep] ?]|]; [by right|]. constructor; [by eexists|done].
Qed.

Lemma openFirstPairingStream_ok {St} (b : option (transport St)) order peerID key addrs
  (Horder : forall l, order l ≡ₚ l) :
  match openFirstPairingStream b order peerID key addrs with
  | Ok (s, endpoint) => exists a, a ∈ addrs /\ endpoint = directQUICEndpoint key a /\ endpoint <> ""%string /\
      quic_OpenPairing b (mkTarget peerID [] "" endpoint) = Ok s
  | Err _ => forall a, a ∈ addrs -> directQUICEndpoint key a <> ""%string ->
      exists e, quic_OpenPairing b (mkTarget peerID [] "" (directQUICEndpoint key a)) = Err e
  end.
Proof.
  unfold openFirstPairingStream. set (endpoints := List.filter _ _).
  assert (Hin : forall e, e ∈ endpoints <-> e <> ""%string /\ exists a, e = directQUICEndpoint key a /\ a ∈ addrs).
  { intros e. unfold endpoints. rewrite list_elem_of_In, filter_In, <- list_elem_of_In, list_elem_of_fmap,
      bool_decide_eq_true. tauto. }
  case_bool_decide as He.
  - intros a Ha Hne. assert (directQUICEndpoint key a ∈ endpoints) as Hi by (rewrite Hin; eauto).
    rewrite He in Hi. by apply elem_of_nil in Hi.
  - match goal with |- context [first_stream [] ?l] => pose proof (first_stream_wins l []) as Hw end.
    destruct (first_stream _ _) as [[[s endpoint] rest]|errs].
    + apply list_elem_of_fmap in Hw as (e & [= -> ->] & Hm). rewrite Horder, Hin in Hm.
      destruct Hm as (? & a & -> & ?). eauto.
    + intros a Ha Hne. rewrite Forall_fmap, Forall_forall in Hw. apply (Hw (directQUICEndpoint key a)).
      rewrite Horder, Hin. eauto.
Qed.

(** ** Properties *)

(** The bencoding of a byte string, which the DHT library writes. *)
Definition bencode (l : bytes) : bytes := to_bytes (itoa (Z.of_nat (length l))) ++ x3a :: l.

Lemma decode_bencode l : Z.of_nat (length l) < 2 ^ 62 -> decodeBencodeBytes (bencode l) = Return (Ok l).
Proof.
  intros Hl. unfold bencode. destruct (itoa_digits (Z.of_nat (length l)) ltac:(lia)) as (Hd & Hne & _).
  rewrite decode_split, of_to_bytes, atoi_itoa by (done || lia). cbv zeta.
  set (d := to_bytes _) in *. assert (Hdl : Z.of_nat (length d) <= 20).
  { unfold d. rewrite to_bytes_length.
    pose proof (itoa_length (Z.of_nat (length l))) as Hi. lia. }
  rewrite i64_small by lia. rewrite !(proj2 (Z.ltb_ge _ _)) by lia. cbn.
  by rewrite Nat2Z.id, firstn_all.
Qed.


Definition sample_record : Announced :=
  mkAnnounced recordSchema "12D3KooWhost" "desk" [] ["8.8.8.8:4001"%string] 1000.
#[local] Instance sample_record_codec : Codec Announced :=
  {| marshal r := if decide (rec_NodeID r = "12D3KooWhost") then Ok (to_bytes "{}") else Err "unsupported";
     unmarshal b := if decide (b = to_bytes "{}") then Ok sample_record else Err "syntax error" |}.


(** A put that the deadline ended counts as published. *)
Lemma timed_out_put_published :
  cl_lastPublished (fst (PublishNow newClient "12D3KooWhost" "desk" ["addr"%string] [] 5 7
    (fun _ => TimedOut "context deadline exceeded"))) = 7.
Proof. vm_compute. reflexivity. Qed.

(** The direct QUIC session dials what the host published.  When the pairing
    session opens, its stream is the answer of a dial to one of its addresses
    under the peer's key; the addresses are the ones of the target or, when it
    has none, of the peer's record: trimmed, without blanks and duplicates, the
    public ones first.  It fails only when the lookup fails or no such dial
    answers. *)
Lemma quic_session_dials_published {St} (b : transport St) discover order t relays directs
  (Horder : forall l, order l ≡ₚ l)
  (Hd : quic_discovered discover t = Return (Ok (relays, directs))) :
  exists pub priv, NoDup (pub ++ priv) /\
    Forall isPublicHostPort pub /\ Forall (fun a => isPublicHostPort a = false) priv /\
    (forall a, a ∈ pub ++ priv <-> a <> ""%string /\ a ∈ trim_space <$> directs) /\
    match quic_OpenPairingSession (Some b) discover order t with
    | Return (Ok s) => s_DirectQUICAddrs s = pub ++ priv /\ s_RelayAddrs s = relays /\
        exists a, a ∈ pub ++ priv /\ s_QUICEndpoint s = directQUICEndpoint (pt_PublicKeyHex t) a /\
          tp_OpenPairing b (s_QUICEndpoint s) = Ok (s_Stream s)
    | Return (Err _) => forall a, a ∈ pub ++ priv -> directQUICEndpoint (pt_PublicKeyHex t) a <> ""%string ->
        exists e, tp_OpenPairing b (directQUICEndpoint (pt_PublicKeyHex t) a) = Err e
    | Panic _ => False
    end.
Proof.
  destruct (orderDirectQUICAddrs_spec directs) as (pub & priv & Ho & ? & ? & ? & ?).
  exists pub, priv. repeat (split; [done|]). unfold quic_OpenPairingSession. rewrite Hd. cbn. rewrite Ho.
  case_bool_decide as Hnil.
  - rewrite Hnil. by case_bool_decide; intros a ?%elem_of_nil.
  - pose proof (openFirstPairingStream_ok (Some b) order (pt_PeerID t) (pt_PublicKeyHex t) (pub ++ priv) Horder) as Hs.
    destruct (openFirstPairingStream _ _ _ _ _) as [[s endpoint]|e]; [|exact Hs].
    destruct Hs as (a & ? & -> & ? & ?). cbn. eauto 6.
Qed.

Definition sample_quic : transport nat :=
  mkTransport (fun e => if decide (e = "ab@8.8.8.8:4001") then Ok 7%nat else Err "timeout") (fun _ => Err "unused").
Definition sample_quic_target : PairingTarget :=
  mkPairingTarget BackendBitTorrentDHT "12D3KooWhost" "AB" "" [] [] []
    [" 192.168.1.4:4001"%string; "8.8.8.8:4001"%string; "8.8.8.8:4001 "%string].

Lemma quic_session_dials_published_witness :
  exists pub priv, NoDup (pub ++ priv) /\
    Forall isPublicHostPort pub /\ Forall (fun a => isPublicHostPort a = false) priv /\
    (forall a, a ∈ pub ++ priv <-> a <> ""%string /\ a ∈ trim_space <$> pt_DirectQUICAddrs sample_quic_target) /\
    match quic_OpenPairingSession (Some sample_quic) None reverse sample_quic_target with
    | Return (Ok s) => s_DirectQUICAddrs s = pub ++ priv /\ s_RelayAddrs s = [] /\
        exists a, a ∈ pub ++ priv /\ s_QUICEndpoint s = directQUICEndpoint (pt_PublicKeyHex sample_quic_target) a /\
          tp_OpenPairing sample_quic (s_QUICEndpoint s) = Ok (s_Stream s)
    | Return (Err _) => forall a, a ∈ pub ++ priv -> directQUICEndpoint (pt_PublicKeyHex sample_quic_target) a <> ""%string ->
        exists e, tp_OpenPairing sample_quic (directQUICEndpoint (pt_PublicKeyHex sample_quic_target) a) = Err e
    | Panic _ => False
    end.
Proof.
  apply (quic_session_dials_published sample_quic None reverse sample_quic_target).
  - intros l. apply reverse_Permutation.
  - vm_compute. reflexivity.
Defined.

(** The session of the sample: the public address first and the stream of its
    dial, though the private one was tried before. *)
Lemma sample_quic_session :
  quic_OpenPairingSession (Some sample_quic) None reverse sample_quic_target =
  Return (Ok (mkPairingSession 7%nat [] "" ["8.8.8.8:4001"%string; "192.168.1.4:4001"%string] "ab@8.8.8.8:4001")).
Proof. vm_compute. reflexivity. Qed.

(** A bencoded string is read exactly, or crashes the process.
    [decodeBencodeBytes] returns a payload exactly for decimal digits, a colon
    and at least that many bytes, and it is the bytes after the colon; and it
    panics exactly when the length plus its offset overflows the machine
    integer. *)
Lemma decode_bencode_exact l
  (Hlen : Z.of_nat (length l) < 2 ^ 62) :
  (forall p, decodeBencodeBytes l = Return (Ok p) <->
     exists d rest, d <> [] /\ Forall is_digit d /\ atoi (of_bytes d) = Some (Z.of_nat (length p)) /\
       l = d ++ x3a :: p ++ rest) /\
  ((exists msg, decodeBencodeBytes l = Panic msg) <->
     exists d n r, d <> [] /\ Forall is_digit d /\ atoi (of_bytes d) = Some n /\ l = d ++ x3a :: r /\
       2 ^ 63 <= Z.of_nat (length d) + 1 + n).
Proof.
  destruct (bencode_split_dec l) as [(d & r & Hne & Hd & ->)|Hno].
  2:{ destruct (decode_unsplit l Hno) as [e ->]. split.
      - intros p. split; [done|]. intros (d & rest & Hne & Hd & _ & Hl). by destruct (Hno _ _ Hne Hd Hl).
      - split; [by intros []|]. intros (d & n & r & Hne & Hd & _ & Hl & _). by destruct (Hno _ _ Hne Hd Hl). }
  rewrite length_app in Hlen. cbn [length] in Hlen. rewrite decode_split by done.
  destruct (atoi (of_bytes d)) as [n|] eqn:Ea.
  2:{ split; [intros p; split; [done|]|split; [by intros []|]].
      - intros (d' & rest & _ & Hd' & Ha & Hl). destruct (digits_colon_inj _ _ _ _ Hd Hd' Hl) as [<- _]. congruence.
      - intros (d' & n & r' & _ & Hd' & Ha & Hl & _). destruct (digits_colon_inj _ _ _ _ Hd Hd' Hl) as [<- _]. congruence. }
  pose proof (atoi_range _ _ Ea) as Hn. cbv zeta. set (start := Z.of_nat (length d) + 1).
  destruct (n <? 0) eqn:En; go_bool; cbn [orb].
  { split; [intros p; split; [done|]|split; [by intros []|]].
    - intros (d' & rest & _ & Hd' & Ha & Hl). destruct (digits_colon_inj _ _ _ _ Hd Hd' Hl) as [<- _]. simplify_eq. subst start. lia.
    - intros (d' & n' & r' & _ & Hd' & Ha & Hl & ?). destruct (digits_colon_inj _ _ _ _ Hd Hd' Hl) as [<- _].
      simplify_eq. subst start. lia. }
  destruct (Z.lt_ge_cases (start + n) (2 ^ 63)) as [Hs|Hs].
  - rewrite i64_small by (subst start; lia). rewrite (proj2 (Z.ltb_ge (start + n) start)) by lia.
    destruct (start + Z.of_nat (length r) <? start + n) eqn:El; go_bool; (split; [intros p; split|split; [by intros []|]]).
    + done.
    + intros (d' & rest & _ & Hd' & Ha & Hl). destruct (digits_colon_inj _ _ _ _ Hd Hd' Hl) as [<- ->].
      rewrite length_app in El. simplify_eq. subst start. lia.
    + intros (d' & n' & r' & _ & Hd' & Ha & Hl & ?). destruct (digits_colon_inj _ _ _ _ Hd Hd' Hl) as [<- _].
      simplify_eq. subst start. lia.
    + intros [= <-]. exists d, (drop (Z.to_nat n) r). repeat (split; [done|]). rewrite length_take.
      split; [rewrite Ea; f_equal; lia|by rewrite take_drop].
    + intros (d' & rest & _ & Hd' & Ha & Hl). destruct (digits_colon_inj _ _ _ _ Hd Hd' Hl) as [<- ->].
      assert (n = Z.of_nat (length p)) as -> by congruence. by rewrite Nat2Z.id, take_app_length.
    + intros (d' & n' & r' & _ & Hd' & Ha & Hl & ?). destruct (digits_colon_inj _ _ _ _ Hd Hd' Hl) as [<- _].
      simplify_eq. subst start. lia.
  - rewrite i64_wrapped by (subst start; lia). rewrite (proj2 (Z.ltb_ge _ _)), (proj2 (Z.ltb_lt _ _)) by (subst start; lia). split.
    + intros p. split; [done|]. intros (d' & rest & _ & Hd' & Ha & Hl).
      destruct (digits_colon_inj _ _ _ _ Hd Hd' Hl) as [<- ->]. rewrite length_app in Hlen. simplify_eq. subst start. lia.
    + split; [intros _|by eexists]. exists d, n, r. by repeat (split; [done|]).
Qed.

Lemma decode_bencode_exact_witness :
  decodeBencodeBytes (to_bytes "5:helloX") = Return (Ok (to_bytes "hello")) /\
  exists msg, decodeBencodeBytes (to_bytes "9223372036854775807:") = Panic msg.
Proof.
  split.
  - apply (decode_bencode_exact (to_bytes "5:helloX")); [vm_compute; reflexivity|].
    exists [x35], [x58]. split; [discriminate|]. split; [repeat constructor; vm_compute; eexists; reflexivity|].
    split; vm_compute; reflexivity.
  - apply (decode_bencode_exact (to_bytes "9223372036854775807:")); [vm_compute; reflexivity|].
    exists (to_bytes "9223372036854775807"), 9223372036854775807, [].
    split; [discriminate|]. split; [repeat constructor; vm_compute; eexists; reflexivity|].
    split; [vm_compute; reflexivity|]. split; [vm_compute; reflexivity|vm_compute; discriminate].
Defined.
