(* ===== verification/Quicnet.v ===== *)
(** * Quicnet: the direct QUIC transport of [internal/quicnet/quicnet.go]

    Endpoints, the cache of connections pinned to the peer's public key, the
    dispatch of incoming streams and the addresses published.  The QUIC and
    X.509 libraries are arguments. *)

From stdpp Require Import gmap.
From S2P Require Import Prelude GoStrings GoNet Crypto.

Definition kindPair : byte := x01.
Definition kindTun : byte := x02.
Definition PublicKeySize : nat := 32.

(** The Ed25519 key of a DER certificate; [None] is a key of another kind. *)
Class QuicCerts : Type := cert_public_key : bytes -> res (option bytes).

(** The QUIC library: a dial that lets the caller verify the peer's
    certificates, the certificates of a connection, its streams and writes. *)
Record Driver (C S : Type) : Type := mkDriver {
  qd_dial : string -> (list bytes -> res unit) -> res C;
  qd_certs : C -> list bytes;
  qd_open : C -> res S;
  qd_write : S -> byte -> option string;
}.
Arguments mkDriver {C S} _ _ _ _.
Arguments qd_dial {C S} _ _ _.
Arguments qd_certs {C S} _ _.
Arguments qd_open {C S} _ _.
Arguments qd_write {C S} _ _ _.

(** A dial succeeds only when the caller's verification of the peer's
    certificates does ([tls.Config.VerifyPeerCertificate]). *)
Definition dial_verifies {C S} (d : Driver C S) : Prop :=
  forall addr verify c, qd_dial d addr verify = Ok c -> verify (qd_certs d c) = Ok tt.

(** ** Endpoints *)

Definition Endpoint (publicKeyHex addr : string) : string := (to_lower publicKeyHex ++ "@" ++ addr)%string.

Definition parseEndpoint (endpoint : string) : res (string * bytes) :=
  match cut endpoint "@" with
  | None => Err "invalid direct QUIC endpoint"
  | Some (pubHex, addr) =>
    if bool_decide (trim_space addr = "") then Err "invalid direct QUIC endpoint"
    else match hex_decode pubHex with
         | None => Err "decode direct QUIC public key: encoding/hex: invalid byte"
         | Some pub => if (length pub =? PublicKeySize)%nat then Ok (addr, pub)
                       else Err "direct QUIC public key must be 32 bytes"
         end
  end.

(** The cache key of a connection. *)
Definition conn_key (pub : bytes) (addr : string) : string := (hex_encode pub ++ "@" ++ addr)%string.

(** ** Certificates *)

Section Certs.
Context `{QuicCerts}.

Definition publicKeyFromRawCerts (rawCerts : list bytes) : res bytes :=
  match rawCerts with
  | [] => Err "missing direct QUIC peer certificate"
  | c :: _ =>
    key ← wrap_err "parse direct QUIC peer certificate: " (cert_public_key c);
    match key with
    | Some pub => if (length pub =? PublicKeySize)%nat then Ok pub
                  else Err "direct QUIC peer certificate is not Ed25519"
    | None => Err "direct QUIC peer certificate is not Ed25519"
    end
  end.

Definition verifyPeer (rawCerts : list bytes) (expected : bytes) : res unit :=
  pub ← publicKeyFromRawCerts rawCerts;
  if bool_decide (pub = expected) then Ok tt else Err "direct QUIC peer key mismatch".
End Certs.

(** [peerIDFromTLSState]: the key of the first certificate, if there is one and
    it is an Ed25519 key. *)
Definition peerIDFromTLSState `{Crypto} (peerKeys : list (option bytes)) : string :=
  match peerKeys with
  | Some pub :: _ =>
    match UnmarshalEd25519PublicKey pub with
    | Err _ => ""
    | Ok key => match IDFromPublicKey key with Err _ => "" | Ok id => id end
    end
  | _ => ""
  end.

(** ** The backend *)

Section Quic.
Context {C S : Type} `{QuicCerts} (d : Driver C S).

Record Quic : Type := mkQuic {
  qn_conns : gmap string C;
  qn_pairingHandler : bool;
  qn_tunnelHandler : bool;
  qn_stunAddrs : list string;
  qn_closed : list C;                 (** the connections closed so far *)
}.

Definition newQuic (stunAddrs : list string) : Quic := mkQuic ∅ false false stunAddrs [].

Definition SetHandlers (b : Quic) (pairing tunnel : bool) : Quic :=
  mkQuic (qn_conns b) pairing tunnel (qn_stunAddrs b) (qn_closed b).

Definition set_conns (b : Quic) (conns : gmap string C) (closed : list C) : Quic :=
  mkQuic conns (qn_pairingHandler b) (qn_tunnelHandler b) (qn_stunAddrs b) (qn_closed b ++ closed).

Definition Close (b : Quic) : Quic := set_conns b ∅ (snd <$> map_to_list (qn_conns b)).

(** [cachedConn] takes the lock twice: the look-up, and the store after the
    dial. *)
Definition dial_conn (addr : string) (expectedPub : bytes) : res C :=
  wrap_err ("dial quic " ++ addr ++ ": ") (qd_dial d addr (fun raw => verifyPeer raw expectedPub)).
Definition store_conn (b : Quic) (addr : string) (expectedPub : bytes) (c : C) : Quic :=
  set_conns b (<[conn_key expectedPub addr := c]> (qn_conns b)) [].

Definition cachedConn (b : Quic) (addr : string) (expectedPub : bytes) : Quic * res C :=
  match qn_conns b !! conn_key expectedPub addr with
  | Some c => (b, Ok c)
  | None => match dial_conn addr expectedPub with
            | Err err => (b, Err err)
            | Ok c => (store_conn b addr expectedPub c, Ok c)
            end
  end.

Definition dropConn (b : Quic) (endpoint : string) : Quic :=
  match parseEndpoint endpoint with
  | Err _ => b
  | Ok (addr, expectedPub) =>
    match qn_conns b !! conn_key expectedPub addr with
    | None => b
    | Some c => set_conns b (delete (conn_key expectedPub addr) (qn_conns b)) [c]
    end
  end.

(** [openStream]: the stream, with the byte written on it. *)
Definition openStream (b : Quic) (endpoint : string) (kind : byte) : Quic * res (S * byte) :=
  match parseEndpoint endpoint with
  | Err err => (b, Err err)
  | Ok (addr, expectedPub) =>
    let '(b, conn) := cachedConn b addr expectedPub in
    match conn with
    | Err err => (b, Err err)
    | Ok c =>
      match qd_open d c with
      | Err err => (dropConn b endpoint, Err ("open quic stream: " ++ err)%string)
      | Ok stream => match qd_write d stream kind with
                     | Some err => (b, Err ("write stream kind: " ++ err)%string)
                     | None => (b, Ok (stream, kind))
                     end
      end
    end
  end.
Definition OpenPairing (b : Quic) (endpoint : string) := openStream b endpoint kindPair.
Definition OpenTunnel (b : Quic) (endpoint : string) := openStream b endpoint kindTun.

(** ** Incoming streams *)

Inductive dispatch : Type :=
  | ToPairing (remotePeerID : string)
  | ToTunnel (remotePeerID : string)
  | Closed.

(** [handleStream] on the bytes of the stream: what handles the rest. *)
Definition handleStream (b : Quic) (remotePeerID : string) (input : bytes) : dispatch * bytes :=
  match input with
  | [] => (Closed, [])
  | kind :: rest =>
    if bool_decide (kind = kindPair) then
      (if qn_pairingHandler b then ToPairing remotePeerID else Closed, rest)
    else if bool_decide (kind = kindTun) then
      (if qn_tunnelHandler b then ToTunnel remotePeerID else Closed, rest)
    else (Closed, rest)
  end.

Definition isServerClosed (err : option string) : bool :=
  match err with
  | None => false
  | Some msg => let msg := to_lower msg in
                contains msg "server closed" || contains msg "use of closed network connection" ||
                contains msg "closed listener"
  end.

(** ** Addresses *)

(** An interface: up, loopback, its addresses ([None] for another kind). *)
Record iface : Type := mkIface { if_up : bool; if_loopback : bool; if_addrs : list (option (list Z)) }.

Definition ip4_String (ip : list Z) : string := join "." (itoa <$> ip).

Definition localUDPAddrs (ifaces : list iface) (port : string) : list string :=
  let usable a := match a with
                  | None => None
                  | Some ip => if IsLoopback ip || IsUnspecified ip then None
                               else ip4 ← To4 ip; Some (JoinHostPort (ip4_String ip4) port)
                  end in
  let out := concat ((fun i => if if_up i && negb (if_loopback i) then omap usable (if_addrs i) else []) <$> ifaces) in
  if bool_decide (out = []) then [JoinHostPort "127.0.0.1" port] else out.

Definition uniqueAddrs (l : list string) : list string := unique_trimmed l.

(** [Addrs] for the listener's address. *)
Definition Addrs (b : Quic) (listener : option string) (ifaces : list iface) : list string :=
  match listener with
  | None => []
  | Some addr =>
    match SplitHostPort addr with
    | Err _ => [addr]
    | Ok (host, port) =>
      if bool_decide (host = "") || bool_decide (host = "0.0.0.0") || bool_decide (host = "::")
      then uniqueAddrs (localUDPAddrs ifaces port ++ qn_stunAddrs b)
      else [JoinHostPort host port]
    end
  end.

(** [discoverSTUNAddrs]: the servers that resolve, and the addresses they
    answer. *)
Definition discoverSTUNAddrs (resolve : string -> res string) (query : string -> res string) (servers : list string)
  : list string * list string :=
  let resolved := omap (fun s => match resolve s with Ok a => Some a | Err _ => None end) servers in
  (uniqueAddrs (omap (fun a => match query a with Ok m => Some m | Err _ => None end) resolved), resolved).
End Quic.
Arguments Quic C : clear implicits.

(** ** Lemmas *)

Lemma hex_encode_length l : String.length (hex_encode l) = (2 * length l)%nat.
Proof. unfold hex_encode. rewrite of_bytes_length. induction l as [|b l IH]; [done|]. cbn. rewrite IH. lia. Qed.

(** Keys of the cache determine the public key and the address. *)
Lemma conn_key_inj pub1 addr1 pub2 addr2 :
  length pub1 = length pub2 -> conn_key pub1 addr1 = conn_key pub2 addr2 -> pub1 = pub2 /\ addr1 = addr2.
Proof.
  unfold conn_key. intros Hl He. apply string_app_inj_length in He as [He Ha]; [|by rewrite !hex_encode_length, Hl].
  split; [by apply hex_encode_inj|]. by injection Ha.
Qed.

Lemma parseEndpoint_length endpoint addr pub : parseEndpoint endpoint = Ok (addr, pub) -> length pub = PublicKeySize.
Proof.
  unfold parseEndpoint. destruct (cut _ _) as [[h a]|]; [|done]. case_bool_decide; [done|].
  destruct (hex_decode h) as [k|]; [|done]. destruct (_ =? _)%nat eqn:E; [|done].
  intros [= _ <-]. by apply Nat.eqb_eq.
Qed.

Lemma verifyPeer_ok `{QuicCerts} raw pub : verifyPeer raw pub = Ok tt <-> publicKeyFromRawCerts raw = Ok pub.
Proof. unfold verifyPeer. destruct (publicKeyFromRawCerts raw); cbn; [case_bool_decide|]; naive_solver. Qed.

Section QuicFacts.
Context {C S : Type} `{QuicCerts} (d : Driver C S) (Hd : dial_verifies d).

(** Every cached connection is to the holder of the key it is filed under. *)
Definition pinned (b : Quic C) : Prop :=
  forall k c, qn_conns b !! k = Some c ->
    exists pub addr, k = conn_key pub addr /\ length pub = PublicKeySize /\ publicKeyFromRawCerts (qd_certs d c) = Ok pub.

Lemma dial_conn_pinned addr pub c : dial_conn d addr pub = Ok c -> publicKeyFromRawCerts (qd_certs d c) = Ok pub.
Proof. unfold dial_conn. rewrite wrap_err_ok. intros Hc%Hd. by apply verifyPeer_ok. Qed.

Lemma pinned_store b addr pub c :
  pinned b -> length pub = PublicKeySize -> dial_conn d addr pub = Ok c -> pinned (store_conn b addr pub c).
Proof.
  intros Hb Hl Hc k x Hk. cbn in Hk. apply lookup_insert_Some in Hk as [[<- <-]|[_ Hk]]; [|by apply Hb].
  exists pub, addr. split; [done|]. split; [done|]. by eapply dial_conn_pinned.
Qed.

Lemma pinned_drop b endpoint : pinned b -> pinned (dropConn b endpoint).
Proof.
  intros Hb. unfold dropConn. destruct (parseEndpoint endpoint) as [[addr pub]|]; [|done].
  destruct (qn_conns b !! _); [|done]. intros k x Hk. cbn in Hk. apply lookup_delete_Some in Hk as [_ Hk]. by apply Hb.
Qed.

Lemma cachedConn_pinned b addr pub :
  pinned b -> length pub = PublicKeySize ->
  pinned (fst (cachedConn d b addr pub)) /\
  forall c, snd (cachedConn d b addr pub) = Ok c -> publicKeyFromRawCerts (qd_certs d c) = Ok pub.
Proof.
  intros Hb Hl. unfold cachedConn. destruct (qn_conns b !! _) as [c|] eqn:Ec.
  - split; [done|]. intros ? [= <-]. destruct (Hb _ _ Ec) as (pub' & addr' & Hk & Hl' & Hc).
    apply conn_key_inj in Hk as [-> _]; [done|congruence].
  - destruct (dial_conn d addr pub) as [c|] eqn:Edial; [|done]. split; [by apply pinned_store|].
    intros ? [= <-]. by eapply dial_conn_pinned.
Qed.

(** The operations of the goroutines on one backend. *)
Inductive quic_op : Type :=
  | QOpen (endpoint : string) (kind : byte)
  | QStore (addr : string) (pub : bytes)      (** a dial that ends after another's *)
  | QDrop (endpoint : string)
  | QHandlers (pairing tunnel : bool)
  | QClose.

Definition quic_step (b : Quic C) (o : quic_op) : Quic C :=
  match o with
  | QOpen endpoint kind => fst (openStream d b endpoint kind)
  | QStore addr pub =>
    if (length pub =? PublicKeySize)%nat
    then match dial_conn d addr pub with Ok c => store_conn b addr pub c | Err _ => b end
    else b
  | QDrop endpoint => dropConn b endpoint
  | QHandlers p t => SetHandlers b p t
  | QClose => Close b
  end.

Lemma pinned_openStream b endpoint kind : pinned b -> pinned (fst (openStream d b endpoint kind)).
Proof.
  intros Hb. unfold openStream. destruct (parseEndpoint endpoint) as [[addr pub]|] eqn:Ep; [|done].
  destruct (cachedConn_pinned b addr pub Hb (parseEndpoint_length _ _ _ Ep)) as [Hp _].
  destruct (cachedConn d b addr pub) as [b' [c|]]; [|done].
  destruct (qd_open d c); [|by apply pinned_drop]. by destruct (qd_write d _ _).
Qed.

Lemma pinned_run ops b : pinned b -> pinned (fold_left quic_step ops b).
Proof.
  revert b. induction ops as [|o ops IH]; intros b Hb; [done|]. apply IH.
  destruct o as [endpoint kind|addr pub|endpoint|p t|]; cbn [quic_step].
  - by apply pinned_openStream.
  - destruct (_ =? _)%nat eqn:El; [apply Nat.eqb_eq in El|done].
    destruct (dial_conn d addr pub) eqn:Ec; [|done]. by apply pinned_store.
  - by apply pinned_drop.
  - intros k c Hk. by apply Hb.
  - intros k c Hk. cbn in Hk. by rewrite lookup_empty in Hk.
Qed.
End QuicFacts.

(** ** Properties *)

(** C36: direct streams are pinned to the key.  In every run of a backend, a
    stream opened for an endpoint is a stream of a connection whose peer showed
    the certificate of the public key the endpoint names, whichever earlier or
    concurrent dial made it, and its first byte is its kind, which makes the
    other side hand a pairing stream to the pairing handler and a tunnel stream
    to the tunnel handler and close what is neither. *)
Theorem quic_streams_pinned {C S} `{QuicCerts} (d : Driver C S) ops stunAddrs endpoint kind b' s k
  (Hd : dial_verifies d)
  (Ho : openStream d (fold_left (quic_step d) ops (newQuic stunAddrs)) endpoint kind = (b', Ok (s, k))) :
  (exists addr pub c, parseEndpoint endpoint = Ok (addr, pub) /\
     publicKeyFromRawCerts (qd_certs d c) = Ok pub /\ qd_open d c = Ok s) /\
  forall (host : Quic C) id rest,
    fst (handleStream host id (k :: rest)) =
      if decide (kind = kindPair) then (if qn_pairingHandler host then ToPairing id else Closed)
      else if decide (kind = kindTun) then (if qn_tunnelHandler host then ToTunnel id else Closed)
      else Closed.
Proof.
  assert (Hp : pinned d (fold_left (quic_step d) ops (newQuic stunAddrs))).
  { apply pinned_run; [done|]. intros ? ? Hk. cbn in Hk. by rewrite lookup_empty in Hk. }
  unfold openStream in Ho. destruct (parseEndpoint endpoint) as [[addr pub]|] eqn:Ep; [|done].
  destruct (cachedConn_pinned d Hd _ addr pub Hp (parseEndpoint_length _ _ _ Ep)) as [_ Hc].
  destruct (cachedConn d _ addr pub) as [b1 [c|]]; [|done]. specialize (Hc c eq_refl).
  destruct (qd_open d c) as [s'|] eqn:Es; [|done]. destruct (qd_write d s' kind); [done|]. injection Ho as <- <- <-.
  split; [eauto 6|]. intros host id rest. unfold handleStream. unfold decide.
  repeat case_bool_decide; by repeat case_match.
Qed.

#[local] Instance sample_certs : QuicCerts := fun raw => match raw with x30 :: k => Ok (Some k) | _ => Err "x509: malformed" end.
Definition sample_pub : bytes := repeat x61 32.
Definition sample_driver : Driver bytes nat :=
  mkDriver (fun addr verify => _ ← verify [x30 :: sample_pub]; Ok sample_pub) (fun c => [x30 :: c])
    (fun c => Ok 5%nat) (fun _ _ => None).
Definition sample_quic_endpoint : string := conn_key sample_pub "192.0.2.1:4001".

Lemma quic_streams_pinned_witness :
  dial_verifies sample_driver /\
  ((exists addr pub c, parseEndpoint sample_quic_endpoint = Ok (addr, pub) /\
     publicKeyFromRawCerts (qd_certs sample_driver c) = Ok pub /\ qd_open sample_driver c = Ok 5%nat) /\
  forall (host : Quic bytes) id rest,
    fst (handleStream host id (kindTun :: rest)) =
      if decide (kindTun = kindPair) then (if qn_pairingHandler host then ToPairing id else Closed)
      else if decide (kindTun = kindTun) then (if qn_tunnelHandler host then ToTunnel id else Closed)
      else Closed).
Proof.
  assert (Hd : dial_verifies sample_driver).
  { intros addr verify c Hc. cbn [qd_dial sample_driver] in Hc. apply res_bind_ok in Hc as ([] & Hv & Hc).
    assert (sample_pub = c) as <- by congruence. exact Hv. }
  split; [exact Hd|].
  apply (quic_streams_pinned sample_driver [QOpen sample_quic_endpoint kindPair] [] sample_quic_endpoint kindTun
    (store_conn (newQuic []) "192.0.2.1:4001" sample_pub sample_pub) 5%nat kindTun Hd).
  vm_compute. reflexivity.
Defined.

(** Two dials to one endpoint that overlap: the first connection is neither in
    the cache nor closed afterwards. *)
Lemma overlapping_dials_leak_connection (c1 c2 : nat) :
  let b := store_conn (store_conn (newQuic []) "192.0.2.1:4001" sample_pub c1) "192.0.2.1:4001" sample_pub c2 in
  qn_closed (Close b) = [c2].
Proof. vm_compute. reflexivity. Qed.
