(* ===== verification/TunnelClient.v ===== *)
(** * TunnelClient: the client side of [internal/tunnel/tunnel.go]

    [openDataStream] with the client half of the tunnel handshake, the choice
    of the backend, the local listener's addresses, and the connection
    script of the proxy.  The last part composes the client with the host of
    [TunnelHost]. *)

From S2P Require Import Prelude GoStrings GoNet Crypto Wire Frames Sessions Config.
From S2P Require Import TunnelHost LocalProxy NetNode Netbackend.

(** ** Local addresses *)

Definition normalizeListenAddr (addr : string) : string :=
  let addr := trim_space addr in
  if bool_decide (addr = "") then "127.0.0.1:0" else addr.

Definition loopbackClientAddr (addr : string) : string :=
  match SplitHostPort (trim_space addr) with
  | Err _ => addr
  | Ok (host, port) =>
    if bool_decide (port = "") then addr
    else if bool_decide (host ∈ [""; "0.0.0.0"; "::"; "[::]"; "::1"; "localhost"]%string)
    then JoinHostPort "127.0.0.1" port
    else match ParseIP (trim_set is_bracket host) with
         | Some ip => if IsUnspecified ip then JoinHostPort "127.0.0.1" port else JoinHostPort host port
         | None => JoinHostPort host port
         end
  end.

(** A listen error: its text and whether it is [EADDRINUSE]. *)
Record listen_error : Type := mkListenError { le_text : string; le_in_use : bool }.

Definition isAddrInUse (err : listen_error) : bool :=
  if le_in_use err then true
  else
    let msg := to_lower (le_text err) in
    contains msg "address already in use" || contains msg "only one usage of each socket address".

(** [net.Listen]: the address listened on, or the error. *)
Definition listener : Type := string -> string + listen_error.

Definition listenLocalTunnel (listen : listener) (preferred : string) : res string :=
  let addr := normalizeListenAddr preferred in
  match listen addr with
  | inl actual => Ok actual
  | inr err =>
    if negb (isAddrInUse err) then Err (le_text err)
    else
      let host := match SplitHostPort addr with
                  | Ok (host, _) => if bool_decide (host = "") then "127.0.0.1"%string else host
                  | Err _ => "127.0.0.1"%string
                  end in
      let fallback := JoinHostPort host "0" in
      match listen fallback with
      | inl actual => Ok actual
      | inr ferr => Err (le_text err ++ "; dynamic fallback " ++ fallback ++ " failed: " ++ le_text ferr)%string
      end
  end.

(** ** Connection paths *)

Definition isIrohVirtualAddr (addr : string) : bool :=
  let host := match SplitHostPort addr with
              | Ok (host, _) => host
              | Err _ => trim_set is_bracket addr
              end in
  has_prefix (to_lower (trim_set is_bracket host)) "fd15:".

(** What an opened stream reports of itself, if it implements the reporters. *)
Record stream_report : Type := mkReport { sr_path : option string; sr_addr : option string }.

Definition connectionPathForStream (s : stream_report) (transportEndpoint : string) : string :=
  if has_prefix transportEndpoint "quic:" then "direct"
  else if bool_decide (transportEndpoint = "") then "relayed"
  else match sr_path s with Some p => p | None => "unknown" end.

Section Client.
Context {St : Type}.
Variable backends : Registry St.

Definition connectionAddrForStream (s : stream_report) (transportEndpoint : string) : string :=
  if has_prefix transportEndpoint "quic:" then
    match Get backends BackendBitTorrentDHT with
    | None => ""
    | Some b => match sb_display b with
                | None => ""
                | Some f => f (mkTarget "" [] "" (trim_prefix transportEndpoint "quic:"))
                end
    end
  else match sr_addr s with
       | Some a => let addr := trim_space a in if isIrohVirtualAddr addr then "" else addr
       | None => ""
       end.

(** The backend an endpoint selects, and the target it is given. *)
Definition endpoint_route (peerID : string) (relayAddrs : list string) (transportEndpoint : string)
  : string * Target :=
  if has_prefix transportEndpoint "quic:"
  then (BackendBitTorrentDHT, mkTarget peerID [] "" (trim_prefix transportEndpoint "quic:"))
  else if bool_decide (transportEndpoint <> "")
  then (BackendIroh, mkTarget peerID [] transportEndpoint "")
  else (BackendLibp2pRelay, mkTarget peerID relayAddrs "" "").

(** [closeBackendTunnel]: the backend whose cached tunnels are closed and how
    many there were; the log line slices the peer id. *)
Definition closeBackendTunnel (peerID transportEndpoint reason : string) : outcome (option (string * Z)) :=
  if bool_decide (trim_space peerID = "") then Return None
  else
    let name := if has_prefix transportEndpoint "quic:" then BackendBitTorrentDHT
                else if bool_decide (trim_space transportEndpoint <> "") then BackendIroh
                else BackendLibp2pRelay in
    match Get backends name with
    | None => Return None
    | Some b =>
      match sb_CloseTunnel b with
      | None => Return None
      | Some close =>
        let n := close peerID reason in
        if 0 <? n then _ ← first12 peerID; Return (Some (name, n)) else Return (Some (name, n))
      end
    end.

(** ** The handshake *)

Context `{Codec TunnelHello} `{Codec TunnelError}.

(** The client's side: its node id, whether the hello is written, and what
    arrives on the stream in answer to the bytes sent. *)
Record client_env : Type := mkClientEnv {
  ce_nodeID : string;
  ce_write : option string;
  ce_answer : St -> bytes -> bytes;
}.

Definition client_hello (e : client_env) (sessionToken : bytes) (targetPort : Z) (streamID : string)
  : TunnelHello :=
  mkTunnelHello Version (ce_nodeID e) "CONNECT" sessionToken "127.0.0.1" targetPort streamID.

(** The handshake on an open stream. *)
Definition client_handshake (e : client_env) (stream : St) (hello : TunnelHello) : res St :=
  match frame_bytes marshal MsgTunnelHello hello with
  | Err err => Err ("send tunnel hello: " ++ err)%string
  | Ok sent =>
    match ce_write e with
    | Some err => Err ("send tunnel hello: " ++ err)%string
    | None =>
      match ReadFrame (ce_answer e stream sent) with
      | Err err => Err ("read tunnel response within 15s: " ++ err)%string
      | Ok (msgType, payload, _) =>
        if bool_decide (msgType = MsgTunnelReady) then Ok stream
        else if bool_decide (msgType = MsgTunnelError) then
          Err ("host rejected tunnel: " ++
               match unmarshal (A := TunnelError) payload with Ok te => te_Reason te | Err _ => "" end)%string
        else Err ("unexpected tunnel response type 0x" ++ hex_encode [msgType])%string
      end
    end
  end.

(** [openDataStream].  The log lines slice the peer id. *)
Definition openDataStream (e : client_env) (peerID : string) (relayAddrs : list string)
    (transportEndpoint : string) (sessionToken : bytes) (targetPort : Z) (streamID : string)
  : outcome (res St) :=
  let '(name, target) := endpoint_route peerID relayAddrs transportEndpoint in
  match MustGet backends name with
  | Err err => Return (Err err)
  | Ok b =>
    _ ← first12 peerID;
    match sb_OpenTunnel b target with
    | Err err => Return (Err ("open tunnel stream: " ++ err)%string)
    | Ok stream => Return (client_handshake e stream (client_hello e sessionToken targetPort streamID))
    end
  end.

(** [ConnectToPaired]: the addresses it dials. *)
Definition ConnectToPaired_addrs (presence : option (list string)) (c : Config) (peerID : string)
  : outcome (res (list string)) :=
  match presence with
  | None => Return (Err "presence manager unavailable")
  | Some addrs =>
    let addrs := if bool_decide (addrs = [])
                 then match find (fun r => bool_decide (rc_NodeID r = peerID)) (Remotes c) with
                      | Some r => rc_RelayAddrs r | None => [] end
                 else addrs in
    if bool_decide (addrs = []) then
      id ← first12 peerID;
      Return (Err ("peer " ++ id ++ " is offline or has no known relay addresses")%string)
    else Return (Ok addrs)
  end.
End Client.

Arguments client_env St : clear implicits.

(** ** One accepted connection *)

(** How the goroutine of a connection ends: the stream could not be opened,
    the proxy was closed before it could be tracked, or it was bridged. *)
Inductive connection_end : Type :=
  | NotOpened
  | NotTracked (path addr : string) (remote : nat)
  | Bridged (path addr : string) (remote : nat) (failed : bool).

(** The calls it makes on the proxy, in order; the deferred ones last. *)
Definition connection_script (c : nat) (streamID : string) (e : connection_end) : list proxy_op :=
  OpTrack c ::
  match e with
  | NotOpened => []
  | NotTracked path addr r => [OpSetPath path addr; OpTrackStream streamID c (Some r)]
  | Bridged path addr r failed =>
    [OpSetPath path addr; OpTrackStream streamID c (Some r)] ++
    (if failed then [OpCloseStream streamID] else []) ++ [OpUntrackStream streamID c]
  end ++ [OpUntrack c].

(** ** Lemmas *)

Lemma not_in_removed (c : nat) (cs : gset nat) : c ∉ cs ∖ {[c]}.
Proof. set_solver. Qed.

(** A finished connection leaves no entry behind. *)
Lemma connection_script_clean p c id e :
  (forall path addr r, e = NotTracked path addr r -> streams p !! id = None /\ closed p = true) ->
  streams p !! id = None ->
  c ∉ conns (run_proxy p (connection_script c id e)) /\
  streams (run_proxy p (connection_script c id e)) !! id = None.
Proof.
  intros Hnt Hs. unfold run_proxy, connection_script.
  assert (Hpath : forall q path addr, streams (SetConnectionPath q path addr) = streams q /\
    conns (SetConnectionPath q path addr) = conns q /\ closed (SetConnectionPath q path addr) = closed q).
  { intros q path addr. unfold SetConnectionPath. by case_match. }
  destruct e as [|path addr r|path addr r failed].
  - cbn. unfold track, untrack. by destruct (closed p); cbn; (split; [apply not_in_removed|]).
  - destruct (Hnt _ _ _ eq_refl) as [_ Hc]. cbn. unfold track, trackStream, untrack. rewrite Hc.
    destruct (Hpath (set_tables p (conns p) (streams p) true [ClosedConn c]) path addr) as (Hst & Hco & ->).
    cbn [closed set_tables fst conns streams]. rewrite Hco, Hst. split; [apply not_in_removed|done].
  - assert (E : forall q, let r := apply_proxy (apply_proxy q (OpUntrackStream id c)) (OpUntrack c) in
      c ∉ conns r /\ streams r !! id = None).
    { intros q. cbn. split; [apply not_in_removed|]. apply lookup_delete_eq. }
    destruct failed; apply E.
Qed.

(** ** The two halves of the handshake *)

Section Handshake.
Context `{Crypto} {S : Type} `{SessionService S}.
Context `{Codec TunnelHello} `{Codec TunnelPing} `{Codec TunnelError} `{Codec TunnelReady} `{Codec TunnelPong}.

(** The frame an event of the host puts on the stream. *)
Definition event_frame (ev : tunnel_event) : res bytes :=
  match ev with
  | SendPong p => frame_bytes marshal MsgTunnelPong p
  | SendError err => frame_bytes marshal MsgTunnelError err
  | SendReady r => frame_bytes marshal MsgTunnelReady r
  | _ => Ok []
  end.

(** All it writes, when every frame can be written. *)
Fixpoint host_answer (evs : list tunnel_event) : res bytes :=
  match evs with
  | [] => Ok []
  | ev :: evs => b ← event_frame ev; rest ← host_answer evs; Ok (b ++ rest)
  end.

(** The codecs of the handshake: what is marshalled is unmarshalled. *)
Record handshake_codecs : Prop := {
  hello_codec (h : TunnelHello) data : marshal h = Ok data -> unmarshal data = Ok h;
  error_codec (e : TunnelError) data : marshal e = Ok data -> unmarshal data = Ok e;
}.

Context {St : Type}.

(** What the client makes of an answer that starts with a frame. *)
Lemma client_reads_ready (e : client_env St) stream hello sent r evs :
  frame_bytes marshal MsgTunnelHello hello = Ok sent -> ce_write e = None ->
  host_answer (SendReady r :: evs) = Ok (ce_answer e stream sent) ->
  client_handshake e stream hello = Ok stream.
Proof.
  intros Hs Hw Ha. unfold client_handshake. rewrite Hs, Hw. cbn in Ha.
  destruct (frame_bytes marshal MsgTunnelReady r) as [b|] eqn:Eb; [|done]. cbn in Ha.
  destruct (host_answer evs) as [rest|]; [|done]. injection Ha as <-.
  destruct (ReadFrame_frame_bytes _ _ _ _ rest Eb) as (data & _ & ->). done.
Qed.

Lemma client_reads_error (e : client_env St) stream hello sent err evs :
  handshake_codecs -> frame_bytes marshal MsgTunnelHello hello = Ok sent -> ce_write e = None ->
  host_answer (SendError err :: evs) = Ok (ce_answer e stream sent) ->
  client_handshake e stream hello = Err ("host rejected tunnel: " ++ te_Reason err)%string.
Proof.
  intros Hc Hs Hw Ha. unfold client_handshake. rewrite Hs, Hw. cbn in Ha.
  destruct (frame_bytes marshal MsgTunnelError err) as [b|] eqn:Eb; [|done]. cbn in Ha.
  destruct (host_answer evs) as [rest|]; [|done]. injection Ha as <-.
  destruct (ReadFrame_frame_bytes _ _ _ _ rest Eb) as (data & Hm & ->).
  rewrite bool_decide_eq_false_2, bool_decide_eq_true_2 by done. by rewrite (error_codec Hc _ _ Hm).
Qed.

(** The host on the bytes of a client's hello. *)
Lemma host_reads_hello (m : TunnelManager S) he hello sent remote backend :
  handshake_codecs -> frame_bytes marshal MsgTunnelHello hello = Ok sent ->
  handleIncomingConn m he sent remote backend = handle_hello m he hello remote backend.
Proof.
  intros Hc Hs. destruct (ReadFrame_frame_bytes _ _ _ _ [] Hs) as (data & Hm & Hr).
  rewrite app_nil_r in Hr. unfold handleIncomingConn. rewrite Hr.
  rewrite bool_decide_eq_false_2, bool_decide_eq_false_2 by (try done; intros Hn; by apply Hn).
  by rewrite (hello_codec Hc _ _ Hm).
Qed.
End Handshake.

Arguments handshake_codecs : clear implicits.
Arguments handshake_codecs {_ _}.

(** ** Properties *)

(** C5: client and host agree on the handshake.  When the bytes the client
    sends reach the host and the host's answer reaches the client, the client
    ends with a stream exactly when the host authorized the hello: the host
    sent the ready frame and dialled.  Otherwise the client reports the very
    reason the host gave, the host has closed the stream, and it dialled
    nothing. *)
Theorem tunnel_handshake_agrees `{Crypto} {S} `{SessionService S} `{!SessionLaws S}
  `{Codec TunnelHello} `{Codec TunnelPing} `{Codec TunnelError} `{Codec TunnelReady} `{Codec TunnelPong}
  {St} (m : TunnelManager S) he remote backend m' ev (e : client_env St) stream token port sid sent
  (Hc : handshake_codecs)
  (Hs : frame_bytes marshal MsgTunnelHello (client_hello e token port sid) = Ok sent)
  (Hh : handleIncomingConn m he sent remote backend = Return (m', ev))
  (Hw : ce_write e = None) (Hready : te_ready_ok he = true)
  (Ha : host_answer ev = Ok (ce_answer e stream sent)) :
  let hello := client_hello e token port sid in
  (client_handshake e stream hello = Ok stream /\
   exists peer p addr, tunnelHelloNodeID hello remote backend = Ok peer /\
     authorize_hello m (te_now he) hello peer = (m', Ok (p, addr)) /\ DialTCP addr ∈ ev) \/
  (exists reason, client_handshake e stream hello = Err ("host rejected tunnel: " ++ reason)%string /\
     ev = [SendError (mkTunnelError reason); EndStream]).
Proof.
  intros hello. rewrite (host_reads_hello _ _ _ _ _ _ Hc Hs) in Hh.
  apply handle_hello_cases in Hh as [(reason & -> & _)|(peer & addr & p & _ & _ & Hp & Hau & ->)].
  - right. exists reason. split; [|done]. by eapply (client_reads_error e stream hello sent (mkTunnelError reason)).
  - left. split; [by eapply (client_reads_ready e stream hello sent)|].
    exists peer, p, addr. split; [done|]. split; [done|]. rewrite Hready.
    apply list_elem_of_further. left.
Qed.

(** ** A concrete handshake *)

Definition sample_client_hello : TunnelHello :=
  mkTunnelHello Version client_node "CONNECT" sample_token "127.0.0.1" 22 "s1".

#[local] Instance hello_codec_one : Codec TunnelHello :=
  {| marshal h := if decide (h = sample_client_hello) then Ok [x7b; x7d] else Err "unknown hello";
     unmarshal _ := Ok sample_client_hello |}.
#[local] Instance error_codec_text : Codec TunnelError :=
  {| marshal e := Ok (to_bytes (te_Reason e)); unmarshal b := Ok (mkTunnelError (of_bytes b)) |}.
#[local] Instance ready_codec_one : Codec TunnelReady :=
  {| marshal _ := Ok [x7b; x7d]; unmarshal _ := Ok (mkTunnelReady "" 0 "") |}.
#[local] Instance pong_codec_one : Codec TunnelPong :=
  {| marshal _ := Ok [x7b; x7d]; unmarshal _ := Ok (mkTunnelPong 0) |}.
#[local] Instance ping_codec_one : Codec TunnelPing := one_ping.

Definition sample_client : client_env nat :=
  mkClientEnv client_node None (fun _ _ => frame_header MsgTunnelReady [x7b; x7d] ++ [x7b; x7d]).

Lemma tunnel_handshake_agrees_witness :
  exists m' ev, handleIncomingConn sample_tunnel sample_tunnel_env hello_frame client_node "iroh" = Return (m', ev) /\
    client_handshake sample_client 5%nat sample_client_hello = Ok 5%nat.
Proof.
  assert (He : match handleIncomingConn sample_tunnel sample_tunnel_env hello_frame client_node "iroh" with
               | Return (_, ev) => ev | Panic _ => [] end = sample_events) by (vm_compute; reflexivity).
  destruct (handleIncomingConn sample_tunnel sample_tunnel_env hello_frame client_node "iroh")
    as [[m' ev]|] eqn:Hh; [|discriminate He]. subst ev.
  exists m', sample_events. split; [reflexivity|].
  assert (Hc : handshake_codecs).
  { split.
    - intros h data Hm. cbn in *. destruct (decide (h = sample_client_hello)); [congruence|discriminate].
    - intros [s] data Hm. change (Ok (to_bytes s) = Ok data) in Hm. injection Hm as <-.
      change (Ok (mkTunnelError (of_bytes (to_bytes s))) = Ok (mkTunnelError s)).
      rewrite of_to_bytes. reflexivity. }
  assert (Hs : frame_bytes marshal MsgTunnelHello (client_hello sample_client sample_token 22 "s1") = Ok hello_frame)
    by (vm_compute; reflexivity).
  assert (Ha : host_answer sample_events = Ok (ce_answer sample_client 5%nat hello_frame))
    by (vm_compute; reflexivity).
  destruct (tunnel_handshake_agrees sample_tunnel sample_tunnel_env client_node "iroh" m' sample_events
    sample_client 5%nat sample_token 22 "s1" hello_frame Hc Hs Hh eq_refl eq_refl Ha) as [[Hx _]|(reason & _ & Hx)].
  - exact Hx.
  - discriminate Hx.
Defined.
