(* ===== verification/LocalTunnel.v ===== *)
(** * LocalTunnel: a running tunnel of the client, [internal/tunnel/tunnel.go]

    [connectStream] and its callers: the local listener, the accept loop and
    one goroutine per accepted connection, all sharing the [LocalProxy].  The
    goroutines are interleaved step by step; a label says who moves and what
    the network answers. *)

From stdpp Require Import gmap sets.
From S2P Require Import Prelude GoStrings GoNet Config LocalProxy TunnelHost TunnelClient.

(** ** Connecting *)

Definition defaultTunnelOpenTimeout : Z := 30 * second.
Definition irohTunnelOpenTimeout : Z := 120 * second.

(** The time a goroutine has to open its stream. *)
Definition openTimeout (transportEndpoint : string) : Z :=
  if bool_decide (transportEndpoint <> "") && negb (has_prefix transportEndpoint "quic:")
  then irohTunnelOpenTimeout else defaultTunnelOpenTimeout.

(** A tunnel that was set up: where its goroutines open their streams, and the
    proxy.  Callback [0] of the proxy is the one that closes the backend's
    cached tunnels ([closeBackendTunnel]). *)
Record opened_tunnel : Type := mkOpened {
  ot_Addr : string;
  ot_peer : string;
  ot_relayAddrs : list string;
  ot_endpoint : string;
  ot_token : bytes;
  ot_targetPort : Z;
  ot_proxy : LocalProxy;
}.

(** [connectStream] up to its accept loop; a log line slices the peer id. *)
Definition connectStream (listen : listener) (c : Config) (peerID : string) (relayAddrs : list string)
    (transportEndpoint : string) (sessionToken : bytes) (targetPort : Z) : outcome (res opened_tunnel) :=
  match listenLocalTunnel listen (ListenAddr (RDP c)) with
  | Err err => Return (Err ("local listen " ++ normalizeListenAddr (ListenAddr (RDP c)) ++ ": " ++ err)%string)
  | Ok localAddr =>
    _ ← first12 peerID;
    Return (Ok (mkOpened localAddr peerID relayAddrs transportEndpoint sessionToken targetPort
                  (SetOnClose newLocalProxy (Some 0%nat))))
  end.

Definition ConnectSession listen c (peerID : string) (relayAddrs : list string) (token : bytes) (port : Z) :=
  connectStream listen c peerID relayAddrs "" token port.
Definition ConnectIrohSession listen c (peerID ticket : string) (token : bytes) (port : Z) :=
  connectStream listen c peerID [] ticket token port.
Definition ConnectBitTorrentQUICSession listen c (peerID endpoint : string) (token : bytes) (port : Z) :=
  connectStream listen c peerID [] ("quic:" ++ endpoint) token port.

(** [Connect], [ConnectIroh] and [ConnectBitTorrentQUIC] return the address. *)
Definition local_addr (r : outcome (res opened_tunnel)) : outcome (res string) :=
  match r with
  | Panic p => Panic p
  | Return (Err err) => Return (Err err)
  | Return (Ok t) => Return (Ok (ot_Addr t))
  end.
Definition Connect listen c peerID relayAddrs token port := local_addr (ConnectSession listen c peerID relayAddrs token port).
Definition ConnectIroh listen c peerID ticket token port := local_addr (ConnectIrohSession listen c peerID ticket token port).
Definition ConnectBitTorrentQUIC listen c peerID endpoint token port :=
  local_addr (ConnectBitTorrentQUICSession listen c peerID endpoint token port).

(** ** The goroutines *)

(** Where the goroutine of a connection is, with its stream id and stream. *)
Inductive pc : Type :=
  | Opening (id : string)                   (** in [openDataStream] *)
  | Opened (id : string) (r : nat)          (** before [SetConnectionPath] *)
  | PathSet (id : string) (r : nat)         (** before [trackStream] *)
  | Bridging (id : string) (r : nat)        (** in [bridgeLogged] *)
  | BridgeFailed (id : string)              (** before [CloseStream] *)
  | Untracking (id : string)                (** the deferred [untrackStream] *)
  | Leaving.                                (** the deferred [untrack] *)

(** The accept loop. *)
Inductive acceptor : Type :=
  | Waiting
  | Tracking (c : nat)       (** a connection, before [track] *)
  | AcceptFailed             (** before [notifyClosed] *)
  | Stopped.

#[export] Instance acceptor_eq_dec : EqDecision acceptor.
Proof. solve_decision. Defined.

(** Connections and streams are numbered; [tn_conns] and [tn_remotes] are all
    there have been, the next two those a goroutine closed itself.  The proxy
    records what it closed. *)
Record tunnel : Type := mkTunnel {
  tn_proxy : LocalProxy;
  tn_acc : acceptor;
  tn_threads : gmap nat pc;
  tn_conns : gset nat;
  tn_remotes : gset nat;
  tn_closedConns : gset nat;
  tn_closedRemotes : gset nat;
}.

Definition newTunnel (p : LocalProxy) : tunnel := mkTunnel p Waiting ∅ ∅ ∅ ∅ ∅.

Definition open_conn (s : tunnel) (c : nat) : Prop :=
  c ∈ tn_conns s /\ c ∉ tn_closedConns s /\ ClosedConn c ∉ events (tn_proxy s).
Definition open_remote (s : tunnel) (r : nat) : Prop :=
  r ∈ tn_remotes s /\ r ∉ tn_closedRemotes s /\ ClosedRemote r ∉ events (tn_proxy s).

(** What the loop does, what the goroutine of a connection does, and a call of
    a method by the owner of the proxy. *)
Inductive thread_event : Type :=
  | OpenOk (r : nat)
  | OpenFails
  | SetPath (path addr : string)
  | TrackStream
  | BridgeEnds (failed : bool)
  | CloseFailed
  | Untrack.

Inductive label : Type :=
  | Accept (c : nat)
  | AcceptError
  | Notify
  | Track (id : string)             (** and [newStreamID] in its goroutine *)
  | Thread (c : nat) (ev : thread_event)
  | Api (o : proxy_op).

(** The owner closes the proxy, closes its connections or adds a callback. *)
Definition owner_op (o : proxy_op) : bool :=
  match o with OpClose | OpNotify | OpCloseConnections | OpSetOnClose _ => true | _ => false end.

Definition set_proxy (s : tunnel) p : tunnel :=
  mkTunnel p (tn_acc s) (tn_threads s) (tn_conns s) (tn_remotes s) (tn_closedConns s) (tn_closedRemotes s).
Definition goto (s : tunnel) (c : nat) (x : pc) : tunnel :=
  mkTunnel (tn_proxy s) (tn_acc s) (<[c := x]> (tn_threads s)) (tn_conns s) (tn_remotes s) (tn_closedConns s)
    (tn_closedRemotes s).
Definition set_acc (s : tunnel) a : tunnel :=
  mkTunnel (tn_proxy s) a (tn_threads s) (tn_conns s) (tn_remotes s) (tn_closedConns s) (tn_closedRemotes s).

(** A step of the goroutine of connection [c] at [x]. *)
Definition thread_step (s : tunnel) (c : nat) (x : pc) (ev : thread_event) : option tunnel :=
  match x, ev with
  | Opening id, OpenOk r =>
    if decide (r ∈ tn_remotes s) then None
    else let s := goto s c (Opened id r) in
         Some (mkTunnel (tn_proxy s) (tn_acc s) (tn_threads s) (tn_conns s) ({[r]} ∪ tn_remotes s) (tn_closedConns s)
                 (tn_closedRemotes s))
  | Opening id, OpenFails =>
    let s := goto s c Leaving in
    Some (mkTunnel (tn_proxy s) (tn_acc s) (tn_threads s) (tn_conns s) (tn_remotes s) ({[c]} ∪ tn_closedConns s)
            (tn_closedRemotes s))
  | Opened id r, SetPath path addr =>
    Some (goto (set_proxy s (SetConnectionPath (tn_proxy s) path addr)) c (PathSet id r))
  | PathSet id r, TrackStream =>
    let '(p, ok) := trackStream (tn_proxy s) id c (Some r) in
    Some (goto (set_proxy s p) c (if ok then Bridging id r else Leaving))
  | Bridging id r, BridgeEnds failed =>
    let s := goto s c (if failed then BridgeFailed id else Untracking id) in
    Some (mkTunnel (tn_proxy s) (tn_acc s) (tn_threads s) (tn_conns s) (tn_remotes s) ({[c]} ∪ tn_closedConns s)
            ({[r]} ∪ tn_closedRemotes s))
  | BridgeFailed id, CloseFailed => Some (goto (set_proxy s (CloseStream (tn_proxy s) id)) c (Untracking id))
  | Untracking id, Untrack => Some (goto (set_proxy s (untrackStream (tn_proxy s) id c)) c Leaving)
  | Leaving, Untrack =>
    let s := set_proxy s (untrack (tn_proxy s) c) in
    Some (mkTunnel (tn_proxy s) (tn_acc s) (delete c (tn_threads s)) (tn_conns s) (tn_remotes s) (tn_closedConns s)
            (tn_closedRemotes s))
  | _, _ => None
  end.

(** A step; [None] when it is not possible. *)
Definition step (s : tunnel) (l : label) : option tunnel :=
  match l, tn_acc s with
  | Accept c, Waiting =>
    if decide (c ∈ tn_conns s \/ ClosedListener ∈ events (tn_proxy s)) then None
    else Some (mkTunnel (tn_proxy s) (Tracking c) (tn_threads s) ({[c]} ∪ tn_conns s) (tn_remotes s)
                 (tn_closedConns s) (tn_closedRemotes s))
  | AcceptError, Waiting => Some (set_acc s AcceptFailed)
  | Notify, AcceptFailed => Some (set_acc (set_proxy s (notifyClosed (tn_proxy s))) Stopped)
  | Track id, Tracking c => Some (goto (set_acc (set_proxy s (track (tn_proxy s) c)) Waiting) c (Opening id))
  | Thread c ev, _ => match tn_threads s !! c with Some x => thread_step s c x ev | None => None end
  | Api o, _ => if owner_op o then Some (set_proxy s (apply_proxy (tn_proxy s) o)) else None
  | _, _ => None
  end.

Fixpoint run (s : tunnel) (ls : list label) : option tunnel :=
  match ls with
  | [] => Some s
  | l :: ls => match step s l with Some s' => run s' ls | None => None end
  end.

(** Steps of the tunnel itself, as opposed to its owner's. *)
Definition internal (l : label) : bool := match l with Api _ => false | _ => true end.

(** ** Invariant *)

(** The goroutine still owns its connection, or its stream. *)
Definition has_conn (x : pc) : bool :=
  match x with Opening _ | Opened _ _ | PathSet _ _ | Bridging _ _ => true | _ => false end.
Definition remote_of (x : pc) : option nat :=
  match x with Opened _ r | PathSet _ r | Bridging _ r => Some r | _ => None end.

(** Every open connection and stream has an owner, and the proxy knows the
    connections of the goroutines unless they are closed. *)
Record tunnel_inv (s : tunnel) : Prop := {
  ti_conn c : open_conn s c -> tn_acc s = Tracking c \/ exists x, tn_threads s !! c = Some x /\ has_conn x = true;
  ti_remote r : open_remote s r -> exists c x, tn_threads s !! c = Some x /\ remote_of x = Some r;
  ti_kept c x : tn_threads s !! c = Some x -> c ∈ conns (tn_proxy s) \/ ~ open_conn s c;
  ti_closed : closed (tn_proxy s) = true -> conns (tn_proxy s) = ∅ /\ streams (tn_proxy s) = ∅;
  ti_listener : closed (tn_proxy s) = true -> ClosedListener ∈ events (tn_proxy s);
  ti_dom c x : tn_threads s !! c = Some x -> c ∈ tn_conns s;
  ti_tracking c : tn_acc s = Tracking c -> c ∈ tn_conns s /\ tn_threads s !! c = None;
}.

Lemma newTunnel_inv p : p = SetOnClose newLocalProxy (Some 0%nat) -> tunnel_inv (newTunnel p).
Proof. intros ->. split; cbn; try done. - by intros c (? & _). - by intros r (? & _). Qed.

(** The change a step makes to the proxy, if any. *)
Definition proxy_call (s : tunnel) (l : label) : option proxy_op :=
  match l, tn_acc s with
  | Notify, _ => Some OpNotify
  | Track _, Tracking c => Some (OpTrack c)
  | Api o, _ => Some o
  | Thread c ev, _ =>
    match tn_threads s !! c, ev with
    | Some (Opened _ _), SetPath path addr => Some (OpSetPath path addr)
    | Some (PathSet id r), TrackStream => Some (OpTrackStream id c (Some r))
    | Some (BridgeFailed id), CloseFailed => Some (OpCloseStream id)
    | Some (Untracking id), Untrack => Some (OpUntrackStream id c)
    | Some Leaving, Untrack => Some (OpUntrack c)
    | _, _ => None
    end
  | _, _ => None
  end.

Ltac step_cases H :=
  unfold step, thread_step in H; repeat case_match; simplify_eq/=;
  repeat match goal with H : (if ?b then _ else _) = Some _ |- _ => destruct b eqn:?; simplify_eq/= end.

Lemma step_proxy s l s' :
  step s l = Some s' ->
  tn_proxy s' = match proxy_call s l with Some o => apply_proxy (tn_proxy s) o | None => tn_proxy s end.
Proof.
  intros H. unfold proxy_call. step_cases H; try done; by (cbn; match goal with E : trackStream _ _ _ _ = _ |- _ => rewrite E end).
Qed.

Lemma step_events s l s' e : step s l = Some s' -> e ∈ events (tn_proxy s) -> e ∈ events (tn_proxy s').
Proof. intros H He. rewrite (step_proxy _ _ _ H). destruct (proxy_call s l); [by apply events_mono|done]. Qed.

#[export] Instance open_conn_dec s c : Decision (open_conn s c).
Proof. unfold open_conn. apply _. Defined.

(** Nothing is opened again. *)
Lemma open_conn_step s l s' c : step s l = Some s' -> open_conn s' c -> open_conn s c \/ l = Accept c.
Proof.
  intros H (Hin & Hcl & Hev). assert (Hev' : ClosedConn c ∉ events (tn_proxy s)) by eauto using step_events.
  unfold open_conn. step_cases H; set_solver.
Qed.

Lemma open_remote_step s l s' r :
  step s l = Some s' -> open_remote s' r -> open_remote s r \/ exists c, l = Thread c (OpenOk r).
Proof.
  intros H (Hin & Hcl & Hev). assert (Hev' : ClosedRemote r ∉ events (tn_proxy s)) by eauto using step_events.
  unfold open_remote. step_cases H; set_solver.
Qed.

(** The goroutine a label moves. *)
Definition mover (l : label) : option nat := match l with Thread c _ => Some c | _ => None end.

(** A step keeps the goroutines it does not move. *)
Lemma step_others s l s' c :
  step s l = Some s' -> mover l <> Some c -> tn_acc s <> Tracking c ->
  tn_threads s' !! c = tn_threads s !! c.
Proof.
  intros H Hl Ha. step_cases H; try done;
    first [apply lookup_insert_ne|apply lookup_delete_ne]; by intros ->; (congruence || apply Hl).
Qed.

Lemma trackStream_false p id c r p' :
  trackStream p id c (Some r) = (p', false) -> ClosedConn c ∈ events p' /\ ClosedRemote r ∈ events p'.
Proof. unfold trackStream. case_match; intros ?; simplify_eq/=. set_solver. Qed.

(** The goroutine that moves keeps its connection, or it is closed. *)
Lemma step_own_conn s c ev s' x :
  step s (Thread c ev) = Some s' -> tn_threads s !! c = Some x -> has_conn x = true -> open_conn s' c ->
  exists y, tn_threads s' !! c = Some y /\ has_conn y = true.
Proof.
  intros H Hx Hh (_ & Hcl & Hev). unfold step in H. rewrite Hx in H.
  destruct x, ev; step_cases H; try (rewrite lookup_insert_eq; by eauto); try (exfalso; set_solver).
  exfalso. by destruct (trackStream_false _ _ _ _ _ ltac:(eassumption)).
Qed.

Lemma step_own_remote s c ev s' x r :
  step s (Thread c ev) = Some s' -> tn_threads s !! c = Some x -> remote_of x = Some r -> open_remote s' r ->
  exists y, tn_threads s' !! c = Some y /\ remote_of y = Some r.
Proof.
  intros H Hx Hh (_ & Hcl & Hev). unfold step in H. rewrite Hx in H.
  destruct x, ev; step_cases H; try (rewrite lookup_insert_eq; by eauto); try (exfalso; set_solver).
  exfalso. by destruct (trackStream_false _ _ _ _ _ ltac:(eassumption)).
Qed.

(** Only the goroutine of a connection gives it back to the proxy, and at its
    end. *)
Lemma proxy_call_gives_back s l s' c o :
  step s l = Some s' -> proxy_call s l = Some o -> gives_back c o = true ->
  exists ev, l = Thread c ev /\ forall x, tn_threads s !! c = Some x -> has_conn x = false.
Proof.
  intros H Ho Hg. unfold proxy_call in Ho. step_cases H; try case_bool_decide; simplify_eq; try done;
    try (by eexists; split; [reflexivity|]; intros; simplify_eq).
  by destruct o.
Qed.

Lemma step_conn s l s' c :
  tunnel_inv s -> step s l = Some s' -> open_conn s' c ->
  tn_acc s' = Tracking c \/ exists x, tn_threads s' !! c = Some x /\ has_conn x = true.
Proof.
  intros Hi H Ho. destruct (open_conn_step _ _ _ _ H Ho) as [Hos| ->]; [|left; by step_cases H].
  destruct (ti_conn _ Hi c Hos) as [Ha|(x & Hx & Hh)].
  - unfold step in H. rewrite Ha in H. destruct l; simplify_eq; [..|step_cases H; by left|step_cases H; by left].
    right. cbn. rewrite lookup_insert_eq. by eauto.
  - destruct (decide (mover l = Some c)) as [Hm|Hn].
    + right. destruct l; simplify_eq/=. by eapply step_own_conn.
    + right. exists x. split; [|done]. rewrite (step_others _ _ _ c H); [done|done|].
      intros Ha. destruct (ti_tracking _ Hi c Ha). congruence.
Qed.

Lemma step_remote s l s' r :
  tunnel_inv s -> step s l = Some s' -> open_remote s' r ->
  exists c x, tn_threads s' !! c = Some x /\ remote_of x = Some r.
Proof.
  intros Hi H Ho. destruct (open_remote_step _ _ _ _ H Ho) as [Hos|[c ->]].
  - destruct (ti_remote _ Hi r Hos) as (c & x & Hx & Hr). exists c.
    destruct (decide (mover l = Some c)) as [Hm|Hn]; [destruct l; simplify_eq/=; by eapply step_own_remote|].
    exists x. split; [|done]. rewrite (step_others _ _ _ c H); [done|done|].
    intros Ha. destruct (ti_tracking _ Hi c Ha). congruence.
  - exists c. step_cases H. rewrite lookup_insert_eq. by eauto.
Qed.

Lemma step_tracking s l s' c :
  tn_acc s = Tracking c -> tn_threads s !! c = None -> step s l = Some s' ->
  tn_threads s' !! c = None \/ exists id, l = Track id.
Proof.
  intros Ha Hn H. destruct l; [..|destruct (decide (c0 = c)) as [->|]|]; try (right; by eauto); left.
  4: by cbn in H; rewrite Hn in H.
  all: unfold step in H; rewrite ?Ha in H; step_cases H; try done; by rewrite ?lookup_insert_ne, ?lookup_delete_ne by done.
Qed.

Lemma step_kept s l s' c x :
  tunnel_inv s -> step s l = Some s' -> tn_threads s' !! c = Some x -> c ∈ conns (tn_proxy s') \/ ~ open_conn s' c.
Proof.
  intros Hi H Hx. destruct (decide (open_conn s' c)) as [Ho|]; [left|by right].
  assert (Hk : c ∈ conns (tn_proxy s') \/ ClosedConn c ∈ events (tn_proxy s')); [|destruct Ho as (_ & _ & ?); tauto].
  rewrite (step_proxy _ _ _ H). destruct (open_conn_step _ _ _ _ H Ho) as [Hos| ->].
  - destruct (ti_conn _ Hi c Hos) as [Ha|(y & Hy & Hh)].
    + destruct (ti_tracking _ Hi c Ha) as [_ Hn]. unfold proxy_call.
      destruct (step_tracking _ _ _ _ Ha Hn H) as [Hn'|[id ->]]; [congruence|].
      rewrite Ha. apply conn_handed. cbn. by rewrite bool_decide_eq_true_2.
    + destruct (proxy_call s l) as [o|] eqn:Ec.
      * destruct (ti_kept _ Hi c y Hy) as [Hc|]; [|done]. apply conn_kept; [done|].
        destruct (gives_back c o) eqn:Eg; [|done].
        destruct (proxy_call_gives_back _ _ _ _ _ H Ec Eg) as (ev & -> & Hf). by rewrite (Hf y Hy) in Hh.
      * left. by destruct (ti_kept _ Hi c y Hy).
  - exfalso. unfold step in H. step_cases H. match goal with E : ~ (_ \/ _) |- _ => apply E end.
    left. by eapply ti_dom.
Qed.

Lemma listener_step p o :
  (closed p = true -> ClosedListener ∈ events p) ->
  closed (apply_proxy p o) = true -> ClosedListener ∈ events (apply_proxy p o).
Proof. intros Hc. proxy_cases o; rewrite ?elem_of_app, ?elem_of_cons; auto; try discriminate. Qed.

Lemma step_dom s l s' c x : tunnel_inv s -> step s l = Some s' -> tn_threads s' !! c = Some x -> c ∈ tn_conns s'.
Proof.
  intros Hi H Hx. assert (Hd : forall y, tn_threads s !! c = Some y -> c ∈ tn_conns s) by (intros; by eapply ti_dom).
  destruct l; step_cases H; try set_solver;
    try (destruct (decide (c0 = c)) as [->|]; rewrite ?lookup_insert_eq, ?lookup_insert_ne, ?lookup_delete_eq, ?lookup_delete_ne in Hx by done; by eauto).
  destruct (decide (c0 = c)) as [->|]; [by eapply ti_tracking|]. rewrite lookup_insert_ne in Hx by done. by eauto.
Qed.

Lemma step_acc s l s' c :
  tunnel_inv s -> step s l = Some s' -> tn_acc s' = Tracking c -> c ∈ tn_conns s' /\ tn_threads s' !! c = None.
Proof.
  intros Hi H Ha. destruct (decide (tn_acc s = Tracking c)) as [Hs|Hs].
  - destruct (ti_tracking _ Hi c Hs) as [Hc Hn]. destruct (step_tracking _ _ _ _ Hs Hn H) as [Hn'|[id ->]].
    + split; [|done]. step_cases H; set_solver.
    + unfold step in H. rewrite Hs in H. by simplify_eq/=.
  - step_cases H; try (by destruct Hs). split; [set_solver|].
    destruct (tn_threads s !! c) eqn:E; [|done]. exfalso. by apply (ti_dom _ Hi) in E; auto.
Qed.

Lemma step_inv s l s' : tunnel_inv s -> step s l = Some s' -> tunnel_inv s'.
Proof.
  intros Hi H. split.
  - intros c. by eapply step_conn.
  - intros r. by eapply step_remote.
  - intros c x. by eapply step_kept.
  - rewrite (step_proxy _ _ _ H). destruct (proxy_call s l); [apply closed_step|]; by apply ti_closed.
  - rewrite (step_proxy _ _ _ H). destruct (proxy_call s l); [apply listener_step|]; by apply ti_listener.
  - intros c x. by eapply step_dom.
  - intros c. by eapply step_acc.
Qed.

Lemma run_inv ls : forall s s', tunnel_inv s -> run s ls = Some s' -> tunnel_inv s'.
Proof.
  induction ls as [|l ls IH]; intros s s' Hi; cbn; [by intros [= <-]|].
  destruct (step s l) eqn:E; [|done]. apply IH. by eapply step_inv.
Qed.

(** ** Work left *)

(** The steps a goroutine, and the accept loop, have before them once the
    listener is closed. *)
Definition rank (x : pc) : nat :=
  match x with
  | Opening _ => 7 | Opened _ _ => 6 | PathSet _ _ => 5 | Bridging _ _ => 4 | BridgeFailed _ => 3 | Untracking _ => 2
  | Leaving => 1
  end.
Definition acc_rank (a : acceptor) : nat := match a with Tracking _ => 10 | Waiting => 2 | AcceptFailed => 1 | Stopped => 0 end.

Definition ranks (m : gmap nat pc) : nat := map_fold (fun _ x n => rank x + n)%nat 0%nat m.
Definition work (s : tunnel) : nat := (acc_rank (tn_acc s) + ranks (tn_threads s))%nat.

Lemma ranks_delete m c x : m !! c = Some x -> ranks m = (rank x + ranks (delete c m))%nat.
Proof. intros Hx. unfold ranks. apply (map_fold_delete_L (fun (_ : nat) x n => (rank x + n)%nat)); [|done]. intros. lia. Qed.
Lemma ranks_insert m c x : ranks (<[c := x]> m) = (rank x + ranks (delete c m))%nat.
Proof. rewrite (ranks_delete _ c x) by apply lookup_insert_eq. by rewrite delete_insert_eq. Qed.

(** A closed tunnel only gets closer to its end. *)
Lemma step_work s l s' :
  tunnel_inv s -> closed (tn_proxy s) = true -> step s l = Some s' ->
  if internal l then (work s' < work s)%nat else work s' = work s.
Proof.
  intros Hi Hc H. pose proof (ti_listener _ Hi Hc) as Hl. pose proof (ti_tracking _ Hi) as Ht.
  unfold work. destruct l; step_cases H; rewrite ?ranks_insert;
    try match goal with E : tn_threads s !! ?c = Some _ |- _ => rewrite (ranks_delete _ _ _ E); cbn; lia end; try lia.
  - exfalso. auto.
  - destruct (Ht _ eq_refl) as [_ Hn]. rewrite (delete_id _ _ Hn). cbn. lia.
Qed.

Lemma step_closed s l s' : step s l = Some s' -> closed (tn_proxy s) = true -> closed (tn_proxy s') = true.
Proof.
  intros H Hc. rewrite (step_proxy _ _ _ H). destruct (proxy_call s l) as [o|]; [|done].
  generalize (tn_proxy s) Hc. clear. intros p Hc. by proxy_cases o.
Qed.

Lemma run_work ls : forall s s',
  tunnel_inv s -> closed (tn_proxy s) = true -> run s ls = Some s' ->
  closed (tn_proxy s') = true /\ (length (List.filter internal ls) + work s' <= work s)%nat.
Proof.
  induction ls as [|l ls IH]; intros s s' Hi Hc; cbn [run]; [intros [= <-]; split; [done|cbn; lia]|].
  destruct (step s l) as [s1|] eqn:E; [|done]. intros Hr.
  destruct (IH s1 s' (step_inv _ _ _ Hi E) (step_closed _ _ _ E Hc) Hr) as [Hc' Hw]. split; [done|].
  pose proof (step_work _ _ _ Hi Hc E) as Hs. cbn [List.filter]. destruct (internal l); cbn [length]; lia.
Qed.

(** A goroutine can always move on. *)
Lemma thread_moves s c x : tn_threads s !! c = Some x -> exists ev, is_Some (step s (Thread c ev)).
Proof.
  intros Hx. cbn [step]. rewrite Hx. unfold thread_step.
  destruct x; [exists OpenFails|exists (SetPath "" "")|exists TrackStream|exists (BridgeEnds false)
              |exists CloseFailed|exists Untrack|exists Untrack]; try by eexists.
  by destruct (trackStream _ _ _ _) as [p b].
Qed.

Lemma acceptor_moves s : tn_acc s <> Stopped -> exists l, internal l = true /\ is_Some (step s l).
Proof.
  intros Hn. destruct (tn_acc s) eqn:E; [exists AcceptError|exists (Track "")|exists Notify|done];
    (split; [done|]; unfold step; rewrite E; by eexists).
Qed.

(** Nothing is open once no goroutine and no accept loop is left. *)
Lemma stuck_clean s :
  tunnel_inv s -> (forall l, internal l = true -> step s l = None) ->
  tn_threads s = ∅ /\ tn_acc s = Stopped /\ (forall c, ~ open_conn s c) /\ (forall r, ~ open_remote s r).
Proof.
  intros Hi Hs. assert (Ht : tn_threads s = ∅).
  { apply map_empty. intros c. destruct (tn_threads s !! c) as [x|] eqn:E; [|done].
    destruct (thread_moves _ _ _ E) as [ev [s' He]]. by rewrite Hs in He. }
  assert (Ha : tn_acc s = Stopped).
  { destruct (decide (tn_acc s = Stopped)) as [|Hn]; [done|].
    destruct (acceptor_moves s Hn) as (l & Hl & s' & He). by rewrite (Hs l Hl) in He. }
  split; [done|]. split; [done|]. split.
  - intros c Ho. destruct (ti_conn _ Hi c Ho) as [Hc|(x & Hx & _)]; [congruence|]. by rewrite Ht, lookup_empty in Hx.
  - intros r Ho. destruct (ti_remote _ Hi r Ho) as (c & x & Hx & _). by rewrite Ht, lookup_empty in Hx.
Qed.

(** ** Properties *)

(** C6: a closed tunnel releases everything, whatever the interleaving.  At
    any time, every open local connection and every open stream belongs to a
    goroutine (or to the accept loop); so nothing is open when they have
    ended.  Once the proxy is closed, each bridging goroutine finds its local
    connection closed, at most [work s] more steps happen, however the owner
    keeps calling the proxy, and when no step is left there is no goroutine,
    no open connection and no open stream, and the proxy's tables are empty. *)
Theorem closed_tunnel_releases_all ls s
  (Hr : run (newTunnel (SetOnClose newLocalProxy (Some 0%nat))) ls = Some s) :
  (forall c, open_conn s c -> tn_acc s = Tracking c \/ is_Some (tn_threads s !! c)) /\
  (forall r, open_remote s r -> exists c x, tn_threads s !! c = Some x /\ remote_of x = Some r) /\
  (closed (tn_proxy s) = true ->
     (forall c id r, tn_threads s !! c = Some (Bridging id r) -> ~ open_conn s c) /\
     forall ls' s', run s ls' = Some s' ->
       (length (List.filter internal ls') <= work s)%nat /\
       ((forall l, internal l = true -> step s' l = None) ->
          tn_threads s' = ∅ /\ (forall c, ~ open_conn s' c) /\ (forall r, ~ open_remote s' r) /\
          conns (tn_proxy s') = ∅ /\ streams (tn_proxy s') = ∅)).
Proof.
  pose proof (run_inv _ _ _ (newTunnel_inv _ eq_refl) Hr) as Hi. split; [|split].
  - intros c Ho. destruct (ti_conn _ Hi c Ho) as [|(x & -> & _)]; eauto.
  - apply (ti_remote _ Hi).
  - intros Hc. split.
    + intros c id r Hx. destruct (ti_kept _ Hi c _ Hx) as [Hin|]; [|done].
      destruct (ti_closed _ Hi Hc) as [He _]. rewrite He in Hin. set_solver.
    + intros ls' s' Hr'. destruct (run_work _ _ _ Hi Hc Hr') as [Hc' Hw]. split; [lia|]. intros Hs.
      pose proof (run_inv _ _ _ Hi Hr') as Hi'. destruct (stuck_clean _ Hi' Hs) as (? & _ & ? & ?).
      destruct (ti_closed _ Hi' Hc'). auto.
Qed.

(** A bridged connection, one still opening its stream, and a close. *)
Definition sample_run : list label :=
  [Accept 1; Track "a"; Thread 1 (OpenOk 7); Thread 1 (SetPath "direct" ""); Thread 1 TrackStream;
   Accept 2; Track "b"; Api OpClose; Thread 2 (OpenOk 8); Thread 2 (SetPath "direct" ""); Thread 2 TrackStream].

Lemma closed_tunnel_releases_all_witness :
  exists s, run (newTunnel (SetOnClose newLocalProxy (Some 0%nat))) sample_run = Some s /\
    work s = 7%nat /\ ~ open_conn s 1.
Proof.
  destruct (run (newTunnel (SetOnClose newLocalProxy (Some 0%nat))) sample_run) as [s|] eqn:E;
    [|exfalso; revert E; vm_compute; discriminate].
  exists s. split; [reflexivity|].
  destruct (closed_tunnel_releases_all sample_run s E) as (_ & _ & Hc).
  vm_compute in E. injection E as <-. split; [vm_compute; reflexivity|].
  apply (proj1 (Hc ltac:(vm_compute; reflexivity)) 1%nat "a"%string 7%nat). vm_compute. reflexivity.
Defined.
