(* ===== verification/Sidecar.v ===== *)
(** * Sidecar: the bridge to the iroh process of [internal/irohsidecar/sidecar.go]

    Endpoint tickets, the HTTP control calls, the life cycle of the sidecar
    process ([newWithCommand], [ensureRunning], [Close]) and the callbacks
    that hand incoming streams to the host.  HTTP answers, started processes
    and file reads are arguments; the processes the backend has started are
    part of the state, so that a process left behind can be seen. *)

From S2P Require Import Prelude GoStrings Base64 Wire.

Definition TicketPrefix : string := "iroh-sidecar-v1:".
Definition ErrIncompatibleTicket : string := "iroh ticket was not created by the sidecar backend".

(** ** The JSON bodies *)

Record ticketID : Type := mkTicketID { tj_ID : string }.
Record ticketResponse : Type := mkTicketResponse { tk_Ticket : string; tk_EndpointID : string }.
Record openResponse : Type := mkOpenResponse { op_Addr : string; op_Path : string; op_RemoteAddr : string }.
Record closeTunnelResponse : Type := mkCloseTunnel { ct_Closed : Z }.
Record statusResponse : Type := mkStatus {
  st_Running : bool; st_Ready : bool; st_EndpointID : string;
  st_RelayURLs : Z; st_DirectAddrs : Z; st_LastError : string;
}.
Record sidecarReadyFile : Type := mkReadyFile { rf_URL : string; rf_Addr : string; rf_EndpointID : string }.
Record callbackMeta : Type := mkMeta { cm_PeerID : string; cm_Path : string; cm_RemoteAddr : string }.

(** ** Tickets *)

Section Tickets.
Context `{Codec ticketID}.

Definition TicketEndpointID (ticket : string) : res string :=
  let ticket := trim_space ticket in
  if has_prefix ticket TicketPrefix then
    match b64_decode (trim_prefix ticket TicketPrefix) with
    | None => Err "decode iroh sidecar ticket: illegal base64 data"
    | Some data =>
      match unmarshal data with
      | Err err => Err ("parse iroh sidecar ticket: " ++ err)%string
      | Ok parsed =>
        if bool_decide (trim_space (tj_ID parsed) = "") then Err "iroh sidecar ticket missing endpoint id"
        else Ok (trim_space (tj_ID parsed))
      end
    end
  else Err ErrIncompatibleTicket.

Definition IsTicket (ticket : string) : bool := is_ok (TicketEndpointID ticket).
End Tickets.

(** ** Control calls over HTTP *)

(** What [http.Client.Do] gives: no request could be built, no reply (with
    whether the error says it is a timeout), or a reply. *)
Inductive http_answer : Type :=
  | NoRequest (err : string)
  | NoReply (err : string) (timeout : bool)
  | Reply (code : Z) (status : string) (body : bytes).

Definition isTimeoutError (err : string) (timeout : bool) : bool :=
  timeout || contains (to_lower err) "timeout" || contains (to_lower err) "deadline exceeded".

(** [do] with the client's timeout of two minutes; [decode] reads the body. *)
Definition do_call {A} (method path : string) (decode : bytes -> res A) (answer : http_answer) : res A :=
  match answer with
  | NoRequest err => Err err
  | NoReply err timeout =>
    if isTimeoutError err timeout
    then Err ("sidecar " ++ method ++ " " ++ path ++ " timed out after 2m0s: " ++ err)%string
    else Err ("sidecar " ++ method ++ " " ++ path ++ " failed: " ++ err)%string
  | Reply code status body =>
    if (code <? 200) || (300 <=? code)
    then Err ("sidecar " ++ method ++ " " ++ path ++ ": " ++ status ++ ": " ++
              trim_space (of_bytes (take 4096 body)))%string
    else decode body
  end.

Definition get `{Codec A} (path : string) (answer : http_answer) : res A :=
  do_call "GET" path unmarshal answer.
Definition post `{Codec A} (path : string) (answer : http_answer) : res A :=
  do_call "POST" path unmarshal answer.
(** [post] with no result to decode *)
Definition post_nil (path : string) (answer : http_answer) : res unit :=
  do_call "POST" path (fun _ => Ok tt) answer.

(** ** The backend's state *)

(** [sc_procs] lists the processes the backend started, with whether each is
    alive; [sc_cmd] is the index of the current one. *)
Record Sidecar : Type := mkSidecar {
  sc_baseURL : string;
  sc_command : string;
  sc_closed : bool;
  sc_lastErr : string;
  sc_endpointID : string;
  sc_pairingLn : option string;
  sc_tunnelLn : option string;
  sc_pairing : bool;
  sc_tunnel : bool;
  sc_cmd : option nat;
  sc_procs : list bool;
}.

Definition setLastError (b : Sidecar) (err : option string) : Sidecar :=
  mkSidecar (sc_baseURL b) (sc_command b) (sc_closed b) (default "" err) (sc_endpointID b)
    (sc_pairingLn b) (sc_tunnelLn b) (sc_pairing b) (sc_tunnel b) (sc_cmd b) (sc_procs b).

Definition set_endpoint (b : Sidecar) (url endpoint : string) : Sidecar :=
  mkSidecar url (sc_command b) (sc_closed b) (sc_lastErr b) endpoint (sc_pairingLn b) (sc_tunnelLn b)
    (sc_pairing b) (sc_tunnel b) (sc_cmd b) (sc_procs b).

Definition set_procs (b : Sidecar) (cmd : option nat) (procs : list bool) : Sidecar :=
  mkSidecar (sc_baseURL b) (sc_command b) (sc_closed b) (sc_lastErr b) (sc_endpointID b) (sc_pairingLn b)
    (sc_tunnelLn b) (sc_pairing b) (sc_tunnel b) cmd procs.

Definition set_command (b : Sidecar) (command : string) : Sidecar :=
  mkSidecar (sc_baseURL b) command (sc_closed b) (sc_lastErr b) (sc_endpointID b) (sc_pairingLn b)
    (sc_tunnelLn b) (sc_pairing b) (sc_tunnel b) (sc_cmd b) (sc_procs b).

Definition set_listeners (b : Sidecar) (pairing tunnel : option string) : Sidecar :=
  mkSidecar (sc_baseURL b) (sc_command b) (sc_closed b) (sc_lastErr b) (sc_endpointID b) pairing tunnel
    (sc_pairing b) (sc_tunnel b) (sc_cmd b) (sc_procs b).

Definition SetHandlers (b : Sidecar) (pairing tunnel : bool) : Sidecar :=
  mkSidecar (sc_baseURL b) (sc_command b) (sc_closed b) (sc_lastErr b) (sc_endpointID b) (sc_pairingLn b)
    (sc_tunnelLn b) pairing tunnel (sc_cmd b) (sc_procs b).

Definition set_closed (b : Sidecar) : Sidecar :=
  mkSidecar (sc_baseURL b) (sc_command b) true (sc_lastErr b) (sc_endpointID b) (sc_pairingLn b)
    (sc_tunnelLn b) (sc_pairing b) (sc_tunnel b) (sc_cmd b) (sc_procs b).

(** The current process is there and has not exited. *)
Definition process_alive (b : Sidecar) : bool :=
  match sc_cmd b with
  | None => false
  | Some i => default false (sc_procs b !! i)
  end.

Section Backend.
Context `{Codec ticketID, Codec ticketResponse, Codec openResponse, Codec closeTunnelResponse}.
Context `{Codec statusResponse, Codec sidecarReadyFile, Codec callbackMeta}.
(** [url.ParseRequestURI]: the error, if any *)
Variable ParseRequestURI : string -> option string.

(** One look at the ready file. *)
Inductive file_read : Type :=
  | NotExist
  | ReadError (err : string)
  | Contents (data : bytes).

Definition trim_slashes (s : string) : string :=
  trim_right_set (fun b => bool_decide (b = x2f)) (trim_space s).

(** [waitReadyFile]: the looks until the wait is over. *)
Fixpoint waitReadyFile (last : option string) (reads : list file_read) : res (string * string) :=
  match reads with
  | [] => match last with
          | Some err => Err ("iroh sidecar did not write ready file: " ++ err)%string
          | None => Err "iroh sidecar did not write ready file"
          end
  | NotExist :: r => waitReadyFile last r
  | ReadError err :: r => waitReadyFile (Some err) r
  | Contents [] :: r => waitReadyFile last r
  | Contents data :: _ =>
    match unmarshal (A := sidecarReadyFile) data with
    | Err err => Err ("parse iroh sidecar ready file: " ++ err)%string
    | Ok ready =>
      let url := trim_slashes (rf_URL ready) in
      if bool_decide (url = "") then Err "iroh sidecar ready file missing url"
      else match ParseRequestURI url with
           | Some err => Err ("invalid iroh sidecar ready url " ++ quote url ++ ": " ++ err)%string
           | None => Ok (url, rf_EndpointID ready)
           end
    end
  end.

(** What starting a process meets. *)
Record spawn_env : Type := mkSpawnEnv {
  sp_readyFile : option string;       (** error of [createReadyFile] *)
  sp_ctx : option string;             (** [ctx.Err()] *)
  sp_start : option string;           (** error of [cmd.Start] *)
  sp_reads : list file_read;
}.

Definition startProcess (b : Sidecar) (command : string) (e : spawn_env) : Sidecar * res unit :=
  if bool_decide (trim_space command = "") then (b, Err "iroh sidecar command is empty")
  else
    let b := set_command b command in
    match sp_readyFile e, sp_ctx e, sp_start e with
    | Some err, _, _ => (b, Err ("create iroh sidecar ready file: " ++ err)%string)
    | None, Some err, _ => (b, Err err)
    | None, None, Some err => (b, Err ("start iroh sidecar " ++ quote command ++ ": " ++ err)%string)
    | None, None, None =>
      let i := length (sc_procs b) in
      match waitReadyFile None (sp_reads e) with
      | Err err => (set_procs b (Some i) (sc_procs b ++ [false]), Err err)
      | Ok (url, endpoint) => (set_endpoint (set_procs b (Some i) (sc_procs b ++ [true])) url endpoint, Ok tt)
      end
    end.

(** [waitReady]: the status answers until the wait is over. *)
Fixpoint waitReady_loop (last : option string) (answers : list http_answer) : res string :=
  match answers with
  | [] => match last with
          | Some err => Err ("iroh sidecar not ready: " ++ err)%string
          | None => Err "iroh sidecar not ready"
          end
  | a :: r =>
    match get (A := statusResponse) "/status" a with
    | Ok status => if st_Running status then Ok (st_EndpointID status) else waitReady_loop last r
    | Err err => waitReady_loop (Some err) r
    end
  end.

(** The last error of the answers. *)
Definition last_status_error (answers : list http_answer) : option string :=
  fold_left (fun last a => match get (A := statusResponse) "/status" a with
                           | Ok _ => last | Err err => Some err end) answers None.

Definition waitReady (b : Sidecar) (answers : list http_answer) : Sidecar * res unit :=
  match waitReady_loop None answers with
  | Ok endpoint => (setLastError (set_endpoint b (sc_baseURL b) endpoint) None, Ok tt)
  | Err err => (match last_status_error answers with Some e => setLastError b (Some e) | None => b end, Err err)
  end.

Definition registerHandlers (b : Sidecar) (answer : http_answer) : res unit :=
  match sc_pairingLn b, sc_tunnelLn b with
  | Some _, Some _ => post_nil "/handlers" answer
  | _, _ => Err "iroh sidecar callback listeners are not running"
  end.

(** [startCallbacks]: the two listeners, then the registration. *)
Definition startCallbacks (b : Sidecar) (pairing tunnel : res string) (answer : http_answer)
  : Sidecar * res unit :=
  match pairing, tunnel with
  | Err err, _ => (b, Err ("listen pairing callback: " ++ err)%string)
  | Ok _, Err err => (b, Err ("listen tunnel callback: " ++ err)%string)
  | Ok p, Ok t => let b := set_listeners b (Some p) (Some t) in (b, registerHandlers b answer)
  end.

Definition Running (b : Sidecar) (answer : http_answer) : Sidecar * bool :=
  if sc_closed b then (b, false)
  else if bool_decide (is_Some (sc_cmd b)) && negb (process_alive b) then (b, false)
  else match get (A := statusResponse) "/status" answer with
       | Err err => (setLastError b (Some err), false)
       | Ok _ => (b, true)
       end.

(** [Close].  After the shutdown call the current process has exited by
    itself or is killed. *)
Definition Close (b : Sidecar) : Sidecar :=
  if sc_closed b then b
  else
    let b := set_closed b in
    match sc_cmd b with
    | None => b
    | Some i => set_procs b (Some i) (<[i := false]> (sc_procs b))
    end.

(** A process ends; [err] is what [cmd.Wait] returns. *)
Definition process_exit (b : Sidecar) (i : nat) (err : option string) : Sidecar :=
  let b := set_procs b (sc_cmd b) (<[i := false]> (sc_procs b)) in
  match err with
  | Some e => if sc_closed b then b else setLastError b (Some e)
  | None => b
  end.

(** What starting the backend meets. *)
Record new_env : Type := mkNewEnv {
  ne_spawn : spawn_env;
  ne_ready : list http_answer;
  ne_pairing : res string;
  ne_tunnel : res string;
  ne_handlers : http_answer;
}.

Definition empty_sidecar (command : string) : Sidecar :=
  mkSidecar "" command false "" "" None None false false None [].

(** [newWithCommand]: the backend, which is only handed out with [Ok]. *)
Definition newWithCommand (command : string) (e : new_env) : Sidecar * res unit :=
  let '(b, r) := startProcess (empty_sidecar command) command (ne_spawn e) in
  match r with
  | Err err => (b, Err err)
  | Ok _ =>
    let '(b, r) := waitReady b (ne_ready e) in
    match r with
    | Err err => (Close b, Err err)
    | Ok _ =>
      let '(b, r) := startCallbacks b (ne_pairing e) (ne_tunnel e) (ne_handlers e) in
      match r with
      | Err err => (Close b, Err err)
      | Ok _ => (b, Ok tt)
      end
    end
  end.

(** [New]: [mode] is [cfg.Iroh.Mode], [found] what [findBundledSidecar] found. *)
Definition New (mode : string) (found : option string) (e : new_env) : option (Sidecar * res unit) :=
  if bool_decide (mode = "") || bool_decide (mode = "disabled") then None
  else match found with
       | None => Some (empty_sidecar "", Err "iroh sidecar binary not found; expected deskaccess-iroh-sidecar next to DeskAccess or in a bundled sidecars/bin directory")
       | Some command => Some (newWithCommand command e)
       end.

(** [findBundledSidecar] over the root directories. *)
Fixpoint find_in_roots (join : string -> string) (isExecutable : string -> bool) (roots : list string)
  : option string * list string :=
  match roots with
  | [] => (None, [])
  | root :: r =>
    let path := join root in
    if isExecutable path then (Some path, [path])
    else let '(found, searched) := find_in_roots join isExecutable r in (found, path :: searched)
  end.

(** What restarting meets. *)
Record restart_env : Type := mkRestartEnv {
  re_running : http_answer;
  re_spawn : spawn_env;
  re_ready : list http_answer;
  re_handlers : http_answer;
}.

(** The guard of [ensureRunning]: [None] to go on, or the command to start. *)
Definition ensure_check (b : Sidecar) (answer : http_answer) : Sidecar * option (res string) :=
  let '(b, running) := Running b answer in
  if running then (b, None)
  else if sc_closed b then (b, Some (Err "iroh sidecar backend is closed"))
  else if bool_decide (trim_space (sc_command b) = "") then (b, Some (Err "iroh sidecar command is unknown"))
  else (b, Some (Ok (sc_command b))).

(** The restart of [ensureRunning]. *)
Definition ensure_restart (b : Sidecar) (command : string) (e : restart_env) : Sidecar * res unit :=
  let '(b, r) := startProcess b command (re_spawn e) in
  match r with
  | Err err => (setLastError b (Some err), Err ("restart iroh sidecar: " ++ err)%string)
  | Ok _ =>
    let '(b, r) := waitReady b (re_ready e) in
    match r with
    | Err err => (setLastError b (Some err), Err ("wait for restarted iroh sidecar: " ++ err)%string)
    | Ok _ =>
      match registerHandlers b (re_handlers e) with
      | Err err => (setLastError b (Some err), Err ("register restarted iroh sidecar handlers: " ++ err)%string)
      | Ok _ => (setLastError b None, Ok tt)
      end
    end
  end.

Definition ensureRunning (b : Sidecar) (e : restart_env) : Sidecar * res unit :=
  let '(b, r) := ensure_check b (re_running e) in
  match r with
  | None => (b, Ok tt)
  | Some (Err err) => (b, Err err)
  | Some (Ok command) => ensure_restart b command e
  end.

Definition TicketContext (b : Sidecar) (answer : http_answer) : Sidecar * res string :=
  match post (A := ticketResponse) "/ticket" answer with
  | Err err => (setLastError b (Some err), Err err)
  | Ok resp => (setLastError (set_endpoint b (sc_baseURL b) (tk_EndpointID resp)) None, Ok (tk_Ticket resp))
  end.

(** A stream of the sidecar: what it reports of itself and the bytes that wait
    in its reader. *)
Record streamConn : Type := mkStreamConn { sn_path : string; sn_remoteAddr : string; sn_input : bytes }.

Definition WriteChunkSize : Z := 32 * 1024.
Definition ConnectionPath (c : option streamConn) : string :=
  match c with
  | None => "unknown"
  | Some c => if bool_decide (trim_space (sn_path c) = "") then "unknown" else sn_path c
  end.
Definition ConnectionRemoteAddr (c : option streamConn) : string :=
  match c with None => "" | Some c => sn_remoteAddr c end.

(** [openStream]: the requests posted, and the stream.  [open] answers the
    request for a ticket, [dial] connects to an address. *)
Definition openStream (b : Sidecar) (ticket : string) (open : http_answer) (dial : string -> res bytes)
  : Sidecar * bool * res streamConn :=
  if negb (IsTicket ticket) then (b, false, Err ErrIncompatibleTicket)
  else match post (A := openResponse) "/open" open with
       | Err err => (setLastError b (Some err), true, Err err)
       | Ok resp =>
         match dial (op_Addr resp) with
         | Err err => (setLastError b (Some err), true,
                       Err ("dial iroh sidecar stream " ++ op_Addr resp ++ ": " ++ err)%string)
         | Ok input => (setLastError b None, true, Ok (mkStreamConn (op_Path resp) (op_RemoteAddr resp) input))
         end
       end.

(** [OpenPairing] and [OpenTunnel] differ in the kind they post only. *)
Definition OpenStream (b : Sidecar) (e : restart_env) (ticket : string) (open : http_answer)
    (dial : string -> res bytes) : Sidecar * bool * res streamConn :=
  let '(b, r) := ensureRunning b e in
  match r with
  | Err err => (b, false, Err err)
  | Ok _ => openStream b ticket open dial
  end.

Definition CloseTunnel (b : Sidecar) (answer : http_answer) : Sidecar * Z :=
  match post (A := closeTunnelResponse) "/close_tunnel" answer with
  | Err err => (setLastError b (Some err), 0)
  | Ok resp => (b, ct_Closed resp)
  end.

(** What [Status] reports. *)
Inductive sidecar_status : Type :=
  | StatusLive (s : statusResponse) (url : string)
  | StatusDown (endpointID lastErr url : string).

Definition Status (b : Sidecar) (answer : http_answer) : Sidecar * sidecar_status :=
  match get (A := statusResponse) "/status" answer with
  | Ok s => (set_endpoint b (sc_baseURL b) (st_EndpointID s), StatusLive s (sc_baseURL b))
  | Err err => let b := setLastError b (Some err) in
               (b, StatusDown (sc_endpointID b) (sc_lastErr b) (sc_baseURL b))
  end.

Definition Refresh (b : Sidecar) (answer answer2 : http_answer) : Sidecar * sidecar_status * option string :=
  match get (A := statusResponse) "/status" answer with
  | Err err => (Status (setLastError b (Some err)) answer2, Some err)
  | Ok s => (Status (setLastError (set_endpoint b (sc_baseURL b) (st_EndpointID s)) None) answer2, None)
  end.

(** ** Callbacks *)

(** [ReadBytes('\n')]: the line with its newline, and the rest. *)
Fixpoint read_line (l : bytes) : option (bytes * bytes) :=
  match l with
  | [] => None
  | x0a :: r => Some ([x0a], r)
  | b :: r => '(line, rest) ← read_line r; Some (b :: line, rest)
  end.

Definition readCallbackMeta (input : bytes) : res (callbackMeta * bytes) :=
  match read_line input with
  | None => Err "EOF"
  | Some (line, rest) =>
    match unmarshal (A := callbackMeta) (trim_space_bytes line) with
    | Err err => Err err
    | Ok meta => if bool_decide (trim_space (cm_PeerID meta) = "") then Err "missing peer_id"
                 else Ok (meta, rest)
    end
  end.

(** [handleCallback]: the stream and the peer id handed to the handler, or
    nothing when the connection is closed instead. *)
Definition handleCallback (b : Sidecar) (tunnel : bool) (input : bytes) : option (streamConn * string) :=
  match readCallbackMeta input with
  | Err _ => None
  | Ok (meta, rest) =>
    if (if tunnel then sc_tunnel b else sc_pairing b)
    then Some (mkStreamConn (cm_Path meta) (cm_RemoteAddr meta) rest, cm_PeerID meta)
    else None
  end.
End Backend.

(** [sidecarEnv]; [dir] is [filepath.Dir]. *)
Definition sidecarEnv (dir : string -> string) (base : list string) (logPath : string) : list string :=
  List.filter (fun item =>
    let key := match cut item "=" with Some (k, _) => k | None => item end in
    negb (equal_fold key "DESKACCESS_IROH_SIDECAR_LOG" || equal_fold key "DESKACCESS_LOG_DIR")) base ++
  if bool_decide (logPath = "") then []
  else [("DESKACCESS_IROH_SIDECAR_LOG=" ++ logPath)%string; ("DESKACCESS_LOG_DIR=" ++ dir logPath)%string].

(** ** Runs *)

Section Runs.
Context `{Codec ticketID, Codec ticketResponse, Codec openResponse, Codec closeTunnelResponse}.
Context `{Codec statusResponse, Codec sidecarReadyFile, Codec callbackMeta}.
Variable ParseRequestURI : string -> option string.

Inductive sidecar_op : Type :=
  | DoEnsure (e : restart_env)
  | DoOpen (e : restart_env) (ticket : string) (open : http_answer) (dial : string -> res bytes)
  | DoExit (i : nat) (err : option string)
  | DoClose
  | DoHandlers (pairing tunnel : bool)
  | DoTicket (answer : http_answer)
  | DoCloseTunnel (answer : http_answer)
  | DoStatus (answer : http_answer)
  | DoRefresh (answer answer2 : http_answer).

Definition sidecar_step (b : Sidecar) (o : sidecar_op) : Sidecar :=
  match o with
  | DoEnsure e => fst (ensureRunning ParseRequestURI b e)
  | DoOpen e ticket open dial => fst (fst (OpenStream ParseRequestURI b e ticket open dial))
  | DoExit i err => process_exit b i err
  | DoClose => Close b
  | DoHandlers p t => SetHandlers b p t
  | DoTicket a => fst (TicketContext b a)
  | DoCloseTunnel a => fst (CloseTunnel b a)
  | DoStatus a => fst (Status b a)
  | DoRefresh a a2 => fst (fst (Refresh b a a2))
  end.

(** The status call of [Running] is answered while the process is alive. *)
Definition answers_while_alive (b : Sidecar) (o : sidecar_op) : Prop :=
  match o with
  | DoEnsure e | DoOpen e _ _ _ =>
    process_alive b = true -> is_ok (get (A := statusResponse) "/status" (re_running e)) = true
  | _ => True
  end.

Fixpoint sidecar_run (b : Sidecar) (ops : list sidecar_op) : Sidecar :=
  match ops with
  | [] => b
  | o :: r => sidecar_run (sidecar_step b o) r
  end.

Fixpoint run_answers (b : Sidecar) (ops : list sidecar_op) : Prop :=
  match ops with
  | [] => True
  | o :: r => answers_while_alive b o /\ run_answers (sidecar_step b o) r
  end.
End Runs.

(** ** Lemmas *)

(** Only the current process is alive, and none once the backend is closed. *)
Definition procs_ok (b : Sidecar) : Prop :=
  forall i, sc_procs b !! i = Some true -> sc_cmd b = Some i /\ sc_closed b = false.

(** No process is alive. *)
Definition all_dead (b : Sidecar) : Prop := forall i, sc_procs b !! i <> Some true.

(** What the processes depend on. *)
Definition same_procs (b b' : Sidecar) : Prop :=
  sc_procs b' = sc_procs b /\ sc_cmd b' = sc_cmd b /\ sc_closed b' = sc_closed b.

Lemma same_procs_ok b b' : same_procs b b' -> procs_ok b -> procs_ok b'.
Proof. intros (Hp & Hc & Hcl) Hok i. rewrite Hp, Hc, Hcl. apply Hok. Qed.

Lemma Close_dead b : procs_ok b -> all_dead (Close b) /\ sc_closed (Close b) = true.
Proof.
  intros Hok. unfold Close. destruct (sc_closed b) eqn:Ec.
  - split; [|done]. intros i Hi. destruct (Hok i Hi). congruence.
  - cbn. destruct (sc_cmd b) as [c|] eqn:Em.
    + split; [|done]. intros i [(_ & Hi & _)|[Hne Hi]]%list_lookup_insert_Some; [done|].
      destruct (Hok i Hi). congruence.
    + split; [|done]. intros i Hi. destruct (Hok i Hi). congruence.
Qed.

Lemma all_dead_ok b : all_dead b -> procs_ok b.
Proof. intros Hd i Hi. by destruct (Hd i). Qed.

Section SidecarFacts.
Context `{Codec ticketID, Codec ticketResponse, Codec openResponse, Codec closeTunnelResponse}.
Context `{Codec statusResponse, Codec sidecarReadyFile, Codec callbackMeta}.
Variable ParseRequestURI : string -> option string.

(** Starting a process when none is alive. *)
Lemma startProcess_ok b command e :
  all_dead b -> sc_closed b = false -> procs_ok (fst (startProcess ParseRequestURI b command e)).
Proof.
  intros Hd Hc. unfold startProcess. case_bool_decide; [by apply all_dead_ok|].
  assert (Hnew : forall alive i, (sc_procs b ++ [alive]) !! i = Some true -> i = length (sc_procs b)).
  { intros alive i Hi. apply lookup_app_Some in Hi as [Hi|[Hl Hi]]; [by destruct (Hd i)|].
    apply list_lookup_singleton_Some in Hi as [Hi _]. lia. }
  repeat case_match; cbn; try (by apply all_dead_ok); intros i Hi; cbn in *;
    apply Hnew in Hi as ->; done.
Qed.

Lemma waitReady_same b answers : same_procs b (fst (waitReady b answers)).
Proof. unfold waitReady. repeat case_match; done. Qed.

Lemma Running_same b a : same_procs b (fst (Running b a)).
Proof. unfold Running. repeat case_match; done. Qed.

Lemma Status_same b a : same_procs b (fst (Status b a)).
Proof. unfold Status. repeat case_match; done. Qed.

Lemma ensure_restart_ok b command e :
  all_dead b -> sc_closed b = false -> procs_ok (fst (ensure_restart ParseRequestURI b command e)).
Proof.
  intros Hd Hc. pose proof (startProcess_ok b command (re_spawn e) Hd Hc) as Hs. unfold ensure_restart.
  destruct (startProcess _ _ _ _) as [b1 [[]|err]]; [|exact Hs]. cbn [fst] in Hs.
  pose proof (same_procs_ok _ _ (waitReady_same b1 (re_ready e)) Hs) as Hw.
  destruct (waitReady b1 (re_ready e)) as [b2 [[]|err]]; [|exact Hw].
  by destruct (registerHandlers b2 (re_handlers e)).
Qed.

(** Not running, with an answered status call, means that no process lives. *)
Lemma Running_false b a :
  procs_ok b -> (process_alive b = true -> is_ok (get (A := statusResponse) "/status" a) = true) ->
  snd (Running b a) = false -> all_dead b.
Proof.
  intros Hok Hans. unfold Running. destruct (sc_closed b) eqn:Ec.
  { intros _ i Hi. destruct (Hok i Hi). congruence. }
  intros Hr i Hi. destruct (Hok i Hi) as [Hm _].
  assert (Ha : process_alive b = true) by (unfold process_alive; by rewrite Hm, Hi).
  rewrite Ha, andb_false_r in Hr. specialize (Hans Ha).
  by destruct (get "/status" a).
Qed.

Lemma ensureRunning_ok b e :
  procs_ok b ->
  (process_alive b = true -> is_ok (get (A := statusResponse) "/status" (re_running e)) = true) ->
  procs_ok (fst (ensureRunning ParseRequestURI b e)).
Proof.
  intros Hok Hans. unfold ensureRunning, ensure_check.
  pose proof (Running_false b _ Hok Hans) as Hdead. pose proof (Running_same b (re_running e)) as Hs.
  destruct (Running b (re_running e)) as [b1 [|]]; cbn [fst snd] in *.
  - by apply (same_procs_ok b).
  - destruct (sc_closed b1) eqn:Ec; [by apply (same_procs_ok b)|].
    case_bool_decide; [by apply (same_procs_ok b)|].
    apply ensure_restart_ok; [|done]. destruct Hs as (Hp & _). intros i. rewrite Hp. by apply Hdead.
Qed.

Lemma sidecar_step_ok b o :
  procs_ok b -> answers_while_alive b o -> procs_ok (sidecar_step ParseRequestURI b o).
Proof.
  intros Hok Hans. destruct o as [e|e ticket open dial|i err| | | | | |]; cbn [sidecar_step].
  - by apply ensureRunning_ok.
  - pose proof (ensureRunning_ok b e Hok Hans) as He. unfold OpenStream.
    destruct (ensureRunning ParseRequestURI b e) as [b1 [[]|err]]; [|done]. cbn [fst] in He.
    apply (same_procs_ok b1); [|done]. unfold openStream. repeat case_match; done.
  - assert (Hx : procs_ok (set_procs b (sc_cmd b) (<[i := false]> (sc_procs b)))).
    { intros j. cbn. rewrite list_lookup_insert_Some. intros [?|[_ Hj]]; [naive_solver|by apply Hok]. }
    unfold process_exit. repeat case_match; exact Hx.
  - by apply all_dead_ok, Close_dead.
  - by apply (same_procs_ok b).
  - apply (same_procs_ok b); [|done]. unfold TicketContext. repeat case_match; done.
  - apply (same_procs_ok b); [|done]. unfold CloseTunnel. repeat case_match; done.
  - by apply (same_procs_ok b), Hok; apply Status_same.
  - unfold Refresh. destruct (get _ _); cbn [fst];
      (eapply same_procs_ok; [apply Status_same|]); by apply (same_procs_ok b).
Qed.

Lemma sidecar_run_ok b ops :
  procs_ok b -> run_answers ParseRequestURI b ops -> procs_ok (sidecar_run ParseRequestURI b ops).
Proof.
  revert b. induction ops as [|o ops IH]; intros b Hok Hans; [done|].
  destruct Hans as [Ho Hr]. apply IH; [by apply sidecar_step_ok|done].
Qed.

(** A failed start leaves no process; a successful one leaves its own. *)
Lemma newWithCommand_ok command e :
  let '(b, r) := newWithCommand ParseRequestURI command e in
  procs_ok b /\ (is_ok r = false -> all_dead b).
Proof.
  unfold newWithCommand.
  pose proof (startProcess_ok (empty_sidecar command) command (ne_spawn e) ltac:(done) eq_refl) as Hs.
  assert (Hf : forall b r, startProcess ParseRequestURI (empty_sidecar command) command (ne_spawn e) = (b, r) ->
            is_ok r = false -> all_dead b).
  { intros b r. unfold startProcess. repeat case_match; intros [= <- <-]; try done.
    intros _ [|[|i]]; done. }
  destruct (startProcess _ _ _ _) as [b1 [[]|err]] eqn:Es; [|by split; [|apply (Hf b1 (Err err))]].
  pose proof (same_procs_ok _ _ (waitReady_same b1 (ne_ready e)) Hs) as Hw.
  destruct (waitReady b1 (ne_ready e)) as [b2 [[]|err]]; cbn [fst] in Hw.
  2:{ destruct (Close_dead b2 Hw). split; [by apply all_dead_ok|done]. }
  assert (Hcb : procs_ok (fst (startCallbacks b2 (ne_pairing e) (ne_tunnel e) (ne_handlers e)))).
  { apply (same_procs_ok b2); [|done]. unfold startCallbacks. repeat case_match; done. }
  destruct (startCallbacks b2 _ _ _) as [b3 [[]|err]]; cbn [fst] in Hcb; [done|].
  destruct (Close_dead b3 Hcb). split; [by apply all_dead_ok|done].
Qed.

(** A closed backend starts nothing. *)
Lemma sidecar_closed_step b o :
  sc_closed b = true -> sc_closed (sidecar_step ParseRequestURI b o) = true /\
  length (sc_procs (sidecar_step ParseRequestURI b o)) = length (sc_procs b).
Proof.
  intros Hc.
  assert (He : forall e, ensureRunning ParseRequestURI b e = (b, Err "iroh sidecar backend is closed")).
  { intros e. unfold ensureRunning, ensure_check, Running. by rewrite Hc, Hc. }
  destruct o as [e|e ticket open dial|i err| | | | | |]; cbn [sidecar_step].
  - by rewrite He.
  - unfold OpenStream. by rewrite He.
  - unfold process_exit. destruct err; cbn; rewrite ?Hc; cbn; by rewrite length_insert.
  - unfold Close. by rewrite Hc.
  - done.
  - unfold TicketContext. repeat case_match; done.
  - unfold CloseTunnel. repeat case_match; done.
  - unfold Status. repeat case_match; done.
  - unfold Refresh, Status. repeat case_match; done.
Qed.

Lemma sidecar_closed_run b ops :
  sc_closed b = true -> sc_closed (sidecar_run ParseRequestURI b ops) = true /\
  length (sc_procs (sidecar_run ParseRequestURI b ops)) = length (sc_procs b).
Proof.
  revert b. induction ops as [|o ops IH]; intros b Hc; [done|].
  destruct (sidecar_closed_step b o Hc) as [Hc' Hl]. cbn [sidecar_run].
  destruct (IH _ Hc') as [? ->]. done.
Qed.

(** After closing, every run keeps every process dead. *)
Lemma closed_stays_dead b ops :
  procs_ok b -> sc_closed b = true -> all_dead (sidecar_run ParseRequestURI b ops).
Proof.
  revert b. induction ops as [|o ops IH]; intros b Hok Hc; cbn [sidecar_run].
  - intros i Hi. destruct (Hok i Hi). congruence.
  - apply IH; [|by apply sidecar_closed_step]. apply sidecar_step_ok; [done|].
    assert (Hna : process_alive b = true -> False).
    { unfold process_alive. destruct (sc_cmd b) as [i|]; [|done].
      destruct (sc_procs b !! i) as [[|]|] eqn:Ei; [|done..]. destruct (Hok i Ei). congruence. }
    destruct o; cbn; try done; intros Ha; by destruct (Hna Ha).
Qed.
End SidecarFacts.

(** ** Properties *)


(** Codecs that know one value. *)
Definition one_codec {A} (a : A) : Codec A := {| marshal _ := Ok [x7b; x7d]; unmarshal _ := Ok a |}.
Definition up_status : statusResponse := mkStatus true true "ep" 1 1 "".
Definition up_file : sidecarReadyFile := mkReadyFile "http://127.0.0.1:9/" "" "ep".
Definition up_reply : http_answer := Reply 200 "200 OK" [x7b; x7d].
Definition slow_reply : http_answer := NoReply "context deadline exceeded" true.
Definition up_spawn : spawn_env := mkSpawnEnv None None None [NotExist; Contents [x7b; x7d]].
Definition up_env : new_env := mkNewEnv up_spawn [slow_reply; up_reply] (Ok "a") (Ok "b") up_reply.
Definition restart (running : http_answer) : restart_env := mkRestartEnv running up_spawn [up_reply] up_reply.

#[local] Instance c_ticketID : Codec ticketID := one_codec (mkTicketID "ep").
#[local] Instance c_ticket : Codec ticketResponse := one_codec (mkTicketResponse "t" "ep").
#[local] Instance c_open : Codec openResponse := one_codec (mkOpenResponse "127.0.0.1:7" "direct" "").
#[local] Instance c_close : Codec closeTunnelResponse := one_codec (mkCloseTunnel 1).
#[local] Instance c_status : Codec statusResponse := one_codec up_status.
#[local] Instance c_ready : Codec sidecarReadyFile := one_codec up_file.
#[local] Instance c_meta : Codec callbackMeta := one_codec (mkMeta "p" "" "").


(** A status call that times out while the process is alive: a second process
    is started, the first one is never ended, and [Close] ends the second
    only. *)
Lemma slow_status_leaks_process :
  let b := fst (newWithCommand (fun _ => None) "iroh" up_env) in
  let b1 := sidecar_step (fun _ => None) b (DoEnsure (restart slow_reply)) in
  sc_procs b = [true] /\ sc_procs b1 = [true; true] /\ sc_procs (Close b1) = [true; false].
Proof. vm_compute. done. Qed.

(** [Close] between the check and the restart of [ensureRunning]: the new
    process outlives the closed backend. *)
Lemma close_during_restart_leaks_process :
  let b := process_exit (fst (newWithCommand (fun _ => None) "iroh" up_env)) 0 None in
  let '(b1, r) := ensure_check b slow_reply in
  let b2 := fst (ensure_restart (fun _ => None) (Close b1) "iroh" (restart slow_reply)) in
  r = Some (Ok "iroh"%string) /\ sc_closed b2 = true /\ sc_procs b2 = [false; true] /\ Close b2 = b2.
Proof. vm_compute. done. Qed.

