(* ===== verification/PairingClient.v ===== *)
(** * PairingClient: the connecting side of [internal/pairing/pairing.go]

    [ConnectByURL] redeems an invite link, the [Reauth...] calls return to a
    paired machine, [DiscoverRemote] asks whether it can be found.  The
    clock readings, the network and the file system are in [connect_env];
    what arrives on a stream is a function of the bytes sent on it.  The last
    part composes the client with the host of [PairingHost]. *)

From S2P Require Import Prelude GoStrings Crypto Url Wire Frames Rendezvous Sessions Config Identity.
From S2P Require Import Proofs InviteUrl Invites NetNode Netbackend Sidecar.

(** ** Helpers *)

(** [validateIrohTicket]; the public key is not used. *)
Definition validateIrohTicket `{Codec ticketID} (ticket : string) (publicKey : bytes) : res unit :=
  _ ← wrap_err "invalid iroh sidecar ticket: " (TicketEndpointID ticket); Ok tt.

(** [validateIrohTicketPeer]; the peer id is not used. *)
Definition validateIrohTicketPeer `{Codec ticketID} (ticket peerID : string) : res unit :=
  _ ← wrap_err "invalid iroh sidecar ticket: " (TicketEndpointID ticket); Ok tt.

(** The public relays whose bit is set in the byte [mask]. *)
Fixpoint relay_bits (mask i : Z) (relays : list string) (hostPeerID : string) : list string :=
  match relays with
  | [] => []
  | relay :: r =>
    let rest := relay_bits mask (i + 1) r hostPeerID in
    if negb (Z.land mask (u8 (Z.shiftl 1 i)) =? 0)
    then (relay ++ "/p2p-circuit/p2p/" ++ hostPeerID)%string :: rest else rest
  end.
Definition relayMaskToAddrs (mask : Z) (hostPeerID : string) : list string :=
  relay_bits mask 0 PublicRelays hostPeerID.

Definition isIrohDirectConnectError (err : string) : bool :=
  let msg := to_lower err in
  contains msg "direct udp connect failed" || contains msg "relay disabled" ||
  contains msg "hole punching/direct path did not complete".

Definition isIrohOpenTimeout (err : string) : bool :=
  let msg := to_lower err in
  contains msg "/open" &&
  (contains msg "timed out" || contains msg "timeout" || contains msg "deadline exceeded" ||
   contains msg "awaiting headers").

Definition storableRelayAddrs {A} `{Multiaddr A} (allowLoopback : bool) (relayAddrs : list string) : list string :=
  if allowLoopback then relayAddrs else FilterExternallyDialableAddrs (A := A) relayAddrs.

Record ConnectResult : Type := mkConnect {
  cr_PeerID : string;
  cr_RelayAddrs : list string;
  cr_IrohTicket : string;
  cr_BitTorrentQUICEndpoint : string;
  cr_HostLabel : string;
  cr_Mode : string;
  cr_Protocol : string;
  cr_TargetPort : Z;
  cr_SessionToken : bytes;
}.

Record DiscoveryStatus : Type := mkDiscovery {
  ds_Online : bool;
  ds_Source : string;
  ds_Addrs : list string;
  ds_Error : string;
}.

(** ** Reading with a context *)

(** Who comes first: the frame (or the end of the stream), or the end of the
    context; then, whether the reader ends within half a second of the
    close. *)
Inductive read_race : Type :=
  | FrameFirst
  | ContextFirst (err : string) (reader_ends : bool).

(** [readFrameWithContext]: whether it closed the stream, and its result. *)
Definition readFrameWithContext (race : read_race) (input : bytes) : bool * res (MsgType * bytes * bytes) :=
  match race with
  | FrameFirst => (false, ReadFrame input)
  | ContextFirst err reader_ends =>
    (true, Err (if reader_ends
                then match ReadFrame input with Err late => (err ++ ": " ++ late)%string | Ok _ => err end
                else err))
  end.

(** ** The environment *)

Section Client.
Context {St A : Type} `{Multiaddr A}.

(** The clock readings of one call, in order, and what it meets outside. *)
Record connect_env : Type := mkConnectEnv {
  pc_expiry_now : Z;                    (** [IsExpired] *)
  pc_proof_now : Z;                     (** the window of the invite proof *)
  pc_identity_now : Z;                  (** the window of the identity proof *)
  pc_verify_now : Z;                    (** [verifyIdentityProof] *)
  pc_connected_now : Z;                 (** [LastConnectedAt] *)
  pc_added_now : Z;                     (** [AddRemote] *)
  pc_identity : option Identity;
  pc_backends : Registry St;
  pc_presence : option (string -> list string);
  pc_write : option string;             (** error of writing the request *)
  pc_answer : St -> bytes -> bytes;     (** what arrives after the bytes sent *)
  pc_race : read_race;
  pc_allowLoopback : bool;
  pc_save : res unit;                   (** [Save] *)
}.

(** What a call does to its stream. *)
Inductive client_event : Type :=
  | Opened (s : St)
  | SentRequest (r : PairRequest)
  | ClosedStream.

Context `{Crypto} `{UrlCheck} `{Codec PairRequest} `{Codec PairResponse} `{Codec ticketID}.

(** [m.localProof] of this side *)
Definition client_proof (m : Manager) (e : connect_env) (verifier : string) (inviteID proof : bytes) (mode : string)
  : res IdentityProof :=
  wrap_err "sign identity proof: "
    (localProof (pc_identity e) (PrivateKeyBytes (cfg m)) "request" (nodeID m) verifier inviteID proof [] mode
       (TimeWindow (pc_identity_now e))).

(** The texts of the two exchanges. *)
Record exchange_texts : Type := mkTexts {
  tx_send : string; tx_read : string; tx_type : string; tx_decode : string; tx_reject : string;
}.
Definition connect_texts : exchange_texts :=
  mkTexts "send pair request: " "read pair response: host did not answer within 30s: "
    "unexpected response type 0x" "decode pair response: " "host rejected: ".
Definition reauth_texts : exchange_texts :=
  mkTexts "send reauth request: " "read reauth response: host did not answer within 30s: "
    "unexpected response 0x" "" "reauth rejected: ".

(** Send the request and read the response, which must be a positive one with
    a token and with the host's proof for it. *)
Definition exchange (m : Manager) (e : connect_env) (tx : exchange_texts) (stream : St) (req : PairRequest)
    (peerID : string) : list client_event * res PairResponse :=
  match frame_bytes marshal MsgPairRequest req with
  | Err err => ([], Err (tx_send tx ++ err)%string)
  | Ok sent =>
    match pc_write e with
    | Some err => ([], Err (tx_send tx ++ err)%string)
    | None =>
      let '(closed, r) := readFrameWithContext (pc_race e) (pc_answer e stream sent) in
      (SentRequest req :: if closed then [ClosedStream] else [],
       '(msgType, payload, _) ← wrap_err (tx_read tx) r;
       if bool_decide (msgType <> MsgPairResponse) then Err (tx_type tx ++ hex_encode [msgType])%string
       else
         resp ← wrap_err (tx_decode tx) (unmarshal (A := PairResponse) payload);
         if negb (ps_OK resp) then Err (tx_reject tx ++ ps_Message resp)%string
         else if bool_decide (ps_SessionToken resp = []) then Err "host did not issue a session token"
         else
           _ ← wrap_err "host identity proof rejected: "
                 (verifyIdentityProof (pc_verify_now e) (ps_Identity resp) (ps_Attestation resp) "response"
                    peerID (nodeID m) (pr_InviteID req) (pr_Proof req) (ps_SessionToken resp) (pr_Mode req));
           Ok resp)
    end
  end.

(** ** Redeeming a link *)

(** What [ConnectByURL] reads off the link before it dials. *)
Record link_plan : Type := mkPlan {
  lp_token : Token;
  lp_peer : string;
  lp_backend : string;
  lp_ticket : string;
  lp_addrs : list string;
}.

(** The peer a token names, or the one the link names beside its addresses. *)
Definition link_peer (rawURL : string) (derived : string) : string :=
  if bool_decide (inviteAddrsFromURL rawURL <> []) && bool_decide (invitePeerFromURL rawURL <> "")
  then invitePeerFromURL rawURL else derived.

Definition link_backend (m : Manager) (rawURL ticket : string) (addrs : list string) : string :=
  if bool_decide (inviteBackendFromURL rawURL <> "") then inviteBackendFromURL rawURL
  else if bool_decide (ticket <> "") then BackendIroh
  else if bool_decide (addrs <> []) then BackendLibp2pRelay
  else activeNetworkBackend m.

Definition plan_iroh (backend ticket : string) : bool :=
  bool_decide (backend = BackendIroh) || bool_decide (ticket <> "").

Definition plan_link (m : Manager) (now : Z) (rawURL : string) : res link_plan :=
  _ ← validateInviteFormatVersion rawURL;
  let ticket := irohEndpointTicketFromURL rawURL in
  t ← wrap_err "invalid link: " (DecodeURL rawURL);
  if IsExpired t now then Err "this link has expired — ask the host to generate a new one"
  else
    derived ← wrap_err "derive peer ID: " (pubKeyToPeerID (PubKey t));
    let peerID := link_peer rawURL derived in
    let explicit := inviteAddrsFromURL rawURL in
    let addrs := if bool_decide (explicit = []) then relayMaskToAddrs (Rendezvous.RelayMask t) peerID else explicit in
    let backend := link_backend m rawURL ticket addrs in
    let plan := mkPlan t peerID backend ticket addrs in
    if plan_iroh backend ticket then
      if bool_decide (ticket = "") then Err "DeskAccess invite is missing the iroh endpoint ticket"
      else _ ← validateIrohTicket ticket (PubKey t); Ok plan
    else Ok plan.

Definition link_open_error (p : link_plan) (err : string) : string :=
  if plan_iroh (lp_backend p) (lp_ticket p) && isIrohDirectConnectError err
  then ("cannot reach host via iroh direct UDP: hole punching/direct path did not complete. Check UDP firewall/NAT on both machines or switch iroh mode back to public relay: " ++ err)%string
  else if bool_decide (lp_backend p = BackendLibp2pDHT)
  then ("libp2p DHT found the host, but direct dial failed; this usually means the host is behind NAT/firewall. Use an iroh or relay invite for this network: " ++ err)%string
  else ("cannot reach host (offline or all relays unreachable): " ++ err)%string.

Definition link_target (p : link_plan) : PairingTarget :=
  mkPairingTarget "" (lp_peer p) (hex_encode (PubKey (lp_token p))) (lp_ticket p) (lp_addrs p) [] [] [].

Definition link_proof (m : Manager) (e : connect_env) (p : link_plan) : bytes :=
  let t := lp_token p in
  InviteProof (InviteSecret t) (Rendezvous.InviteID t) (lp_peer p) (nodeID m) (ModeString t)
    (TimeWindow (pc_proof_now e)).

Definition link_request (m : Manager) (e : connect_env) (p : link_plan) (identity : IdentityProof) : PairRequest :=
  mkPairRequest Version (nodeID m) (Rendezvous.InviteID (lp_token p)) (link_proof m e p)
    (ModeString (lp_token p)) (nc_Label (Node (cfg m))) "" 0 (attestationForIdentity (pc_identity e))
    (Some identity).

(** The paired machine as [ConnectByURL] stores it. *)
Definition paired_remote (e : connect_env) (p : link_plan) (session : PairingSession St) (resp : PairResponse)
    (ticket : string) (port : Z) : RemoteConfig :=
  let '(backend, hardware, vendor, version, root) := identityInfoFromAttestation (ps_Attestation resp) in
  mkRemote (ps_HostLabel resp) (lp_peer p) (identityProofPublicKeyHex (ps_Identity resp))
    (identityProofMachineID (ps_Identity resp)) (lp_backend p) (Protocol_String (TokProtocol (lp_token p))) port
    (storableRelayAddrs (A := A) (pc_allowLoopback e) (s_RelayAddrs session)) ticket (s_DirectQUICAddrs session)
    (mkInfo backend hardware vendor version root) zero_time (pc_connected_now e).

(** [m.cfg.AddRemote(r)] and [m.cfg.Save()] *)
Definition store_remote (m : Manager) (e : connect_env) (r : RemoteConfig) : Manager :=
  set_cfg m (NormalizeNetworkBackend (AddRemote (cfg m) r (pc_added_now e))).

(** [ConnectByURL] once the response is verified.  The log line of a pairing
    slices the peer id. *)
Definition finish_connect (m : Manager) (e : connect_env) (p : link_plan) (session : PairingSession St)
    (resp : PairResponse) : Manager * outcome (res ConnectResult) :=
  let refreshed := bool_decide (ps_IrohTicket resp <> "") in
  match (if refreshed then wrap_err "host refreshed iroh ticket rejected: "
                             (validateIrohTicket (ps_IrohTicket resp) (PubKey (lp_token p))) else Ok tt) with
  | Err err => (m, Return (Err err))
  | Ok _ =>
    let ticket := if refreshed then ps_IrohTicket resp else s_IrohTicket session in
    let port := if ps_TargetPort resp =? 0 then Port (lp_token p) else ps_TargetPort resp in
    let result := mkConnect (lp_peer p) (s_RelayAddrs session) ticket (s_QUICEndpoint session)
      (ps_HostLabel resp) (ModeString (lp_token p)) (Protocol_String (TokProtocol (lp_token p))) port
      (ps_SessionToken resp) in
    if bool_decide (ModeString (lp_token p) = "pairing") then
      let m := store_remote m e (paired_remote e p session resp ticket port) in
      match pc_save e with
      | Err err => (m, Return (Err ("save paired remote: " ++ err)%string))
      | Ok _ => (m, _ ← first12 (lp_peer p); Return (Ok result))
      end
    else (m, Return (Ok result))
  end.

Definition ConnectByURL (m : Manager) (e : connect_env) (rawURL : string)
  : Manager * list client_event * outcome (res ConnectResult) :=
  match plan_link m (pc_expiry_now e) rawURL with
  | Err err => (m, [], Return (Err err))
  | Ok p =>
    match client_proof m e (lp_peer p) (Rendezvous.InviteID (lp_token p)) (link_proof m e p)
            (ModeString (lp_token p)) with
    | Err err => (m, [], Return (Err err))
    | Ok identity =>
      let backend := if bool_decide (lp_backend p = "") then BackendLibp2pRelay else lp_backend p in
      match OpenPairingSession (pc_backends e) backend (link_target p) with
      | Panic msg => (m, [], Panic msg)
      | Return (Err err) => (m, [], Return (Err (link_open_error p err)))
      | Return (Ok session) =>
        let '(events, r) := exchange m e connect_texts (s_Stream session) (link_request m e p identity) (lp_peer p) in
        let events := Opened (s_Stream session) :: events ++ [ClosedStream] in
        match r with
        | Err err => (m, events, Return (Err err))
        | Ok resp => let '(m, r) := finish_connect m e p session resp in (m, events, r)
        end
      end
    end
  end.

(** ** Returning to a paired machine *)

Definition RemoteBackend (m : Manager) (peerID : string) : string :=
  match find (fun r => bool_decide (rc_NodeID r = peerID)) (Remotes (cfg m)) with
  | Some r => trim_space (rc_Backend r)
  | None => ""
  end.

Definition RemoteService (m : Manager) (key : string) : option RemoteConfig :=
  find (fun r => bool_decide (RemoteServiceKey r = key)) (Remotes (cfg m)).

(** What [reauthOverStream] is given beside the stream. *)
Record reauth_input : Type := mkReauth {
  ri_peer : string;
  ri_session : PairingSession St;
  ri_protocol : string;
  ri_port : Z;
  ri_backend : string;
  ri_publicKey : string;
  ri_machineID : string;
}.

Definition reauth_request (m : Manager) (e : connect_env) (i : reauth_input) (identity : IdentityProof) : PairRequest :=
  mkPairRequest Version (nodeID m) [] [] "trusted" (nc_Label (Node (cfg m))) (ri_protocol i) (ri_port i)
    (attestationForIdentity (pc_identity e)) (Some identity).

(** The stored identity matches, or its software key may be repaired. *)
Definition known_identity (i : reauth_input) (resp : PairResponse) : res unit :=
  match verifyStoredIdentity (ri_publicKey i) (ri_machineID i) (ps_Identity resp) with
  | Ok _ => Ok tt
  | Err err => if canRepairStoredSoftwarePublicKey (Some err) (ri_machineID i) (ps_Identity resp) then Ok tt
               else Err ("host identity changed; create a fresh invite link: " ++ err)%string
  end.

(** [reauthOverStream] once the host is known. *)
Definition finish_reauth (m : Manager) (e : connect_env) (i : reauth_input) (resp : PairResponse)
  : Manager * res ConnectResult :=
  let refreshed := bool_decide (ps_IrohTicket resp <> "") in
  match (if refreshed then wrap_err "host refreshed iroh ticket rejected: "
                             (validateIrohTicketPeer (ps_IrohTicket resp) (ri_peer i)) else Ok tt) with
  | Err err => (m, Err err)
  | Ok _ =>
    let session := ri_session i in
    let ticket := if refreshed then ps_IrohTicket resp else s_IrohTicket session in
    let protocol := if bool_decide (ps_Protocol resp = "") then ri_protocol i else ps_Protocol resp in
    let protocol := if bool_decide (protocol = "") then Protocol_String ProtoRDP else protocol in
    let port := if ps_TargetPort resp =? 0 then ri_port i else ps_TargetPort resp in
    let port := if port =? 0 then DefaultPort (ParseProtocol protocol) else port in
    let '(backend, hardware, vendor, version, root) := identityInfoFromAttestation (ps_Attestation resp) in
    let addrs := storableRelayAddrs (A := A) (pc_allowLoopback e) (s_RelayAddrs session) in
    let m :=
      match ps_Identity resp with
      | Some _ =>
        store_remote m e
          (mkRemote (ps_HostLabel resp) (ri_peer i) (identityProofPublicKeyHex (ps_Identity resp))
             (identityProofMachineID (ps_Identity resp)) (ri_backend i) protocol port addrs ticket
             (s_DirectQUICAddrs session) (mkInfo backend hardware vendor version root) zero_time
             (pc_connected_now e))
      | None =>
        if refreshed then
          store_remote m e
            (mkRemote (ps_HostLabel resp) (ri_peer i) "" "" (ri_backend i) protocol port addrs ticket []
               no_identity zero_time zero_time)
        else m
      end in
    (m, Ok (mkConnect (ri_peer i) (s_RelayAddrs session) ticket (s_QUICEndpoint session) (ps_HostLabel resp)
              "trusted" protocol port (ps_SessionToken resp)))
  end.

Definition reauthOverStream (m : Manager) (e : connect_env) (i : reauth_input)
  : Manager * list client_event * res ConnectResult :=
  let stream := s_Stream (ri_session i) in
  match client_proof m e (ri_peer i) [] [] "trusted" with
  | Err err => (m, [Opened stream; ClosedStream], Err err)
  | Ok identity =>
    let '(events, r) := exchange m e reauth_texts stream (reauth_request m e i identity) (ri_peer i) in
    let events := Opened stream :: events ++ [ClosedStream] in
    match r ≫= fun resp => _ ← known_identity i resp; Ok resp with
    | Err err => (m, events, Err err)
    | Ok resp => let '(m, r) := finish_reauth m e i resp in (m, events, r)
    end
  end.

Definition reauth_backend (m : Manager) (remote : RemoteConfig) (preferred : string) : string :=
  let backend := trim_space preferred in
  let backend := if bool_decide (backend = "") then trim_space (rc_Backend remote) else backend in
  if bool_decide (backend = "") then activeNetworkBackend m else backend.

Definition iroh_open_error (err : string) : string :=
  if isIrohDirectConnectError err
  then ("cannot reach paired host via iroh direct UDP: hole punching/direct path did not complete. Check UDP firewall/NAT on both machines or switch iroh mode back to public relay: " ++ err)%string
  else if isIrohOpenTimeout err
  then ("cannot reach paired host via iroh: opening the sidecar stream timed out. The host may be offline, mobile internet may be blocking or delaying iroh relay/direct negotiation, or the saved iroh ticket may be stale; create a fresh iroh pairing link from the host if this repeats: " ++ err)%string
  else ("cannot reach paired host via iroh (host may be offline, not running the iroh backend, or this saved iroh ticket is stale; create a fresh iroh pairing link from the host): " ++ err)%string.

(** The error of the other backends; the last form slices the peer id. *)
Definition reauth_open_error (backend peerID err : string) : outcome string :=
  if bool_decide (backend = BackendBitTorrentDHT)
  then Return ("cannot reach paired host via BitTorrent DHT direct QUIC: " ++ err)%string
  else if bool_decide (backend = BackendLibp2pDHT)
  then Return ("libp2p DHT resolved this paired host, but direct dial failed; use an iroh or relay pairing for NATed networks: " ++ err)%string
  else id ← first12 peerID; Return ("cannot reach " ++ id ++ ": " ++ err)%string.

Definition reauth_target (e : connect_env) (remote : RemoteConfig) (backend : string) : PairingTarget :=
  if bool_decide (backend = BackendIroh)
  then mkPairingTarget "" (rc_NodeID remote) "" (rc_IrohTicket remote) [] [] [] []
  else mkPairingTarget "" (rc_NodeID remote) (rc_PublicKey remote) "" (rc_RelayAddrs remote)
         (match pc_presence e with Some f => f (rc_NodeID remote) | None => [] end)
         (rc_RelayAddrs remote) (rc_DirectQUICAddrs remote).

Definition reauthRemoteWithBackend (m : Manager) (e : connect_env) (remote : RemoteConfig) (preferred : string)
  : Manager * list client_event * outcome (res ConnectResult) :=
  let peerID := rc_NodeID remote in
  let backend := reauth_backend m remote preferred in
  let iroh := bool_decide (backend = BackendIroh) in
  let ticket_ok := if iroh then
                     if bool_decide (rc_IrohTicket remote = "")
                     then Err "paired remote has no iroh ticket — use a fresh invite link"
                     else validateIrohTicketPeer (rc_IrohTicket remote) peerID
                   else Ok tt in
  match ticket_ok with
  | Err err => (m, [], Return (Err err))
  | Ok _ =>
    match OpenPairingSession (pc_backends e) backend (reauth_target e remote backend) with
    | Panic msg => (m, [], Panic msg)
    | Return (Err err) =>
      if iroh then (m, [], Return (Err (iroh_open_error err)))
      else (m, [], err ← reauth_open_error backend peerID err; Return (Err err))
    | Return (Ok session) =>
      let '(m, events, r) := reauthOverStream m e
        (mkReauth peerID session (rc_Protocol remote) (rc_TargetPort remote) backend (rc_PublicKey remote)
           (rc_MachineID remote)) in
      (m, events, Return r)
    end
  end.

Definition ReauthRemoteWithBackend (m : Manager) (e : connect_env) (remote : RemoteConfig) (preferred : string)
  : Manager * list client_event * outcome (res ConnectResult) :=
  if bool_decide (trim_space (rc_NodeID remote) = "")
  then (m, [], Return (Err "paired machine is missing node id"))
  else reauthRemoteWithBackend m e remote preferred.

(** A remote with a node id only. *)
Definition bare_remote (peerID : string) : RemoteConfig :=
  mkRemote "" peerID "" "" "" "" 0 [] "" [] no_identity zero_time zero_time.

Definition ReauthPairedWithBackend (m : Manager) (e : connect_env) (peerID preferred : string)
  : Manager * list client_event * outcome (res ConnectResult) :=
  match find (fun r => bool_decide (rc_NodeID r = peerID)) (Remotes (cfg m)) with
  | Some r => reauthRemoteWithBackend m e r preferred
  | None => reauthRemoteWithBackend m e (bare_remote peerID) preferred
  end.

Definition ReauthPaired (m : Manager) (e : connect_env) (peerID : string)
  : Manager * list client_event * outcome (res ConnectResult) :=
  ReauthPairedWithBackend m e peerID "".

(** ** Discovery *)

(** [record]: the BitTorrent DHT discoverer, if there is one, and the direct
    and relay addresses of the record it finds. *)
Definition DiscoverRemote (m : Manager) (n : NodeState A) (de : dht_env A)
    (record : option (string -> string -> res (list string * list string))) (remote : RemoteConfig)
  : DiscoveryStatus :=
  let backend := activeNetworkBackend m in
  let publicKey := trim_space (rc_PublicKey remote) in
  let unsupported := mkDiscovery false "" [] ("unsupported discovery backend: " ++ backend)%string in
  let by_peer :=
    match FindPeerAddrs de (rc_NodeID remote) with
    | Err err => mkDiscovery false "libp2p_dht" [] err
    | Ok [] => unsupported
    | Ok addrs => mkDiscovery true "libp2p_dht" addrs ""
    end in
  if bool_decide (backend = "iroh") then
    let ticket := trim_space (rc_IrohTicket remote) in
    if bool_decide (ticket = "") then mkDiscovery false "iroh" [] "paired remote has no iroh ticket"
    else match validateIrohTicketPeer ticket (rc_NodeID remote) with
         | Err err => mkDiscovery false "iroh" [] err
         | Ok _ => mkDiscovery false "iroh_cached_ticket" ["iroh"] "iroh reachability is checked during connect"
         end
  else if bool_decide (backend = "libp2p_dht") then
    if bool_decide (publicKey <> "") then
      match FindIdentityAddrs n de publicKey (rc_NodeID remote) with
      | Err err => mkDiscovery false "libp2p_dht" [] err
      | Ok [] => by_peer
      | Ok addrs => mkDiscovery true "libp2p_dht" addrs ""
      end
    else by_peer
  else if bool_decide (backend = "bittorrent_dht") then
    if bool_decide (publicKey = "") then mkDiscovery false "bittorrent_dht" [] "paired remote has no public key"
    else match record with
         | None => mkDiscovery false "bittorrent_dht" [] "BitTorrent DHT discoverer is not running"
         | Some lookup =>
           match lookup publicKey (rc_NodeID remote) with
           | Err err => mkDiscovery false "bittorrent_dht" [] err
           | Ok (direct, relay) =>
             if bool_decide (direct ++ relay = [])
             then mkDiscovery false "bittorrent_dht" [] "record has no reachable addresses"
             else mkDiscovery true "bittorrent_dht" (direct ++ relay) ""
           end
         end
  else if bool_decide (backend = "libp2p_relay") then mkDiscovery false "libp2p_relay" (rc_RelayAddrs remote) ""
  else unsupported.
End Client.

Arguments connect_env St : clear implicits.
Arguments client_event St : clear implicits.
Arguments reauth_input St : clear implicits.

(** ** Lemmas *)

Section ClientFacts.
Context {St A : Type} `{Multiaddr A} `{Crypto} `{UrlCheck} `{Codec PairRequest} `{Codec PairResponse} `{Codec ticketID}.
Implicit Types (m : Manager) (e : connect_env St).

(** The check every accepted response has passed. *)
Definition host_proved m e (resp : PairResponse) (peerID : string) (inviteID proof : bytes) (mode : string) : Prop :=
  ps_OK resp = true /\ ps_SessionToken resp <> [] /\
  verifyIdentityProof (pc_verify_now e) (ps_Identity resp) (ps_Attestation resp) "response" peerID (nodeID m)
    inviteID proof (ps_SessionToken resp) mode = Ok tt.

(** What an exchange that ends with a response shows. *)
Lemma exchange_ok m e tx stream req peerID events resp :
  exchange m e tx stream req peerID = (events, Ok resp) ->
  events = [SentRequest req] /\ pc_race e = FrameFirst /\
  host_proved m e resp peerID (pr_InviteID req) (pr_Proof req) (pr_Mode req).
Proof.
  unfold exchange, host_proved. destruct (frame_bytes _ _ _) as [sent|]; [|done].
  destruct (pc_write e); [done|]. destruct (pc_race e) as [|err ends]; cbn [readFrameWithContext]; [|done].
  destruct (ReadFrame _) as [[[t payload] rest]|]; [|done]. cbn [wrap_err mbind res_bind].
  case_bool_decide; [done|]. destruct (unmarshal payload) as [r|]; [|done]. cbn [wrap_err mbind res_bind].
  destruct (ps_OK r) eqn:Eok; [|done]. cbn [negb]. case_bool_decide; [done|].
  destruct (verifyIdentityProof _ _ _ _ _ _ _ _ _ _) as [[]|] eqn:Ev; [|done].
  cbn. intros [= <- <-]. done.
Qed.

(** The stream is closed at the end in every case. *)
Definition closes_stream (events : list (client_event St)) : Prop :=
  events = [] \/ exists s evs, events = Opened s :: evs ++ [ClosedStream].

Lemma finish_connect_cases m e p session resp m' r :
  finish_connect (A := A) m e p session resp = (m', r) ->
  (m' = m \/ (ModeString (lp_token p) = "pairing" /\
     exists ticket port, m' = store_remote m e (paired_remote (A := A) e p session resp ticket port))) /\
  (forall c, r = Return (Ok c) ->
     cr_PeerID c = lp_peer p /\ cr_Mode c = ModeString (lp_token p) /\
     cr_SessionToken c = ps_SessionToken resp /\
     cr_Protocol c = Protocol_String (TokProtocol (lp_token p)) /\
     m' = if bool_decide (cr_Mode c = "pairing")
          then store_remote m e (paired_remote (A := A) e p session resp (cr_IrohTicket c) (cr_TargetPort c))
          else m).
Proof.
  unfold finish_connect. destruct (if bool_decide _ then _ else _) as [u|err].
  2:{ intros [= <- <-]. split; [by left|done]. }
  case_bool_decide as Hm.
  - destruct (pc_save e) as [u2|err].
    2:{ intros [= <- <-]. split; [|done]. right. split; [done|]. by eexists _, _. }
    intros [= <- <-]. split; [right; split; [done|]; by eexists _, _|].
    destruct (first12 (lp_peer p)); [|done]. intros c [= <-]. cbn. by rewrite Hm.
  - intros [= <- <-]. split; [by left|]. intros c [= <-]. cbn. by rewrite bool_decide_eq_false_2.
Qed.

(** The cases of [ConnectByURL]: it ends before a response is accepted, or it
    finishes with one. *)
Lemma ConnectByURL_cases m e rawURL :
  (exists events r, ConnectByURL (A := A) m e rawURL = (m, events, r) /\ closes_stream events /\
     forall c, r <> Return (Ok c)) \/
  exists p identity session resp,
    plan_link m (pc_expiry_now e) rawURL = Ok p /\
    let req := link_request m e p identity in
    let backend := if bool_decide (lp_backend p = "") then BackendLibp2pRelay else lp_backend p in
    OpenPairingSession (pc_backends e) backend (link_target p) = Return (Ok session) /\
    host_proved m e resp (lp_peer p) (pr_InviteID req) (pr_Proof req) (pr_Mode req) /\
    ConnectByURL (A := A) m e rawURL =
      (fst (finish_connect (A := A) m e p session resp),
       [Opened (s_Stream session); SentRequest req; ClosedStream],
       snd (finish_connect (A := A) m e p session resp)).
Proof.
  unfold ConnectByURL. destruct (plan_link m _ rawURL) as [p|err].
  2:{ left. eexists _, _. split; [done|]. split; [by left|done]. }
  destruct (client_proof _ _ _ _ _ _) as [identity|err].
  2:{ left. eexists _, _. split; [done|]. split; [by left|done]. }
  destruct (OpenPairingSession _ _ _) as [[session|err]|msg] eqn:Eo.
  2,3: left; eexists _, _; split; [done|]; split; [by left|done].
  destruct (exchange _ _ _ _ _ _) as [events [resp|err]] eqn:Ex.
  - right. exists p, identity, session, resp. apply exchange_ok in Ex as (-> & _ & Hp).
    split; [done|]. split; [done|]. split; [done|]. by destruct (finish_connect _ _ _ _ _).
  - left. eexists _, _. split; [done|]. split; [|done]. right. by eexists _, _.
Qed.

(** What the plan of a link says of it. *)
Lemma plan_link_ok m now rawURL p :
  plan_link m now rawURL = Ok p ->
  DecodeURL rawURL = Ok (lp_token p) /\ IsExpired (lp_token p) now = false /\
  exists derived, pubKeyToPeerID (PubKey (lp_token p)) = Ok derived /\ lp_peer p = link_peer rawURL derived.
Proof.
  unfold plan_link. destruct (validateInviteFormatVersion rawURL); [|done].
  destruct (DecodeURL rawURL) as [t|]; [|done]. cbn [wrap_err mbind res_bind].
  destruct (IsExpired t now) eqn:Ee; [done|].
  destruct (pubKeyToPeerID (PubKey t)) as [derived|] eqn:Ed; [|done]. cbn [wrap_err mbind res_bind]. cbv zeta.
  intros Hp. assert (Hx : lp_token p = t /\ lp_peer p = link_peer rawURL derived).
  { revert Hp. destruct (plan_iroh _ _); [|by intros [= <-]]. case_bool_decide; [done|].
    destruct (validateIrohTicket _ _); [|done]. by intros [= <-]. }
  destruct Hx as [-> ->]. by eauto.
Qed.

Lemma link_peer_derived rawURL derived : inviteAddrsFromURL rawURL = [] -> link_peer rawURL derived = derived.
Proof. intros Ha. unfold link_peer. by rewrite Ha. Qed.
(** The identity a returning host must show. *)
Definition same_machine (storedPublicKey storedMachineID : string) (p : IdentityProof) : Prop :=
  let mid := trim_space storedMachineID in
  let pk := trim_space storedPublicKey in
  (mid <> "" \/ pk <> "") /\
  (mid <> "" -> equal_fold mid (ip_MachineID p) = true) /\
  (mid = "" -> ip_PublicKey p <> [] -> equal_fold pk (hex_encode (ip_PublicKey p)) = true).

Lemma known_identity_same (i : reauth_input St) resp :
  known_identity i resp = Ok tt ->
  exists p, ps_Identity resp = Some p /\ same_machine (ri_publicKey i) (ri_machineID i) p.
Proof.
  unfold known_identity, verifyStoredIdentity, same_machine. destruct (ps_Identity resp) as [p|]; [|done].
  intros Hk. exists p. split; [done|]. revert Hk. cbn [canRepairStoredSoftwarePublicKey].
  set (mid := trim_space (ri_machineID i)). set (pk := trim_space (ri_publicKey i)).
  destruct (decide (mid = "")) as [Em|Em]; destruct (decide (pk = "")) as [Ep|Ep];
    rewrite ?(bool_decide_eq_true_2 (mid = "")), ?(bool_decide_eq_false_2 (mid = "")),
      ?(bool_decide_eq_true_2 (pk = "")), ?(bool_decide_eq_false_2 (pk = "")),
      ?(bool_decide_eq_true_2 (mid <> "")), ?(bool_decide_eq_false_2 (mid <> "")),
      ?(bool_decide_eq_true_2 (pk <> "")), ?(bool_decide_eq_false_2 (pk <> "")) by (done || by intros Hx);
    cbn [andb orb negb]; try done.
  - destruct (0 <? Z.of_nat (length (ip_PublicKey p))) eqn:El; cbn [andb].
    + destruct (equal_fold pk _) eqn:Ee; cbn [negb]; [|done]. naive_solver.
    + intros _. split; [by right|]. split; [done|]. intros _ Hp. go_bool.
      destruct (ip_PublicKey p); [done|cbn in El; lia].
  - case_bool_decide; [done|]. destruct (equal_fold mid _) eqn:Ee; [|done]. naive_solver.
  - case_bool_decide; [done|]. destruct (equal_fold mid _) eqn:Ee; [|done]. naive_solver.
Qed.

Lemma finish_reauth_cases m e (i : reauth_input St) resp p m' r :
  finish_reauth (A := A) m e i resp = (m', r) -> ps_Identity resp = Some p ->
  (exists err, r = Err err /\ m' = m) \/
  exists c rc, r = Ok c /\ m' = store_remote m e rc /\
    cr_PeerID c = ri_peer i /\ cr_SessionToken c = ps_SessionToken resp /\ cr_Mode c = "trusted" /\
    cr_TargetPort c <> 0 /\
    rc_NodeID rc = ri_peer i /\ rc_PublicKey rc = identityProofPublicKeyHex (Some p) /\
    rc_MachineID rc = identityProofMachineID (Some p) /\ rc_Protocol rc = cr_Protocol c /\
    rc_TargetPort rc = cr_TargetPort c.
Proof.
  unfold finish_reauth. intros Hf Hp. rewrite Hp in Hf. revert Hf.
  destruct (if bool_decide _ then _ else _) as [u|err].
  2:{ intros [= <- <-]. left. by eexists. }
  set (pr := if bool_decide (_ = "") then Protocol_String ProtoRDP else _). clearbody pr.
  set (po := if ps_TargetPort resp =? 0 then _ else _). clearbody po.
  destruct (identityInfoFromAttestation _) as [[[[? ?] ?] ?] ?].
  intros [= <- <-]. right. eexists _, _. split; [done|]. split; [done|].
  cbn. repeat (split; [first [done|idtac]|]); try done.
  destruct (po =? 0) eqn:Ez; go_bool; [|done]. unfold DefaultPort. repeat case_match; lia.
Qed.

Lemma reauth_cases m e remote preferred :
  (exists events r, reauthRemoteWithBackend (A := A) m e remote preferred = (m, events, r) /\
     closes_stream events /\ forall c, r <> Return (Ok c)) \/
  exists i identity resp,
    ri_peer i = rc_NodeID remote /\ ri_publicKey i = rc_PublicKey remote /\
    ri_machineID i = rc_MachineID remote /\
    host_proved m e resp (rc_NodeID remote) [] [] "trusted" /\ known_identity i resp = Ok tt /\
    reauthRemoteWithBackend (A := A) m e remote preferred =
      (fst (finish_reauth (A := A) m e i resp),
       [Opened (s_Stream (ri_session i)); SentRequest (reauth_request m e i identity); ClosedStream],
       Return (snd (finish_reauth (A := A) m e i resp))).
Proof.
  unfold reauthRemoteWithBackend. cbv zeta. set (backend := reauth_backend m remote preferred).
  destruct (if bool_decide (backend = BackendIroh) then _ else Ok ()) as [u|err].
  2:{ left. eexists _, _. split; [done|]. split; [by left|done]. }
  destruct (OpenPairingSession _ _ _) as [[session|err]|msg] eqn:Eo.
  2:{ left. case_bool_decide; eexists _, _; (split; [done|]); (split; [by left|]); [done|].
      by destruct (reauth_open_error _ _ _). }
  2:{ left. eexists _, _. split; [done|]. split; [by left|done]. }
  set (i := mkReauth _ _ _ _ _ _ _). unfold reauthOverStream.
  destruct (client_proof _ _ _ _ _ _) as [identity|err].
  2:{ left. eexists _, _. split; [done|]. split; [right; by exists (s_Stream (ri_session i)), []|done]. }
  destruct (exchange _ _ _ _ _ _) as [events [resp|err]] eqn:Ex; cbn [mbind res_bind].
  2:{ left. eexists _, _. split; [done|]. split; [right; by eexists _, _|done]. }
  destruct (known_identity i resp) as [[]|err] eqn:Ek; cbn [mbind res_bind].
  2:{ left. eexists _, _. split; [done|]. split; [right; by eexists _, _|done]. }
  right. exists i, identity, resp. apply exchange_ok in Ex as (-> & _ & Hp).
  repeat (split; [done|]). by destruct (finish_reauth _ _ _ _).
Qed.
End ClientFacts.

(** ** Properties *)


(** C9: coming back to the same machine.  When a paired machine is contacted
    again and the call succeeds, the response carried a fresh identity proof
    of the stored node id in mode "trusted" for the returned token, and the
    proof is of the stored machine: some identity is stored, a stored machine
    id is the proof's, and without one a public key in the proof is the stored
    one.  (A changed software key is accepted only under an equal machine
    id.)  The entry written back is of that proof, with the protocol and a
    non-zero port of the result. *)
Theorem reauth_same_machine {St A} `{Multiaddr A} `{Crypto} `{UrlCheck} `{Codec PairRequest}
  `{Codec PairResponse} `{Codec ticketID} m (e : connect_env St) remote preferred m' events c
  (Hr : reauthRemoteWithBackend (A := A) m e remote preferred = (m', events, Return (Ok c))) :
  exists p att rc,
    cr_PeerID c = rc_NodeID remote /\ cr_SessionToken c <> [] /\
    verifyIdentityProof (pc_verify_now e) (Some p) att "response" (rc_NodeID remote) (nodeID m) [] []
      (cr_SessionToken c) "trusted" = Ok tt /\
    same_machine (rc_PublicKey remote) (rc_MachineID remote) p /\
    m' = store_remote m e rc /\ rc_NodeID rc = rc_NodeID remote /\
    rc_PublicKey rc = identityProofPublicKeyHex (Some p) /\ rc_MachineID rc = identityProofMachineID (Some p) /\
    rc_Protocol rc = cr_Protocol c /\ rc_TargetPort rc = cr_TargetPort c /\ cr_TargetPort c <> 0.
Proof.
  destruct (reauth_cases (A := A) m e remote preferred)
    as [(evs & r & Heq & _ & Hno)|(i & identity & resp & Hi & Hpk & Hmid & (Hok & Ht & Hv) & Hk & Heq)].
  { rewrite Heq in Hr. injection Hr as _ _ Hr. by destruct (Hno c). }
  destruct (known_identity_same _ _ Hk) as (p & Hp & Hsame). rewrite Hpk, Hmid in Hsame.
  rewrite Heq in Hr. injection Hr as Hm _ Hr.
  destruct (finish_reauth m e i resp) as [m2 r2] eqn:Ef. cbn [fst snd] in Hm, Hr. subst m2 r2.
  destruct (finish_reauth_cases (A := A) m e i resp p m' (Ok c) Ef Hp)
    as [(err & ? & _)|(c' & rc & [= <-] & Hm & Hcp & Hct & _ & Hport & Hrc)]; [done|].
  rewrite Hp in Hv. exists p, (ps_Attestation resp), rc. rewrite Hct, Hcp, Hi in *.
  naive_solver.
Qed.

(** C10: a failed call leaves no trace.  Whatever the outcome (success, error or
    panic), a stream that was opened is closed, and the client's state
    changes only after a host proved its identity as the peer that was
    called, and then only by one [AddRemote] for that peer. *)
Theorem client_state_needs_proof {St A} `{Multiaddr A} `{Crypto} `{UrlCheck} `{Codec PairRequest}
  `{Codec PairResponse} `{Codec ticketID} m (e : connect_env St) rawURL remote preferred :
  let stored m' peer :=
    m' = m \/ exists resp iid pf mode rc, host_proved m e resp peer iid pf mode /\
      rc_NodeID rc = peer /\ rc_PublicKey rc = identityProofPublicKeyHex (ps_Identity resp) /\
      rc_MachineID rc = identityProofMachineID (ps_Identity resp) /\ m' = store_remote m e rc in
  (let '(m', events, _) := ConnectByURL (A := A) m e rawURL in
   closes_stream events /\
   (m' = m \/ exists p, plan_link m (pc_expiry_now e) rawURL = Ok p /\ stored m' (lp_peer p))) /\
  (let '(m', events, _) := reauthRemoteWithBackend (A := A) m e remote preferred in
   closes_stream events /\ stored m' (rc_NodeID remote)).
Proof.
  intros stored. split.
  - destruct (ConnectByURL_cases (A := A) m e rawURL)
      as [(evs & r & -> & Hcl & _)|(p & identity & session & resp & Hp & _ & Hproved & ->)].
    { split; [done|by left]. }
    split; [right; by eexists _, [_]|].
    destruct (finish_connect m e p session resp) as [m2 r2] eqn:Ef.
    destruct (finish_connect_cases (A := A) m e p session resp m2 r2 Ef) as [[->|(_ & t & port & ->)] _];
      [by left|right]. exists p. split; [done|]. right.
    eexists resp, _, _, _, (paired_remote (A := A) e p session resp t port).
    split; [exact Hproved|]. unfold paired_remote.
    destruct (identityInfoFromAttestation _) as [[[[? ?] ?] ?] ?]. by repeat split.
  - destruct (reauth_cases (A := A) m e remote preferred)
      as [(evs & r & -> & Hcl & _)|(i & identity & resp & Hi & _ & _ & Hproved & Hk & ->)].
    { split; [done|by left]. }
    split; [right; by eexists _, [_]|].
    destruct (known_identity_same _ _ Hk) as (p & Hp & _).
    destruct (finish_reauth m e i resp) as [m2 r2] eqn:Ef.
    destruct (finish_reauth_cases (A := A) m e i resp p m2 r2 Ef Hp)
      as [(err & _ & ->)|(c & rc & _ & -> & _ & _ & _ & _ & Hrc)]; [by left|right].
    eexists resp, _, _, _, rc. split; [exact Hproved|]. rewrite Hp, <- Hi. naive_solver.
Qed.
