(* ===== verification/Redeem.v ===== *)
(** * Redeem: a link from its minting to the paired session

    The invite store of [Invites], the host of [PairingHost] and the client
    of [PairingClient] together: the client connects with a link the host
    minted, over a stream that carries the frames of the two. *)

From S2P Require Import Prelude GoStrings Crypto Url Wire Frames Rendezvous Sessions Config Identity.
From S2P Require Import Proofs InviteUrl Invites NetNode Netbackend Sidecar PairingHost PairingClient.

(** A machine with a software identity that can sign as [node]. *)
Definition signer_ready `{Crypto} (identity : option Identity) (cfgKey : res bytes) (node : string) : Prop :=
  (forall i, identity = Some i -> software_only i) /\
  forall role v iid pf tok mode w, exists p, localProof identity cfgKey role node v iid pf tok mode w = Ok p.

(** What is marshalled is unmarshalled. *)
Record pairing_codecs `{Codec PairRequest} `{Codec PairResponse} : Prop := {
  request_codec (r : PairRequest) data : marshal r = Ok data -> unmarshal data = Ok r;
  response_codec (r : PairResponse) data : marshal r = Ok data -> unmarshal data = Ok r;
}.

(** ** Lemmas *)

Section HostSide.
Context `{CryptoLaws} `{Codec PairRequest}.

(** The handler on the bytes of a request. *)
Lemma host_reads_request `{Codec PairResponse} m he req sent remote transport :
  pairing_codecs -> frame_bytes marshal MsgPairRequest req = Ok sent ->
  handleIncomingConn m he sent remote transport =
    (fst (handle_request m he req remote transport), Some (snd (handle_request m he req remote transport))).
Proof.
  intros Hc Hs. destruct (ReadFrame_frame_bytes _ _ _ _ [] Hs) as (data & Hm & Hr).
  rewrite app_nil_r in Hr. unfold handleIncomingConn. rewrite Hr.
  rewrite bool_decide_eq_false_2 by (intros Hn; by apply Hn). rewrite (request_codec Hc _ _ Hm).
  by destruct (handle_request _ _ _ _ _).
Qed.

(** Authorizing by an invite leaves the node's key and id as they were. *)
Lemma authorize_invite_node m he req peer m1 r :
  authorize_invite m he req peer = (m1, r) -> Node (cfg m1) = Node (cfg m) /\ nodeID m1 = nodeID m.
Proof.
  unfold authorize_invite.
  destruct (verifyAndConsume _ _ _ _ _ _) as [m2 [l|err]] eqn:Ev;
    apply verifyAndConsume_frame in Ev as (Ec & _ & En).
  2:{ intros [= <- <-]. by rewrite Ec, En. }
  destruct (heap m2 !! l) as [inv|] eqn:Eh; [|intros [= <- <-]; by rewrite Ec, En].
  assert (Hrec : cfg (record_user m2 l (pr_Label req) peer (he_now he)) = cfg m /\
                 nodeID (record_user m2 l (pr_Label req) peer (he_now he)) = nodeID m).
  { unfold record_user. rewrite Eh. cbn. by rewrite Ec, En. }
  destruct Hrec as [Hrc Hrn]. intros Hx.
  assert (m1 = (if bool_decide (pr_Mode req = "pairing")
                then trust (record_user m2 l (pr_Label req) peer (he_now he)) req peer
                       (Protocol_String (ParseProtocol (Protocol inv))) (effectiveTargetPort (Some inv)) (he_now he)
                else record_user m2 l (pr_Label req) peer (he_now he))) as -> by (by simplify_eq).
  case_bool_decide; [|by rewrite Hrc, Hrn]. unfold trust. cbn [cfg nodeID set_cfg].
  split; [|done]. rewrite <- Hrc. unfold NormalizeNetworkBackend, ensureBackendEnabled, AddTrustedPeer.
  cbv zeta. repeat case_match; done.
Qed.

(** A request with a valid identity proof and a valid invite is accepted. *)
Lemma host_accepts_invite m he req remote transport peer token m1 l inv :
  pr_Version req <= Version -> pr_Mode req <> "trusted" ->
  pairRequestNodeID req remote transport = Ok peer ->
  verifyIdentityProof (he_now he) (pr_Identity req) (pr_Attestation req) "request" peer (nodeID m)
    (pr_InviteID req) (pr_Proof req) [] (pr_Mode req) = Ok tt ->
  verifyAndConsume m (pr_InviteID req) (pr_Proof req) peer (pr_Mode req) (he_now he) = (m1, Ok l) ->
  heap m1 !! l = Some inv -> he_token he = Ok token ->
  signer_ready (he_identity he) (PrivateKeyBytes (cfg m)) (nodeID m) ->
  let '(m2, resp) := handle_request m he req remote transport in
  ps_OK resp = true /\ ps_TargetPort resp = effectiveTargetPort (Some inv) /\
  ps_IrohTicket resp = if bool_decide (transport = BackendIroh)
                       then match he_ticket he with Ok t => t | Err _ => "" end else "".
Proof.
  intros Hv Hm Hp Hi Hc Hh Ht [_ Hsign]. unfold handle_request.
  rewrite (proj2 (Z.ltb_ge _ _) Hv), Hp, Hi. unfold authorize. rewrite bool_decide_eq_false_2 by done.
  destruct (authorize_invite m he req peer) as [m3 r] eqn:Ea.
  pose proof (authorize_invite_node _ _ _ _ _ _ Ea) as [Hn Hid].
  unfold authorize_invite in Ea. rewrite Hc, Hh in Ea. simplify_eq.
  set (m4 := if bool_decide _ then _ else _) in *. clearbody m4.
  unfold respond. rewrite Ht. cbn [Issue cfg nodeID set_sessions].
  rewrite Hid. unfold PrivateKeyBytes in *. rewrite Hn.
  edestruct Hsign as [pr ->]. done.
Qed.
End HostSide.

Section BothSides.
Context `{CryptoLaws} `{UrlCheck} `{Codec PairRequest} `{Codec PairResponse} `{Codec ticketID} {St : Type}.

(** The exchange with an honest host: the client accepts a positive answer. *)
Lemma exchange_with_host hm he remote transport hm2 resp m (e : connect_env St) tx stream req sent :
  pairing_codecs ->
  frame_bytes marshal MsgPairRequest req = Ok sent -> pc_write e = None -> pc_race e = FrameFirst ->
  handleIncomingConn hm he sent remote transport = (hm2, Some resp) ->
  frame_bytes marshal MsgPairResponse resp = Ok (pc_answer e stream sent) ->
  ps_OK resp = true -> ps_SessionToken resp <> [] ->
  pairRequestNodeID req remote transport = Ok (nodeID m) ->
  (forall i, he_identity he = Some i -> software_only i) ->
  - 2 ^ 62 <= TimeWindow (pc_verify_now e) <= 2 ^ 62 ->
  TimeWindow (pc_verify_now e) - 1 <= TimeWindow (he_now he) <= TimeWindow (pc_verify_now e) + 1 ->
  exchange m e tx stream req (nodeID hm) = ([SentRequest req], Ok resp).
Proof.
  intros Hc Hs Hw Hr Hh Ha Hok Hne Hpeer Hsoft Hnow Hwin. unfold exchange. rewrite Hs, Hw, Hr.
  cbn [readFrameWithContext]. destruct (ReadFrame_frame_bytes _ _ _ _ [] Ha) as (data & Hm & Hread).
  rewrite app_nil_r in Hread. rewrite Hread. cbn [wrap_err mbind res_bind].
  rewrite bool_decide_eq_false_2 by (intros Hn; by apply Hn).
  rewrite (response_codec Hc _ _ Hm). cbn [wrap_err mbind res_bind]. rewrite Hok. cbn [negb].
  rewrite bool_decide_eq_false_2 by done.
  rewrite (host_reads_request _ _ _ _ _ _ Hc Hs) in Hh. injection Hh as Hm2 Hresp.
  destruct (handle_request hm he req remote transport) as [hm3 resp3] eqn:Eh. cbn [snd] in Hresp. subst resp3.
  destruct (handle_request_ok _ _ _ _ _ _ _ Eh Hok) as
    (peer & m1 & protocol & port & token & proof & _ & Hp & _ & Hau & _ & Htok & _ & _ & Hid & Hl & _).
  rewrite Hpeer in Hp. injection Hp as <-. apply authorize_frame in Hau as (_ & Hn & _).
  rewrite Hid, Htok, <- Hn. by rewrite (proj1 (localProof_accepted _ _ _ _ _ _ _ _ _ _ _ _ (ps_Attestation resp) Hsoft Hl Hnow Hwin)).
Qed.
End BothSides.

Lemma effectiveTargetPort_pos i : effectiveTargetPort (Some i) <> 0.
Proof.
  unfold effectiveTargetPort. destruct (inv_TargetPort i =? 0) eqn:E; go_bool; [|done].
  unfold DefaultPort. repeat case_match; lia.
Qed.

(** The session the host opens for an accepted request. *)
Lemma accepted_session `{Crypto} `{Codec PairRequest} m he req remote transport peer m2 resp token :
  handle_request m he req remote transport = (m2, resp) -> ps_OK resp = true ->
  pairRequestNodeID req remote transport = Ok peer -> he_token he = Ok token ->
  he_now he <= he_sweep_now he <= he_now he + SessionTokenTTL ->
  ps_SessionToken resp = token /\
  svc_live (sessions m2) token =
    Some (he_now he + SessionTokenTTL, mkGrant peer (ps_TargetPort resp), SessionTokenMaxUses).
Proof.
  intros Hh Hok Hp Ht Hclock.
  destruct (handle_request_ok _ _ _ _ _ _ _ Hh Hok) as
    (peer' & m1 & protocol & port & tok & proof & _ & Hp' & _ & _ & Ht' & Hst & _ & -> & _ & _ & ->).
  rewrite Hp in Hp'. rewrite Ht in Ht'. injection Hp' as <-. injection Ht' as <-. split; [done|].
  cbn [sessions set_sessions].
  destruct (Issue (sessions m1) (Ok token) (he_now he) (he_sweep_now he) peer port) as [r s] eqn:Ei.
  refine (proj2 (svc_issue_ok _ token _ (he_sweep_now he) peer port r s Ei _)). lia.
Qed.

(** Finishing succeeds when the ticket is usable and the remote can be
    saved. *)
Lemma finish_connect_succeeds {St A} `{Multiaddr A} `{Crypto} `{Codec ticketID} m (e : connect_env St) p session resp :
  (ps_IrohTicket resp = "" \/ IsTicket (ps_IrohTicket resp) = true) -> ps_TargetPort resp <> 0 ->
  (ModeString (lp_token p) = "pairing" -> pc_save e = Ok tt /\ (12 <= String.length (lp_peer p))%nat) ->
  exists m' c, finish_connect (A := A) m e p session resp = (m', Return (Ok c)) /\
    cr_PeerID c = lp_peer p /\ cr_Mode c = ModeString (lp_token p) /\
    cr_SessionToken c = ps_SessionToken resp /\ cr_TargetPort c = ps_TargetPort resp.
Proof.
  intros Ht Hport Hsave. unfold finish_connect.
  assert (exists u, (if bool_decide (ps_IrohTicket resp <> "")
            then wrap_err "host refreshed iroh ticket rejected: "
                   (validateIrohTicket (ps_IrohTicket resp) (PubKey (lp_token p))) else Ok tt) = Ok u) as [u ->].
  { case_bool_decide as Hne; [|by eexists]. destruct Ht as [Ht|Ht]; [done|]. unfold IsTicket in Ht.
    unfold validateIrohTicket. destruct (TicketEndpointID _); [by eexists|done]. }
  rewrite (proj2 (Z.eqb_neq _ _) Hport). case_bool_decide as Hm.
  - destruct (Hsave Hm) as [-> Hlen]. apply first12_return in Hlen as [s ->]. by eexists _, _.
  - by eexists _, _.
Qed.

(** ** Properties *)

Section Connects.
Context {St A : Type} `{Multiaddr A} `{CryptoLaws} `{UrlCheckLaws}.
Context `{Codec PairRequest} `{Codec PairResponse} `{Codec ticketID}.

(** The client's identity proof for a plan. *)
Definition plan_proof (m : Manager) (e : connect_env St) (p : link_plan) : res IdentityProof :=
  client_proof m e (lp_peer p) (Rendezvous.InviteID (lp_token p)) (link_proof m e p) (ModeString (lp_token p)).

(** The network between the two: the backend opens a stream on which the
    host's handler answers, and the frames fit. *)
Record connected (m : Manager) (e : connect_env St) (p : link_plan) (session : PairingSession St)
    (hm : Manager) (he : host_env) (remote transport : string) : Prop := {
  net_open : OpenPairingSession (pc_backends e)
      (if bool_decide (lp_backend p = "") then BackendLibp2pRelay else lp_backend p) (link_target p)
    = Return (Ok session);
  net_write : pc_write e = None;
  net_race : pc_race e = FrameFirst;
  net_request : forall identity, plan_proof m e p = Ok identity ->
    is_ok (frame_bytes marshal MsgPairRequest (link_request m e p identity)) = true;
  net_answer : forall identity sent hm2 resp, plan_proof m e p = Ok identity ->
    frame_bytes marshal MsgPairRequest (link_request m e p identity) = Ok sent ->
    handleIncomingConn hm he sent remote transport = (hm2, Some resp) ->
    frame_bytes marshal MsgPairResponse resp = Ok (pc_answer e (s_Stream session) sent);
}.

(** Clocks within one 30-second window of the host's. *)
Definition clocks_agree (e : connect_env St) (he : host_env) : Prop :=
  Forall (fun t => TimeWindow (he_now he) - 1 <= TimeWindow t <= TimeWindow (he_now he) + 1)
    [pc_proof_now e; pc_identity_now e; pc_verify_now e] /\
  - 2 ^ 61 <= TimeWindow (he_now he) <= 2 ^ 61 /\
  he_now he <= he_sweep_now he <= he_now he + SessionTokenTTL.

(** The host's half: the request of a client whose link holds a valid proof
    is accepted, and opens a session for the client. *)
Lemma invited_client_accepted hm he remote transport m (e : connect_env St) p token l :
  (exists m1, verifyAndConsume hm (Rendezvous.InviteID (lp_token p)) (link_proof m e p) (nodeID m)
     (ModeString (lp_token p)) (he_now he) = (m1, Ok l)) ->
  lp_peer p = nodeID hm -> pairing_codecs -> clocks_agree e he ->
  (forall identity, plan_proof m e p = Ok identity ->
     is_ok (frame_bytes marshal MsgPairRequest (link_request m e p identity)) = true) ->
  signer_ready (pc_identity e) (PrivateKeyBytes (cfg m)) (nodeID m) ->
  signer_ready (he_identity he) (PrivateKeyBytes (cfg hm)) (nodeID hm) ->
  trim_space (nodeID m) = nodeID m /\ nodeID m <> "" /\ is_ok (peer_Decode (nodeID m)) = true ->
  he_token he = Ok token ->
  exists identity sent hm2 resp inv,
    plan_proof m e p = Ok identity /\
    frame_bytes marshal MsgPairRequest (link_request m e p identity) = Ok sent /\
    pairRequestNodeID (link_request m e p identity) remote transport = Ok (nodeID m) /\
    handleIncomingConn hm he sent remote transport = (hm2, Some resp) /\
    ps_OK resp = true /\ heap hm !! l = Some inv /\ ps_TargetPort resp = effectiveTargetPort (Some inv) /\
    ps_SessionToken resp = token /\
    (ps_IrohTicket resp = "" \/ he_ticket he = Ok (ps_IrohTicket resp)) /\
    svc_live (sessions hm2) token =
      Some (he_now he + SessionTokenTTL, mkGrant (nodeID m) (ps_TargetPort resp), SessionTokenMaxUses).
Proof.
  intros [m1 Hver] Hpeer Hcodec (Hwin & Hb & Hsweep) Hreq [Hcsoft Hcsign] Hhost Hid Htok.
  rewrite !Forall_cons in Hwin. destruct Hwin as (_ & Hw2 & _).
  destruct (Hcsign "request" (lp_peer p) (Rendezvous.InviteID (lp_token p)) (link_proof m e p) []
    (ModeString (lp_token p)) (TimeWindow (pc_identity_now e))) as [identity Hident].
  assert (Hpp : plan_proof m e p = Ok identity) by (unfold plan_proof, client_proof; by rewrite Hident).
  exists identity. set (req := link_request m e p identity).
  destruct (frame_bytes marshal MsgPairRequest req) as [sent|] eqn:Hsent.
  2:{ specialize (Hreq identity Hpp). fold req in Hreq. by rewrite Hsent in Hreq. }
  assert (Hpr : pairRequestNodeID req remote transport = Ok (nodeID m)).
  { unfold pairRequestNodeID. cbn [pr_NodeID req link_request]. destruct Hid as (-> & Hx & Hd).
    rewrite bool_decide_eq_false_2 by done. by destruct (peer_Decode (nodeID m)). }
  destruct (verify_inv _ _ _ _ _ _ _ _ Hver) as (inv & _ & Hinv & _ & _ & _ & _ & _ & _ & _ & _ & ->).
  pose proof (localProof_accepted _ _ _ _ _ _ _ _ _ _ _ (he_now he) (attestationForIdentity (pc_identity e))
    Hcsoft Hident ltac:(lia) Hw2) as [Hproof _]. rewrite Hpeer in Hproof.
  assert (Hmd : ModeString (lp_token p) <> "trusted") by (unfold ModeString; by destruct (_ =? 1)).
  pose proof (host_accepts_invite hm he req remote transport (nodeID m) token _ l (mark_used inv (he_now he))
    ltac:(done) Hmd Hpr Hproof Hver (lookup_insert_eq _ _ _) Htok Hhost) as Hacc.
  destruct (handle_request hm he req remote transport) as [hm2 resp] eqn:Eh. destruct Hacc as (Hok & Hport & Htk).
  destruct (accepted_session hm he req remote transport (nodeID m) hm2 resp token Eh Hok Hpr Htok Hsweep) as [Hst Hlive].
  exists sent, hm2, resp, inv. rewrite Hpp.
  rewrite (host_reads_request _ _ _ _ _ _ Hcodec Hsent). fold req. rewrite Eh.
  repeat (split; [done|]). split; [|done].
  rewrite Htk. case_bool_decide; [|by left]. destruct (he_ticket he); [by right|by left].
Qed.
End Connects.


(** ** A concrete link *)

Definition client_key : bytes := repeat x05 64.
Definition client_node : string := of_bytes (to_bytes "12D3KooW" ++ repeat x05 32).
Definition client_config : Config :=
  let d := defaultConfig (Ok "c") in
  mkConfig (Network d) (mkNode (hex_encode client_key) "laptop") (Relay d) (DHT d) (BTDHT d) (Iroh d) (RDP d) [] [].
Definition client : Manager := NewManager client_config client_node.

#[local] Instance ticket_codec : Codec ticketID := one_codec (mkTicketID "ep").
Definition iroh_gen : gen_env :=
  mkGenEnv [] 0 (Ok (repeat x01 16)) (Ok (repeat x02 32)) [x0a; x0b; x0c; x0d] 0 (Ok "iroh-sidecar-v1:Zg").
Definition host : Manager := NewManager sample_config host_node.
#[local] Notation minted := (generateURL host iroh_gen "onetime" hour "" "ssh" 22 None).
Definition minted_url : string := match snd minted with Return (Ok (u, _)) => u | _ => "" end.
Definition minted_view : InviteView :=
  match snd minted with Return (Ok (_, v)) => v | _ => mkView "" "" "" "" "" 0 0 "" "" 0 end.

Definition empty_frame (t : MsgType) : bytes := frame_header t [x7b; x7d] ++ [x7b; x7d].
Definition iroh_only : StreamBackend nat :=
  mkBackend BackendIroh (fun _ => Ok 7%nat) (fun _ => Err "") None None None None.
Definition redeem_env : host_env :=
  mkHostEnv second (2 * second) None (Ok (repeat x09 16)) (Err "no ticket").
Definition client_env : connect_env nat :=
  mkConnectEnv second second second (2 * second) 0 0 None {[ BackendIroh := iroh_only ]} None None
    (fun _ _ => empty_frame MsgPairResponse) FrameFirst false (Ok tt).

Definition minted_plan : link_plan :=
  match plan_link client second minted_url with
  | Ok p => p | Err _ => mkPlan sample_token "" "" "" [] end.
Definition minted_request : PairRequest :=
  match plan_proof client client_env minted_plan with
  | Ok i => link_request client client_env minted_plan i
  | Err _ => invite_request end.
Definition minted_response : PairResponse :=
  snd (handle_request (fst minted) redeem_env minted_request client_node "libp2p").

(** Codecs that know this request and this response. *)
#[local] Instance request_one : Codec PairRequest :=
  {| marshal r := if decide (r = minted_request) then Ok [x7b; x7d] else Err "unknown";
     unmarshal _ := Ok minted_request |}.
#[local] Instance response_one : Codec PairResponse :=
  {| marshal r := if decide (r = minted_response) then Ok [x7b; x7d] else Err "unknown";
     unmarshal _ := Ok minted_response |}.

Lemma one_pairing_codecs : pairing_codecs.
Proof.
  split; intros r data Hm; cbn in *;
    [destruct (decide (r = minted_request))|destruct (decide (r = minted_response))]; congruence.
Qed.

(** Without an identity of its own a machine signs with its node key. *)
Lemma toy_signer key (node : string) :
  localNodeKey (Ok key) = Ok (key, ed25519_public key, node) ->
  MachineID (Some (mkIdentity (Some key) None BackendSoftware None)) <> "" ->
  signer_ready None (Ok key) node.
Proof.
  intros Hk Hm. split; [done|]. intros role v iid pf tok mode w. unfold localProof.
  assert (Hi : localProofIdentity None (Ok key) = Some (mkIdentity (Some key) None BackendSoftware None)).
  { unfold localNodeKey in Hk. cbn [wrap_err mbind res_bind] in Hk. unfold localProofIdentity.
    destruct (UnmarshalEd25519PrivateKey key) as [k|] eqn:E; [|done]. cbn -[Nat.leb] in E.
    destruct (32 <=? length key)%nat; [|done]. by injection E as <-. }
  rewrite Hi, Hk. cbn [mbind res_bind]. rewrite bool_decide_eq_false_2 by (intros Hn; by apply Hn).
  rewrite (bool_decide_eq_false_2 (MachineID _ = "")) by done. by eexists.
Qed.


(** The same run, seen from the client. *)
#[local] Notation connect_run := (ConnectByURL (A := toy_maddr) client client_env minted_url).
Definition connect_result : ConnectResult :=
  match snd connect_run with Return (Ok c) => c | _ => mkConnect "" [] "" "" "" "" "" 0 [] end.


(** A paired host that answers a reauthentication. *)
Definition back_response : PairResponse :=
  mkPairResponse true "authenticated" "h" (repeat x09 16) "ssh" 22 "" None
    match localProof None (Ok (repeat x03 64)) "response" host_node client_node [] [] (repeat x09 16) "trusted" 0 with
    | Ok p => Some p | Err _ => None end.
#[local] Instance request_any : Codec PairRequest :=
  {| marshal _ := Ok [x7b; x7d]; unmarshal _ := Ok minted_request |}.
#[local] Instance response_back : Codec PairResponse :=
  {| marshal _ := Ok [x7b; x7d]; unmarshal _ := Ok back_response |}.
Definition back_remote : RemoteConfig :=
  mkRemote "h" host_node "" (identityProofMachineID (ps_Identity back_response)) "iroh" "ssh" 22 []
    "iroh-sidecar-v1:Zg" [] no_identity 0 0.
#[local] Notation back_run := (reauthRemoteWithBackend (A := toy_maddr) client client_env back_remote "").
Definition back_result : ConnectResult :=
  match snd back_run with Return (Ok c) => c | _ => mkConnect "" [] "" "" "" "" "" 0 [] end.

Lemma reauth_same_machine_witness :
  exists p rc, same_machine (rc_PublicKey back_remote) (rc_MachineID back_remote) p /\
    fst (fst back_run) = store_remote client client_env rc /\ rc_NodeID rc = host_node /\
    rc_TargetPort rc = cr_TargetPort back_result /\ cr_TargetPort back_result = 22.
Proof.
  assert (Hs : snd back_run = Return (Ok back_result)) by (vm_compute; reflexivity).
  assert (Hp : cr_TargetPort back_result = 22) by (vm_compute; reflexivity).
  assert (Hc : back_run = (fst (fst back_run), snd (fst back_run), Return (Ok back_result)))
    by (rewrite <- Hs; destruct back_run as [[? ?] ?]; reflexivity).
  destruct (reauth_same_machine (A := toy_maddr) client client_env back_remote "" _ _ _ Hc)
    as (p & att & rc & _ & _ & _ & Hsame & Hm & Hid & _ & _ & _ & Hport & _).
  exists p, rc. split; [exact Hsame|]. split; [exact Hm|]. split; [exact Hid|]. split; [exact Hport|exact Hp].
Defined.
