(* ===== verification/BackendRefs.v ===== *)
(** * BackendRefs: the contract between the dashboard and the service

    The dashboard keeps a network backend running by holding references to it
    ([SetBackendReferenceHooks] of [internal/webui/webui.go]); the service
    counts them ([setBackendRefLocked] of [internal/service/service.go]).  The
    dashboard's theorems are proved against the class, which [Service]
    implements. *)

From stdpp Require Import gmap.
From S2P Require Import Prelude GoStrings Config.

(** What a reference is filed under; [None] is not counted. *)
Definition ref_key (backend key : string) : option (string * string) :=
  let b := CanonicalNetworkBackend backend in
  if bool_decide (b = "") || bool_decide (b = "disabled") || bool_decide (key = "") then None else Some (b, key).

Definition ref_set (backend key : string) : gset (string * string) := from_option singleton ∅ (ref_key backend key).

Class NetworkBackends (R : Type) : Type := {
  nb_refs : R -> gset (string * string);                        (** the references held *)
  nb_retain : R -> string -> string -> R * option string;       (** backend, key *)
  nb_release : R -> string -> string -> R;
}.

(** A reference is held from its retain, even a failing one, to its release. *)
Class NetworkBackendsLaws (R : Type) `{NetworkBackends R} : Prop := {
  nb_refs_retain r b k : nb_refs (fst (nb_retain r b k)) = ref_set b k ∪ nb_refs r;
  nb_refs_release r b k : nb_refs (nb_release r b k) = nb_refs r ∖ ref_set b k;
}.

Lemma ref_set_spec b k x : x ∈ ref_set b k <-> ref_key b k = Some x.
Proof. unfold ref_set. destruct (ref_key b k); cbn; set_solver. Qed.

Lemma ref_key_inv b k b' k' : ref_key b k = Some (b', k') -> b' = b /\ k' = k.
Proof. unfold ref_key, CanonicalNetworkBackend. destruct (_ || _); [done|]. naive_solver. Qed.

(** The references on their own. *)
#[export] Instance plain_refs : NetworkBackends (gset (string * string)) := {
  nb_refs r := r;
  nb_retain r b k := (ref_set b k ∪ r, None);
  nb_release r b k := r ∖ ref_set b k;
}.
#[export] Instance plain_refs_laws : NetworkBackendsLaws (gset (string * string)).
Proof. by split. Qed.
