(* ===== verification/WebAccess.v ===== *)
(** * WebAccess: who reaches the dashboard

    [BaseURL] and [serveHTTP] of [internal/webui/webui.go]: single-use launch
    tokens and the session cookie.  The random bytes of a token and the answer
    of the source-process check ([allowDashboardSource], per platform) are
    parameters of an operation. *)

From stdpp Require Import gmap.
From S2P Require Import Prelude GoStrings.

Record gate : Type := mkGate { gt_session : string; gt_tokens : gset string }.

(** [New]: the session token from 16 random bytes, no launch token. *)
Definition newGate (rnd : bytes) : gate := mkGate (hex_encode rnd) ∅.

Definition BaseURL (g : gate) (rnd : bytes) : gate * string :=
  let tok := hex_encode rnd in
  (mkGate (gt_session g) ({[tok]} ∪ gt_tokens g), ("http://127.0.0.1:18080/?token=" ++ tok)%string).

Definition dashboardSessionTTL : Z := 30 * 24 * hour.

(** A request: its session cookie, the token of its query (empty if there is
    none) and whether its source process is allowed. *)
Record http_request : Type := mkRequest { hr_cookie : option string; hr_token : string; hr_source : bool }.

Inductive access : Type :=
  | Served                                          (** to the routes *)
  | Redeemed (cookie : string) (maxAge : Z)    (** cookie set, redirect *)
  | Forbidden.

Definition serveHTTP (g : gate) (rq : http_request) : gate * access :=
  if bool_decide (hr_cookie rq = Some (gt_session g)) then (g, Served)
  else if bool_decide (hr_token rq = "") then (g, Forbidden)
  else if negb (hr_source rq) then (g, Forbidden)
  else
    let g' := mkGate (gt_session g) (gt_tokens g ∖ {[hr_token rq]}) in
    if decide (hr_token rq ∈ gt_tokens g)
    then (g', Redeemed (gt_session g) (dashboardSessionTTL / second))
    else (g', Forbidden).

Inductive gate_op : Type :=
  | Mint (rnd : bytes)
  | Ask (rq : http_request).

(** A run with the answers to its requests. *)
Fixpoint gate_run (g : gate) (ops : list gate_op) : gate * list (http_request * access) :=
  match ops with
  | [] => (g, [])
  | Mint rnd :: r => gate_run (fst (BaseURL g rnd)) r
  | Ask rq :: r =>
    let '(g, a) := serveHTTP g rq in
    let '(g, l) := gate_run g r in
    (g, (rq, a) :: l)
  end.

(** ** Counting *)

Definition mints (tok : string) (ops : list gate_op) : nat :=
  length (List.filter (fun o => match o with Mint rnd => bool_decide (hex_encode rnd = tok) | Ask _ => false end) ops).
Definition redeems (tok : string) (l : list (http_request * access)) : nat :=
  length (List.filter (fun ra => match ra with
                                 | (rq, Redeemed _ _) => bool_decide (hr_token rq = tok)
                                 | _ => false
                                 end) l).
Definition pending (tok : string) (g : gate) : nat := if decide (tok ∈ gt_tokens g) then 1 else 0.

Lemma mints_mint tok rnd ops :
  mints tok (Mint rnd :: ops) = ((if bool_decide (hex_encode rnd = tok) then 1 else 0) + mints tok ops)%nat.
Proof. unfold mints. cbn [List.filter]. by destruct (bool_decide _). Qed.
Lemma mints_ask tok rq ops : mints tok (Ask rq :: ops) = mints tok ops.
Proof. done. Qed.

Lemma pending_step g rq tok :
  (redeems tok [(rq, snd (serveHTTP g rq))] + pending tok (fst (serveHTTP g rq)) <= pending tok g)%nat.
Proof.
  unfold serveHTTP, redeems, pending.
  case_bool_decide; [cbn; lia|]. case_bool_decide; [cbn; lia|]. destruct (negb _); [cbn; lia|].
  assert (Hd : tok <> hr_token rq ->
    (if decide (tok ∈ gt_tokens g ∖ {[hr_token rq]}) then 1 else 0)%nat = (if decide (tok ∈ gt_tokens g) then 1 else 0)%nat).
  { intros Hn. destruct (decide (tok ∈ gt_tokens g)) as [Hin|Hin].
    - by rewrite decide_True by (apply elem_of_difference; split; [done|by rewrite elem_of_singleton]).
    - by rewrite decide_False by (by intros [? _]%elem_of_difference). }
  assert (Hs : tok = hr_token rq -> (if decide (tok ∈ gt_tokens g ∖ {[hr_token rq]}) then 1 else 0)%nat = 0%nat).
  { intros ->. rewrite decide_False; [done|]. intros [_ Hn]%elem_of_difference. by apply Hn, elem_of_singleton. }
  destruct (decide (hr_token rq ∈ gt_tokens g)) as [Hin|Hin]; cbn [fst snd List.filter length gt_tokens].
  - case_bool_decide as He; cbn [length].
    + subst tok. rewrite Hs by done. by rewrite decide_True by done.
    + rewrite Hd by done. lia.
  - destruct (decide (tok = hr_token rq)) as [He|Hn]; [rewrite Hs by done; lia|rewrite Hd by done; lia].
Qed.

Lemma pending_mint g rnd tok :
  (pending tok (fst (BaseURL g rnd)) <= (if bool_decide (hex_encode rnd = tok) then 1 else 0) + pending tok g)%nat.
Proof.
  unfold pending, BaseURL. cbn [fst gt_tokens]. case_bool_decide as He; [by destruct (decide _); lia|].
  destruct (decide (tok ∈ gt_tokens g)); [by destruct (decide _); lia|].
  rewrite decide_False; [lia|]. rewrite elem_of_union, elem_of_singleton. naive_solver.
Qed.

Lemma gate_run_count tok ops : forall g,
  (redeems tok (snd (gate_run g ops)) + pending tok (fst (gate_run g ops)) <= mints tok ops + pending tok g)%nat.
Proof.
  induction ops as [|[rnd|rq] ops IH]; intros g; cbn [gate_run]; [done|..].
  - pose proof (pending_mint g rnd tok). specialize (IH (fst (BaseURL g rnd))).
    rewrite mints_mint. lia.
  - pose proof (pending_step g rq tok). destruct (serveHTTP g rq) as [g1 a]. cbn [fst snd] in *. specialize (IH g1).
    destruct (gate_run g1 ops) as [g2 l]. cbn [fst snd] in *.
    change ((rq, a) :: l) with ([(rq, a)] ++ l). unfold redeems in *. rewrite List.filter_app, length_app.
    rewrite mints_ask. lia.
Qed.

Lemma gate_run_session ops : forall g, gt_session (fst (gate_run g ops)) = gt_session g.
Proof.
  induction ops as [|[rnd|rq] ops IH]; intros g; cbn [gate_run]; [done|by rewrite IH|].
  assert (Hs : gt_session (fst (serveHTTP g rq)) = gt_session g).
  { unfold serveHTTP. case_bool_decide; [done|]. case_bool_decide; [done|]. destruct (negb _); [done|]. by destruct (decide _). }
  destruct (serveHTTP g rq) as [g1 a]. specialize (IH g1). destruct (gate_run g1 ops). cbn in *. congruence.
Qed.

(** An answered request got what its cookie and token allow. *)
Lemma gate_run_answers ops : forall g rq a,
  (rq, a) ∈ snd (gate_run g ops) ->
  (a = Served <-> hr_cookie rq = Some (gt_session g)) /\
  (forall c age, a = Redeemed c age -> c = gt_session g /\ hr_token rq <> ""%string /\ hr_source rq = true).
Proof.
  induction ops as [|[rnd|rq0] ops IH]; intros g rq a; cbn [gate_run].
  - by intros ?%not_elem_of_nil.
  - intros Hin. by apply IH in Hin.
  - assert (Ha : (snd (serveHTTP g rq0) = Served <-> hr_cookie rq0 = Some (gt_session g)) /\
      (forall c age, snd (serveHTTP g rq0) = Redeemed c age ->
         c = gt_session g /\ hr_token rq0 <> ""%string /\ hr_source rq0 = true)).
    { unfold serveHTTP. case_bool_decide; [by split|]. case_bool_decide; [by split|].
      destruct (hr_source rq0); cbn [negb]; [|by split]. destruct (decide _); cbn [snd]; split; naive_solver. }
    pose proof (gate_run_session [Ask rq0] g) as Hs. cbn [gate_run] in Hs.
    destruct (serveHTTP g rq0) as [g1 a0]. cbn [fst snd] in *. specialize (IH g1).
    destruct (gate_run g1 ops) as [g2 l]. cbn [snd] in *. intros [[= -> ->]|Hin]%elem_of_cons; [done|].
    apply IH in Hin. by rewrite Hs in Hin.
Qed.

(** ** Properties *)

(** C17: launch tokens are single-use.  In every run from the start, no launch
    token is redeemed more often than it was minted; a request is served
    exactly when its cookie is the session token, which only the redemption of
    a launch token by an allowed process hands out. *)
Theorem launch_token_single_use rnd ops tok :
  let run := snd (gate_run (newGate rnd) ops) in
  (redeems tok run <= mints tok ops)%nat /\
  (forall rq a, (rq, a) ∈ run ->
     (a = Served <-> hr_cookie rq = Some (hex_encode rnd)) /\
     (forall c age, a = Redeemed c age ->
        c = hex_encode rnd /\ hr_token rq <> ""%string /\ hr_source rq = true /\ (0 < mints (hr_token rq) ops)%nat)).
Proof.
  intros run. pose proof (gate_run_count tok ops (newGate rnd)) as Hc.
  assert (Hp : forall t, pending t (newGate rnd) = 0%nat)
    by (intros t; unfold pending; by rewrite decide_False by (by intros ?%elem_of_empty)).
  rewrite Hp in Hc. split; [unfold run; lia|]. intros rq a Hin.
  destruct (gate_run_answers ops _ _ _ Hin) as [Hs Hr]. split; [exact Hs|]. intros c age ->.
  destruct (Hr c age eq_refl) as (-> & Hne & Hsrc). split; [done|]. split; [done|]. split; [done|].
  pose proof (gate_run_count (hr_token rq) ops (newGate rnd)) as Hc'. rewrite Hp in Hc'.
  assert (0 < redeems (hr_token rq) run)%nat as Hpos; [|unfold run in Hpos; lia].
  unfold redeems. apply list_elem_of_split in Hin as (l1 & l2 & Hl). change (snd (gate_run (newGate rnd) ops)) with run in Hl.
  rewrite Hl, List.filter_app. cbn [List.filter]. rewrite bool_decide_eq_true_2 by done. rewrite length_app. cbn. lia.
Qed.

(** A token that is redeemed again is refused, and one whose source is refused
    stays valid. *)
Lemma token_replayed :
  let tok := hex_encode [x01] in
  let ask src := Ask (mkRequest None tok src) in
  map snd (snd (gate_run (newGate [x00]) [Mint [x01]; ask false; ask true; ask true])) =
    [Forbidden; Redeemed (hex_encode [x00]) 2592000; Forbidden].
Proof. vm_compute. reflexivity. Qed.
