(* ===== verification/Processes.v ===== *)
(** * Processes: which local processes the Windows daemon talks to

    [allowDashboardSource] of [internal/webui/dashboard_source_windows.go],
    [authorizeClient] of [internal/ipc/auth_windows.go] and
    [requireInviteGeneratePrivilege] of [cmd/deskaccess].  The tables and paths
    that the system calls return are arguments; process ids are numbers. *)

From stdpp Require Import gmap relations.
From S2P Require Import Prelude GoStrings GoNet WebAccess.

(** ** The owner of a TCP connection *)

(** [mibTCPRowOwnerPID]; ports are in network order in the low half. *)
Record mibTCPRowOwnerPID : Type := mkRow {
  State : Z;
  LocalAddr : Z;
  LocalPort : Z;
  RemoteAddr : Z;
  RemotePort : Z;
  OwningPID : Z;
}.

(** The two calls of [GetExtendedTcpTable]: the size and the result of the
    first, the error and the rows of the second. *)
Record tcp_table : Type := mkTable {
  tt_size : Z;
  tt_ret : Z;
  tt_error : option string;
  tt_rows : list mibTCPRowOwnerPID;
}.

Definition tcpPort (raw : Z) : Z :=
  Z.lor (Z.shiftl (Z.land raw 255) 8) (Z.land (Z.shiftr raw 8) 255).

Definition owner_row (remotePort : Z) (row : mibTCPRowOwnerPID) : bool :=
  (tcpPort (LocalPort row) =? 18080) && (tcpPort (RemotePort row) =? remotePort).

Definition tcpOwnerPID (t : tcp_table) (remotePort : Z) : res Z :=
  if tt_size t =? 0 then Err ("GetExtendedTcpTable size failed: " ++ itoa (tt_ret t))%string
  else match tt_error t with
       | Some err => Err ("GetExtendedTcpTable failed: " ++ err)%string
       | None => match find (owner_row remotePort) (tt_rows t) with
                 | Some row => Ok (OwningPID row)
                 | None => Err ("no TCP owner for remote port " ++ itoa remotePort)%string
                 end
       end.

(** ** The process tree *)

(** What the system says of its processes: their image paths, the snapshot of
    process and parent ids ([None] when it fails), the path of the running
    program, and [filepath.Clean]. *)
Record processes : Type := mkProcesses {
  ps_path : Z -> res string;
  ps_snapshot : option (list (Z * Z));
  ps_self : string;
  ps_clean : string -> string;
}.

Definition processParentMap (e : processes) : gmap Z Z :=
  match ps_snapshot e with
  | None => ∅
  | Some l => fold_left (fun m pe => <[fst pe := snd pe]> m) l ∅
  end.

Definition current_executable (e : processes) : string := to_lower (ps_clean e (ps_self e)).

Definition processPathMatchesDeskAccess (e : processes) (pid : Z) : bool :=
  match ps_path e pid with
  | Err _ => false
  | Ok path => if bool_decide (path = "") then false
               else negb (bool_decide (current_executable e = "")) &&
                    bool_decide (to_lower (ps_clean e path) = current_executable e)
  end.

(** The loop of [pidBelongsToDeskAccess]; [None] when the fuel is used up. *)
Fixpoint walk (matches_ : Z -> bool) (parents : gmap Z Z) (fuel : nat) (seen : gset Z) (pid : Z) : option bool :=
  match fuel with
  | O => None
  | S fuel =>
    if decide (pid ∈ seen) then Some false
    else match parents !! pid with
         | None => Some false
         | Some parent =>
           if bool_decide (parent = 0) || bool_decide (parent = pid) then Some false
           else if matches_ parent then Some true
           else walk matches_ parents fuel ({[pid]} ∪ seen) parent
         end
  end.

(** Each round adds a process of the map to those seen. *)
Definition pidBelongsToDeskAccess (e : processes) (pid : Z) : option bool :=
  if processPathMatchesDeskAccess e pid then Some true
  else let parents := processParentMap e in
       walk (processPathMatchesDeskAccess e) parents (S (size parents)) ∅ pid.

(** ** The checks *)

(** [net.LookupPort("tcp", port)]; [services] resolves names. *)
Definition LookupPort (services : string -> option Z) (port : string) : res Z :=
  match (if bool_decide (port = "") then Some 0 else match atoi port with Some p => Some p | None => services port end) with
  | None => Err ("lookup tcp/" ++ port ++ ": unknown port")%string
  | Some p => if (0 <=? p) && (p <=? 65535) then Ok p else Err ("address " ++ port ++ ": invalid port")%string
  end.

Definition allowDashboardSource (e : processes) (services : string -> option Z) (t : tcp_table) (remoteAddr : string) : option bool :=
  match SplitHostPort remoteAddr with
  | Err _ => Some false
  | Ok (host, port) =>
    match ParseIP host with
    | None => Some false
    | Some ip =>
      if negb (IsLoopback ip) then Some false
      else match LookupPort services port with
           | Err _ => Some false
           | Ok remotePort =>
             match tcpOwnerPID t remotePort with
             | Err _ => Some false
             | Ok pid => pidBelongsToDeskAccess e pid
             end
           end
    end
  end.

(** [pipeClientPID]: the handle of the pipe, if the connection has one, and
    what the call returns for it. *)
Definition pipeClientPID (fd : bool) (call : res Z) : res Z :=
  if negb fd then Err "named pipe connection does not expose a handle"
  else match call with
       | Err err => Err ("GetNamedPipeClientProcessId: " ++ err)%string
       | Ok pid => if pid =? 0 then Err "GetNamedPipeClientProcessId returned pid 0" else Ok pid
       end.

(** [authorizeClient] of the named pipe. *)
Definition authorizeClient (e : processes) (fd : bool) (call : res Z) : res unit :=
  pid ← pipeClientPID fd call;
  match ps_path e pid with
  | Err err => Err ("inspect client process " ++ itoa pid ++ ": " ++ err)%string
  | Ok path =>
    if bool_decide (to_lower (ps_clean e path) <> current_executable e)
    then Err ("untrusted process pid=" ++ itoa pid ++ " path=" ++ path)%string
    else Ok tt
  end.

(** The result of [IsUserAnAdmin] and the error of the call. *)
Definition requireInviteGeneratePrivilege (ret : Z) (err : option string) : res unit :=
  if ret =? 0 then
    Err ("invite generation from --generate requires an elevated administrator process" ++
         match err with Some err => ": " ++ err | None => "" end)%string
  else Ok tt.

(** ** Ports *)

Lemma lor_add_byte hi lo : 0 <= lo < 256 -> Z.lor (Z.shiftl hi 8) lo = hi * 256 + lo.
Proof.
  intros Hl. assert (Hd : Z.land (Z.shiftl hi 8) lo = 0).
  { apply Z.bits_inj'. intros n Hn. rewrite Z.land_spec, Z.bits_0. destruct (decide (n < 8)).
    - by rewrite Z.shiftl_spec_low.
    - rewrite <- (Z.mod_small lo (2 ^ 8)) by (change (2 ^ 8) with 256; lia).
      rewrite Z.mod_pow2_bits_high by lia. apply andb_false_r. }
  rewrite <- Z.lxor_lor, <- Z.add_nocarry_lxor by done. by rewrite Z.shiftl_mul_pow2.
Qed.

(** [tcpPort] reads a port in network order, whatever the upper half holds. *)
Lemma tcpPort_network hi lo rest : 0 <= hi < 256 -> 0 <= lo < 256 -> tcpPort (rest * 65536 + lo * 256 + hi) = hi * 256 + lo.
Proof.
  intros Hh Hl. unfold tcpPort. change 255 with (Z.ones 8). rewrite !Z.land_ones, Z.shiftr_div_pow2 by lia.
  change (2 ^ 8) with 256.
  replace ((rest * 65536 + lo * 256 + hi) mod 256) with hi by (Z.div_mod_to_equations; lia).
  replace ((rest * 65536 + lo * 256 + hi) / 256 mod 256) with lo by (Z.div_mod_to_equations; lia).
  by apply lor_add_byte.
Qed.

(** ** The tree *)

Definition parent_of (parents : gmap Z Z) (p q : Z) : Prop := parents !! p = Some q /\ q <> 0 /\ q <> p.

Lemma tc_first {A} (R : relation A) x z : tc R x z -> exists y, R x y /\ (y = z \/ tc R y z).
Proof. destruct 1; eauto. Qed.

Section Walk.
Context (matches_ : Z -> bool) (parents : gmap Z Z).

(** A process above [pid] whose path matches. *)
Definition trusted_above (pid : Z) : Prop := exists q, tc (parent_of parents) pid q /\ matches_ q = true.

(** The processes seen are on the way to [pid], and none above them matched. *)
Definition visited (seen : gset Z) (pid : Z) : Prop :=
  forall s q, s ∈ seen -> parent_of parents s q -> matches_ q = false /\ (q = pid \/ q ∈ seen).

Lemma seen_again seen pid : visited seen pid -> pid ∈ seen -> ~ trusted_above pid.
Proof.
  intros Hv Hp (q & Ht & Hm). induction Ht as [p q Hs|p p' q Hs Ht IH].
  - destruct (Hv _ _ Hp Hs). congruence.
  - destruct (Hv _ _ Hp Hs) as [_ Hs']. apply IH; [|by destruct Hs' as [->|]|done].
    intros s' q' Hin Hq. destruct (Hv _ _ Hin Hq) as [? [->|]]; auto.
Qed.

Lemma trusted_above_parent pid parent :
  parent_of parents pid parent -> matches_ parent = false -> trusted_above pid <-> trusted_above parent.
Proof.
  intros Hs Hm. split; intros (q & Ht & Hq).
  - apply tc_first in Ht as (p' & [Hp' _] & Ht). destruct Hs as [Hp _]. rewrite Hp in Hp'. injection Hp' as <-.
    destruct Ht as [->|Ht]; [congruence|]. exists q. by split.
  - exists q. split; [by eapply tc_l|done].
Qed.

Lemma walk_spec fuel : forall seen pid,
  (size (dom parents ∖ seen) < fuel)%nat -> visited seen pid ->
  exists b, walk matches_ parents fuel seen pid = Some b /\ (b = true <-> trusted_above pid).
Proof.
  induction fuel as [|fuel IH]; intros seen pid Hf Hv; [lia|]. cbn [walk].
  destruct (decide (pid ∈ seen)) as [Hp|Hp]; [exists false; split; [done|]; split; [done|by intros Ht; destruct (seen_again _ _ Hv Hp)]|].
  destruct (parents !! pid) as [parent|] eqn:Ep.
  2:{ exists false. split; [done|]. split; [done|]. intros (q & Ht & _).
      apply tc_first in Ht as (p' & [Hs _] & _). congruence. }
  destruct (bool_decide (parent = 0) || bool_decide (parent = pid)) eqn:Eb.
  { exists false. split; [done|]. split; [done|]. intros (q & Ht & _).
    apply tc_first in Ht as (p' & (Hs & Hz & Hne) & _). rewrite Ep in Hs. injection Hs as ->.
    by apply orb_true_iff in Eb as [?%bool_decide_eq_true|?%bool_decide_eq_true]. }
  apply orb_false_iff in Eb as [Hz%bool_decide_eq_false Hne%bool_decide_eq_false].
  assert (Hs : parent_of parents pid parent) by done.
  destruct (matches_ parent) eqn:Em; [exists true; split; [done|]; split; [|done]; exists parent; split; [by apply tc_once|done]|].
  destruct (IH ({[pid]} ∪ seen) parent) as (b & Hw & Hb).
  - assert (Hd : pid ∈ dom parents) by (by apply elem_of_dom_2 in Ep).
    assert (size (dom parents ∖ ({[pid]} ∪ seen)) < size (dom parents ∖ seen))%nat; [|lia].
    apply subset_size. set_solver.
  - intros s q [->%elem_of_singleton|Hin]%elem_of_union Hq.
    + destruct Hs as [Hp1 _], Hq as [Hp2 _]. simplify_eq. auto.
    + destruct (Hv s q Hin Hq) as [? Hq']. split; [done|]. right. destruct Hq' as [->|]; set_solver.
  - exists b. split; [done|]. rewrite Hb. symmetry. by apply trusted_above_parent.
Qed.
End Walk.

(** The owner of a remote port is looked up among the rows of the server. *)
Lemma find_filter (p : Z) rows : find (owner_row p) rows = head (List.filter (owner_row p) rows).
Proof. induction rows as [|r rows IH]; [done|]. cbn. by destruct (owner_row p r). Qed.

(** ** Properties *)

(** C19: the process tree check ends, and decides ancestry.  Whatever snapshot
    the system returns, cycles included, the loop ends within as many rounds as
    the snapshot has processes, and it accepts exactly a process whose own
    image is this program's or that has such a process above it, following
    parents that are not zero. *)
Theorem process_tree_check e pid :
  exists b, pidBelongsToDeskAccess e pid = Some b /\
    (b = true <-> exists q, rtc (parent_of (processParentMap e)) pid q /\ processPathMatchesDeskAccess e q = true).
Proof.
  unfold pidBelongsToDeskAccess. destruct (processPathMatchesDeskAccess e pid) eqn:Em.
  { exists true. split; [done|]. split; [|done]. intros _. exists pid. split; [apply rtc_refl|done]. }
  destruct (walk_spec (processPathMatchesDeskAccess e) (processParentMap e) (S (size (processParentMap e))) ∅ pid) as (b & Hw & Hb).
  - rewrite difference_empty_L, size_dom. lia.
  - by intros s q ?%elem_of_empty.
  - exists b. split; [done|]. rewrite Hb. split; intros (q & Ht & Hq); exists q; (split; [|done]).
    + by apply tc_rtc.
    + apply rtc_tc in Ht as [<-|Ht]; [congruence|done].
Qed.


(** The service is process 40; process 666 is no part of it. *)
Definition sample_processes : processes :=
  mkProcesses (fun pid => Ok (if pid =? 40 then "C:\DeskAccess.exe"%string else "C:\other.exe"%string)) (Some [(666, 4); (40, 4)])
    "C:\DeskAccess.exe" (fun s => s).
Definition sample_rows : list mibTCPRowOwnerPID := [mkRow 5 0 2254 0 41030 666; mkRow 5 0 41030 0 2254 40].

