(* ===== verification/WebSessions.v ===== *)
(** * WebSessions: the connections of the dashboard of [internal/webui/webui.go]

    The attempts, the statuses and the active sessions, each a table under one
    lock, by connect key; a session may be filed under several keys.  Sessions
    are numbered in the place of their pointers, proxies are those of
    [LocalProxy], of which only whether one was closed and the sessions its
    close callback belongs to matter here.  The references to network backends
    are those of [BackendRefs].  Log lines are left out. *)

From stdpp Require Import gmap.
From S2P Require Import Prelude GoStrings Config BackendRefs.

Definition connectStaleAfter : Z := 90 * second.

Record connectStatus : Type := mkStatus {
  st_Key : string;
  st_Stage : string;
  st_Message : string;
  st_Protocol : string;
  st_Peer : string;
  st_LocalAddr : string;
  st_Error : string;
  st_StartedAt : Z;
  st_UpdatedAt : Z;
  st_Done : bool;
  st_Active : bool;
  st_AppConnected : bool;
  st_ActiveAppStreams : Z;
  st_ActiveAppClients : Z;
}.
Definition zero_status : connectStatus :=
  mkStatus "" "" "" "" "" "" "" zero_time zero_time false false false 0 0.

(** Cancel functions are numbered. *)
Record connectAttempt : Type := mkAttempt { at_StartedAt : Z; at_Cancel : option nat }.

Record connectSession : Type := mkSession {
  cs_id : nat;
  cs_Key : string;
  cs_Keys : list string;
  cs_Peer : string;
  cs_Protocol : string;
  cs_Mode : string;
  cs_TargetPort : Z;
  cs_Backend : string;
  cs_LocalAddr : string;
  cs_StartedAt : Z;
  cs_Proxy : nat;
}.
#[export] Instance connectSession_eq_dec : EqDecision connectSession.
Proof. solve_decision. Defined.

(** The streams and the clients of a proxy. *)
Definition activity : Type := nat -> Z * Z.

(** ** Keys *)

Definition shortID (v : string) : string := if (String.length v <=? 12)%nat then v else String.substring 0 12 v.

Definition uniqueConnectKeys (keys : list string) : list string := unique_trimmed keys.

Definition pairedConnectKey (nodeID protocol : string) (targetPort : Z) : string :=
  let nodeID := trim_space nodeID in
  if bool_decide (nodeID = "") then "" else ("peer:" ++ RemoteServiceKeyParts nodeID protocol targetPort)%string.

(** [invitePeer] is [pairing.InvitePeerID]. *)
Definition connectRequestKey (invitePeer : string -> string) (remoteKey nodeID rawURL : string) : string :=
  let remoteKey := trim_space remoteKey in
  let nodeID := trim_space nodeID in
  let rawURL := trim_space rawURL in
  if bool_decide (remoteKey <> "") then ("peer:" ++ remoteKey)%string
  else if bool_decide (nodeID <> "") then ("peer:" ++ nodeID)%string
  else if bool_decide (rawURL = "") then ""
  else if bool_decide (invitePeer rawURL <> "") then ("peer:" ++ invitePeer rawURL)%string
  else ("url:" ++ shortID rawURL)%string.

Definition sessionKeys (session : option connectSession) (fallback : string) : list string :=
  match session with
  | Some s => if bool_decide (cs_Keys s = []) then uniqueConnectKeys [fallback] else cs_Keys s
  | None => uniqueConnectKeys [fallback]
  end.

(** ** The tables *)

Section Web.
Context {R : Type} `{NetworkBackends R}.

Record Web : Type := mkWeb {
  w_connects : gmap string connectAttempt;
  w_status : gmap string connectStatus;
  w_sessions : gmap string connectSession;
  w_next : nat;                          (** the next session's number *)
  w_hooks : nat -> list string;          (** the keys of a proxy's close callbacks *)
  w_closed : gset nat;                   (** the proxies closed so far *)
  w_cancelled : list nat;                (** the cancel functions called so far *)
  w_net : R;
}.

Definition set_connects (w : Web) c : Web :=
  mkWeb c (w_status w) (w_sessions w) (w_next w) (w_hooks w) (w_closed w) (w_cancelled w) (w_net w).
Definition set_status (w : Web) s : Web :=
  mkWeb (w_connects w) s (w_sessions w) (w_next w) (w_hooks w) (w_closed w) (w_cancelled w) (w_net w).
Definition set_sessions (w : Web) s : Web :=
  mkWeb (w_connects w) (w_status w) s (w_next w) (w_hooks w) (w_closed w) (w_cancelled w) (w_net w).
Definition set_proxies (w : Web) hooks closed : Web :=
  mkWeb (w_connects w) (w_status w) (w_sessions w) (w_next w) hooks closed (w_cancelled w) (w_net w).
Definition set_net (w : Web) r : Web :=
  mkWeb (w_connects w) (w_status w) (w_sessions w) (w_next w) (w_hooks w) (w_closed w) (w_cancelled w) r.
Definition call_cancel (w : Web) (fn : option nat) : Web :=
  mkWeb (w_connects w) (w_status w) (w_sessions w) (w_next w) (w_hooks w) (w_closed w)
    (w_cancelled w ++ match fn with Some f => [f] | None => [] end) (w_net w).

Definition newWeb (r : R) : Web := mkWeb ∅ ∅ ∅ 0 (fun _ => []) ∅ [] r.

Definition status_of (w : Web) (key : string) : connectStatus := default zero_status (w_status w !! key).

(** ** Sessions *)

Definition connectedSession (w : Web) (key : string) : option connectSession := w_sessions w !! key.

Definition releaseSessionBackend (w : Web) (s : connectSession) : Web :=
  let backend := trim_space (cs_Backend s) in
  if bool_decide (backend = "") then w
  else set_net w (nb_release (w_net w) backend ("connect:" ++ cs_Key s)).

(** The status of a key whose session ended; with no session, the peer,
    protocol and address stay. *)
Definition ended_status (st : connectStatus) (key : string) (s : option connectSession) (message : string) (now : Z)
  : connectStatus :=
  mkStatus (if bool_decide (st_Key st = "") then key else st_Key st) "disconnected" message
    (match s with Some s => cs_Protocol s | None => st_Protocol st end)
    (match s with Some s => cs_Peer s | None => st_Peer st end)
    (match s with Some s => cs_LocalAddr s | None => st_LocalAddr st end)
    "" (st_StartedAt st) now true false false 0 0.

(** The keys of an ended session are taken from the tables. *)
Definition end_keys (w : Web) (keys : list string) (s : option connectSession) (message : string) (now : Z) : Web :=
  let w := match s with
           | Some _ => set_sessions w (foldr delete (w_sessions w) keys)
           | None => w
           end in
  set_status w (foldl (fun m k => <[k := ended_status (default zero_status (m !! k)) k s message now]> m)
                  (w_status w) keys).

Definition markSessionClosed (w : Web) (key : string) (proxy : nat) (message : string) (now : Z) : Web :=
  match w_sessions w !! key with
  | None => w
  | Some s =>
    if negb (cs_Proxy s =? proxy)%nat then w
    else
      let message := if bool_decide (trim_space message = "") then "Disconnected"%string else message in
      releaseSessionBackend (end_keys w (sessionKeys (Some s) key) (Some s) message now) s
  end.

(** [Proxy.Close]: the first call runs the close callbacks. *)
Definition closeProxy (w : Web) (proxy : nat) (now : Z) : Web :=
  if decide (proxy ∈ w_closed w) then w
  else foldl (fun w key => markSessionClosed w key proxy "Tunnel disconnected" now)
         (set_proxies w (w_hooks w) ({[proxy]} ∪ w_closed w)) (w_hooks w proxy).

(** [SetOnClose] with the callback of a session: at once, on a closed proxy. *)
Definition setOnClose (w : Web) (key : string) (proxy : nat) (now : Z) : Web :=
  let w := set_proxies w (fun p => if (p =? proxy)%nat then w_hooks w p ++ [key] else w_hooks w p) (w_closed w) in
  if decide (proxy ∈ w_closed w) then markSessionClosed w key proxy "Tunnel disconnected" now else w.

Definition active_status (st : connectStatus) (key peer proto localAddr : string) (now : Z) : connectStatus :=
  mkStatus key (st_Stage st) (st_Message st) proto peer localAddr (st_Error st) (st_StartedAt st) now
    (st_Done st) true false 0 0.

(** The sessions a registration replaces, each once. *)
Definition replaced (w : Web) (keys : list string) (proxy : nat) : list connectSession :=
  remove_dups (List.filter (fun s => negb (cs_Proxy s =? proxy)%nat) (omap (fun k => w_sessions w !! k) keys)).

(** [registerConnectSession] for a proxy with its local address. *)
Definition registerConnectSession (w : Web) (key peer proto mode : string) (targetPort : Z) (backend : string)
    (proxy : nat) (localAddr : string) (aliases : list string) (now : Z) : Web :=
  let keys := uniqueConnectKeys (key :: aliases) in
  let s := mkSession (w_next w) key keys peer proto mode targetPort backend localAddr now proxy in
  let old := replaced w keys proxy in
  let w1 := mkWeb (w_connects w)
              (foldl (fun m k => <[k := active_status (default zero_status (m !! k)) k peer proto localAddr now]> m)
                 (w_status w) keys)
              (foldl (fun m k => <[k := s]> m) (w_sessions w) keys)
              (S (w_next w)) (w_hooks w) (w_closed w) (w_cancelled w) (w_net w) in
  let w2 := foldl (fun w o => closeProxy (releaseSessionBackend w o) (cs_Proxy o) now) w1 old in
  setOnClose w2 key proxy now.

Definition disconnectSession (w : Web) (key : string) (now : Z) : Web * option connectSession :=
  let s := w_sessions w !! key in
  let w := end_keys w (sessionKeys s key) s "Disconnected" now in
  (match s with
   | Some s => releaseSessionBackend (closeProxy w (cs_Proxy s) now) s
   | None => w
   end, s).

Definition drop_attempt (w : Web) (key : string) : Web :=
  let w := call_cancel w (a ← w_connects w !! key; at_Cancel a) in
  set_status (set_connects w (delete key (w_connects w))) (delete key (w_status w)).

Definition removeRemoteConnectState (w : Web) (remoteKey : string) (now : Z) : Web :=
  let remoteKey := trim_space remoteKey in
  if bool_decide (remoteKey = "") then w
  else
    let connectKey := ("peer:" ++ remoteKey)%string in
    let '(w, s) := disconnectSession w connectKey now in
    foldl drop_attempt w (match s with Some _ => sessionKeys s connectKey | None => [connectKey] end).

(** ** Attempts *)

Definition beginConnect (w : Web) (key : string) (now : Z) : Web * bool :=
  match w_connects w !! key with
  | None => (set_connects w (<[key := mkAttempt now None]> (w_connects w)), true)
  | Some a =>
    if connectStaleAfter <? now - at_StartedAt a then
      let w := call_cancel w (at_Cancel a) in
      let st := status_of w key in
      let w := if st_Done st then w
               else set_status w (<[key := mkStatus key "failed" "Previous connection attempt timed out"
                      (st_Protocol st) (st_Peer st) (st_LocalAddr st) "connect attempt exceeded 1m30s"
                      (st_StartedAt st) now true (st_Active st) (st_AppConnected st) (st_ActiveAppStreams st)
                      (st_ActiveAppClients st)]> (w_status w)) in
      (set_connects w (<[key := mkAttempt now None]> (w_connects w)), true)
    else (w, false)
  end.

Definition setConnectCancel (w : Web) (key : string) (cancel : nat) : Web :=
  match w_connects w !! key with
  | Some a => set_connects w (<[key := mkAttempt (at_StartedAt a) (Some cancel)]> (w_connects w))
  | None => w
  end.

Definition endConnect (w : Web) (key : string) : Web := set_connects w (delete key (w_connects w)).

Definition with_key (st : connectStatus) (key : string) : connectStatus :=
  if bool_decide (st_Key st = "") then
    mkStatus key (st_Stage st) (st_Message st) (st_Protocol st) (st_Peer st) (st_LocalAddr st) (st_Error st)
      (st_StartedAt st) (st_UpdatedAt st) (st_Done st) (st_Active st) (st_AppConnected st)
      (st_ActiveAppStreams st) (st_ActiveAppClients st)
  else st.

Definition cancelConnect (w : Web) (key : string) (now : Z) : Web * connectStatus * bool :=
  match w_connects w !! key with
  | None => (w, with_key (status_of w key) key, false)
  | Some a =>
    let st0 := with_key (status_of w key) key in
    let st := mkStatus (st_Key st0) "canceled" "Connection canceled" (st_Protocol st0) (st_Peer st0)
                (st_LocalAddr st0) "" (st_StartedAt st0) now true false (st_AppConnected st0)
                (st_ActiveAppStreams st0) (st_ActiveAppClients st0) in
    let s := w_sessions w !! key in
    let w := mkWeb (delete key (w_connects w)) (<[key := st]> (w_status w)) (delete key (w_sessions w))
               (w_next w) (w_hooks w) (w_closed w) (w_cancelled w) (w_net w) in
    let w := call_cancel w (at_Cancel a) in
    (match s with Some s => closeProxy w (cs_Proxy s) now | None => w end, st, true)
  end.

(** ** Statuses *)

Definition connectingState (w : Web) (key : string) : bool * string * string :=
  match w_connects w !! key with
  | None => (false, ""%string, ""%string)
  | Some _ => (true, st_Stage (status_of w key), st_Message (status_of w key))
  end.

Definition activeConnectStatus (w : Web) (key : string) (now : Z) : connectStatus * Z :=
  (with_key (status_of w key) key,
   match w_connects w !! key with Some a => now - at_StartedAt a | None => 0 end).

Definition statusSnapshot (w : Web) (act : activity) (key : string) (now : Z) : connectStatus :=
  let st := with_key (status_of w key) key in
  let upd t := if is_zero_time t then now else t in
  match w_sessions w !! key with
  | None => mkStatus (st_Key st) (st_Stage st) (st_Message st) (st_Protocol st) (st_Peer st) (st_LocalAddr st)
              (st_Error st) (st_StartedAt st) (upd (st_UpdatedAt st)) (st_Done st) (st_Active st)
              (st_AppConnected st) (st_ActiveAppStreams st) (st_ActiveAppClients st)
  | Some s =>
    let '(streams, clients) := act (cs_Proxy s) in
    mkStatus (st_Key st) (st_Stage st) (st_Message st) (cs_Protocol s) (cs_Peer s) (cs_LocalAddr s)
      (st_Error st) (st_StartedAt st) (upd (st_UpdatedAt st)) (st_Done st) true (0 <? streams) streams clients
  end.

Definition setConnectStatus (w : Web) (act : activity) (key stage message proto peer localAddr : string)
    (err : option string) (done : bool) (now : Z) : Web :=
  let st := status_of w key in
  if bool_decide (st_Stage st = "canceled") && st_Done st && bool_decide (stage <> "starting") then w
  else
    let keep new old := if bool_decide (new <> "") then new else old in
    let app := match w_sessions w !! key with
               | Some s => let '(streams, clients) := act (cs_Proxy s) in (0 <? streams, streams, clients)
               | None => (st_AppConnected st, st_ActiveAppStreams st, st_ActiveAppClients st)
               end in
    let '(connected, streams, clients) := app in
    set_status w (<[key := mkStatus key stage message (keep proto (st_Protocol st)) (keep peer (st_Peer st))
      (keep localAddr (st_LocalAddr st)) (default "" err)
      (if is_zero_time (st_StartedAt st) then now else st_StartedAt st) now done (st_Active st)
      connected streams clients]> (w_status w)).

(** [handleConnectStatus] for a key. *)
Definition connectStatusFor (w : Web) (key : string) (now : Z) : connectStatus :=
  match w_status w !! key with
  | Some st => st
  | None => mkStatus key "idle" "Idle" "" "" "" "" zero_time now true false false 0 0
  end.

(** [handleActiveConnections]: the sessions listed apart from the paired
    remotes, each once. *)
Definition activeConnections (w : Web) (remotes : list RemoteConfig) : list connectSession :=
  let paired := (fun r => "peer:" ++ RemoteServiceKey r)%string <$> remotes in
  List.filter (fun s => equal_fold (cs_Mode s) "onetime" ||
                        negb (existsb (fun k => bool_decide (k ∈ paired)) (sessionKeys (Some s) (cs_Key s))))
    (remove_dups (snd <$> map_to_list (w_sessions w))).

(** ** References *)

Definition retainSessionBackend (w : Web) (backend connectKey : string) : Web * option string :=
  let backend := trim_space backend in
  if bool_decide (backend = "") then (w, None)
  else let '(r, err) := nb_retain (w_net w) backend ("connect:" ++ connectKey) in (set_net w r, err).

Definition retainConnectAttemptBackend (w : Web) (backend connectKey : string) : Web :=
  let backend := trim_space backend in
  if bool_decide (backend = "") then w
  else set_net w (fst (nb_retain (w_net w) backend ("attempt:" ++ connectKey))).

Definition releaseConnectAttemptBackend (w : Web) (backend connectKey : string) : Web :=
  let backend := trim_space backend in
  if bool_decide (backend = "") then w
  else set_net w (nb_release (w_net w) backend ("attempt:" ++ connectKey)).
End Web.
Arguments Web R : clear implicits.

(** ** Lemmas on the tables *)

Lemma lookup_delete_keys {A} (m : gmap string A) keys k :
  foldr delete m keys !! k = if decide (k ∈ keys) then None else m !! k.
Proof.
  induction keys as [|x keys IH]; cbn [foldr].
  - by rewrite decide_False by apply not_elem_of_nil.
  - destruct (decide (k = x)) as [->|Hne].
    + by rewrite lookup_delete_eq, decide_True by constructor.
    + rewrite lookup_delete_ne, IH by done. destruct (decide (k ∈ keys)); [rewrite decide_True|rewrite decide_False];
        rewrite ?elem_of_cons; naive_solver.
Qed.

Lemma lookup_insert_keys {A} (m : gmap string A) keys a k :
  foldl (fun m x => <[x := a]> m) m keys !! k = if decide (k ∈ keys) then Some a else m !! k.
Proof.
  revert m. induction keys as [|x keys IH]; intros m; cbn [foldl].
  - by rewrite decide_False by apply not_elem_of_nil.
  - rewrite IH. destruct (decide (k ∈ keys)); [by rewrite decide_True by (by right)|].
    destruct (decide (k = x)) as [->|Hne].
    + by rewrite lookup_insert_eq, decide_True by constructor.
    + rewrite lookup_insert_ne, decide_False; rewrite ?elem_of_cons; naive_solver.
Qed.

Section WebFacts.
Context {R : Type} `{NetworkBackendsLaws R}.
Implicit Types (w : Web R) (s o : connectSession).

(** The reference of a session. *)
Definition session_ref s : gset (string * string) := ref_set (trim_space (cs_Backend s)) ("connect:" ++ cs_Key s).

Lemma release_refs w s : nb_refs (w_net (releaseSessionBackend w s)) = nb_refs (w_net w) ∖ session_ref s.
Proof.
  unfold releaseSessionBackend, session_ref. case_bool_decide as Hb; [|apply nb_refs_release].
  rewrite Hb. unfold ref_set, ref_key. cbn. set_solver.
Qed.

Lemma retain_refs w b k :
  nb_refs (w_net (fst (retainSessionBackend w b k))) = ref_set (trim_space b) ("connect:" ++ k) ∪ nb_refs (w_net w).
Proof.
  unfold retainSessionBackend. case_bool_decide as Hb.
  - rewrite Hb. unfold ref_set, ref_key. cbn. set_solver.
  - pose proof (nb_refs_retain (w_net w) (trim_space b) ("connect:" ++ k)) as Hr.
    by destruct (nb_retain _ _ _) as [r e].
Qed.

(** What the bookkeeping of sessions reads. *)
Definition tables w := (w_sessions w, w_hooks w, w_closed w, nb_refs (w_net w)).

Lemma tables_eq w w' :
  tables w' = tables w ->
  w_sessions w' = w_sessions w /\ w_hooks w' = w_hooks w /\ w_closed w' = w_closed w /\
  nb_refs (w_net w') = nb_refs (w_net w).
Proof. unfold tables. rewrite !pair_equal_spec. tauto. Qed.

Lemma release_tables w s :
  tables (releaseSessionBackend w s) = (w_sessions w, w_hooks w, w_closed w, nb_refs (w_net w) ∖ session_ref s).
Proof.
  unfold tables. rewrite release_refs. unfold releaseSessionBackend. by case_bool_decide.
Qed.

(** No active session uses the proxy. *)
Definition unused w proxy : Prop := forall k s, w_sessions w !! k = Some s -> cs_Proxy s <> proxy.

Lemma mark_no_session w key proxy msg now :
  w_sessions w !! key = None -> markSessionClosed w key proxy msg now = w.
Proof. intros Hn. unfold markSessionClosed. by rewrite Hn. Qed.

Lemma mark_session_other w key s proxy msg now :
  w_sessions w !! key = Some s -> cs_Proxy s <> proxy -> markSessionClosed w key proxy msg now = w.
Proof. intros Hs Hne. unfold markSessionClosed. by rewrite Hs, (proj2 (Nat.eqb_neq _ _) Hne). Qed.

Lemma mark_unused w key proxy msg now : unused w proxy -> markSessionClosed w key proxy msg now = w.
Proof.
  intros Hu. unfold markSessionClosed. destruct (w_sessions w !! key) as [s|] eqn:Es; [|done].
  by rewrite (proj2 (Nat.eqb_neq _ _) (Hu _ _ Es)).
Qed.

Lemma close_unused w proxy now :
  unused w proxy ->
  tables (closeProxy w proxy now) = (w_sessions w, w_hooks w, {[proxy]} ∪ w_closed w, nb_refs (w_net w)).
Proof.
  intros Hu. unfold closeProxy. destruct (decide (proxy ∈ w_closed w)) as [Hc|Hc].
  - unfold tables. by replace ({[proxy]} ∪ w_closed w) with (w_closed w) by set_solver.
  - set (w1 := set_proxies w (w_hooks w) ({[proxy]} ∪ w_closed w)).
    assert (Hm : forall l, foldl (fun w key => markSessionClosed w key proxy "Tunnel disconnected" now) w1 l = w1).
    { induction l as [|k l IH]; cbn [foldl]; [done|]. by rewrite mark_unused. }
    by rewrite Hm.
Qed.

(** ** The invariant *)

(** Every active session is filed under exactly its keys, its own key among
    them; its proxy is open, its own and calls it back under its key; and the
    references of connect sessions are those of the active sessions. *)
Record good w : Prop := {
  g_in k s : w_sessions w !! k = Some s -> k ∈ cs_Keys s;
  g_all k s k' : w_sessions w !! k = Some s -> k' ∈ cs_Keys s -> w_sessions w !! k' = Some s;
  g_key k s : w_sessions w !! k = Some s -> cs_Key s ∈ cs_Keys s;
  g_open k s : w_sessions w !! k = Some s -> cs_Proxy s ∉ w_closed w;
  g_hook k s : w_sessions w !! k = Some s -> cs_Key s ∈ w_hooks w (cs_Proxy s);
  g_proxy k s k' s' : w_sessions w !! k = Some s -> w_sessions w !! k' = Some s' -> cs_Proxy s = cs_Proxy s' -> s = s';
  g_refs b k : (b, "connect:" ++ k)%string ∈ nb_refs (w_net w) <->
    exists s, w_sessions w !! k = Some s /\ cs_Key s = k /\ (b, "connect:" ++ k)%string ∈ session_ref s;
}.

Lemma good_tables w w' : good w -> tables w' = tables w -> good w'.
Proof.
  unfold tables. intros [] [= Hs Hh Hc Hr].
  split; intros *; rewrite ?Hs, ?Hh, ?Hc, ?Hr; eauto.
Qed.

Lemma session_ref_key b k s : (b, "connect:" ++ k)%string ∈ session_ref s -> cs_Key s = k.
Proof. unfold session_ref. rewrite ref_set_spec. intros [_ He]%ref_key_inv. by apply (inj _) in He. Qed.

(** An ended session leaves all tables; its proxy may be closed with it. *)
Lemma good_remove w w' k0 s closed :
  good w -> w_sessions w !! k0 = Some s ->
  tables w' = (foldr delete (w_sessions w) (cs_Keys s), w_hooks w, closed, nb_refs (w_net w) ∖ session_ref s) ->
  (forall p, p ∈ closed -> p ∈ w_closed w \/ p = cs_Proxy s) ->
  good w' /\ unused w' (cs_Proxy s).
Proof.
  intros Hg Hs [= Hs' Hh Hc Hr] Hcl.
  assert (Hl : forall k x, w_sessions w' !! k = Some x -> w_sessions w !! k = Some x /\ x <> s).
  { intros k x. rewrite Hs', lookup_delete_keys. destruct (decide (k ∈ cs_Keys s)) as [|Hn]; [done|].
    intros Hx. split; [done|]. intros ->. by apply Hn, (g_in _ Hg k). }
  assert (Hk : forall k x k', w_sessions w' !! k = Some x -> k' ∈ cs_Keys x -> w_sessions w' !! k' = Some x).
  { intros k x k' [Hx Hne]%Hl Hk'. pose proof (g_all _ Hg _ _ _ Hx Hk') as Hx'.
    rewrite Hs', lookup_delete_keys. destruct (decide (k' ∈ cs_Keys s)) as [Hin|]; [|done].
    pose proof (g_all _ Hg _ _ _ Hs Hin). congruence. }
  assert (Hu : unused w' (cs_Proxy s)).
  { intros k x [Hx Hne]%Hl He. by apply Hne, (g_proxy _ Hg k x k0 s). }
  split; [|done]. split.
  - intros k x [Hx _]%Hl. by apply (g_in _ Hg).
  - exact Hk.
  - intros k x [Hx _]%Hl. by eapply (g_key _ Hg).
  - intros k x Hx. rewrite Hc. intros [Hin|He]%Hcl; [|by apply (Hu k x)].
    apply Hl in Hx as [Hx _]. by apply (g_open _ Hg k x).
  - intros k x [Hx _]%Hl. rewrite Hh. by eapply (g_hook _ Hg).
  - intros k x k' x' [Hx _]%Hl [Hx' _]%Hl. by eapply (g_proxy _ Hg).
  - intros b k. rewrite Hr, elem_of_difference, (g_refs _ Hg). split.
    + intros [(x & Hx & Hkx & Href) Hn]. exists x. split; [|done]. apply (Hk k x k).
      * rewrite Hs', lookup_delete_keys. destruct (decide (k ∈ cs_Keys s)) as [Hin|]; [|done].
        pose proof (g_all _ Hg _ _ _ Hs Hin). assert (x = s) as -> by congruence. done.
      * by apply (g_in _ Hg k).
    + intros (x & Hx & Hkx & Href). apply Hl in Hx as [Hx Hne]. split; [by exists x|].
      intros Hin%session_ref_key. pose proof (g_all _ Hg _ _ _ Hs (g_key _ Hg _ _ Hs)) as Hs2. congruence.
Qed.

Lemma sessionKeys_in k s x : k ∈ cs_Keys s -> sessionKeys (Some s) x = cs_Keys s.
Proof. intros Hk. unfold sessionKeys. case_bool_decide as He; [|done]. rewrite He in Hk. by apply elem_of_nil in Hk. Qed.

Lemma end_keys_tables w s msg now keys :
  tables (end_keys w keys (Some s) msg now) =
    (foldr delete (w_sessions w) keys, w_hooks w, w_closed w, nb_refs (w_net w)).
Proof. done. Qed.

Lemma mark_good w key proxy msg now : good w -> good (markSessionClosed w key proxy msg now).
Proof.
  intros Hg. unfold markSessionClosed. destruct (w_sessions w !! key) as [s|] eqn:Es; [|done].
  destruct (negb _); [done|]. rewrite (sessionKeys_in key) by (by eapply (g_in _ Hg)).
  eapply (good_remove w _ key s); [done|done|by rewrite release_tables|by left].
Qed.

Lemma good_closed w proxy : good w -> unused w proxy -> good (set_proxies w (w_hooks w) ({[proxy]} ∪ w_closed w)).
Proof.
  intros [] Hu. split; cbn; eauto. intros k s Hk. apply not_elem_of_union. split; [|eauto].
  rewrite elem_of_singleton. by apply (Hu k s).
Qed.

Lemma foldl_mark_unused l w proxy msg now :
  unused w proxy -> foldl (fun w key => markSessionClosed w key proxy msg now) w l = w.
Proof. intros Hu. induction l as [|k l IH]; cbn [foldl]; [done|]. by rewrite mark_unused. Qed.

(** The callbacks of a closed proxy end its session. *)
Lemma foldl_mark_session l w s now :
  (forall k x, w_sessions w !! k = Some x -> cs_Proxy x = cs_Proxy s -> x = s) ->
  (forall k, w_sessions w !! k = Some s <-> k ∈ cs_Keys s) -> cs_Key s ∈ cs_Keys s -> cs_Key s ∈ l ->
  tables (foldl (fun w key => markSessionClosed w key (cs_Proxy s) "Tunnel disconnected" now) w l) =
    (foldr delete (w_sessions w) (cs_Keys s), w_hooks w, w_closed w, nb_refs (w_net w) ∖ session_ref s).
Proof.
  intros Hp Hk Hin. induction l as [|h l IH]; [by intros ?%elem_of_nil|]. cbn [foldl]. intros Hl.
  destruct (w_sessions w !! h) as [x|] eqn:Eh.
  - destruct (decide (cs_Proxy x = cs_Proxy s)) as [He|Hne].
    + rewrite (Hp _ _ Eh He) in Eh.
      assert (Hm : tables (markSessionClosed w h (cs_Proxy s) "Tunnel disconnected" now) =
        (foldr delete (w_sessions w) (cs_Keys s), w_hooks w, w_closed w, nb_refs (w_net w) ∖ session_ref s)).
      { unfold markSessionClosed. rewrite Eh, Nat.eqb_refl. cbn [negb]. rewrite (sessionKeys_in h) by (by apply Hk).
        by rewrite release_tables. }
      rewrite foldl_mark_unused; [done|]. injection Hm as Hs _ _ _. intros k y. rewrite Hs, lookup_delete_keys.
      destruct (decide (k ∈ cs_Keys s)) as [|Hn]; [done|]. intros Hy He'. apply Hn, Hk.
      by rewrite <- (Hp k y Hy He').
    + rewrite (mark_session_other w h x) by done. apply IH. apply elem_of_cons in Hl as [Hl|]; [|done].
      apply Hk in Hin. rewrite Hl, Eh in Hin. congruence.
  - rewrite (mark_no_session w h) by done. apply IH. apply elem_of_cons in Hl as [Hl|]; [|done].
    apply Hk in Hin. rewrite Hl, Eh in Hin. done.
Qed.

(** Closing a proxy, by whichever side, ends its session. *)
Lemma close_session w k s now :
  good w -> w_sessions w !! k = Some s ->
  tables (closeProxy w (cs_Proxy s) now) =
    (foldr delete (w_sessions w) (cs_Keys s), w_hooks w, {[cs_Proxy s]} ∪ w_closed w,
     nb_refs (w_net w) ∖ session_ref s).
Proof.
  intros Hg Hs. unfold closeProxy. rewrite decide_False by (by eapply (g_open _ Hg)).
  rewrite foldl_mark_session; [done|..]; cbn.
  - intros k' x Hx He. by apply (g_proxy _ Hg k' x k s).
  - intros k'. split; [apply (g_in _ Hg)|by eapply (g_all _ Hg)].
  - by eapply (g_key _ Hg).
  - by eapply (g_hook _ Hg).
Qed.

Lemma close_good w proxy now : good w -> good (closeProxy w proxy now) /\ unused (closeProxy w proxy now) proxy.
Proof.
  intros Hg. destruct (decide (map_Forall (fun _ s => cs_Proxy s <> proxy) (w_sessions w))) as [Hu|Hn].
  - pose proof (close_unused w proxy now Hu) as Ht. split.
    + eapply good_tables; [by apply (good_closed w proxy Hg)|done].
    + injection Ht as Hs _ _ _. unfold unused. by rewrite Hs.
  - apply map_not_Forall in Hn as (k & s & Hs & Hp); [|apply _]. apply dec_stable in Hp as <-.
    eapply (good_remove w _ k s); [done|done|by eapply close_session|set_solver].
Qed.

Lemma disconnect_good w key now :
  good w -> good (fst (disconnectSession w key now)) /\ w_sessions (fst (disconnectSession w key now)) !! key = None /\
    forall s, w_sessions w !! key = Some s -> unused (fst (disconnectSession w key now)) (cs_Proxy s) /\
      cs_Proxy s ∈ w_closed (fst (disconnectSession w key now)).
Proof.
  intros Hg. unfold disconnectSession. destruct (w_sessions w !! key) as [s|] eqn:Es; cbn [fst].
  2:{ split; [by eapply good_tables|]. by split. }
  rewrite (sessionKeys_in key) by (by eapply (g_in _ Hg)).
  set (w0 := end_keys w (cs_Keys s) (Some s) "Disconnected" now).
  assert (Hl : forall k, w_sessions w0 !! k = if decide (k ∈ cs_Keys s) then None else w_sessions w !! k)
    by apply lookup_delete_keys.
  assert (Hu : unused w0 (cs_Proxy s)).
  { intros k x. rewrite Hl. destruct (decide (k ∈ cs_Keys s)) as [|Hn]; [done|]. intros Hx He.
    apply Hn, (g_in _ Hg k). by rewrite (g_proxy _ Hg k x key s Hx Es He) in Hx. }
  pose proof (close_unused w0 (cs_Proxy s) now Hu) as [= H1 H2 H3 H4].
  assert (Ht : tables (releaseSessionBackend (closeProxy w0 (cs_Proxy s) now) s) =
    (foldr delete (w_sessions w) (cs_Keys s), w_hooks w, {[cs_Proxy s]} ∪ w_closed w, nb_refs (w_net w) ∖ session_ref s))
    by (by rewrite release_tables, H1, H2, H3, H4).
  destruct (good_remove w _ key s _ Hg Es Ht) as [Hg' Hu']; [set_solver|].
  split; [done|]. injection Ht as Hs' _ Hc' _. split.
  - rewrite Hs', lookup_delete_keys, decide_True; [done|]. by eapply (g_in _ Hg).
  - intros ? [= <-]. split; [done|]. rewrite Hc'. set_solver.
Qed.

(** ** Registration *)

Lemma elem_of_replaced w keys proxy o :
  o ∈ replaced w keys proxy <-> cs_Proxy o <> proxy /\ exists k, k ∈ keys /\ w_sessions w !! k = Some o.
Proof.
  unfold replaced. rewrite elem_of_remove_dups, list_elem_of_In, filter_In, <- list_elem_of_In, list_elem_of_omap,
    negb_true_iff, Nat.eqb_neq. tauto.
Qed.

Lemma close_replaced now olds : forall w,
  (forall o, o ∈ olds -> unused w (cs_Proxy o)) ->
  exists closed refs,
    tables (foldl (fun w o => closeProxy (releaseSessionBackend w o) (cs_Proxy o) now) w olds) =
      (w_sessions w, w_hooks w, closed, refs) /\
    (forall p, p ∈ closed <-> p ∈ w_closed w \/ exists o, o ∈ olds /\ p = cs_Proxy o) /\
    (forall x, x ∈ refs <-> x ∈ nb_refs (w_net w) /\ forall o, o ∈ olds -> x ∉ session_ref o).
Proof.
  induction olds as [|o olds IH]; intros w Hu; cbn [foldl].
  - exists (w_closed w), (nb_refs (w_net w)). split; [done|]. split.
    + intros p. split; [by left|]. by intros [|(o & ?%elem_of_nil & _)].
    + intros x. split; [|by intros []]. intros Hx. split; [done|]. by intros o ?%elem_of_nil.
  - pose proof (release_tables w o) as [= R1 R2 R3 R4].
    assert (Hu1 : unused (releaseSessionBackend w o) (cs_Proxy o)).
    { unfold unused. rewrite R1. apply Hu. by left. }
    pose proof (close_unused _ _ now Hu1) as [= C1 C2 C3 C4].
    destruct (IH (closeProxy (releaseSessionBackend w o) (cs_Proxy o) now)) as (closed & refs & Ht & Hc & Hr).
    { intros o' Ho'. unfold unused. rewrite C1, R1. apply Hu. by right. }
    exists closed, refs. rewrite Ht, C1, R1, C2, R2. split; [done|]. split.
    + intros p. rewrite Hc, C3, R3, elem_of_union, elem_of_singleton. setoid_rewrite elem_of_cons.
      clear. naive_solver.
    + intros x. rewrite Hr, C4, R4, elem_of_difference. setoid_rewrite elem_of_cons. clear. naive_solver.
Qed.

(** When a registration fits the table: its key is free, its proxy new, and the
    sessions that share an alias with it are covered by it. *)
Definition fits w (key : string) (aliases : list string) (proxy : nat) : Prop :=
  key <> ""%string /\ trim_space key = key /\ w_sessions w !! key = None /\ unused w proxy /\
  forall k s, k ∈ uniqueConnectKeys (key :: aliases) -> w_sessions w !! k = Some s ->
    forall k', k' ∈ cs_Keys s -> k' ∈ uniqueConnectKeys (key :: aliases).

(** The table after a registration whose replaced sessions are [old]. *)
Lemma good_registered w w3 s (old : connectSession -> Prop) :
  good w -> cs_Key s ∈ cs_Keys s -> w_sessions w !! cs_Key s = None -> unused w (cs_Proxy s) ->
  (forall k o, k ∈ cs_Keys s -> w_sessions w !! k = Some o -> forall k', k' ∈ cs_Keys o -> k' ∈ cs_Keys s) ->
  (forall o, old o <-> exists k, k ∈ cs_Keys s /\ w_sessions w !! k = Some o) ->
  (forall k, w_sessions w3 !! k = if decide (k ∈ cs_Keys s) then Some s else w_sessions w !! k) ->
  cs_Key s ∈ w_hooks w3 (cs_Proxy s) -> (forall p k, k ∈ w_hooks w p -> k ∈ w_hooks w3 p) ->
  (forall p, p ∈ w_closed w3 -> p <> cs_Proxy s /\ (p ∈ w_closed w \/ exists o, old o /\ p = cs_Proxy o)) ->
  (forall x, x ∈ nb_refs (w_net w3) <-> (x ∈ session_ref s \/ x ∈ nb_refs (w_net w)) /\ forall o, old o -> x ∉ session_ref o) ->
  good w3.
Proof.
  intros Hg Hkey Hfree Hunused Hcov Hold Hl Hhk Hhooks Hcl Href.
  assert (Hin : forall k x, w_sessions w3 !! k = Some x <->
     (k ∈ cs_Keys s /\ x = s) \/ (k ∉ cs_Keys s /\ w_sessions w !! k = Some x)).
  { intros k x. rewrite Hl. destruct (decide (k ∈ cs_Keys s)); naive_solver. }
  assert (Hout : forall k x k', k ∉ cs_Keys s -> w_sessions w !! k = Some x -> k' ∈ cs_Keys x -> k' ∉ cs_Keys s).
  { intros k x k' Hn Hx Hk' Hin'. apply Hn, (Hcov k' x Hin'); [by eapply (g_all _ Hg)|by eapply (g_in _ Hg)]. }
  assert (Hnotold : forall k x, k ∉ cs_Keys s -> w_sessions w !! k = Some x -> ~ old x).
  { intros k x Hn Hx (k' & Hk' & Hx')%Hold. by apply (Hout k x k' Hn Hx); [eapply (g_in _ Hg)|]. }
  split.
  - intros k x [[Hk ->]|[_ Hx]]%Hin; [done|by apply (g_in _ Hg)].
  - intros k x k' [[Hk ->]|[Hn Hx]]%Hin Hk'; apply Hin; [by left|right].
    split; [by eapply Hout|by eapply (g_all _ Hg)].
  - intros k x [[Hk ->]|[_ Hx]]%Hin; [done|by eapply (g_key _ Hg)].
  - intros k x [[Hk ->]|[Hn Hx]]%Hin; intros Hc; apply Hcl in Hc as [Hne Hc]; [done|].
    destruct Hc as [Hc|(o & Ho & Hp)]; [by apply (g_open _ Hg k x)|].
    apply (Hnotold k x Hn Hx). apply Hold in Ho as Ho'. destruct Ho' as (k' & _ & Ho').
    by rewrite (g_proxy _ Hg k x k' o Hx Ho' Hp).
  - intros k x [[Hk ->]|[_ Hx]]%Hin; [done|]. apply Hhooks. by eapply (g_hook _ Hg).
  - intros k x k' x' [[_ ->]|[_ Hx]]%Hin [[_ ->]|[_ Hx']]%Hin He; [done|..|by eapply (g_proxy _ Hg)].
    + by destruct (Hunused k' x').
    + by destruct (Hunused k x).
  - intros b k. rewrite Href, (g_refs _ Hg). split.
    + intros [[Hs|(x & Hx & Hk & Hxr)] Hn].
      * exists s. pose proof (session_ref_key _ _ _ Hs) as Hk. split; [apply Hin; left; by rewrite <- Hk|done].
      * exists x. split; [|done]. apply Hin. right. split; [|done]. intros Hks.
        apply (Hn x); [apply Hold; by exists k|done].
    + intros (x & [[Hks ->]|[Hn Hx]]%Hin & Hk & Hxr).
      * split; [by left|]. intros o (k' & Hk' & Ho)%Hold Hor%session_ref_key.
        pose proof (g_all _ Hg _ _ _ Ho (g_key _ Hg _ _ Ho)) as Ho'. congruence.
      * split; [right; by exists x|]. intros o (k' & Hk' & Ho)%Hold Hor%session_ref_key.
        pose proof (g_all _ Hg _ _ _ Ho (g_key _ Hg _ _ Ho)) as Ho'. rewrite Hor, Hx in Ho'. injection Ho' as <-.
        by apply (Hnotold k x Hn Hx), Hold; exists k'.
Qed.

Lemma register_good w wr key peer proto mode port backend proxy addr aliases now :
  good w -> fits w key aliases proxy ->
  w_sessions wr = w_sessions w -> w_hooks wr = w_hooks w -> w_closed wr = w_closed w ->
  nb_refs (w_net wr) = ref_set (trim_space backend) ("connect:" ++ key) ∪ nb_refs (w_net w) ->
  let w' := registerConnectSession wr key peer proto mode port backend proxy addr aliases now in
  good w' /\ (proxy ∉ w_closed w -> exists s, w_sessions w' !! key = Some s /\ cs_Proxy s = proxy /\
                 cs_Key s = key /\ cs_Backend s = backend).
Proof.
  intros Hg (Hne & Htrim & Hfree & Hunused & Hcov) Es Eh Ec Er. cbv zeta. unfold registerConnectSession.
  set (keys := uniqueConnectKeys (key :: aliases)) in *.
  set (s := mkSession _ _ _ _ _ _ _ _ _ _ _). set (w1 := mkWeb _ _ _ _ _ _ _ _).
  assert (Hkey : key ∈ keys).
  { apply elem_of_unique_trimmed. split; [done|]. rewrite fmap_cons, elem_of_cons. by left. }
  assert (Hl : forall k, w_sessions w1 !! k = if decide (k ∈ keys) then Some s else w_sessions w !! k).
  { intros k. unfold w1. cbn. by rewrite lookup_insert_keys, Es. }
  assert (Hold : forall o, o ∈ replaced wr keys proxy <-> exists k, k ∈ keys /\ w_sessions w !! k = Some o).
  { intros o. rewrite elem_of_replaced, Es. split; [by intros []|]. intros (k & Hk & Ho). split; [by eapply Hunused|eauto]. }
  destruct (close_replaced now (replaced wr keys proxy) w1) as (closed & refs & Ht & Hc & Hr).
  { intros o (k' & Hk' & Ho)%Hold k x. rewrite Hl. destruct (decide (k ∈ keys)) as [|Hn].
    - intros [= <-] He. by apply (Hunused k' o).
    - intros Hx He. apply Hn. rewrite <- (g_proxy _ Hg k x k' o Hx Ho He) in Ho.
      apply (Hcov k' x Hk' Ho), (g_in _ Hg _ _ Hx). }
  set (w2 := foldl _ w1 _) in *.
  assert (T1 : w_sessions w2 = w_sessions w1) by (by injection Ht).
  assert (T2 : w_hooks w2 = w_hooks wr) by (by injection Ht).
  assert (T3 : w_closed w2 = closed) by (by injection Ht).
  assert (T4 : nb_refs (w_net w2) = refs) by (by injection Ht).
  change (w_closed w1) with (w_closed wr) in Hc. change (nb_refs (w_net w1)) with (nb_refs (w_net wr)) in Hr.
  clearbody w2 w1. clear Ht.
  set (hooks := fun p => if (p =? proxy)%nat then w_hooks w2 p ++ [key] else w_hooks w2 p).
  (* the table as if the proxy were open still *)
  assert (Hg3 : good (set_proxies w2 hooks (closed ∖ {[proxy]}))).
  { apply (good_registered w _ s (fun o => o ∈ replaced wr keys proxy));
      [exact Hg|exact Hkey|exact Hfree|exact Hunused|exact Hcov|exact Hold|..].
    - intros k. change (w_sessions w2 !! k = if decide (k ∈ keys) then Some s else w_sessions w !! k). by rewrite T1.
    - change (key ∈ hooks proxy). unfold hooks. rewrite Nat.eqb_refl. set_solver.
    - intros p k Hp. change (k ∈ hooks p). unfold hooks. rewrite T2, Eh. destruct (p =? proxy)%nat; set_solver.
    - intros p Hp. change (p ∈ closed ∖ {[proxy]}) in Hp. apply elem_of_difference in Hp as [Hp Hn].
      split; [set_solver|]. apply Hc in Hp. by rewrite <- Ec.
    - intros x. change (nb_refs (w_net (set_proxies w2 hooks (closed ∖ {[proxy]})))) with (nb_refs (w_net w2)).
      by rewrite T4, Hr, Er, elem_of_union. }
  unfold setOnClose. fold hooks. set (w3 := set_proxies w2 hooks (w_closed w2)).
  assert (S3 : w_sessions w3 = w_sessions w1) by done. assert (C3 : w_closed w3 = closed) by done.
  destruct (decide (proxy ∈ w_closed w3)) as [Hin|Hn]; (split; [|intros Hopen]).
  3:{ eapply good_tables; [exact Hg3|]. unfold tables. rewrite C3 in Hn.
      change (w_closed (set_proxies w2 hooks (closed ∖ {[proxy]}))) with (closed ∖ {[proxy]}). rewrite C3.
      by replace (closed ∖ {[proxy]}) with closed by set_solver. }
  3:{ exists s. rewrite S3, Hl, decide_True by done. by repeat split. }
  2:{ exfalso. rewrite C3, Hc, Ec in Hin. destruct Hin as [?|(o & (k' & _ & Ho)%Hold & He)]; [done|].
      by apply (Hunused k' o). }
  - unfold markSessionClosed. rewrite S3, Hl, decide_True by done.
    change (cs_Proxy s) with proxy. rewrite Nat.eqb_refl. cbn [negb]. rewrite (sessionKeys_in key) by done.
    apply (good_remove (set_proxies w2 hooks (closed ∖ {[proxy]})) _ key s closed); [exact Hg3| | |].
    + change (w_sessions w2 !! key = Some s). by rewrite T1, Hl, decide_True.
    + rewrite release_tables. change (w_closed (end_keys w3 (cs_Keys s) (Some s) _ now)) with (w_closed w3). by rewrite C3.
    + intros p Hp. change (p ∈ closed ∖ {[proxy]} \/ p = proxy).
      destruct (decide (p = proxy)); [by right|left]. apply elem_of_difference. by rewrite elem_of_singleton.
Qed.
End WebFacts.

(** ** Runs *)

Section WebRuns.
Context {R : Type} `{NetworkBackendsLaws R}.

(** The handlers' uses of the tables.  [WRegister] is the end of a successful
    connect: the backend is retained and the session registered. *)
Inductive web_op : Type :=
  | WBegin (key : string) (now : Z)
  | WSetCancel (key : string) (cancel : nat)
  | WStatus (act : activity) (key stage message proto peer localAddr : string) (err : option string) (done : bool) (now : Z)
  | WAttempt (retain : bool) (backend key : string)
  | WRegister (key peer proto mode : string) (targetPort : Z) (backend : string) (proxy : nat) (localAddr : string)
      (aliases : list string) (now : Z)
  | WEnd (key : string)
  | WCancel (key : string) (now : Z)
  | WDisconnect (key : string) (now : Z)
  | WRemove (remoteKey : string) (now : Z)
  | WProxyClosed (proxy : nat) (now : Z).

Definition web_step (w : Web R) (o : web_op) : Web R :=
  match o with
  | WBegin key now => fst (beginConnect w key now)
  | WSetCancel key cancel => setConnectCancel w key cancel
  | WStatus act key stage message proto peer localAddr err done now =>
      setConnectStatus w act key stage message proto peer localAddr err done now
  | WAttempt true backend key => retainConnectAttemptBackend w backend key
  | WAttempt false backend key => releaseConnectAttemptBackend w backend key
  | WRegister key peer proto mode port backend proxy localAddr aliases now =>
      registerConnectSession (fst (retainSessionBackend w backend key)) key peer proto mode port backend proxy
        localAddr aliases now
  | WEnd key => endConnect w key
  | WCancel key now => fst (fst (cancelConnect w key now))
  | WDisconnect key now => fst (disconnectSession w key now)
  | WRemove remoteKey now => removeRemoteConnectState w remoteKey now
  | WProxyClosed proxy now => closeProxy w proxy now
  end.

(** A session is registered when it fits, and an attempt is cancelled before
    its session is registered. *)
Definition allowed (w : Web R) (o : web_op) : Prop :=
  match o with
  | WRegister key _ _ _ _ _ proxy _ aliases _ => fits w key aliases proxy
  | WCancel key _ => w_sessions w !! key = None
  | _ => True
  end.

Fixpoint allowed_run (w : Web R) (ops : list web_op) : Prop :=
  match ops with
  | [] => True
  | o :: r => allowed w o /\ allowed_run (web_step w o) r
  end.

Lemma good_refs_eq (w w' : Web R) :
  good w -> w_sessions w' = w_sessions w -> w_hooks w' = w_hooks w -> w_closed w' = w_closed w ->
  (forall b k, (b, "connect:" ++ k)%string ∈ nb_refs (w_net w') <-> (b, "connect:" ++ k)%string ∈ nb_refs (w_net w)) ->
  good w'.
Proof.
  intros [] Hs Hh Hc Hr. split; intros *; rewrite ?Hs, ?Hh, ?Hc, ?Hr; eauto.
Qed.

(** References of attempts are none of a session. *)
Lemma attempt_ref b b' k k' : (b', "connect:" ++ k')%string ∉ ref_set b ("attempt:" ++ k).
Proof. rewrite ref_set_spec. intros [_ He]%ref_key_inv. discriminate He. Qed.

Lemma good_attempt (w : Web R) retain backend key : good w -> good (web_step w (WAttempt retain backend key)).
Proof.
  intros Hg. destruct retain; cbn [web_step].
  - unfold retainConnectAttemptBackend. case_bool_decide; [done|]. eapply good_refs_eq; [done..|]. intros b k. cbn.
    rewrite nb_refs_retain, elem_of_union. pose proof (attempt_ref (trim_space backend) b key k). tauto.
  - unfold releaseConnectAttemptBackend. case_bool_decide; [done|]. eapply good_refs_eq; [done..|]. intros b k. cbn.
    rewrite nb_refs_release, elem_of_difference. pose proof (attempt_ref (trim_space backend) b key k). tauto.
Qed.

Lemma setConnectStatus_frame (w : Web R) act key stage message proto peer localAddr err done now :
  setConnectStatus w act key stage message proto peer localAddr err done now = w \/
  exists m, setConnectStatus w act key stage message proto peer localAddr err done now = set_status w m.
Proof.
  unfold setConnectStatus. destruct (_ && _ && _); [by left|right].
  destruct (w_sessions w !! key) as [s|]; [destruct (act (cs_Proxy s))|]; by eexists.
Qed.

Lemma drop_attempts_tables (w : Web R) keys : tables (foldl drop_attempt w keys) = tables w.
Proof. revert w. induction keys as [|k keys IH]; intros w; cbn [foldl]; [done|]. by rewrite IH. Qed.

Lemma retain_frame (w : Web R) b k :
  w_sessions (fst (retainSessionBackend w b k)) = w_sessions w /\
  w_hooks (fst (retainSessionBackend w b k)) = w_hooks w /\
  w_closed (fst (retainSessionBackend w b k)) = w_closed w.
Proof. unfold retainSessionBackend. case_bool_decide; [done|]. by destruct (nb_retain _ _ _). Qed.

Lemma good_step (w : Web R) o : good w -> allowed w o -> good (web_step w o).
Proof.
  intros Hg Ha. destruct o; cbn [web_step allowed] in *.
  - unfold beginConnect. destruct (w_connects w !! key); [|by eapply good_tables].
    destruct (_ <? _); [|done]. by destruct (st_Done _); eapply good_tables.
  - unfold setConnectCancel. destruct (_ !! _); [|done]. by eapply good_tables.
  - destruct (setConnectStatus_frame w act key stage message proto peer localAddr err done now) as [->|[m ->]];
      [done|by eapply good_tables].
  - by apply good_attempt.
  - destruct (retain_frame w backend key) as (? & ? & ?). by eapply register_good; [..|apply retain_refs].
  - by eapply good_tables.
  - unfold cancelConnect. destruct (w_connects w !! key); [|done]. rewrite Ha. eapply good_tables; [done|].
    unfold tables. cbn. by rewrite delete_id.
  - by apply disconnect_good.
  - unfold removeRemoteConnectState. case_bool_decide; [done|].
    pose proof (proj1 (disconnect_good w ("peer:" ++ trim_space remoteKey) now Hg)) as Hd.
    destruct (disconnectSession _ _ _) as [w' s]. eapply good_tables; [exact Hd|]. apply drop_attempts_tables.
  - by apply close_good.
Qed.

Lemma good_run ops : forall w : Web R, good w -> allowed_run w ops -> good (fold_left web_step ops w).
Proof.
  induction ops as [|o ops IH]; intros w Hg; cbn; [done|]. intros [Ho Hr]. apply IH; [|done]. by apply good_step.
Qed.

Lemma good_new (r : R) : (forall b k, (b, "connect:" ++ k)%string ∉ nb_refs r) -> good (newWeb r).
Proof.
  intros Hr.
  assert (Hn : forall k s, w_sessions (newWeb r) !! k <> Some s) by (intros k s; apply lookup_empty_Some).
  split; try (intros * Hs; by destruct (Hn _ _ Hs)).
  intros b k. split; [intros Hx; by destruct (Hr _ _ Hx)|]. intros (s & Hs & _). by destruct (Hn _ _ Hs).
Qed.
End WebRuns.

(** ** Properties *)


(** A cancelled attempt stays cancelled: after a cancel of an attempt that has
    no session yet, no status update but the start of a new attempt changes the
    status of the key. *)
Lemma cancel_sticks {R} `{NetworkBackends R} (w : Web R) key now w' st act stage message proto peer localAddr err done now' :
  connectedSession w key = None -> cancelConnect w key now = (w', st, true) ->
  st_Stage st = "canceled"%string /\ connectStatusFor w' key now' = st /\ w_connects w' !! key = None /\
  (stage <> "starting"%string ->
   setConnectStatus w' act key stage message proto peer localAddr err done now' = w').
Proof.
  unfold connectedSession, cancelConnect. intros Hs. destruct (w_connects w !! key) as [a|]; [|done]. rewrite Hs.
  intros [= <- <-]. split; [done|]. unfold connectStatusFor, setConnectStatus, status_of. cbn.
  rewrite !lookup_insert_eq, lookup_delete_eq. split; [done|]. split; [done|]. intros Hst.
  by rewrite (bool_decide_eq_true_2 _ Hst).
Qed.

Definition plain_web : Type := Web (gset (string * string)).
Definition sample_session_ops : list web_op :=
  [WBegin "peer:A" 5;
   WRegister "peer:A" "A" "rdp" "pairing" 3389 "iroh" 1 "127.0.0.1:5000" ["peer:A|rdp|3389"%string] 6;
   WEnd "peer:A"].


(** A session connected by link is filed under the peer as well; registering a
    session of its service alone replaces it under one key, and the callback of
    its closing tunnel then ends the new session too, whose proxy stays open
    and whose reference is never released. *)
Lemma alias_steal_loses_session :
  let w : plain_web := fold_left web_step
    [WRegister "peer:A" "A" "rdp" "pairing" 3389 "iroh" 1 "127.0.0.1:5000" ["peer:A|rdp|3389"%string] 6;
     WRegister "peer:A|rdp|3389" "A" "rdp" "pairing" 3389 "iroh" 2 "127.0.0.1:5001" ["peer:A|rdp|3389"%string] 7]
    (newWeb ∅) in
  w_sessions w !! "peer:A"%string = None /\ w_sessions w !! "peer:A|rdp|3389"%string = None /\
  bool_decide (2%nat ∈ w_closed w) = false /\
  bool_decide (("iroh", "connect:peer:A|rdp|3389")%string ∈ nb_refs (w_net w)) = true.
Proof. vm_compute. done. Qed.

(** A cancel after the registration closes the tunnel but keeps the other keys
    of the session and its reference. *)
Lemma cancel_after_register_leaks :
  let w : plain_web := fold_left web_step
    [WBegin "peer:A" 5;
     WRegister "peer:A" "A" "rdp" "pairing" 3389 "iroh" 1 "127.0.0.1:5000" ["peer:A|rdp|3389"%string] 6;
     WCancel "peer:A" 7] (newWeb ∅) in
  bool_decide (is_Some (w_sessions w !! "peer:A|rdp|3389"%string)) = true /\
  bool_decide (1%nat ∈ w_closed w) = true /\
  bool_decide (("iroh", "connect:peer:A")%string ∈ nb_refs (w_net w)) = true.
Proof. vm_compute. done. Qed.

(** The end of a cancelled attempt takes away the lock of the next one. *)
Lemma canceled_attempt_unlocks_next :
  let w : plain_web := fold_left web_step [WBegin "peer:A" 5; WCancel "peer:A" 6; WBegin "peer:A" 7; WEnd "peer:A"] (newWeb ∅) in
  snd (beginConnect w "peer:A" 8) = true.
Proof. vm_compute. done. Qed.
