(* ===== verification/RdpCheck.v ===== *)
(** * RdpCheck: the readiness check of [internal/rdpcheck]

    Protocols as strings, their ports, the search of a client program and the
    scan of local ports, with the handlers of [internal/webui/webui.go] that
    show them.  What listens on a local port and which programs are installed
    are functions of the environment. *)

From stdpp Require Import gmap.
From S2P Require Import Prelude GoStrings.
From Stdlib Require Import Sorting.Mergesort Sorting.Permutation Sorting.Sorted Orders.

Definition ProtoRDP : string := "rdp".
Definition ProtoVNC : string := "vnc".
Definition ProtoSSH : string := "ssh".
Definition ProtoCustom : string := "custom".

Definition ParseProtocol (s : string) : string :=
  let l := to_lower s in
  if bool_decide (l = "vnc") then ProtoVNC
  else if bool_decide (l = "ssh") then ProtoSSH
  else if bool_decide (l = "custom") then ProtoCustom
  else ProtoRDP.

Definition DefaultPort (p : string) : Z :=
  if bool_decide (p = ProtoVNC) then 5900 else if bool_decide (p = ProtoSSH) then 22 else 3389.

Definition guessProtocol (port : Z) : string :=
  if port =? 3389 then ProtoRDP
  else if (port =? 5900) || (port =? 5901) || (port =? 5902) then ProtoVNC
  else if port =? 22 then ProtoSSH
  else ProtoRDP.

Definition clientCandidates (os proto : string) : list string :=
  if bool_decide (proto = ProtoRDP) then
    if bool_decide (os = "windows") then ["mstsc"]
    else if bool_decide (os = "linux") then ["xfreerdp"; "xfreerdp3"; "remmina"; "gnome-connections"]
    else if bool_decide (os = "darwin")
    then ["/Applications/Microsoft Remote Desktop.app/Contents/MacOS/msrdp"; "remmina"]
    else []
  else if bool_decide (proto = ProtoVNC) then
    if bool_decide (os = "windows") then ["tvnviewer"; "vncviewer"]
    else if bool_decide (os = "linux") then ["vncviewer"; "tigervnc"; "xtigervncviewer"; "remmina"]
    else if bool_decide (os = "darwin") then ["open"]
    else []
  else if bool_decide (proto = ProtoSSH) then ["ssh"]
  else [].

(** [look] is [exec.LookPath]. *)
Fixpoint first_found (look : string -> option string) (bins : list string) : string * bool :=
  match bins with
  | [] => (""%string, false)
  | bin :: r => match look bin with Some path => (path, true) | None => first_found look r end
  end.
Definition findClient (os : string) (look : string -> option string) (proto : string) : string * bool :=
  first_found look (clientCandidates os proto).

Definition isHeadless (os display wayland : string) : bool :=
  if bool_decide (os = "windows") then false
  else bool_decide (display = "") && bool_decide (wayland = "").

Definition serverSetupCmd (os : string) (port : Z) : string :=
  let proto := guessProtocol port in
  if bool_decide (proto = ProtoRDP) then
    if bool_decide (os = "windows") then "Settings → System → Remote Desktop → Enable Remote Desktop"
    else if bool_decide (os = "linux") then "sudo apt install xrdp && sudo systemctl enable --now xrdp"
    else ""
  else if bool_decide (proto = ProtoVNC) then
    if bool_decide (os = "linux") then "sudo apt install tigervnc-standalone-server && vncserver :1"
    else if bool_decide (os = "windows") then "Install TightVNC: https://tightvnc.com"
    else ""
  else if bool_decide (proto = ProtoSSH) then
    if bool_decide (os = "linux") then "sudo systemctl enable --now ssh"
    else if bool_decide (os = "windows") then "Settings → Apps → Optional Features → OpenSSH Server"
    else ""
  else "".

Definition nl : string := of_bytes [x0a].

Definition clientInstallCmd (os proto : string) : string :=
  if bool_decide (proto = ProtoRDP) then
    if bool_decide (os = "linux") then
      "sudo apt install freerdp2-x11   # Debian/Ubuntu/Pi" ++ nl ++
      "sudo dnf install freerdp          # Fedora" ++ nl ++
      "sudo pacman -S freerdp            # Arch"
    else if bool_decide (os = "darwin") then "Install 'Microsoft Remote Desktop' from the Mac App Store"
    else ""
  else if bool_decide (proto = ProtoVNC) then
    if bool_decide (os = "linux") then "sudo apt install tigervnc-viewer"
    else if bool_decide (os = "darwin") then "Built-in: Finder → Go → Connect to Server → vnc://address"
    else ""
  else "".

(** The machine: the local ports that accept connections, the programs of the
    search path and the display. *)
Record machine : Type := mkMachine {
  mc_os : string;
  mc_open : Z -> bool;
  mc_look : string -> option string;
  mc_display : string;
  mc_wayland : string;
}.

Record Status : Type := mkStatus {
  ServerListening : bool;
  ServerPort : Z;
  ServerProtocol : string;
  ServerSetupCmd : string;
  ClientBin : string;
  ClientAvailable : bool;
  ClientInstallCmd : string;
  OS : string;
  IsHeadless : bool;
}.

Definition CheckHost (m : machine) (port : Z) : Status :=
  let listening := mc_open m port in
  mkStatus listening port (guessProtocol port) (if listening then "" else serverSetupCmd (mc_os m) port)
    "" false "" (mc_os m) false.

Definition CheckClient (m : machine) (proto : string) : Status :=
  let '(bin, available) := findClient (mc_os m) (mc_look m) proto in
  mkStatus false 0 proto "" bin available (if available then "" else clientInstallCmd (mc_os m) proto)
    (mc_os m) (isHeadless (mc_os m) (mc_display m) (mc_wayland m)).

(** ** Scanning local ports *)

(** The order of the ports that [ScanPorts] sorts by. *)
Module PortOrder <: TotalLeBool'.
Definition t := Z.
Definition leb : t -> t -> bool := Z.leb.
Infix "<=?" := leb.
Lemma leb_total x y : leb x y = true \/ leb y x = true.
Proof. unfold leb. destruct (Z.le_ge_cases x y); rewrite ?Z.leb_le; lia. Qed.
End PortOrder.
Module PortSort := Sort PortOrder.

(** The open ports of [ports]; [arrived] is the order in which the probes
    answer. *)
Definition ScanPorts (open : Z -> bool) (arrived : list Z) : list Z := PortSort.sort (List.filter open arrived).

Definition PortsForProtocol (p : string) : list Z :=
  if bool_decide (p = ProtoRDP) then [3389]
  else if bool_decide (p = ProtoSSH) then [22; 2222]
  else if bool_decide (p = ProtoVNC) then [5900; 5901; 5902; 5903; 5904; 5905]
  else if bool_decide (p = ProtoCustom) then []
  else [3389].

Definition bestPort (open : list Z) (proto : string) : Z :=
  match open with
  | [] => DefaultPort proto
  | p :: _ => if bool_decide (proto = ProtoVNC) && existsb (Z.eqb 5900) open then 5900 else p
  end.

Record scan_reply : Type := mkScanReply { sc_scanned : list Z; sc_ports : list Z; sc_found : bool; sc_best : option Z }.

(** [handleScan]; [arrive] is the order of the answers. *)
Definition handleScan (open : Z -> bool) (arrive : list Z -> list Z) (protocol : string) : scan_reply :=
  let proto := ParseProtocol protocol in
  match PortsForProtocol proto with
  | [] => mkScanReply [] [] false None
  | candidates =>
    let ports := ScanPorts open (arrive candidates) in
    mkScanReply candidates ports (negb (bool_decide (ports = []))) (Some (bestPort ports proto))
  end.

(** ** Defaults of the dashboard *)

Definition protocolOrDefault (proto : string) : string :=
  let p := ParseProtocol proto in if bool_decide (p = "") then "rdp"%string else p.

(** ** Facts *)

Lemma ParseProtocol_cases s :
  ParseProtocol s = ProtoRDP \/ ParseProtocol s = ProtoVNC \/ ParseProtocol s = ProtoSSH \/ ParseProtocol s = ProtoCustom.
Proof. unfold ParseProtocol. repeat case_bool_decide; tauto. Qed.

Lemma ParseProtocol_idem s : ParseProtocol (ParseProtocol s) = ParseProtocol s.
Proof. destruct (ParseProtocol_cases s) as [-> | [-> | [-> | ->]]]; by vm_compute. Qed.

Lemma protocolOrDefault_parse s : protocolOrDefault s = ParseProtocol s.
Proof. unfold protocolOrDefault. destruct (ParseProtocol_cases s) as [-> | [-> | [-> | ->]]]; by vm_compute. Qed.

Lemma sorted_perm_unique (l1 l2 : list Z) :
  StronglySorted Z.le l1 -> StronglySorted Z.le l2 -> Permutation l1 l2 -> l1 = l2.
Proof.
  intros H1. revert l2. induction H1 as [|x l1 Hs IH Hx]; intros l2 H2 Hp.
  - by apply Permutation_nil in Hp.
  - destruct H2 as [|y l2 Hs2 Hy]; [by apply Permutation_sym, Permutation_nil in Hp|].
    assert (x = y) as ->.
    { rewrite Forall_forall in Hx, Hy.
      assert (Hy1 : In y (x :: l1)) by (eapply Permutation_in; [by apply Permutation_sym|by left]).
      assert (Hx1 : In x (y :: l2)) by (eapply Permutation_in; [exact Hp|by left]).
      destruct Hy1 as [->|Hin1]; [done|]. destruct Hx1 as [->|Hin2]; [done|].
      apply list_elem_of_In in Hin1, Hin2. apply Z.le_antisymm; auto. }
    f_equal. apply IH; [done|]. by eapply Permutation_cons_inv.
Qed.

Lemma ScanPorts_sorted open l : StronglySorted Z.le (ScanPorts open l).
Proof.
  unfold ScanPorts.
  assert (Hs : StronglySorted (fun x y => is_true (PortOrder.leb x y)) (PortSort.sort (List.filter open l))).
  { apply PortSort.StronglySorted_sort. intros x y z. unfold is_true, PortOrder.leb. rewrite !Z.leb_le. lia. }
  induction Hs as [|x r _ IH Hx]; constructor; [done|]. eapply Forall_impl; [exact Hx|].
  intros y. apply Z.leb_le.
Qed.

Lemma filter_Permutation {A} (p : A -> bool) l l' : Permutation l l' -> Permutation (List.filter p l) (List.filter p l').
Proof.
  induction 1; cbn; [done|by destruct (p x); [constructor|]| |by etransitivity].
  destruct (p x), (p y); by constructor || done.
Qed.

(** The order in which the probes answer does not show. *)
Lemma ScanPorts_order open l l' : Permutation l l' -> ScanPorts open l = ScanPorts open l'.
Proof.
  intros Hp. apply sorted_perm_unique; [apply ScanPorts_sorted|apply ScanPorts_sorted|].
  unfold ScanPorts. rewrite <- !PortSort.Permuted_sort. by apply filter_Permutation.
Qed.

Lemma elem_of_ScanPorts open l p : p ∈ ScanPorts open l <-> p ∈ l /\ open p = true.
Proof.
  rewrite !list_elem_of_In. rewrite <- filter_In. unfold ScanPorts. split; intros Hin.
  - eapply Permutation_in; [apply Permutation_sym, PortSort.Permuted_sort|done].
  - eapply Permutation_in; [apply PortSort.Permuted_sort|done].
Qed.
