(* ===== verification/WebConnect.v ===== *)
(** * WebConnect: connecting from the dashboard ([internal/webui/webui.go])

    [handleConnect] and the handlers that end or look at its connections, over
    the tables of [WebSessions].  The long calls of [handleConnect] (starting a
    backend, pairing, opening the tunnel) are functions of the tables: they
    return what the handlers that ran in the meantime left. *)

From stdpp Require Import gmap.
From S2P Require Import Prelude GoStrings Crypto Rendezvous Config InviteUrl PairingClient BackendRefs WebSessions.

(** ** Requests *)

Record connectRequest : Type := mkConnectRequest { rq_URL : string; rq_NodeID : string; rq_RemoteKey : string }.

Definition remoteByRequest (remotes : list RemoteConfig) (remoteKey nodeID : string) : option RemoteConfig :=
  let remoteKey := trim_space remoteKey in
  let nodeID := trim_space nodeID in
  if bool_decide (remoteKey <> "") then List.find (fun r => bool_decide (RemoteServiceKey r = remoteKey)) remotes
  else if bool_decide (nodeID = "") then None
  else List.find (fun r => bool_decide (rc_NodeID r = nodeID)) remotes.

Definition pairingFallbackPeer `{Crypto} (remotes : list RemoteConfig) (rawURL : string) (err : string) : string :=
  if negb (contains err "link already used") then ""
  else match DecodeURL rawURL with
       | Err _ => ""
       | Ok tok =>
         if bool_decide (ModeString tok <> "pairing") then ""
         else let peerID := InvitePeerID rawURL in
              if bool_decide (peerID = "") then ""
              else if existsb (fun r => bool_decide (rc_NodeID r = peerID)) remotes then peerID else ""
       end.

Definition tunnelStatusMessage (result : option ConnectResult) : string :=
  match result with
  | None => "Opening tunnel"
  | Some r => if bool_decide (cr_BitTorrentQUICEndpoint r <> "") then "Opening BitTorrent DHT tunnel"
              else if bool_decide (cr_IrohTicket r <> "") then "Opening iroh tunnel" else "Opening libp2p tunnel"
  end.

Definition inviteConnectErrorMessage (err : option string) : string :=
  match err with
  | None => ""
  | Some msg =>
    let lower := to_lower msg in
    if contains lower "link already used"
    then "This invite link was already used by another machine. Ask the host to generate a new invite."
    else if contains lower "invalid link" || contains lower "invalid invite proof"
    then "This invite link is invalid. Ask the host to generate a new invite."
    else if contains lower "link has expired" then "This invite link has expired. Ask the host to generate a new invite."
    else if contains lower "link has been revoked" then "This invite link was revoked. Ask the host to generate a new invite."
    else msg
  end.

Definition backendForConnectResult (result : option ConnectResult) (fallback : string) : string :=
  match result with
  | None => trim_space fallback
  | Some r => if bool_decide (trim_space (cr_IrohTicket r) <> "") then "iroh"
              else if bool_decide (trim_space (cr_BitTorrentQUICEndpoint r) <> "") then "bittorrent_dht"
              else trim_space fallback
  end.

(** The tunnel [handleConnect] opens for a result. *)
Inductive tunnel_target : Type :=
  | QUICSession (endpoint : string)
  | IrohSession (ticket : string)
  | RelaySession (addrs : list string).
Definition tunnel_for (r : ConnectResult) : tunnel_target :=
  if bool_decide (cr_BitTorrentQUICEndpoint r <> "") then QUICSession (cr_BitTorrentQUICEndpoint r)
  else if bool_decide (cr_IrohTicket r <> "") then IrohSession (cr_IrohTicket r)
  else RelaySession (cr_RelayAddrs r).

(** ** handleConnect *)

Section Connect.
Context `{Crypto} {R : Type} `{NetworkBackends R}.

(** What the handler meets: the long calls, each with what the other handlers
    do to the tables meanwhile; whether the context has ended when a failure
    is looked at; the cancel function, the proxies' activity and the time. *)
Record connect_env : Type := mkConnectEnv {
  ce_ensure : option (string -> Web R -> Web R * option string);
  ce_pair : string -> Web R -> Web R * res ConnectResult;                    (** [ConnectByURL] *)
  ce_reauth_peer : string -> string -> Web R -> Web R * res ConnectResult;   (** [ReauthPairedWithBackend] *)
  ce_reauth : RemoteConfig -> string -> Web R -> Web R * res ConnectResult;  (** [ReauthRemoteWithBackend] *)
  ce_tunnel : tunnel_target -> ConnectResult -> Web R -> Web R * res (nat * string);  (** proxy, local address *)
  ce_ended : Web R -> bool;
  ce_cancel : nat;
  ce_activity : activity;
  ce_now : Z;
}.

Inductive connect_reply : Type :=
  | BadRequest (msg : string)
  | Existing (s : connectSession)
  | Conflict (st : connectStatus)
  | Canceled
  | BadGateway (msg : string)
  | Ready (peer localAddr proto : string).

Definition stage (env : connect_env) (w : Web R) (key stage message proto peer localAddr : string)
    (err : option string) (done : bool) : Web R :=
  setConnectStatus w (ce_activity env) key stage message proto peer localAddr err done (ce_now env).

(** The reply to a failed step: canceled, if the context has ended. *)
Definition failed_step (env : connect_env) (w : Web R) (key message proto peer : string) (shown reply : string)
  : Web R * connect_reply :=
  if ce_ended env w
  then (stage env w key "canceled" "Connection canceled" proto peer "" None true, Canceled)
  else (stage env w key "failed" message proto peer "" (Some shown) true, BadGateway reply).

(** The end of both ways to connect: the tunnel, the session's backend
    reference and the session.  The third component is the proxy opened. *)
Definition connect_tunnel (env : connect_env) (w : Web R) (key cfgProto : string) (result : ConnectResult)
    (fallback : string) (needProtocol : bool) : Web R * connect_reply * option nat :=
  let proto := cr_Protocol result in
  let w := stage env w key "tunnel" (tunnelStatusMessage (Some result)) proto (cr_PeerID result) "" None false in
  let '(w, opened) := ce_tunnel env (tunnel_for result) result w in
  match opened with
  | Err err => (failed_step env w key "Tunnel setup failed" cfgProto "" err ("connection failed: " ++ err), None)
  | Ok (proxy, localAddr) =>
    if needProtocol && bool_decide (proto = "") then
      (stage env w key "ready" "Local tunnel ready" cfgProto "" "" None true, Ready "" "" cfgProto, Some proxy)
    else
      let backend := backendForConnectResult (Some result) fallback in
      let '(w, err) := retainSessionBackend w backend key in
      match err with
      | Some err =>
        let w := closeProxy w proxy (ce_now env) in
        (failed_step env w key "Tunnel setup failed" proto "" err ("connection failed: " ++ err), Some proxy)
      | None =>
        let w := registerConnectSession w key (cr_PeerID result) proto (cr_Mode result) (cr_TargetPort result) backend
                   proxy localAddr [pairedConnectKey (cr_PeerID result) proto (cr_TargetPort result)] (ce_now env) in
        (stage env w key "ready" "Local tunnel ready" proto (cr_PeerID result) localAddr None true,
         Ready (cr_PeerID result) localAddr proto, Some proxy)
      end
  end.

(** The start of a backend for an attempt: its reference is released when the
    handler ends.  [Some] is the reply to a failed start. *)
Definition ensure_backend (env : connect_env) (w : Web R) (key backend peer : string) : Web R * option connect_reply :=
  match ce_ensure env with
  | None => (w, None)
  | Some ensure =>
    let w := stage env w key "backend" ("Starting " ++ backend ++ " backend") "" peer "" None false in
    let w := retainConnectAttemptBackend w backend key in
    let '(w, err) := ensure backend w in
    match err with
    | None => (w, None)
    | Some err =>
      let '(w, reply) := failed_step env w key "Backend startup failed" "" peer err ("backend startup failed: " ++ err) in
      (w, Some reply)
    end
  end.

(** The deferred release of the attempt's reference. *)
Definition release_attempt (env : connect_env) (w : Web R) (backend key : string) : Web R :=
  match ce_ensure env with
  | None => w
  | Some _ => releaseConnectAttemptBackend w backend key
  end.

(** The pairing by link, or by the saved pairing if the link was used. *)
Definition pair_by_url (env : connect_env) (remotes : list RemoteConfig) (w : Web R) (key url backend : string)
  : Web R * res ConnectResult :=
  let '(w, result) := ce_pair env url w in
  match result with
  | Ok r => (w, Ok r)
  | Err err =>
    let peer := pairingFallbackPeer remotes url err in
    if bool_decide (peer = "") then (w, Err err)
    else ce_reauth_peer env peer backend
           (stage env w key "reauth" "Link already used, using saved paired access" "" peer "" None false)
  end.

(** The authenticated connect by link. *)
Definition url_attempt (env : connect_env) (remotes : list RemoteConfig) (cfgProto : string) (w : Web R)
    (key url backend : string) : Web R * connect_reply * option nat :=
  let w := stage env w key "pairing" "Authenticating invite with host" "" "" "" None false in
  let '(w, result) := pair_by_url env remotes w key url backend in
  match result with
  | Err err =>
    let msg := inviteConnectErrorMessage (Some err) in
    (failed_step env w key "Invite authentication failed" "" "" msg msg, None)
  | Ok r =>
    let w := stage env w key "authenticated" "Invite authenticated" (cr_Protocol r) (cr_PeerID r) "" None false in
    connect_tunnel env w key cfgProto r backend false
  end.

Definition connect_by_url (env : connect_env) (remotes : list RemoteConfig) (cfgProto : string) (w : Web R) (key url : string)
  : Web R * connect_reply * option nat :=
  let w := stage env w key "discovery" "Reading invite and discovering host" "" "" "" None false in
  let backend := InviteNetworkBackend url in
  if bool_decide (backend = "") then url_attempt env remotes cfgProto w key url backend
  else
    let '(w, stop) := ensure_backend env w key backend "" in
    let '(w, reply, opened) := match stop with
                               | Some reply => (w, reply, None)
                               | None => url_attempt env remotes cfgProto w key url backend
                               end in
    (release_attempt env w backend key, reply, opened).

(** The authenticated connect to a paired remote. *)
Definition remote_attempt (env : connect_env) (cfgProto : string) (w : Web R) (key : string) (remote : RemoteConfig)
    (backend : string) : Web R * connect_reply * option nat :=
  let peer := rc_NodeID remote in
  let w := stage env w key "reauth" "Authenticating paired host" "" peer "" None false in
  let '(w, result) := ce_reauth env remote backend w in
  match result with
  | Err err => (failed_step env w key "Paired host authentication failed" "" peer err err, None)
  | Ok r =>
    let w := stage env w key "authenticated" "Paired host authenticated" (cr_Protocol r) (cr_PeerID r) "" None false in
    connect_tunnel env w key cfgProto r backend true
  end.

Definition connect_by_remote (env : connect_env) (cfgProto : string) (w : Web R) (key nodeID : string) (remote : option RemoteConfig)
  : Web R * connect_reply * option nat :=
  match remote with
  | None =>
    (stage env w key "failed" "Pairing data is incomplete" "" nodeID "" (Some "paired machine not found"%string) true,
     BadRequest "paired machine not found", None)
  | Some remote =>
    let backend := trim_space (rc_Backend remote) in
    if bool_decide (backend = "") then
      let err := "paired machine is missing invite backend; remove and pair it again"%string in
      (stage env w key "failed" "Pairing data is incomplete" "" (rc_NodeID remote) "" (Some err) true, BadRequest err, None)
    else
      let '(w, stop) := ensure_backend env w key backend (rc_NodeID remote) in
      let '(w, reply, opened) := match stop with
                                 | Some reply => (w, reply, None)
                                 | None => remote_attempt env cfgProto w key remote backend
                                 end in
      (release_attempt env w backend key, reply, opened)
  end.

Definition handleConnect (env : connect_env) (c : Config) (w : Web R) (rq : connectRequest)
  : Web R * connect_reply * option nat :=
  let remote := remoteByRequest (Remotes c) (rq_RemoteKey rq) (rq_NodeID rq) in
  let key := connectRequestKey InvitePeerID (rq_RemoteKey rq) (rq_NodeID rq) (rq_URL rq) in
  if bool_decide (key = "") then (w, BadRequest "url or node_id required", None)
  else match connectedSession w key with
       | Some s => (w, Existing s, None)
       | None =>
         let '(w, begun) := beginConnect w key (ce_now env) in
         if negb begun then (w, Conflict (fst (activeConnectStatus w key (ce_now env))), None)
         else
           let w := setConnectCancel w key (ce_cancel env) in
           let w := stage env w key "starting" "Starting connection" "" "" "" None false in
           let cfgProto := if bool_decide (rdp_Protocol (RDP c) = "") then "rdp"%string else rdp_Protocol (RDP c) in
           let '(w, reply, opened) :=
             if bool_decide (rq_URL rq <> "") then connect_by_url env (Remotes c) cfgProto w key (rq_URL rq)
             else if bool_decide (rq_RemoteKey rq <> "") || bool_decide (rq_NodeID rq <> "")
             then connect_by_remote env cfgProto w key (rq_NodeID rq) remote
             else (w, BadRequest "url or node_id required", None) in
           (call_cancel (endConnect w key) (Some (ce_cancel env)), reply, opened)
       end.

(** ** The other handlers of a connection *)

(** The key of a request that may name it. *)
Definition requestKey (key remoteKey nodeID : string) : string :=
  if bool_decide (trim_space key = "") then connectRequestKey InvitePeerID remoteKey nodeID "" else trim_space key.

Inductive session_reply : Type :=
  | KeyRequired
  | NotConnected (key : string) (st : connectStatus)
  | Ended (key : string) (s : connectSession) (act : Z * Z) (st : connectStatus)
  | Launched (s : connectSession) (act : Z * Z) (proto : string)
  | CancelDone (canceled : bool) (key : string) (st : connectStatus).

Definition handleDisconnect (w : Web R) (act : activity) (key remoteKey nodeID : string) (now : Z) : Web R * session_reply :=
  let key := requestKey key remoteKey nodeID in
  if bool_decide (key = "") then (w, KeyRequired)
  else let '(w, s) := disconnectSession w key now in
       match s with
       | None => (w, NotConnected key (statusSnapshot w act key now))
       | Some s => (w, Ended key s (act (cs_Proxy s)) (statusSnapshot w act key now))
       end.

Definition handleLaunch (w : Web R) (act : activity) (cfgProto : string) (key remoteKey nodeID : string) (now : Z)
  : Web R * session_reply :=
  let key := requestKey key remoteKey nodeID in
  if bool_decide (key = "") then (w, KeyRequired)
  else match connectedSession w key with
       | None => (w, NotConnected key (status_of w key))
       | Some s =>
         if bool_decide (cs_LocalAddr s = "") then (w, NotConnected key (status_of w key))
         else
           let proto := if bool_decide (cs_Protocol s <> "") then cs_Protocol s
                        else if bool_decide (cfgProto <> "") then cfgProto else "rdp"%string in
           (setConnectStatus w act key "ready" ("Tunnel ready at " ++ cs_LocalAddr s) proto (cs_Peer s) (cs_LocalAddr s)
              None true now, Launched s (act (cs_Proxy s)) proto)
       end.

Definition handleCancelConnect (w : Web R) (key remoteKey nodeID : string) (now : Z) : Web R * session_reply :=
  let key := requestKey key remoteKey nodeID in
  if bool_decide (key = "") then (w, KeyRequired)
  else let '(w, st, canceled) := cancelConnect w key now in (w, CancelDone canceled key st).
End Connect.
Arguments connect_env R : clear implicits.

(** ** Lemmas *)

Section ConnectFacts.
Context `{Crypto} {R : Type} `{NetworkBackendsLaws R}.
Implicit Types (env : connect_env R) (w : Web R).

(** A change of the statuses only. *)
Definition same_but_status w w' : Prop := tables w' = tables w /\ w_connects w' = w_connects w.

#[local] Instance same_but_status_pre : PreOrder same_but_status.
Proof. split; [done|]. intros x y z [? ?] [? ?]. split; congruence. Qed.

Lemma stage_frame env w key a b c d e f g : same_but_status w (stage env w key a b c d e f g).
Proof.
  unfold stage. destruct (setConnectStatus_frame w (ce_activity env) key a b c d e f g (ce_now env)) as [->|[m ->]]; done.
Qed.

Lemma failed_step_frame env w key a b c d e :
  same_but_status w (fst (failed_step env w key a b c d e)) /\
  forall x y z, snd (failed_step env w key a b c d e) <> Ready x y z.
Proof. unfold failed_step. destruct (ce_ended env w); (split; [apply stage_frame|done]). Qed.

(** The outcome of a connect: a ready tunnel has a session under the key, and
    no tunnel stays open without one. *)
Definition settled w (key : string) (reply : connect_reply) (opened : option nat) : Prop :=
  match opened, reply with
  | None, Ready _ _ _ => False
  | None, _ => True
  | Some p, Ready _ _ _ => exists s, connectedSession w key = Some s /\ cs_Proxy s = p /\ p ∉ w_closed w
  | Some p, _ => p ∈ w_closed w
  end.

Lemma settled_frame w w' key reply opened :
  w_sessions w' = w_sessions w -> w_closed w' = w_closed w -> settled w key reply opened -> settled w' key reply opened.
Proof. unfold settled, connectedSession. by intros -> ->. Qed.

(** What is asked of the handlers that run meanwhile: they leave the tables good
    and the key, whose attempt this handler holds, without a session; the proxy
    just opened is new and open, no session is in the way of its keys, and the
    host names a protocol. *)
Definition calm (key : string) w : Prop := good w /\ w_sessions w !! key = None.

Record env_ok env (key : string) : Prop := {
  eo_ensure f b w : ce_ensure env = Some f -> calm key w -> calm key (fst (f b w));
  eo_pair u w : calm key w -> calm key (fst (ce_pair env u w));
  eo_reauth_peer p b w : calm key w -> calm key (fst (ce_reauth_peer env p b w));
  eo_reauth r b w : calm key w -> calm key (fst (ce_reauth env r b w));
  eo_tunnel t r w w' p addr : calm key w -> ce_tunnel env t r w = (w', Ok (p, addr)) ->
    good w' /\ fits w' key [pairedConnectKey (cr_PeerID r) (cr_Protocol r) (cr_TargetPort r)] p /\
    p ∉ w_closed w' /\ cr_Protocol r <> ""%string;
}.

Lemma calm_frame key w w' : same_but_status w w' -> calm key w -> calm key w'.
Proof. intros [Ht _] [Hg Hn]. split; [by eapply good_tables|]. apply tables_eq in Ht as (-> & _). done. Qed.

Lemma calm_stage env key w k a b c d e f g : calm key w -> calm key (stage env w k a b c d e f g).
Proof. apply calm_frame, stage_frame. Qed.

Lemma calm_retain key w b k : calm key w -> calm key (retainConnectAttemptBackend w b k).
Proof.
  intros [Hg Hn]. split; [by apply (good_attempt w true)|]. unfold retainConnectAttemptBackend. by case_bool_decide.
Qed.

Lemma close_closed w p now : p ∈ w_closed (closeProxy w p now).
Proof.
  unfold closeProxy. destruct (decide (p ∈ w_closed w)) as [|Hn]; [done|].
  assert (Hf : forall l w, p ∈ w_closed w -> p ∈ w_closed (foldl (fun w key => markSessionClosed w key p "Tunnel disconnected" now) w l)).
  { induction l as [|k l IH]; intros w1 Hp1; cbn [foldl]; [done|]. apply IH. unfold markSessionClosed.
    destruct (w_sessions w1 !! k); [|done]. destruct (negb _); [done|]. unfold releaseSessionBackend. by case_bool_decide. }
  apply Hf. cbn. set_solver.
Qed.

Lemma connect_tunnel_settled env w key cfgProto r fallback need :
  env_ok env key -> calm key w ->
  let '(w', reply, opened) := connect_tunnel env w key cfgProto r fallback need in settled w' key reply opened.
Proof.
  intros Hok Hcalm. unfold connect_tunnel.
  destruct (ce_tunnel env _ _ _) as [w1 [[p addr]|err]] eqn:Et.
  2:{ pose proof (failed_step_frame env w1 key "Tunnel setup failed" cfgProto "" err ("connection failed: " ++ err)) as [_ Hr].
      destruct (failed_step _ _ _ _ _ _ _ _) as [w2 []]; cbn in *; try done. by destruct (Hr _ _ _ eq_refl). }
  destruct (eo_tunnel _ _ Hok _ _ _ _ _ _ (calm_stage _ _ _ _ _ _ _ _ _ _ _ Hcalm) Et) as (Hg & Hfits & Hopen & Hproto).
  rewrite (bool_decide_eq_false_2 (cr_Protocol r = "")), andb_false_r by done.
  set (b := backendForConnectResult (Some r) fallback).
  destruct (retain_frame w1 b key) as (E1 & E2 & E3). pose proof (retain_refs w1 b key) as E4.
  destruct (retainSessionBackend w1 b key) as [w2 [err|]].
  - pose proof (failed_step_frame env (closeProxy w2 p (ce_now env)) key "Tunnel setup failed" (cr_Protocol r) "" err
       ("connection failed: " ++ err)) as [[(_ & _ & Hc & _)%tables_eq _] Hr].
    destruct (failed_step _ _ _ _ _ _ _ _) as [w3 reply]. cbn [fst snd] in Hc, Hr.
    pose proof (close_closed w2 p (ce_now env)) as Hp. rewrite <- Hc in Hp.
    destruct reply; cbn; try done. by destruct (Hr _ _ _ eq_refl).
  - cbn [fst] in *.
    destruct (register_good w1 w2 key (cr_PeerID r) (cr_Protocol r) (cr_Mode r) (cr_TargetPort r) b p addr
      [pairedConnectKey (cr_PeerID r) (cr_Protocol r) (cr_TargetPort r)] (ce_now env) Hg Hfits E1 E2 E3 E4) as [Hg' Ha].
    destruct (Ha Hopen) as (s & Hs & Hp & _).
    match goal with |- context [stage env ?x key ?a ?b ?c ?d ?e ?f ?g] =>
      destruct (stage_frame env x key a b c d e f g) as [(F1 & _ & F3 & _)%tables_eq _] end.
    unfold settled, connectedSession. rewrite F1, F3. exists s. split; [done|]. split; [done|].
    pose proof (g_open _ Hg' key s Hs) as Ho. by rewrite Hp in Ho.
Qed.

Lemma release_attempt_frame env w backend key :
  w_sessions (release_attempt env w backend key) = w_sessions w /\
  w_closed (release_attempt env w backend key) = w_closed w.
Proof.
  unfold release_attempt, releaseConnectAttemptBackend. destruct (ce_ensure env); [|done]. by case_bool_decide.
Qed.

Lemma release_attempt_refs env w backend key :
  ce_ensure env <> None ->
  nb_refs (w_net (release_attempt env w backend key)) = nb_refs (w_net w) ∖ ref_set (trim_space backend) ("attempt:" ++ key).
Proof.
  intros He. unfold release_attempt, releaseConnectAttemptBackend. destruct (ce_ensure env); [|done].
  case_bool_decide as Hb; [|apply nb_refs_release]. rewrite Hb. unfold ref_set, ref_key. cbn. set_solver.
Qed.

Lemma ensure_backend_calm env w key backend peer :
  env_ok env key -> calm key w -> snd (ensure_backend env w key backend peer) = None ->
  calm key (fst (ensure_backend env w key backend peer)).
Proof.
  intros Hok Hc. unfold ensure_backend. destruct (ce_ensure env) as [f|] eqn:Ef; [|done].
  set (w1 := retainConnectAttemptBackend _ backend key).
  assert (Hc1 : calm key w1) by (apply calm_retain, calm_stage, Hc).
  pose proof (eo_ensure _ _ Hok f backend w1 Ef Hc1) as Hf. destruct (f backend w1) as [w2 [err|]]; [|done].
  by destruct (failed_step _ _ _ _ _ _ _ _).
Qed.

Lemma ensure_backend_reply env w key backend peer w' reply :
  ensure_backend env w key backend peer = (w', Some reply) -> forall x y z, reply <> Ready x y z.
Proof.
  unfold ensure_backend. destruct (ce_ensure env) as [ensure|]; [|done]. destruct (ensure _ _) as [w1 [err|]]; [|done].
  pose proof (failed_step_frame env w1 key "Backend startup failed" "" peer err ("backend startup failed: " ++ err)) as [_ Hr].
  destruct (failed_step _ _ _ _ _ _ _ _) as [w2 r]. by intros [= _ <-].
Qed.

Lemma settled_failed env w key a b c d e :
  settled (fst (failed_step env w key a b c d e)) key (snd (failed_step env w key a b c d e)) None.
Proof.
  pose proof (proj2 (failed_step_frame env w key a b c d e)) as Hr. unfold settled.
  destruct (snd _); try done. by destruct (Hr _ _ _ eq_refl).
Qed.

Lemma settled_stop reply w key : (forall x y z, reply <> Ready x y z) -> settled w key reply None.
Proof. intros Hr. destruct reply; cbn; try done. by destruct (Hr _ _ _ eq_refl). Qed.

Lemma pair_by_url_calm env remotes w key url backend :
  env_ok env key -> calm key w -> calm key (fst (pair_by_url env remotes w key url backend)).
Proof.
  intros Hok Hc. unfold pair_by_url. pose proof (eo_pair _ _ Hok url w Hc) as Hp.
  destruct (ce_pair env url w) as [w1 [r|err]]; [done|]. case_bool_decide; [done|].
  apply (eo_reauth_peer _ _ Hok), calm_stage, Hp.
Qed.

Lemma url_attempt_settled env remotes cfgProto w key url backend :
  env_ok env key -> calm key w ->
  let '(w', reply, opened) := url_attempt env remotes cfgProto w key url backend in settled w' key reply opened.
Proof.
  intros Hok Hc. unfold url_attempt.
  match goal with |- context [pair_by_url env remotes ?x key url backend] =>
    pose proof (pair_by_url_calm env remotes x key url backend Hok (calm_stage _ _ _ _ _ _ _ _ _ _ _ Hc)) as Hp end.
  destruct (pair_by_url _ _ _ _ _ _) as [w1 [r|err]]; [by apply connect_tunnel_settled, calm_stage|].
  match goal with |- context [failed_step ?a ?b ?c ?d ?e ?f ?g ?h] => pose proof (settled_failed a b c d e f g h) as Hf end.
  by destruct (failed_step _ _ _ _ _ _ _ _).
Qed.

Lemma remote_attempt_settled env cfgProto w key remote backend :
  env_ok env key -> calm key w ->
  let '(w', reply, opened) := remote_attempt env cfgProto w key remote backend in settled w' key reply opened.
Proof.
  intros Hok Hc. unfold remote_attempt.
  match goal with |- context [ce_reauth env remote backend ?x] =>
    pose proof (eo_reauth _ _ Hok remote backend x (calm_stage _ _ _ _ _ _ _ _ _ _ _ Hc)) as Hp end.
  destruct (ce_reauth env _ _ _) as [w1 [r|err]]; [by apply connect_tunnel_settled, calm_stage|].
  match goal with |- context [failed_step ?a ?b ?c ?d ?e ?f ?g ?h] => pose proof (settled_failed a b c d e f g h) as Hf end.
  by destruct (failed_step _ _ _ _ _ _ _ _).
Qed.

(** Both ways end with the release of the attempt's reference. *)
Lemma attempt_released env w stop backend key (attempt : Web R -> Web R * connect_reply * option nat) :
  (let '(w', reply, opened) := attempt w in stop = None -> settled w' key reply opened) ->
  (forall reply, stop = Some reply -> forall x y z, reply <> Ready x y z) ->
  let '(w', reply, opened) := match stop with Some reply => (w, reply, None) | None => attempt w end in
  settled (release_attempt env w' backend key) key reply opened /\
  (ce_ensure env <> None -> forall x, ref_key (trim_space backend) ("attempt:" ++ key) = Some x ->
     x ∉ nb_refs (w_net (release_attempt env w' backend key))).
Proof.
  intros Ha Hs.
  assert (Hr : forall w', ce_ensure env <> None -> forall x, ref_key (trim_space backend) ("attempt:" ++ key) = Some x ->
     x ∉ nb_refs (w_net (release_attempt env w' backend key))).
  { intros w' He x Hx. rewrite release_attempt_refs by done. apply ref_set_spec in Hx. set_solver. }
  destruct stop as [reply|]; [split; [|by apply Hr]|].
  - apply settled_stop. by apply Hs.
  - destruct (attempt w) as [[w' reply] opened]. split; [|by apply Hr].
    destruct (release_attempt_frame env w' backend key). eapply settled_frame; [done..|]. by apply Ha.
Qed.

Lemma connect_by_url_settled env remotes cfgProto w key url :
  env_ok env key -> calm key w ->
  let '(w', reply, opened) := connect_by_url env remotes cfgProto w key url in
  settled w' key reply opened /\
  (ce_ensure env <> None -> forall x, ref_key (trim_space (InviteNetworkBackend url)) ("attempt:" ++ key) = Some x ->
     x ∉ nb_refs (w_net w')).
Proof.
  intros Hok Hc. unfold connect_by_url. set (backend := InviteNetworkBackend url). set (w0 := stage env w key _ _ _ _ _ _ _).
  assert (Hc0 : calm key w0) by (by apply calm_stage). case_bool_decide as Hb.
  - pose proof (url_attempt_settled env remotes cfgProto w0 key url backend Hok Hc0) as Hu.
    destruct (url_attempt _ _ _ _ _ _ _) as [[w1 reply] opened]. split; [done|]. intros _ x. by rewrite Hb.
  - pose proof (ensure_backend_calm env w0 key backend "" Hok Hc0) as Hc1.
    destruct (ensure_backend env w0 key backend "") as [w1 stop] eqn:Es. cbn [fst snd] in Hc1.
    assert (Ha : let '(w', reply, opened) := url_attempt env remotes cfgProto w1 key url backend in
                 stop = None -> settled w' key reply opened).
    { pose proof (url_attempt_settled env remotes cfgProto w1 key url backend Hok) as Hu.
      destruct (url_attempt _ _ _ _ _ _ _) as [[? ?] ?]. auto. }
    apply (attempt_released env w1 stop backend key (fun w => url_attempt env remotes cfgProto w key url backend)) in Ha;
      [|intros r ->; by eapply ensure_backend_reply].
    destruct stop; [exact Ha|]. by destruct (url_attempt _ _ _ _ _ _ _) as [[? ?] ?].
Qed.

Lemma connect_by_remote_settled env cfgProto w key nodeID remote :
  env_ok env key -> calm key w ->
  let '(w', reply, opened) := connect_by_remote env cfgProto w key nodeID remote in
  settled w' key reply opened /\
  (ce_ensure env <> None -> forall r x, remote = Some r -> ref_key (trim_space (rc_Backend r)) ("attempt:" ++ key) = Some x ->
     x ∉ nb_refs (w_net w')).
Proof.
  intros Hok Hc. unfold connect_by_remote. destruct remote as [remote|]; [|split; [done|by intros _ r x [=]]].
  set (backend := trim_space (rc_Backend remote)). case_bool_decide as Hb.
  { split; [done|]. intros _ r x [= <-]. fold backend. by rewrite Hb. }
  pose proof (ensure_backend_calm env w key backend (rc_NodeID remote) Hok Hc) as Hc1.
  destruct (ensure_backend env w key backend (rc_NodeID remote)) as [w1 stop] eqn:Es. cbn [fst snd] in Hc1.
  assert (Ha : let '(w', reply, opened) := remote_attempt env cfgProto w1 key remote backend in
               stop = None -> settled w' key reply opened).
  { pose proof (remote_attempt_settled env cfgProto w1 key remote backend Hok) as Hu.
    destruct (remote_attempt _ _ _ _ _ _) as [[? ?] ?]. auto. }
  apply (attempt_released env w1 stop backend key (fun w => remote_attempt env cfgProto w key remote backend)) in Ha;
    [|intros r ->; by eapply ensure_backend_reply].
  destruct (match stop with Some reply => (w1, reply, None) | None => remote_attempt env cfgProto w1 key remote backend end)
    as [[w2 reply] opened] eqn:Ew.
  replace (match stop with Some reply => (w1, reply, None) | None => (fun w => remote_attempt env cfgProto w key remote backend) w1 end)
    with (w2, reply, opened) in Ha by (by rewrite <- Ew). destruct Ha as [Hset Href].
  split; [done|]. intros He r x [= <-] Hx. apply Href; [done|]. unfold backend. by rewrite trim_space_idem.
Qed.
End ConnectFacts.

(** ** Properties *)

(** The backend a request connects over. *)
Definition request_backend (c : Config) (rq : connectRequest) : option string :=
  if bool_decide (rq_URL rq <> "") then Some (InviteNetworkBackend (rq_URL rq))
  else rc_Backend <$> remoteByRequest (Remotes c) (rq_RemoteKey rq) (rq_NodeID rq).


Definition sample_paired : RemoteConfig :=
  mkRemote "desk" "A" "" "" "iroh" "rdp" 3389 [] "" [] (mkInfo "" false "" "" "") 0 0.
Definition sample_web_config : Config := set_remotes (defaultConfig (Ok "h")) [sample_paired].
Definition sample_connect_result : ConnectResult := mkConnect "A" [] "ticket" "" "host" "pairing" "rdp" 3389 [].
Definition sample_connect_env : connect_env (gset (string * string)) :=
  mkConnectEnv (Some (fun _ w => (w, None))) (fun _ w => (w, Err "unused")) (fun _ _ w => (w, Err "unused"))
    (fun _ _ w => (w, Ok sample_connect_result))
    (fun _ r w => if decide (w_sessions w = ∅ /\ 1%nat ∉ w_closed w /\ cr_Protocol r <> ""%string)
                  then (w, Ok (1%nat, "127.0.0.1:5000"%string)) else (w, Err "busy"))
    (fun _ => false) 9 (fun _ => (0, 0)) 5.
Definition sample_connect : connectRequest := mkConnectRequest "" "A" "".
Definition sample_connected : Web (gset (string * string)) * connect_reply * option nat :=
  handleConnect sample_connect_env sample_web_config (newWeb ∅) sample_connect.

Lemma sample_env_ok : env_ok sample_connect_env "peer:A".
Proof.
  split; cbn [sample_connect_env ce_ensure ce_pair ce_reauth_peer ce_reauth ce_tunnel fst]; try done.
  - by intros f b w [= <-].
  - intros t r w w' p addr [Hg Hn]. destruct (decide _) as [(He & Hc & Hp)|]; [|done]. intros [= <- <- <-].
    split; [done|]. split; [|done]. split; [done|]. split; [by vm_compute|]. split; [done|].
    split; [intros k s|intros k s _]; rewrite He; by intros ?%lookup_empty_Some.
Qed.


(** A host that names no protocol: the dashboard reports a ready tunnel, but
    files no session for it, and nothing closes it. *)
Lemma empty_protocol_leaks_tunnel :
  let env := mkConnectEnv None (fun _ w => (w, Err "unused")) (fun _ _ w => (w, Err "unused"))
    (fun _ _ w => (w, Ok (mkConnect "A" [] "ticket" "" "host" "pairing" "" 3389 [])))
    (fun _ _ w => (w, Ok (1%nat, "127.0.0.1:5000"%string))) (fun _ => false) 9 (fun _ => (0, 0)) 5 in
  let '(w, reply, opened) := handleConnect env sample_web_config (newWeb (∅ : gset (string * string))) sample_connect in
  reply = Ready "" "" "rdp" /\ opened = Some 1%nat /\ w_sessions w !! "peer:A"%string = None /\
  bool_decide (1%nat ∈ w_closed w) = false.
Proof. vm_compute. done. Qed.
