(* ===== verification/Logger.v ===== *)
(** * Logger: [internal/logger]

    The choice of the log file, the writers behind the handler, the handler
    whose target is replaced, and the tail that the dashboard's [handleLogs]
    shows.  The file system and the process environment are functions; the JSON
    handler of [log/slog] is modelled by what it prints where: attributes under
    the groups open when they are added. *)

From stdpp Require Import gmap.
From S2P Require Import Prelude GoStrings.

(** ** Environment *)

Definition envBool (v : string) : bool :=
  bool_decide (to_lower (trim_space v) ∈ ["1"; "true"; "yes"; "y"; "on"; "debug"]%string).

(** [getenv] is [os.Getenv]. *)
Fixpoint firstEnv (getenv : string -> string) (names : list string) : string :=
  match names with
  | [] => ""
  | name :: r => let v := trim_space (getenv name) in if bool_decide (v = "") then firstEnv getenv r else v
  end.

(** ** The log file *)

(** The host: its name, [filepath.Join] and the user's home. *)
Record host : Type := mkHost {
  ho_windows : bool;
  ho_getenv : string -> string;
  ho_join : list string -> string;
  ho_home : option string;
}.

Definition add_candidate (candidates : list string) (path : string) : list string :=
  let path := trim_space path in
  if bool_decide (path = "") || bool_decide (path ∈ candidates) then candidates else app candidates [path].

(** The file under the directory that a variable names. *)
Definition env_file (h : host) (name : string) (rest : list string) : list string :=
  let dir := ho_getenv h name in if bool_decide (dir = "") then [] else [ho_join h (dir :: rest)].

(** The Windows directories, in the order they are tried. *)
Definition program_data (h : host) : list string :=
  concat [env_file h "ProgramData" ["DeskAccess"; "DeskAccess.log"];
          env_file h "APPDATA" ["DeskAccess"; "DeskAccess.log"];
          env_file h "LOCALAPPDATA" ["DeskAccess"; "DeskAccess.log"]].

Definition default_candidates (h : host) : list string :=
  if ho_windows h then
    program_data h
  else
    ho_join h ["/"; "var"; "lib"; "deskaccess"; "DeskAccess.log"]
    :: concat [env_file h "XDG_STATE_HOME" ["DeskAccess"; "DeskAccess.log"];
               match ho_home h with
               | None => []
               | Some home =>
                 if bool_decide (home = "") then []
                 else [ho_join h [home; ".local"; "state"; "DeskAccess"; "DeskAccess.log"];
                       ho_join h [home; ".local"; "share"; "DeskAccess"; "DeskAccess.log"]]
               end].

Definition logFileCandidates (h : host) (preferred : string) : list string :=
  foldl add_candidate [] (preferred :: default_candidates h).

Definition LogFile (h : host) : string :=
  if ho_windows h then
    match program_data h with
    | path :: _ => path
    | [] => ho_join h ["DeskAccess.log"]
    end
  else ho_join h ["/"; "var"; "lib"; "deskaccess"; "DeskAccess.log"].

(** [open_path]: [MkdirAll] and [OpenFile] of a candidate. *)
Fixpoint open_first (open_path : string -> res unit) (paths : list string) (lastErr : option string) : res string :=
  match paths with
  | [] => Err (default "no log file path configured" lastErr)
  | path :: r =>
    if bool_decide (path = "") then open_first open_path r lastErr
    else match open_path path with
         | Ok _ => Ok path
         | Err e => open_first open_path r (Some (path ++ ": " ++ e)%string)
         end
  end.
Definition openLogFile (h : host) (open_path : string -> res unit) (preferred : string) : res string :=
  open_first open_path (logFileCandidates h preferred) None.

(** What [Init] sets up: the log file, whether debug entries are printed, and
    why the file is disabled. *)
Record logging : Type := mkLogging { lg_path : string; lg_debug : bool; lg_disabled : option string }.

Definition Init (h : host) (open_path : string -> res unit) (logFile : string) (debug : bool) : logging :=
  let env := firstEnv (ho_getenv h) ["DESKACCESS_LOG"; "DeskAccess_LOG"] in
  let logFile := if negb (ho_windows h) && negb (bool_decide (env = "")) then env else logFile in
  let debug := debug || envBool (firstEnv (ho_getenv h) ["DESKACCESS_DEBUG"; "DeskAccess_DEBUG"]) in
  if bool_decide (logFile = "") then mkLogging "" debug None
  else match openLogFile h open_path logFile with
       | Ok path => mkLogging path debug None
       | Err e => mkLogging "" debug (Some e)
       end.

(** ** Writers *)

(** [bestEffortWriter.Write] of [n] bytes, with each writer's result. *)
Definition bestEffort (n : Z) (results : list (option string)) : Z * option string :=
  if existsb (fun r => bool_decide (r = None)) results then (n, None)
  else match omap id results with
       | e :: _ => (0, Some e)
       | [] => (n, None)
       end.

(** ** The replaceable handler *)

Inductive with_call : Type :=
  | WithAttrs (attrs : list string)
  | WithGroup (name : string).

(** The JSON handler: where its attributes are printed, and the open groups. *)
Record json_handler : Type := mkJson { js_attrs : list (list string * string); js_path : list string }.
Definition json_with (h : json_handler) (c : with_call) : json_handler :=
  match c with
  | WithAttrs attrs => mkJson (js_attrs h ++ map (fun a => (js_path h, a)) attrs) (js_path h)
  | WithGroup name => mkJson (js_attrs h) (js_path h ++ [name])
  end.

Record swapHandler : Type := mkSwap { sw_attrs : list string; sw_groups : list string }.
Definition swap_with (h : swapHandler) (c : with_call) : swapHandler :=
  match c with
  | WithAttrs attrs => mkSwap (sw_attrs h ++ attrs) (sw_groups h)
  | WithGroup name => mkSwap (sw_attrs h) (sw_groups h ++ [name])
  end.

(** [Handle]: the target with the groups, then with the attributes. *)
Definition swap_target (h : swapHandler) (target : json_handler) : json_handler :=
  let t := foldl (fun t g => json_with t (WithGroup g)) target (sw_groups h) in
  match sw_attrs h with [] => t | attrs => json_with t (WithAttrs attrs) end.

(** ** The tail *)

Fixpoint split_lines (l : bytes) : list bytes :=
  match l with
  | [] => [[]]
  | x0a :: r => [] :: split_lines r
  | b :: r => match split_lines r with [] => [[b]] | x :: ls => (b :: x) :: ls end
  end.

Definition maxBytes : nat := 512 * 1024.

Fixpoint index_nl (l : bytes) : option nat :=
  match l with
  | [] => None
  | x0a :: _ => Some O
  | _ :: r => S <$> index_nl r
  end.

(** The end of a long file, from the first whole line. *)
Definition cut_front (max : nat) (data : bytes) : bytes :=
  if (max <? length data)%nat then
    let data := drop (length data - max) data in
    match index_nl data with
    | Some i => if (i + 1 <? length data)%nat then drop (i + 1) data else data
    | None => data
    end
  else data.

Definition last_lines (n : nat) (ls : list bytes) : list bytes :=
  if (n <? length ls)%nat then drop (length ls - n) ls else ls.

(** [Tail], with the outcome of reading the log file. *)
Definition Tail (max : nat) (logPath : string) (read : res bytes) (maxLines : Z) : res (list string) :=
  if bool_decide (logPath = "") then Err "file logging is disabled"
  else
    let maxLines := if maxLines <=? 0 then 200 else maxLines in
    match read with
    | Err e => Err e
    | Ok data =>
      let raw := last_lines (Z.to_nat maxLines) (split_lines (trim_space_bytes (cut_front max data))) in
      Ok (of_bytes <$> List.filter (fun line => negb (bool_decide (trim_space_bytes line = []))) raw)
    end.

(** [handleLogs]: the lines asked for, at most a thousand; [asked] is the
    number that [fmt.Sscanf] reads from the query. *)
Definition log_lines (query : string) (asked : option Z) : Z :=
  let lines := if bool_decide (query = "") then 200
               else match asked with Some n => if n <=? 0 then 200 else n | None => 200 end in
  if 1000 <? lines then 1000 else lines.
Definition handleLogs (logPath : string) (read : res bytes) (query : string) (asked : option Z) : res (list string) :=
  Tail maxBytes logPath read (log_lines query asked).

(** ** The log file is the first candidate that opens *)

Lemma add_candidate_inv l p : NoDup l -> NoDup (add_candidate l p).
Proof.
  intros Hn. unfold add_candidate. destruct (bool_decide (trim_space p = "") || bool_decide (trim_space p ∈ l)) eqn:E; [done|].
  apply orb_false_iff in E as [_ E%bool_decide_eq_false]. apply NoDup_app. split; [done|]. split; [|apply NoDup_singleton].
  intros x Hx ->%list_elem_of_singleton. done.
Qed.

Lemma candidates_NoDup h preferred : NoDup (logFileCandidates h preferred).
Proof.
  unfold logFileCandidates. generalize (preferred :: default_candidates h). intros l.
  cut (forall acc, NoDup acc -> NoDup (foldl add_candidate acc l)); [intros Hc; apply Hc, NoDup_nil_2|].
  induction l as [|p l IH]; intros acc Ha; [done|]. by apply IH, add_candidate_inv.
Qed.

(** ** Lines *)

Definition render (ls : list bytes) : bytes := concat ((fun l => l ++ [x0a]) <$> ls).

(** A line as the JSON handler writes it: one object, shorter than the part of
    the file that is read. *)
Definition log_line (max : nat) (l : bytes) : Prop :=
  (exists m, l = x7b :: m ++ [x7d]) /\ x0a ∉ l /\ (length l + 1 < max)%nat.

Lemma render_cons l ls : render (l :: ls) = l ++ x0a :: render ls.
Proof. unfold render. cbn. by rewrite <- app_assoc. Qed.

Lemma split_lines_nil l : x0a ∉ l -> split_lines l = [l].
Proof.
  induction l as [|b l IH]; [done|]. intros Hn. assert (Hl : x0a ∉ l) by (intros ?; apply Hn; by right).
  assert (Hb : b <> x0a) by (intros ->; apply Hn; by left). cbn [split_lines]. rewrite IH by done. by destruct b.
Qed.

Lemma split_lines_app l r : x0a ∉ l -> split_lines (l ++ x0a :: r) = l :: split_lines r.
Proof.
  induction l as [|b l IH]; [done|]. intros Hn. assert (Hl : x0a ∉ l) by (intros ?; apply Hn; by right).
  assert (Hb : b <> x0a) by (intros ->; apply Hn; by left). cbn [app split_lines]. rewrite IH by done. by destruct b.
Qed.

Lemma index_nl_app q r : x0a ∉ q -> index_nl (q ++ x0a :: r) = Some (length q).
Proof.
  induction q as [|b q IH]; [done|]. intros Hn. assert (Hq : x0a ∉ q) by (intros ?; apply Hn; by right).
  assert (Hb : b <> x0a) by (intros ->; apply Hn; by left). cbn [app index_nl]. rewrite IH by done. by destruct b.
Qed.

Lemma split_render ls z :
  Forall (fun l => x0a ∉ l) ls -> x0a ∉ z -> split_lines (render ls ++ z) = ls ++ [z].
Proof.
  intros Hls Hz. induction Hls as [|l ls Hl _ IH]; [by apply split_lines_nil|].
  by rewrite render_cons, <- app_assoc, <- app_comm_cons, split_lines_app, IH.
Qed.

(** What is left after any number of bytes starts inside a line. *)
Lemma drop_render ls : forall d, (d < length (render ls))%nat ->
  exists q k l, l ∈ ls /\ drop d (render ls) = q ++ x0a :: render (drop k ls) /\ (length q <= length l)%nat /\ (x0a ∉ l -> x0a ∉ q).
Proof.
  induction ls as [|l ls IH]; intros d Hd; [cbn in Hd; lia|]. rewrite render_cons in *.
  destruct (decide (d <= length l)%nat) as [Hle|Hgt].
  - exists (drop d l), 1%nat, l. split; [by left|]. rewrite drop_app_le by done. split; [done|].
    split; [rewrite length_drop; lia|]. intros Hn Hx. apply Hn. rewrite <- (take_drop d l). apply elem_of_app. by right.
  - rewrite length_app in Hd. cbn in Hd. destruct (IH (d - length l - 1)%nat ltac:(lia)) as (q & k & x & Hx & Hq & Hr).
    exists q, (S k), x. split; [by right|]. split; [|done]. rewrite drop_app_ge by lia.
    replace (d - length l)%nat with (S (d - length l - 1)) by lia. exact Hq.
Qed.

Lemma cut_front_render max ls :
  Forall (log_line max) ls -> exists k, cut_front max (render ls) = render (drop k ls) /\
    ((length (render ls) <= max)%nat -> k = 0%nat).
Proof.
  intros Hls. unfold cut_front. destruct (max <? length (render ls))%nat eqn:El.
  2:{ exists 0%nat. done. }
  apply Nat.ltb_lt in El. assert (Hmax : (0 < max)%nat).
  { destruct Hls as [|l ls (_ & _ & Hm) _]; [cbn in El; lia|lia]. }
  destruct (drop_render ls (length (render ls) - max) ltac:(lia)) as (q & k & l & Hl & Hd & Hq & Hn).
  rewrite Forall_forall in Hls. destruct (Hls l Hl) as (_ & Hnl & Hlen). exists k. split; [|lia].
  cbv zeta. rewrite Hd, index_nl_app by auto.
  assert (Hsz : length (q ++ x0a :: render (drop k ls)) = max) by (rewrite <- Hd, length_drop; lia).
  rewrite Hsz, (proj2 (Nat.ltb_lt _ _)) by lia.
  replace (length q + 1)%nat with (length (q ++ [x0a])) by (rewrite length_app; done).
  change (x0a :: render (drop k ls)) with ([x0a] ++ render (drop k ls)). by rewrite app_assoc, drop_app_length.
Qed.

Lemma log_line_trim max l : log_line max l -> trim_space_bytes l = l.
Proof.
  intros ((m & ->) & _). unfold trim_space_bytes. rewrite (strip_id lead_space) by done.
  rewrite (strip_id last_space); [apply rev_involutive|]. by rewrite app_comm_cons, rev_app_distr.
Qed.

Lemma trim_render max ls z :
  Forall (log_line max) (ls ++ [z]) -> trim_space_bytes (render (ls ++ [z])) = render ls ++ z.
Proof.
  intros Hf. assert (Hr : render (ls ++ [z]) = (render ls ++ z) ++ [x0a]).
  { unfold render. rewrite fmap_app, concat_app. cbn. by rewrite app_nil_r, app_assoc. }
  assert (Hlead : lead_space (render (ls ++ [z])) = None).
  { destruct ls as [|l ls]; [|]; [apply Forall_inv in Hf as ((m & ->) & _)|apply Forall_inv in Hf as ((m & ->) & _)]; done. }
  unfold trim_space_bytes. rewrite (strip_id lead_space) by done. rewrite Hr, rev_app_distr, length_app, Nat.add_comm.
  cbn [rev app length Nat.add strip last_space]. rewrite (strip_id last_space); [apply rev_involutive|].
  apply Forall_app in Hf as [_ Hz%Forall_inv]. destruct Hz as ((m & ->) & _).
  by rewrite app_comm_cons, app_assoc, rev_app_distr.
Qed.

Lemma last_lines_drop n (ls : list bytes) : last_lines n ls = drop (length ls - n) ls.
Proof.
  unfold last_lines. destruct (n <? length ls)%nat eqn:E; [done|]. apply Nat.ltb_ge in E.
  by replace (length ls - n)%nat with 0%nat by lia.
Qed.

(** ** Properties *)

(** The tail is whole lines.  Of a log of JSON lines the dashboard gets the
    last ones, in order, whole and at most as many as asked for; exactly as many
    as asked for, or all, when the log fits into what is read. *)
Lemma tail_whole_lines max path ls maxLines
  (Hlines : Forall (log_line max) ls) (Hpath : path <> ""%string) :
  let n := Z.to_nat (if maxLines <=? 0 then 200 else maxLines) in
  exists k, Tail max path (Ok (render ls)) maxLines = Ok (of_bytes <$> drop k ls) /\
    (length ls - k <= n)%nat /\
    ((length (render ls) <= max)%nat -> (k = length ls - n)%nat).
Proof.
  intros n. destruct (cut_front_render max ls Hlines) as (k0 & Hc & Hk0).
  unfold Tail. rewrite bool_decide_eq_false_2 by done. fold n. rewrite Hc.
  pose proof (Forall_drop _ k0 _ Hlines) as Hd. clear Hc.
  assert (Hnb : forall j, List.filter (fun line => negb (bool_decide (trim_space_bytes line = []))) (drop j (drop k0 ls)) =
                          drop j (drop k0 ls)).
  { intros j. apply (Forall_drop _ j) in Hd. induction Hd as [|l r Hl _ IH]; [done|]. cbn [List.filter].
    rewrite (log_line_trim max) by done. rewrite IH. rewrite bool_decide_eq_false_2; [done|].
    by destruct Hl as ((m & ->) & _). }
  assert (Hs : last_lines n (split_lines (trim_space_bytes (render (drop k0 ls)))) = drop (length (drop k0 ls) - n) (drop k0 ls) \/
               drop k0 ls = []).
  { destruct (drop k0 ls) as [|l r] eqn:Er using rev_ind; [by right|left]. clear IHr Er.
    rewrite (trim_render max) by done. apply Forall_app in Hd as [Hr Hz%Forall_inv]. rewrite split_render.
    - apply last_lines_drop.
    - eapply Forall_impl; [exact Hr|]. by intros x (_ & Hx & _).
    - apply Hz. }
  destruct Hs as [->|Hnil].
  - exists (k0 + (length (drop k0 ls) - n))%nat. rewrite Hnb, drop_drop. rewrite length_drop. split; [done|].
    split; [lia|]. intros Hfit%Hk0. lia.
  - exists k0. rewrite Hnil. cbn. assert (Hl : (length ls - k0 = 0)%nat) by (rewrite <- length_drop, Hnil; done).
    split; [|split; [lia|]].
    + unfold last_lines. cbn. by destruct n.
    + intros Hfit%Hk0. lia.
Qed.

Definition sample_lines : list bytes := to_bytes <$> ["{one}"; "{two}"; "{three}"; "{four}"]%string.

Lemma tail_whole_lines_witness :
  exists k, Tail 16 "log" (Ok (render sample_lines)) 1 = Ok (of_bytes <$> drop k sample_lines) /\
    (length sample_lines - k <= 1)%nat /\ Tail 16 "log" (Ok (render sample_lines)) 1 = Ok ["{four}"%string].
Proof.
  assert (Hl : Forall (log_line 16) sample_lines).
  { assert (Hi : forall m, existsb (Byte.eqb x0a) m = false -> (length m < 13)%nat -> log_line 16 (x7b :: m ++ [x7d])).
    { intros m Hm Hlen. split; [by eexists|]. split; [|cbn; rewrite length_app; cbn; lia].
      intros [?|[Hx|[?|Hx%not_elem_of_nil]%elem_of_cons]%elem_of_app]%elem_of_cons; try done.
      apply not_true_iff_false in Hm. apply Hm, existsb_exists. exists x0a. by rewrite <- list_elem_of_In. }
    unfold sample_lines. repeat (apply Forall_cons; split); [..|by apply Forall_nil].
    - apply (Hi (to_bytes "one")); [reflexivity|cbn; lia].
    - apply (Hi (to_bytes "two")); [reflexivity|cbn; lia].
    - apply (Hi (to_bytes "three")); [reflexivity|cbn; lia].
    - apply (Hi (to_bytes "four")); [reflexivity|cbn; lia]. }
  destruct (tail_whole_lines 16 "log" sample_lines 1 Hl ltac:(discriminate)) as (k & Hk & Hn & _).
  exists k. split; [exact Hk|]. split; [exact Hn|]. vm_compute. reflexivity.
Defined.

(** Attributes added to the replaceable handler, with every group opened before
    them, print where the target prints them. *)
Lemma swap_groups_first gs attrs target :
  swap_target (foldl swap_with (mkSwap [] []) (map WithGroup gs ++ map WithAttrs attrs)) target =
    foldl json_with target (map WithGroup gs ++ map WithAttrs attrs).
Proof.
  assert (Hg : forall gs h, foldl swap_with h (map WithGroup gs) = mkSwap (sw_attrs h) (sw_groups h ++ gs)).
  { clear. induction gs as [|g gs IH]; intros h; cbn; [by rewrite app_nil_r; destruct h|]. rewrite IH. cbn. by rewrite <- app_assoc. }
  assert (Ha : forall attrs h, foldl swap_with h (map WithAttrs attrs) = mkSwap (sw_attrs h ++ concat attrs) (sw_groups h)).
  { clear. induction attrs as [|a attrs IH]; intros h; cbn; [by rewrite app_nil_r; destruct h|]. rewrite IH. cbn. by rewrite <- app_assoc. }
  rewrite !foldl_app, Hg, Ha. unfold swap_target. cbn [sw_attrs sw_groups app].
  assert (Hf : forall t, foldl (fun t g => json_with t (WithGroup g)) t gs = foldl json_with t (map WithGroup gs)).
  { clear. induction gs as [|g gs IH]; intros t; [done|]. apply IH. }
  rewrite Hf. generalize (foldl json_with target (map WithGroup gs)). intros t.
  assert (Hj : foldl json_with t (map WithAttrs attrs) = json_with t (WithAttrs (concat attrs))).
  { clear. revert t. induction attrs as [|a attrs IH]; intros t; cbn; [by rewrite app_nil_r; destruct t|].
    rewrite IH. cbn. by rewrite map_app, app_assoc. }
  rewrite Hj. destruct (concat attrs); [|done]. cbn. rewrite app_nil_r. by destruct t.
Qed.

(** An attribute added before a group ends up inside it. *)
Lemma attrs_before_group_misplaced :
  let calls := [WithAttrs ["component"%string]; WithGroup "request"] in
  js_attrs (swap_target (foldl swap_with (mkSwap [] []) calls) (mkJson [] [])) = [(["request"], "component")%string] /\
  js_attrs (foldl json_with (mkJson [] []) calls) = [([], "component")%string].
Proof. done. Qed.

(** The log file is the first candidate that can be opened. *)
Lemma openLogFile_first h open_path preferred path :
  openLogFile h open_path preferred = Ok path ->
  exists l1 l2, logFileCandidates h preferred = l1 ++ path :: l2 /\ open_path path = Ok tt /\ path <> ""%string /\
    forall p, p ∈ l1 -> p = ""%string \/ exists e, open_path p = Err e.
Proof.
  unfold openLogFile. generalize (logFileCandidates h preferred) (@None string). intros l.
  induction l as [|p l IH]; intros last; cbn; [done|]. case_bool_decide as Hp.
  - intros (l1 & l2 & -> & Ho & Hne & Hl)%IH. exists (p :: l1), l2. split; [done|]. split; [done|]. split; [done|].
    intros x [->|Hx]%elem_of_cons; auto.
  - destruct (open_path p) as [[]|e] eqn:Eo.
    + intros [= <-]. exists [], l. split; [done|]. split; [done|]. split; [done|]. by intros x ?%not_elem_of_nil.
    + intros (l1 & l2 & -> & Ho & Hne & Hl)%IH. exists (p :: l1), l2. split; [done|]. split; [done|]. split; [done|].
      intros x [->|Hx]%elem_of_cons; eauto.
Qed.

(** A write succeeds when one writer takes it. *)
Lemma bestEffort_some n results :
  bestEffort n results = (n, None) \/ (bestEffort n results = (0, head (omap id results)) /\ Forall (fun r => r <> None) results).
Proof.
  unfold bestEffort. destruct (existsb _ results) eqn:E; [by left|].
  destruct (omap id results) eqn:Eo; [by left|right]. split; [done|].
  apply Forall_forall. intros r Hr ->. apply not_true_iff_false in E. apply E, existsb_exists. exists None.
  split; [by apply list_elem_of_In|done].
Qed.
