(* ===== verification/SidecarFiles.v ===== *)
(** * SidecarFiles: where the iroh sidecar's program and files are

    The candidate paths of [internal/irohsidecar/sidecar.go]: its log file,
    the directory of its ready file, and its binary.  The host is that of
    [Logger], with the directories only this package asks for. *)

From S2P Require Import Prelude GoStrings Logger Sidecar.

(** [os.Getwd], [os.UserCacheDir], the directory of [os.Executable],
    [logger.CurrentLogFile] and [filepath.Dir]. *)
Record places : Type := mkPlaces {
  pl_host : host;
  pl_wd : option string;
  pl_cache : option string;
  pl_exeDir : option string;
  pl_logFile : string;
  pl_dir : string -> string;
}.

Definition sidecarLogName : string := "deskaccess-iroh-sidecar.log".
Definition sidecarBinaryBaseName : string := "deskaccess-iroh-sidecar".

Section Files.
Context (p : places).
#[local] Notation h := (pl_host p).
#[local] Notation joined := (ho_join (pl_host p)).

(** A path under a directory, if there is the directory. *)
Definition under (dir : option string) (rest : list string) : list string :=
  match dir with Some dir => [joined (dir :: rest)] | None => [] end.
Definition nonempty (dir : option string) : option string :=
  match dir with Some dir => if bool_decide (dir = "") then None else Some dir | None => None end.

Definition sidecarLogCandidates : list string :=
  foldl add_candidate [] (
    ho_getenv h "DESKACCESS_IROH_SIDECAR_LOG"
    :: env_file h "DESKACCESS_LOG_DIR" [sidecarLogName]
    ++ (if bool_decide (pl_logFile p = "") then [] else [joined [pl_dir p (pl_logFile p); sidecarLogName]])
    ++ (if ho_windows h then
          concat [env_file h "ProgramData" ["DeskAccess"; sidecarLogName]; env_file h "APPDATA" ["DeskAccess"; sidecarLogName];
                  env_file h "LOCALAPPDATA" ["DeskAccess"; sidecarLogName]]
        else
          joined ["/"; "var"; "lib"; "deskaccess"; sidecarLogName]
          :: env_file h "XDG_STATE_HOME" ["DeskAccess"; sidecarLogName]
          ++ under (nonempty (ho_home h)) [".local"; "share"; "DeskAccess"; sidecarLogName])
    ++ under (pl_wd p) [".deskaccess-logs"; sidecarLogName]).

Definition runtimeDirCandidates : list string :=
  (let dir := ho_getenv h "DESKACCESS_RUNTIME_DIR" in if bool_decide (dir = "") then [] else [dir])
  ++ (if ho_windows h then
        env_file h "LOCALAPPDATA" ["DeskAccess"; "run"] ++ env_file h "APPDATA" ["DeskAccess"; "run"]
      else
        env_file h "XDG_RUNTIME_DIR" ["DeskAccess"] ++ under (pl_cache p) ["DeskAccess"; "run"]
        ++ under (ho_home h) [".local"; "share"; "DeskAccess"; "run"]
        ++ under (ho_home h) [".config"; "DeskAccess"; "run"])
  ++ under (pl_wd p) [".deskaccess-run"].

(** The loop of [prepareSidecarLogFile] and of [createReadyFile]: blank paths
    are skipped and the last error is reported. *)
Fixpoint first_usable {B} (try : string -> res B) (none : string) (paths : list string) (lastErr : option string) : res B :=
  match paths with
  | [] => Err (default none lastErr)
  | path :: r =>
    if bool_decide (trim_space path = "") then first_usable try none r lastErr
    else match try path with
         | Ok b => Ok b
         | Err err => first_usable try none r (Some (path ++ ": " ++ err)%string)
         end
  end.

(** [open] is [MkdirAll] of the directory and [OpenFile]. *)
Definition prepareSidecarLogFile (open : string -> res unit) : res string :=
  first_usable (fun path => _ ← open path; Ok path) "no iroh sidecar log file path available" sidecarLogCandidates None.

(** [create] is [MkdirAll] of the directory and [CreateTemp] in it. *)
Definition createReadyFile (create : string -> res string) : res string :=
  first_usable create "no writable runtime directory found" runtimeDirCandidates None.

Definition bundled_roots : list string :=
  under (pl_exeDir p) [] ++ under (pl_exeDir p) ["sidecars"] ++ under (pl_exeDir p) ["bin"]
  ++ under (pl_wd p) ["sidecars"; "iroh-sidecar"; "target"; "release"]
  ++ under (pl_wd p) ["sidecars"; "iroh-sidecar"; "target"; "debug"]
  ++ under (pl_wd p) ["build"].

(** [findBundledSidecar]; [isExecutable] is [isExecutableFile]. *)
Definition findBundledSidecar (isExecutable : string -> bool) : option string * list string :=
  let name := (sidecarBinaryBaseName ++ if ho_windows h then ".exe" else "")%string in
  find_in_roots (fun root => joined [root; name]) isExecutable bundled_roots.
End Files.

(** ** Facts *)

(** The first path that works is taken, and an error means that none does. *)
Lemma first_usable_spec {B} (try : string -> res B) none paths : forall last,
  match first_usable try none paths last with
  | Ok b => exists l1 path l2, paths = l1 ++ path :: l2 /\ trim_space path <> ""%string /\ try path = Ok b /\
              forall q, q ∈ l1 -> trim_space q = ""%string \/ is_ok (try q) = false
  | Err _ => forall q, q ∈ paths -> trim_space q = ""%string \/ is_ok (try q) = false
  end.
Proof.
  induction paths as [|path r IH]; intros last; cbn [first_usable]; [by intros ? ?%not_elem_of_nil|].
  assert (Hskip : forall last', (trim_space path = "" \/ is_ok (try path) = false) ->
    match first_usable try none r last' with
    | Ok b => exists l1 q l2, path :: r = l1 ++ q :: l2 /\ trim_space q <> ""%string /\ try q = Ok b /\
                forall q, q ∈ l1 -> trim_space q = ""%string \/ is_ok (try q) = false
    | Err _ => forall q, q ∈ path :: r -> trim_space q = ""%string \/ is_ok (try q) = false
    end).
  { intros last' Hp. specialize (IH last'). destruct (first_usable try none r last').
    - destruct IH as (l1 & q & l2 & -> & Hn & Ht & Hl). exists (path :: l1), q, l2. split; [done|]. split; [done|].
      split; [done|]. by intros x [->|Hx]%elem_of_cons; [|apply Hl].
    - by intros x [->|Hx]%elem_of_cons; [|apply IH]. }
  case_bool_decide as Hb; [by apply Hskip; left|]. destruct (try path) as [b|err] eqn:Et; [|apply Hskip; right; by rewrite ?Et].
  exists [], path, r. split; [done|]. split; [done|]. split; [done|]. by intros ? ?%not_elem_of_nil.
Qed.

(** The log candidates are distinct. *)
Lemma add_candidate_nodup l paths : NoDup l -> NoDup (foldl add_candidate l paths).
Proof.
  revert l. induction paths as [|x paths IH]; intros l Hl; [done|]. cbn [foldl]. apply IH. unfold add_candidate.
  destruct (bool_decide (trim_space x = "")) eqn:E1; [done|]. destruct (bool_decide (trim_space x ∈ l)) eqn:E2; [done|].
  cbn [orb]. apply bool_decide_eq_false in E2. apply NoDup_app. split; [done|]. split; [|apply NoDup_singleton].
  intros y Hy ->%list_elem_of_singleton. done.
Qed.
Lemma sidecarLogCandidates_nodup p : NoDup (sidecarLogCandidates p).
Proof. apply add_candidate_nodup, NoDup_nil_2. Qed.

(** What is found is an executable among the paths searched, the last of them,
    and nothing was found exactly when none of the candidates is one. *)
Lemma findBundledSidecar_spec p isExecutable path searched :
  findBundledSidecar p isExecutable = (Some path, searched) -> isExecutable path = true /\ last searched = Some path.
Proof.
  unfold findBundledSidecar. generalize (bundled_roots p) as roots. intros roots. revert path searched.
  induction roots as [|root roots IH]; intros path searched; cbn [find_in_roots]; [done|].
  destruct (isExecutable _) eqn:E; [by intros [= <- <-]|].
  destruct (find_in_roots _ _ roots) as [[found|] l] eqn:Ef; [|by intros [= ?]]. intros [= <- <-].
  destruct (IH _ _ eq_refl) as [Hx Hl]. split; [done|]. cbn. by destruct l.
Qed.
