(* ===== verification/WebAdmin.v ===== *)
(** * WebAdmin: the dashboard's settings and lists

    The handlers of [internal/webui/webui.go] that change the configuration
    ([handleConfig], the remotes, the allowed machines and the label) and the
    ones that create invites.  The configuration is the one the pairing
    manager holds; the outcome of writing it and of applying it to the network
    are parameters of the operations. *)

From stdpp Require Import gmap.
From S2P Require Import Prelude GoStrings Crypto Config Url InviteUrl Invites BackendRefs RdpCheck WebSessions.

(** ** [fmt.Sscanf] with ["%d"] *)

(** A new line is an error where only blanks are skipped. *)
Fixpoint skip_blank (fuel : nat) (l : bytes) : option bytes :=
  match fuel with
  | O => Some l
  | S n => match l with
           | x0a :: _ => None
           | _ => match lead_space l with Some r => skip_blank n r | None => Some l end
           end
  end.

Fixpoint leading_digits (l : bytes) : bytes :=
  match l with
  | b :: r => match digit_val b with Some _ => b :: leading_digits r | None => [] end
  | [] => []
  end.

(** The integer at the start of a string; what follows is not read. *)
Definition sscan_int (s : string) : option Z :=
  l ← skip_blank (String.length s) (to_bytes s);
  match l with
  | (x2b | x2d) as b :: r => atoi (of_bytes (b :: leading_digits r))
  | _ => atoi (of_bytes (leading_digits l))
  end.

(** ** Settings *)

Definition normalizeNetworkMode (mode : string) : string :=
  if bool_decide (mode = "custom") || bool_decide (mode = "mixed") then "custom"
  else if bool_decide (mode = "disabled") then "disabled"
  else "public".

Definition targetPortOrDefault (targetAddr proto : string) : Z :=
  let def := DefaultPort (ParseProtocol proto) in
  match cut_last targetAddr ":" with
  | Some (_, r) =>
    if bool_decide (r = "") then def
    else match sscan_int r with Some port => if 0 <? port then port else def | None => def end
  | None => def
  end.

(** The body of a PATCH; an absent list keeps the configured one. *)
Record patch : Type := mkPatch {
  pt_share : string;
  pt_app : option (string * Z);
  pt_relay : option (string * option (list string));
  pt_dht : option (string * option (list string));
  pt_btdht : option (string * option (list string) * Z);
  pt_iroh : option (string * option (list string));
}.

Definition patch_share (p : patch) (c : Config) : option Config :=
  if bool_decide (pt_share p = "") then Some c
  else if bool_decide (pt_share p ∈ ["iroh"; "bittorrent_dht"; "libp2p_relay"; "libp2p_dht"]%string)
  then Some (mkConfig (mkNetwork (pt_share p)) (Node c) (Relay c) (DHT c) (BTDHT c) (Iroh c) (RDP c) (Remotes c) (Trusted c))
  else None.

Definition patch_app (p : patch) (c : Config) : Config :=
  match pt_app p with
  | None => c
  | Some (protocol, targetPort) =>
    let proto := protocolOrDefault protocol in
    let port := if targetPort <=? 0 then DefaultPort (ParseProtocol proto) else targetPort in
    mkConfig (Network c) (Node c) (Relay c) (DHT c) (BTDHT c) (Iroh c)
      (mkRDP (ListenAddr (RDP c)) ("127.0.0.1:" ++ itoa port) proto) (Remotes c) (Trusted c)
  end.

(** The sections of the network backends. *)
Definition patch_network (p : patch) (c : Config) : Config :=
  mkConfig (Network c) (Node c)
    (match pt_relay p with
     | None => Relay c
     | Some (mode, servers) =>
       mkRelay (normalizeNetworkMode mode) (default (relay_Servers (Relay c)) servers) (relay_Allowlist (Relay c))
     end)
    (match pt_dht p with
     | None => DHT c
     | Some (mode, boot) => mkDHT (normalizeNetworkMode mode) (default (dht_Bootstrap (DHT c)) boot)
     end)
    (match pt_btdht p with
     | None => BTDHT c
     | Some (mode, boot, secs) =>
       mkBTDHT (normalizeNetworkMode mode) (default (btdht_Bootstrap (BTDHT c)) boot)
         (if 0 <? secs then secs else PublishIntervalSecs (BTDHT c))
     end)
    (match pt_iroh p with
     | None => Iroh c
     | Some (mode, servers) => mkIroh (normalizeNetworkMode mode) (default (iroh_Servers (Iroh c)) servers)
     end)
    (RDP c) (Remotes c) (Trusted c).

(** The settings whose change restarts the network. *)
Definition network_settings (c : Config) :=
  (ActiveNetworkBackend (Some c),
   (relay_Mode (Relay c), join nl (relay_Servers (Relay c))),
   (dht_Mode (DHT c), join nl (dht_Bootstrap (DHT c))),
   (btdht_Mode (BTDHT c), join nl (btdht_Bootstrap (BTDHT c)), PublishIntervalSecs (BTDHT c)),
   (iroh_Mode (Iroh c), join nl (iroh_Servers (Iroh c)))).

Inductive config_reply : Type :=
  | BadBackend
  | SaveFailed (err : string)
  | ApplyFailed (err : string)
  | Saved (applied : bool) (deletedLinks : nat).

Section Settings.
Context `{Crypto} `{UrlCheck}.

(** [handleConfig] with PATCH.  [save] and [apply] are the results of [Save]'s
    write and of [applyNetworkConfig], which leaves the saved configuration as
    it is. *)
Definition handleConfig (m : Manager) (p : patch) (save : res unit) (apply : Config -> option string)
    (order : list string) (now : Z) : Manager * config_reply :=
  let old := cfg m in
  match patch_share p old with
  | None => (m, BadBackend)
  | Some c =>
    let c := NormalizeNetworkBackend (patch_network p (patch_app p c)) in
    let m := set_cfg m c in
    match save with
    | Err err => (m, SaveFailed ("save failed: " ++ err))
    | Ok _ =>
      let changed := negb (bool_decide (network_settings old = network_settings c)) in
      match (if changed then apply c else None) with
      | Some err => (m, ApplyFailed ("saved but apply failed: " ++ err))
      | None =>
        let active := ActiveNetworkBackend (Some c) in
        let '(m, deleted) := if bool_decide (ActiveNetworkBackend (Some old) = active) then (m, O)
                             else DeletePendingPairingInvitesExceptBackend m order now active in
        (m, Saved changed deleted)
      end
    end
  end.

(** [handleGenerateURL]: a one-time link lives an hour. *)
Definition handleGenerateURL (m : Manager) (e : gen_env) (mode label protocol : string) (port : Z)
  : Manager * outcome (res (string * InviteView)) :=
  let ttl := if bool_decide (mode = "onetime") then 60 * minute else 0 in
  let targetPort := if port =? 0 then DefaultPort (ParseProtocol protocol) else port in
  generateURL m e mode ttl (trim_space label) protocol targetPort None.
End Settings.

(** ** Remotes *)

Inductive list_reply : Type :=
  | Done
  | BadRequest (err : string)
  | NotFound (err : string)
  | NotSaved.

(** [Save] in memory, and the reply. *)
Definition saved (c : Config) (save : res unit) : Config * list_reply :=
  (NormalizeNetworkBackend c, match save with Ok _ => Done | Err _ => NotSaved end).

Definition handleAddRemote (c : Config) (r : RemoteConfig) (now : Z) (save : res unit) : Config * list_reply :=
  saved (AddRemote c r now) save.

Section Remotes.
Context {R : Type} `{NetworkBackends R}.

(** The end of [handleDeleteRemote], for a key. *)
Definition delete_remote (c : Config) (w : Web R) (remoteKey : string) (save : res unit) (now : Z)
  : Config * Web R * list_reply :=
  let '(c', found) := RemoveRemoteService c remoteKey in
  if negb found then (c, w, NotFound "remote not found")
  else
    let w := removeRemoteConnectState w remoteKey now in
    let '(c', reply) := saved c' save in (c', w, reply).

(** The query: a key, or the parts of one. *)
Definition handleDeleteRemote (c : Config) (w : Web R) (remote_key node_id protocol target_port : string)
    (save : res unit) (now : Z) : Config * Web R * list_reply :=
  let remoteKey := trim_space remote_key in
  if bool_decide (remoteKey <> "") then delete_remote c w remoteKey save now
  else
    let nodeID := trim_space node_id in
    let protocol := trim_space protocol in
    let rawPort := trim_space target_port in
    let port := if bool_decide (rawPort = "") then Some 0
                else match atoi rawPort with
                     | Some p => if (p <=? 0) || (65535 <? p) then None else Some p
                     | None => None
                     end in
    match port with
    | None => (c, w, BadRequest "invalid target_port")
    | Some targetPort =>
      if bool_decide (nodeID = "") || bool_decide (protocol = "") || (targetPort <=? 0)
      then (c, w, BadRequest "remote_key or node_id+protocol+target_port required")
      else delete_remote c w (RemoteServiceKeyParts nodeID protocol targetPort) save now
    end.
End Remotes.

Definition relabel (r : RemoteConfig) (label : string) : RemoteConfig :=
  mkRemote label (rc_NodeID r) (rc_PublicKey r) (rc_MachineID r) (rc_Backend r) (rc_Protocol r) (rc_TargetPort r)
    (rc_RelayAddrs r) (rc_IrohTicket r) (rc_DirectQUICAddrs r) (rc_Identity r) (rc_AddedAt r) (rc_LastConnectedAt r).

(** Change the first element that satisfies [p]. *)
Fixpoint update_first {A} (p : A -> bool) (f : A -> A) (xs : list A) : option (list A) :=
  match xs with
  | [] => None
  | x :: r => if p x then Some (f x :: r) else (fun r => x :: r) <$> update_first p f r
  end.

(** [handleRenameRemote]; the result of the save is not looked at. *)
Definition handleRenameRemote (c : Config) (nodeID remoteKey label : string) : Config * list_reply :=
  if (bool_decide (nodeID = "") && bool_decide (remoteKey = "")) || bool_decide (label = "")
  then (c, BadRequest "node_id or remote_key and label required")
  else
    let label := trim_space label in
    if bool_decide (label = "") then (c, BadRequest "label cannot be empty")
    else
      let matches (r : RemoteConfig) := if bool_decide (remoteKey <> "") then bool_decide (RemoteServiceKey r = remoteKey)
                       else bool_decide (rc_NodeID r = nodeID) in
      match update_first matches (fun r => relabel r label) (Remotes c) with
      | None => (c, NotFound "remote not found")
      | Some l => (NormalizeNetworkBackend (set_remotes c l), Done)
      end.

(** ** Allowed machines *)

Definition trustedPeerDisplayKey (p : TrustedPeer) : string :=
  if bool_decide (TPMRootThumbprint (tp_Identity p) <> "") then "tpm:" ++ TPMRootThumbprint (tp_Identity p)
  else "peer:" ++ tp_NodeID p.

Definition dedupe_step (st : list TrustedPeer * gmap string nat) (p : TrustedPeer) : list TrustedPeer * gmap string nat :=
  let '(out, seen) := st in
  let key := trustedPeerDisplayKey p in
  match seen !! key with
  | Some idx =>
    match out !! idx with
    | Some q => if tp_AddedAt q <? tp_AddedAt p then (<[idx := p]> out, seen) else (out, seen)
    | None => (out, seen)
    end
  | None => (out ++ [p], <[key := length out]> seen)
  end.
Definition dedupeTrustedPeers (l : list TrustedPeer) : list TrustedPeer := fst (fold_left dedupe_step l ([], ∅)).

Definition relabel_trusted (p : TrustedPeer) (label : string) : TrustedPeer :=
  mkTrusted (tp_NodeID p) label (tp_PublicKey p) (tp_MachineID p) (tp_Protocol p) (tp_TargetPort p)
    (tp_Identity p) (tp_AddedAt p) (tp_LastConnectedAt p).

Definition handleRenameAllowed (c : Config) (nodeID label : string) (save : res unit) : Config * list_reply :=
  if bool_decide (nodeID = "") then (c, BadRequest "node_id and label required")
  else
    let label := trim_space label in
    if bool_decide (label = "") then (c, BadRequest "label cannot be empty")
    else match update_first (fun p => bool_decide (tp_NodeID p = nodeID)) (fun p => relabel_trusted p label) (Trusted c) with
         | None => (c, NotFound "allowed machine not found")
         | Some l => saved (set_trusted c l) save
         end.

Definition handleDeleteAllowed (c : Config) (nodeID : string) (save : res unit) : Config * list_reply :=
  if bool_decide (nodeID = "") then (c, BadRequest "node_id required")
  else
    let filtered := List.filter (fun p => negb (bool_decide (tp_NodeID p = nodeID))) (Trusted c) in
    if existsb (fun p => bool_decide (tp_NodeID p = nodeID)) (Trusted c) then saved (set_trusted c filtered) save
    else (c, NotFound "allowed machine not found").

(** [handleLabel] with PATCH. *)
Definition handleLabel (c : Config) (label : string) : Config * list_reply :=
  let label := trim_space label in
  if bool_decide (label = "") then (c, BadRequest "label cannot be empty")
  else (NormalizeNetworkBackend
          (mkConfig (Network c) (mkNode (PrivateKey (Node c)) label) (Relay c) (DHT c) (BTDHT c) (Iroh c) (RDP c)
             (Remotes c) (Trusted c)), Done).

(** ** The stale pairing links *)

Section SettingsFacts.
Context `{Crypto} `{UrlCheck}.

(** A pairing link that waits for its first use. *)
Definition waiting (inv : invite) (now : Z) : Prop :=
  inv_Mode inv = "pairing" /\ Used inv = false /\ Revoked inv = false /\ active inv now = true.

Lemma delete_step_other now backend m n id m' n' id' inv :
  delete_pending_step now backend (m, n) id = (m', n') -> invite_of m' id' = Some inv ->
  invite_of m id' = Some inv /\ (id' = id -> waiting inv now -> inviteStoredBackend inv = backend).
Proof.
  unfold delete_pending_step. destruct (invite_of m id) as [i|] eqn:Ei.
  2:{ intros [= <- <-] Hi. split; [done|]. intros ->. congruence. }
  destruct (bool_decide (inv_Mode i <> "pairing") || Used i || Revoked i || negb (active i now)) eqn:Eg.
  - intros [= <- <-] Hi. split; [done|]. intros -> (H1 & H2 & H3 & H4).
    assert (i = inv) as -> by congruence.
    by rewrite (bool_decide_eq_false_2 (inv_Mode inv <> "pairing"%string)), H2, H3, H4 in Eg by (by intros Hx; apply Hx).
  - clear Eg. case_bool_decide.
    + intros [= <- <-] Hi. split; [done|]. intros -> _. congruence.
    + intros Hd. apply pair_equal_spec in Hd as [<- _]. unfold invite_of, drop_id, drop_key. cbn. intros Hi.
      destruct (decide (id' = id)) as [->|Hne]; [by rewrite lookup_delete_eq in Hi|].
      rewrite lookup_delete_ne in Hi by done. done.
Qed.

Lemma delete_pending_clean now backend order : forall m n id inv,
  invite_of (fst (fold_left (delete_pending_step now backend) order (m, n))) id = Some inv ->
  invite_of m id = Some inv /\ (id ∈ order -> waiting inv now -> inviteStoredBackend inv = backend).
Proof.
  induction order as [|x order IH]; intros m n id inv; cbn [fold_left].
  - intros Hi. split; [done|]. by intros ?%not_elem_of_nil.
  - destruct (delete_pending_step now backend (m, n) x) as [m1 n1] eqn:E. intros Hi.
    apply IH in Hi as [Hi1 Hr]. destruct (delete_step_other _ _ _ _ _ _ _ _ _ E Hi1) as [Hi2 Hx].
    split; [done|]. intros [->|Hin]%elem_of_cons; auto.
Qed.

Lemma delete_pending_cfg now backend order : forall m n,
  cfg (fst (fold_left (delete_pending_step now backend) order (m, n))) = cfg m.
Proof.
  induction order as [|x order IH]; intros m n; cbn [fold_left]; [done|].
  destruct (delete_pending_step now backend (m, n) x) as [m1 n1] eqn:E. rewrite IH. revert E.
  unfold delete_pending_step. destruct (invite_of m x) as [i|]; [|by intros [= <- <-]].
  destruct (bool_decide _ || _ || _ || _); [by intros [= <- <-]|].
  case_bool_decide; intros Hd; by apply pair_equal_spec in Hd as [<- _].
Qed.

Lemma normalize_share c :
  validNetworkBackend (ShareBackend (Network c)) = true ->
  ActiveNetworkBackend (Some (NormalizeNetworkBackend c)) = ShareBackend (Network c).
Proof.
  intros Hv. unfold ActiveNetworkBackend, NormalizeNetworkBackend, CanonicalNetworkBackend. cbv zeta. rewrite Hv.
  unfold ensureBackendEnabled, CanonicalNetworkBackend. by repeat case_bool_decide; cbn [Network ShareBackend]; rewrite Hv.
Qed.

Lemma patch_share_spec p c c' :
  patch_share p c = Some c' ->
  Remotes c' = Remotes c /\ Trusted c' = Trusted c /\
  (pt_share p <> "" -> ShareBackend (Network c') = pt_share p /\ validNetworkBackend (pt_share p) = true).
Proof.
  unfold patch_share. case_bool_decide; [by intros [= <-]|]. case_bool_decide as Hv; [|done]. intros [= <-].
  split; [done|]. split; [done|]. intros _. split; [done|]. by apply bool_decide_eq_true.
Qed.

Lemma patch_rest p c :
  let c' := patch_network p (patch_app p c) in
  Remotes c' = Remotes c /\ Trusted c' = Trusted c /\ Network c' = Network c.
Proof. unfold patch_network, patch_app. by destruct (pt_app p) as [[]|]. Qed.
End SettingsFacts.

(** ** The list of allowed machines *)

Record deduped (l out : list TrustedPeer) (seen : gmap string nat) : Prop := {
  dd_seen k i : seen !! k = Some i -> exists q, out !! i = Some q /\ trustedPeerDisplayKey q = k;
  dd_out i q : out !! i = Some q -> seen !! trustedPeerDisplayKey q = Some i;
  dd_in q : q ∈ out -> q ∈ l;
  dd_late p : p ∈ l -> exists q, q ∈ out /\ trustedPeerDisplayKey q = trustedPeerDisplayKey p /\ tp_AddedAt p <= tp_AddedAt q;
}.

Lemma deduped_nil : deduped [] [] ∅.
Proof.
  split.
  - by intros k i ?%lookup_empty_Some.
  - done.
  - done.
  - by intros p ?%not_elem_of_nil.
Qed.

Lemma deduped_new l out seen p :
  deduped l out seen -> seen !! trustedPeerDisplayKey p = None ->
  deduped (l ++ [p]) (out ++ [p]) (<[trustedPeerDisplayKey p := length out]> seen).
Proof.
  intros [H1 H2 H3 H4] Hn. split.
  - intros k i [[<- <-]|[Hne Hs]]%lookup_insert_Some.
    + exists p. split; [|done]. by rewrite lookup_app_r, Nat.sub_diag by lia.
    + destruct (H1 k i Hs) as (q & Hq & Hk). exists q. split; [by apply lookup_app_l_Some|done].
  - intros i q [Hq|[Hi Hq]]%lookup_app_Some.
    + apply H2 in Hq. rewrite lookup_insert_ne by congruence. done.
    + destruct (i - length out)%nat as [|j] eqn:Ej; [|done]. cbn in Hq. injection Hq as ->.
      rewrite lookup_insert_eq. f_equal. lia.
  - intros q. rewrite !elem_of_app. intros [Hq|Hq]; [left; auto|by right].
  - intros x [Hx|Hx]%elem_of_app.
    + destruct (H4 x Hx) as (q & Hq & Hk & Hle). exists q. by rewrite elem_of_app; auto.
    + apply list_elem_of_singleton in Hx as ->. exists p. split; [|by split].
      apply elem_of_app. right. by apply list_elem_of_singleton.
Qed.

Lemma deduped_later l out seen p idx q :
  deduped l out seen -> seen !! trustedPeerDisplayKey p = Some idx -> out !! idx = Some q -> tp_AddedAt q < tp_AddedAt p ->
  deduped (l ++ [p]) (<[idx := p]> out) seen.
Proof.
  intros [H1 H2 H3 H4] Hs Hq Hlt.
  assert (Hk : trustedPeerDisplayKey q = trustedPeerDisplayKey p) by (destruct (H1 _ _ Hs) as (q' & Hq' & ?); congruence).
  assert (Hlen : (idx < length out)%nat) by (by eapply lookup_lt_Some). split.
  - intros k i Hi. destruct (decide (i = idx)) as [->|Hne].
    + exists p. rewrite list_lookup_insert_eq by done. split; [done|].
      destruct (H1 k idx Hi) as (q' & Hq' & ?). congruence.
    + rewrite list_lookup_insert_ne by done. by apply H1.
  - intros i x. destruct (decide (i = idx)) as [->|Hne].
    + rewrite list_lookup_insert_eq by done. by intros [= <-].
    + rewrite list_lookup_insert_ne by done. apply H2.
  - intros x Hx. apply elem_of_app. apply list_elem_of_lookup in Hx as [i Hi].
    destruct (decide (i = idx)) as [->|Hne].
    + rewrite list_lookup_insert_eq in Hi by done. injection Hi as <-. right. by apply list_elem_of_singleton.
    + rewrite list_lookup_insert_ne in Hi by done. left. apply H3. by eapply list_elem_of_lookup_2.
  - assert (Hp : p ∈ <[idx:=p]> out) by (apply (list_elem_of_lookup_2 _ idx); by apply list_lookup_insert_eq).
    intros x [Hx|Hx]%elem_of_app.
    + destruct (H4 x Hx) as (y & Hy & Hky & Hle). apply list_elem_of_lookup in Hy as [i Hi].
      destruct (decide (i = idx)) as [->|Hne].
      * assert (y = q) as -> by congruence. exists p. split; [done|]. split; [congruence|lia].
      * exists y. split; [|done]. apply (list_elem_of_lookup_2 _ i). by rewrite list_lookup_insert_ne.
    + apply list_elem_of_singleton in Hx as ->. by exists p.
Qed.

Lemma deduped_earlier l out seen p idx q :
  deduped l out seen -> seen !! trustedPeerDisplayKey p = Some idx -> out !! idx = Some q -> tp_AddedAt p <= tp_AddedAt q ->
  deduped (l ++ [p]) out seen.
Proof.
  intros [H1 H2 H3 H4] Hs Hq Hle. split; [done|done|..].
  - intros x Hx. apply elem_of_app. auto.
  - intros x [Hx|Hx]%elem_of_app; [by apply H4|]. apply list_elem_of_singleton in Hx as ->. exists q.
    split; [by eapply list_elem_of_lookup_2|]. split; [|done]. destruct (H1 _ _ Hs) as (q' & Hq' & ?). congruence.
Qed.

Lemma deduped_step l out seen p :
  deduped l out seen -> let '(out', seen') := dedupe_step (out, seen) p in deduped (l ++ [p]) out' seen'.
Proof.
  intros Hd. unfold dedupe_step. destruct (seen !! trustedPeerDisplayKey p) as [idx|] eqn:Es.
  - destruct (dd_seen _ _ _ Hd _ _ Es) as (q & Hq & _). rewrite Hq.
    destruct (tp_AddedAt q <? tp_AddedAt p) eqn:El; [|].
    + eapply deduped_later; [done..|]. by apply Z.ltb_lt.
    + eapply deduped_earlier; [done..|]. by apply Z.ltb_ge.
  - by apply deduped_new.
Qed.

Lemma deduped_run l : forall l0 out seen, deduped l0 out seen ->
  let '(out', seen') := fold_left dedupe_step l (out, seen) in deduped (l0 ++ l) out' seen'.
Proof.
  induction l as [|p l IH]; intros l0 out seen Hd; cbn [fold_left]; [by rewrite app_nil_r|].
  pose proof (deduped_step l0 out seen p Hd) as Hs. destruct (dedupe_step (out, seen) p) as [out1 seen1].
  specialize (IH _ _ _ Hs). rewrite <- app_assoc in IH. exact IH.
Qed.

Lemma deduped_nodup l out seen : deduped l out seen -> NoDup (trustedPeerDisplayKey <$> out).
Proof.
  intros Hd. apply NoDup_alt. intros i j k Hi Hj.
  apply list_lookup_fmap_Some in Hi as (x & -> & Hi). apply list_lookup_fmap_Some in Hj as (y & Hxy & Hj).
  apply (dd_out _ _ _ Hd) in Hi, Hj. congruence.
Qed.

(** A list with one entry per key is shown as it is. *)
Lemma dedupe_id l : NoDup (trustedPeerDisplayKey <$> l) -> dedupeTrustedPeers l = l.
Proof.
  unfold dedupeTrustedPeers. cut (forall l out seen, deduped out out seen -> NoDup (trustedPeerDisplayKey <$> out ++ l) ->
    fst (fold_left dedupe_step l (out, seen)) = out ++ l).
  { intros Hc Hn. by apply (Hc l [] ∅ deduped_nil). }
  clear l. induction l as [|p l IH]; intros out seen Hd Hn; cbn [fold_left]; [by rewrite app_nil_r|].
  assert (Hs : seen !! trustedPeerDisplayKey p = None).
  { destruct (seen !! trustedPeerDisplayKey p) as [i|] eqn:E; [|done]. destruct (dd_seen _ _ _ Hd _ _ E) as (q & Hq & Hk).
    rewrite fmap_app, fmap_cons in Hn. apply NoDup_app in Hn as (_ & Hn & _).
    exfalso. apply (Hn (trustedPeerDisplayKey p)); [|by left]. rewrite <- Hk. apply list_elem_of_fmap_2.
    by eapply list_elem_of_lookup_2. }
  unfold dedupe_step at 2. rewrite Hs, IH; [by rewrite <- app_assoc|by apply deduped_new|by rewrite <- app_assoc].
Qed.

Lemma distinct_display_keys l :
  trusted_distinct l -> (forall p, p ∈ l -> tp_NodeID p <> "") -> NoDup (trustedPeerDisplayKey <$> l).
Proof.
  intros Hd Hne. induction Hd as [|p l Hp Hd IH]; cbn; constructor; [|apply IH; intros x Hx; apply Hne; by right].
  intros (q & Hk & Hq)%list_elem_of_fmap. rewrite Forall_forall in Hp. apply Hp in Hq as Hs.
  unfold sameTrustedMachine in Hs. apply orb_false_iff in Hs as [[Hn _]%orb_false_iff Ht].
  unfold trustedPeerDisplayKey in Hk.
  assert (Hns : forall a b, same_nonempty a b = false -> a <> "" -> a <> b).
  { intros a b Hab Ha ->. apply not_true_iff_false in Hab. apply Hab. by apply same_nonempty_spec. }
  case_bool_decide as H1; case_bool_decide as H2; cbn in Hk; try discriminate Hk.
  - injection Hk as Hk. by apply (Hns _ _ Ht) in Hk.
  - injection Hk as Hk. apply (Hns _ _ Hn) in Hk; [done|]. apply Hne. by left.
Qed.

(** ** Deleted remotes *)

Section RemoteFacts.
Context {R : Type} `{NetworkBackendsLaws R}.
Implicit Types w : Web R.

Lemma drop_attempts_connects keys : forall w,
  w_connects (foldl drop_attempt w keys) = foldr delete (w_connects w) keys.
Proof.
  induction keys as [|k keys IH]; intros w; cbn [foldl]; [done|]. rewrite IH. cbn.
  clear. generalize (w_connects w). intros m. apply map_eq. intros i. rewrite !lookup_delete_keys.
  change (foldr delete (delete k m) keys !! i = delete k (foldr delete m keys) !! i) || idtac.
  destruct (decide (i = k)) as [->|Hne].
  - rewrite !lookup_delete_eq. by destruct (decide _).
  - rewrite !lookup_delete_ne by done. by rewrite lookup_delete_keys.
Qed.

Lemma remove_state_spec w key now :
  good w -> trim_space key <> "" ->
  let w' := removeRemoteConnectState w key now in
  let connectKey := ("peer:" ++ trim_space key)%string in
  good w' /\ connectedSession w' connectKey = None /\ w_connects w' !! connectKey = None /\
  (forall s, connectedSession w connectKey = Some s -> cs_Proxy s ∈ w_closed w').
Proof.
  intros Hg Hk. cbv zeta. unfold removeRemoteConnectState. rewrite bool_decide_eq_false_2 by done. cbv zeta.
  set (ck := ("peer:" ++ trim_space key)%string). destruct (disconnect_good w ck now Hg) as (Hg' & Hn & Hc).
  assert (Hs : snd (disconnectSession w ck now) = w_sessions w !! ck) by done.
  destruct (disconnectSession w ck now) as [w1 s]. cbn [fst snd] in *. subst s.
  set (keys := match w_sessions w !! ck with Some _ => _ | None => _ end).
  assert (Hin : ck ∈ keys).
  { unfold keys. destruct (w_sessions w !! ck) as [s|] eqn:E; [|by left].
    rewrite (sessionKeys_in ck) by (by eapply (g_in _ Hg)). by eapply (g_in _ Hg). }
  pose proof (drop_attempts_tables w1 keys) as Ht.
  split; [by eapply good_tables|]. unfold tables in Ht. rewrite !pair_equal_spec in Ht.
  destruct Ht as [[[Hts _] Htc] _]. unfold connectedSession. rewrite Hts, Htc. split; [done|]. split.
  - by rewrite drop_attempts_connects, lookup_delete_keys, decide_True.
  - intros s Hs. by apply Hc.
Qed.

Lemma remove_service_spec c key c' :
  RemoveRemoteService c key = (c', true) -> remotes_unique (Remotes c) ->
  (forall r, r ∈ Remotes c -> trim_space (rc_NodeID r) <> "") ->
  (exists r, r ∈ Remotes c /\ RemoteServiceKey r = key) /\
  (forall r, r ∈ Remotes c' <-> r ∈ Remotes c /\ RemoteServiceKey r <> key).
Proof.
  unfold RemoveRemoteService. intros Hr Hu Hne.
  destruct (remove_first_spec (fun r => bool_decide (RemoteServiceKey r = key)) (Remotes c))
    as [(a & x & b & El & Hx & Ha & Hrm)|[Hno Hrm]]; rewrite Hrm in Hr; [|done].
  injection Hr as <-. cbn [Remotes set_remotes]. rewrite El in *. apply bool_decide_eq_true in Hx.
  split; [exists x; split; [|done]; apply elem_of_app; right; by left|].
  unfold remotes_unique in Hu. apply pairwise_app in Hu as (_ & H2 & _). apply pairwise_cons in H2 as [H2 _].
  assert (Hb : forall y, y ∈ b -> RemoteServiceKey y <> key).
  { intros y Hy Hk. apply H2 in Hy as Hs. apply not_true_iff_false in Hs. apply Hs, SameRemoteService_spec.
    split; [apply Hne; apply elem_of_app; right; by left|].
    split; [apply Hne; apply elem_of_app; right; by right|congruence]. }
  intros r. rewrite !elem_of_app, elem_of_cons. split.
  - intros [Hr|Hr]; [|auto]. split; [by left|]. apply Ha, bool_decide_eq_false in Hr. done.
  - intros [[Hr|[->|Hr]] Hk]; [by left|done|by right].
Qed.
End RemoteFacts.

(** ** Properties *)


(** A deleted remote is gone.  When the dashboard deletes a remote of a list
    with one entry per service, that service leaves the list and nothing else
    does, its tunnel is closed and its session and attempt are dropped; every
    other session keeps its reference. *)
Lemma deleted_remote_gone {R} `{NetworkBackendsLaws R} c (w : Web R) remote_key node_id protocol target_port save now c' w' reply
  (Hg : good w) (Hu : remotes_unique (Remotes c))
  (Hne : forall r, r ∈ Remotes c -> trim_space (rc_NodeID r) <> "")
  (Hd : handleDeleteRemote c w remote_key node_id protocol target_port save now = (c', w', reply))
  (Hr : reply = Done \/ reply = NotSaved) :
  exists key r0, r0 ∈ Remotes c /\ RemoteServiceKey r0 = key /\
    (forall r, r ∈ Remotes c' <-> r ∈ Remotes c /\ RemoteServiceKey r <> key) /\
    good w' /\ connectedSession w' ("peer:" ++ trim_space key) = None /\
    w_connects w' !! ("peer:" ++ trim_space key)%string = None /\
    (forall s, connectedSession w ("peer:" ++ trim_space key) = Some s -> cs_Proxy s ∈ w_closed w').
Proof.
  assert (Hkey : exists key, trim_space key <> ""%string /\ delete_remote c w key save now = (c', w', reply)).
  { revert Hd. unfold handleDeleteRemote. case_bool_decide as Hk.
    - intros Hd. exists (trim_space remote_key). by rewrite trim_space_idem.
    - match goal with |- context [match ?p with Some _ => _ | None => _ end] => destruct p as [port|] end;
        [|intros [= <- <- <-]; by destruct Hr].
      destruct (_ || _ || _); [intros [= <- <- <-]; by destruct Hr|]. intros Hd.
      eexists. split; [|exact Hd]. apply trim_space_bar. }
  destruct Hkey as (key & Hk & Hdel). revert Hdel. unfold delete_remote.
  destruct (RemoveRemoteService c key) as [c1 found] eqn:Erm. destruct found; cbn [negb].
  2:{ intros [= <- <- <-]. by destruct Hr. }
  unfold saved. intros [= <- <- _]. destruct (remove_service_spec c key c1 Erm Hu Hne) as [(r0 & Hr0 & Hk0) Hrest].
  destruct (remove_state_spec w key now Hg Hk) as (Hg' & H1 & H2 & H3).
  exists key, r0. split; [done|]. split; [done|]. split; [by rewrite (proj1 (normalize_lists c1))|]. by split.
Qed.

(** The allowed list shows every machine once.  Each machine of the trust
    store is shown, under the newest of its entries, and no machine twice; a
    store with one entry per machine is shown as it is, so each displayed entry
    can be revoked on its own. *)
Lemma allowed_list_complete l :
  let out := dedupeTrustedPeers l in
  NoDup (trustedPeerDisplayKey <$> out) /\
  (forall q, q ∈ out -> q ∈ l) /\
  (forall p, p ∈ l -> exists q, q ∈ out /\ trustedPeerDisplayKey q = trustedPeerDisplayKey p /\ tp_AddedAt p <= tp_AddedAt q) /\
  (trusted_distinct l -> (forall p, p ∈ l -> tp_NodeID p <> "") -> out = l).
Proof.
  intros out. pose proof (deduped_run l [] [] ∅ deduped_nil) as Hd.
  assert (Ho : out = fst (fold_left dedupe_step l ([], ∅))) by done.
  destruct (fold_left dedupe_step l ([], ∅)) as [out' seen]. cbn [fst app] in *. subst out'.
  split; [by eapply deduped_nodup|]. split; [apply (dd_in _ _ _ Hd)|]. split; [apply (dd_late _ _ _ Hd)|].
  intros Hdi Hn. by apply dedupe_id, distinct_display_keys.
Qed.

Definition sample_patch : patch := mkPatch "libp2p_relay" None (Some ("mixed"%string, Some ["r1"%string])) None None None.

(** After a failed apply the same change is saved again but not applied, and
    the links of the old backend stay. *)
Lemma failed_apply_not_retried `{Crypto} `{UrlCheck} :
  let '(m1, reply1) := handleConfig sample_manager sample_patch (Ok tt) (fun _ => Some "no relay"%string) [] 0 in
  let '(m2, reply2) := handleConfig m1 sample_patch (Ok tt) (fun _ => Some "no relay"%string) [] 0 in
  reply1 = ApplyFailed "saved but apply failed: no relay" /\ reply2 = Saved false 0 /\ cfg m2 = cfg m1.
Proof. vm_compute. done. Qed.

Definition sample_saved : Manager * config_reply :=
  handleConfig sample_manager sample_patch (Ok tt) (fun _ => None) ["i"%string] 0.


Definition sample_listed : Config :=
  AddRemote (defaultConfig (Ok "h")) (mkRemote "pc" "A" "" "" "iroh" "rdp" 3389 [] "t" [] (mkInfo "" false "" "" "") 5 zero_time) 5.
Definition sample_attempt : list web_op := [WBegin "peer:A|rdp|3389" 5].

Lemma deleted_remote_gone_witness :
  let w : plain_web := fold_left web_step sample_attempt (newWeb ∅) in
  let '(c', w', reply) := handleDeleteRemote sample_listed w "" "A" "rdp" "3389" (Ok tt) 9 in
  is_Some (w_connects w !! "peer:A|rdp|3389"%string) /\ Remotes c' = [] /\ reply = Done /\
  w_connects w' !! "peer:A|rdp|3389"%string = None.
Proof.
  set (w := fold_left web_step sample_attempt (newWeb (∅ : gset (string * string)))). cbv zeta.
  destruct (handleDeleteRemote sample_listed w "" "A" "rdp" "3389" (Ok tt) 9) as [[c' w'] reply] eqn:Ed.
  assert (Hg : good w).
  { apply good_run; [|by split]. apply good_new. intros b k. apply not_elem_of_empty. }
  assert (Hone : forall r, r ∈ Remotes sample_listed -> trim_space (rc_NodeID r) <> ""%string)
    by (intros r ->%list_elem_of_singleton; vm_compute; discriminate).
  assert (Hdone : reply = Done) by (rewrite <- (f_equal snd Ed : _ = reply); vm_compute; reflexivity).
  destruct (deleted_remote_gone sample_listed w "" "A" "rdp" "3389" (Ok tt) 9 c' w' reply Hg
              ltac:(repeat constructor) Hone Ed (or_introl Hdone)) as (key & r0 & Hr0 & Hk & Hl & _ & _ & Hc & _).
  apply list_elem_of_singleton in Hr0 as ->.
  assert (Hk' : key = "A|rdp|3389"%string) by (rewrite <- Hk; vm_compute; reflexivity). rewrite Hk' in *.
  split; [eexists; vm_compute; reflexivity|]. split; [|split; [exact Hdone|exact Hc]].
  destruct (Remotes c') as [|r l]; [reflexivity|]. destruct (proj1 (Hl r) ltac:(left)) as [->%list_elem_of_singleton Hne].
  by destruct Hne.
Defined.

(** A trust store from before entries were merged can hold two node IDs of one
    TPM: the list shows one of them, and the other stays allowed after the
    shown one is deleted. *)
Lemma hidden_entry_stays_allowed :
  let tpm := mkInfo "tpm" true "v" "2.0" "root" in
  let c := set_trusted (defaultConfig (Ok "h"))
             [mkTrusted "n1" "old" "" "" "rdp" 3389 tpm 1 zero_time; mkTrusted "n2" "new" "" "" "rdp" 3389 tpm 2 zero_time] in
  map tp_NodeID (dedupeTrustedPeers (Trusted c)) = ["n2"%string] /\
  let '(c', reply) := handleDeleteAllowed c "n2" (Ok tt) in reply = Done /\ IsTrusted c' "n1" = true.
Proof. vm_compute. done. Qed.
