(* ===== verification/WebViews.v ===== *)
(** * WebViews: what the dashboard shows

    The handlers of [internal/webui/webui.go] that only read: the paired
    remotes ([handleRemotes]), the settings ([handleConfig] with GET) and the
    readiness check ([handleHealth]).  Presence and the counters of the
    proxies are parameters; the connection's path, which the tunnel reports, is
    left out. *)

From stdpp Require Import gmap.
From S2P Require Import Prelude GoStrings Config BackendRefs RdpCheck WebSessions WebAdmin.

(** ** Paired remotes *)

Record remote_view : Type := mkRemoteView {
  rv_RemoteKey : string;
  rv_NodeID : string;
  rv_Label : string;
  rv_Protocol : string;
  rv_TargetPort : Z;
  rv_Online : bool;
  rv_LastSeen : Z;
  rv_LocalAddr : string;
  rv_ConnectedProtocol : string;
  rv_AppConnected : bool;
  rv_Streams : Z;
  rv_Clients : Z;
  rv_Connecting : bool * string * string;
}.

Section Views.
Context {R : Type} `{NetworkBackends R}.

(** [presence] gives the label and the last sighting of a known node. *)
Definition view_remote (w : Web R) (act : activity) (presence : string -> option (string * Z)) (remote : RemoteConfig)
  : remote_view :=
  let remoteKey := RemoteServiceKey remote in
  let connectKey := ("peer:" ++ remoteKey)%string in
  let session := connectedSession w connectKey in
  let '(label, lastSeen) := default (rc_Label remote, zero_time) (presence (rc_NodeID remote)) in
  let '(streams, clients) := match session with Some s => act (cs_Proxy s) | None => (0, 0) end in
  mkRemoteView remoteKey (rc_NodeID remote) label (rc_Protocol remote) (rc_TargetPort remote)
    (bool_decide (is_Some session)) lastSeen
    (from_option cs_LocalAddr ""%string session) (from_option cs_Protocol ""%string session)
    (0 <? streams) streams clients (connectingState w connectKey).

Definition handleRemotes (w : Web R) (act : activity) (presence : string -> option (string * Z))
    (remotes : list RemoteConfig) : list remote_view :=
  view_remote w act presence <$> remotes.
End Views.

(** ** Settings *)

Record config_view : Type := mkConfigView {
  cv_share : string;
  cv_app : string * Z;
  cv_relay : string * list string;
  cv_dht : string * list string;
  cv_btdht : string * list string * Z;
  cv_iroh : string * list string;
}.

(** GET normalizes the configuration in memory. *)
Definition handleConfig_get (c : Config) : Config * config_view :=
  let c := NormalizeNetworkBackend c in
  (c, mkConfigView (ActiveNetworkBackend (Some c))
        (protocolOrDefault (rdp_Protocol (RDP c)), targetPortOrDefault (TargetAddr (RDP c)) (rdp_Protocol (RDP c)))
        (relay_Mode (Relay c), relay_Servers (Relay c))
        (dht_Mode (DHT c), dht_Bootstrap (DHT c))
        (btdht_Mode (BTDHT c), btdht_Bootstrap (BTDHT c), PublishIntervalSecs (BTDHT c))
        (iroh_Mode (Iroh c), iroh_Servers (Iroh c))).

(** ** Readiness *)

(** The client is looked up under the protocol as it was given. *)
Definition handleHealth (m : machine) (c : Config) (protocol port : string) : Status * Status :=
  let proto := if bool_decide (protocol = "") then rdp_Protocol (RDP c) else protocol in
  let proto := if bool_decide (proto = "") then "rdp"%string else proto in
  let def := DefaultPort (ParseProtocol proto) in
  let port :=
    if bool_decide (port <> "") then default def (sscan_int port)
    else
      let target := TargetAddr (RDP c) in
      if bool_decide (target = "") then def
      else default def (sscan_int (match cut_last target ":" with Some (_, r) => r | None => target end)) in
  (CheckHost m port, CheckClient m proto).

(** ** Properties *)



(** A client is not found under a protocol written in another case. *)
Lemma health_case_sensitive m c :
  mc_os m = "linux"%string -> mc_look m "ssh"%string = Some "/usr/bin/ssh"%string ->
  ClientAvailable (snd (handleHealth m c "ssh" "")) = true /\ ClientAvailable (snd (handleHealth m c "SSH" "")) = false.
Proof.
  intros Hos Hl. change (snd (handleHealth m c "ssh" "")) with (CheckClient m "ssh").
  change (snd (handleHealth m c "SSH" "")) with (CheckClient m "SSH"). unfold CheckClient, findClient. rewrite Hos.
  change (clientCandidates "linux" "ssh") with ["ssh"%string]. change (clientCandidates "linux" "SSH") with (@nil string).
  cbn. by rewrite Hl.
Qed.
