(* ===== verification/Launchers.v ===== *)
(** * Launchers: the client programs of [internal/tunnel]

    [LaunchClient] of [tunnel.go] with the Linux launchers of [rdp_linux.go] and
    [vnc_linux.go]: which program is started on a tunnel's local address, with
    which arguments.  The search path and the outcome of starting a program are
    functions of the machine; the hints printed on the terminal are left out. *)

From stdpp Require Import gmap.
From S2P Require Import Prelude GoStrings.

(** [os.Getenv] of the display variables, [exec.LookPath] and [cmd.Start]. *)
Record desktop : Type := mkDesktop {
  dk_display : string;
  dk_wayland : string;
  dk_look : string -> option string;
  dk_start : string -> list string -> option string;
}.

Definition headless (d : desktop) : bool := bool_decide (dk_display d = "") && bool_decide (dk_wayland d = "").

(** [splitHostPort], which keeps brackets and defaults the port. *)
Definition splitHostPort (addr : string) : string * string := default (addr, "3389"%string) (cut_last addr ":").

(** [rdpClients] *)
Definition rdpClients : list (string * (string -> list string)) :=
  [("xfreerdp"%string, fun addr =>
      let '(host, port) := splitHostPort addr in
      [("/v:" ++ host)%string; ("/port:" ++ port)%string; "/dynamic-resolution"%string; "/smart-sizing"%string;
       "/sound"%string; "/clipboard"%string; "+home-drive"%string]);
   ("xfreerdp3"%string, fun addr =>
      let '(host, port) := splitHostPort addr in
      [("/v:" ++ host)%string; ("/port:" ++ port)%string; "/dynamic-resolution"%string]);
   ("remmina"%string, fun addr => ["-c"%string; ("rdp://" ++ addr)%string]);
   ("gnome-connections"%string, fun addr => [("rdp://" ++ addr)%string])].

(** What a launcher starts, if anything, and its error. *)
Definition launched : Type := option (string * list string) * option string.

(** The first client that is found and starts. *)
Fixpoint launch_rdp_from (d : desktop) (addr : string) (clients : list (string * (string -> list string))) : launched :=
  match clients with
  | [] => (None, Some "no RDP client installed (tried: xfreerdp, remmina, gnome-connections)"%string)
  | (bin, args) :: r =>
    match dk_look d bin with
    | None => launch_rdp_from d addr r
    | Some path => match dk_start d path (args addr) with
                   | Some _ => launch_rdp_from d addr r
                   | None => (Some (path, args addr), None)
                   end
    end
  end.
Definition launchRDP (d : desktop) (addr : string) : launched :=
  if headless d then (None, None) else launch_rdp_from d addr rdpClients.

(** [exec.Command(path, args...).Start()] as the last step. *)
Definition start (d : desktop) (path : string) (args : list string) : launched :=
  match dk_start d path args with Some err => (None, Some err) | None => (Some (path, args), None) end.

Fixpoint launch_vnc_from (d : desktop) (addr : string) (bins : list string) : launched :=
  match bins with
  | [] => (None, Some ("no VNC viewer found" ++ of_bytes [x0a] ++ "  sudo apt install tigervnc-viewer")%string)
  | bin :: r =>
    match dk_look d bin with
    | None => launch_vnc_from d addr r
    | Some path => start d path (if bool_decide (bin = "remmina") then ["-c"%string; ("vnc://" ++ addr)%string] else [addr])
    end
  end.
Definition launchVNC (d : desktop) (addr : string) : launched :=
  if headless d then (None, None) else launch_vnc_from d addr ["xtigervncviewer"; "vncviewer"; "remmina"]%string.

Fixpoint launch_ssh_from (d : desktop) (host port : string) (terms : list string) : launched :=
  match terms with
  | [] => (None, None)
  | term :: r =>
    match dk_look d term with
    | None => launch_ssh_from d host port r
    | Some path => start d path (if bool_decide (term = "gnome-terminal") then ["--"; "ssh"; "-p"; port; host]%string
                                 else ["-e"%string; ("ssh -p " ++ port ++ " " ++ host)%string])
    end
  end.
Definition launchSSH (d : desktop) (addr : string) : launched :=
  let '(host, port) := splitHostPort addr in
  if headless d then (None, None)
  else launch_ssh_from d host port ["gnome-terminal"; "xterm"; "konsole"; "xfce4-terminal"]%string.

Fixpoint client_name (look : string -> option string) (bins : list string) : string :=
  match bins with
  | [] => "none"
  | bin :: r => match look bin with Some _ => bin | None => client_name look r end
  end.
Definition rdpClientName (d : desktop) : string := client_name (dk_look d) (map fst rdpClients).
Definition vncClientName (d : desktop) : string := client_name (dk_look d) ["xtigervncviewer"; "vncviewer"]%string.

Record LaunchResult : Type := mkLaunch { lr_Launched : bool; lr_LocalAddr : string; lr_Client : string; lr_Error : string }.

Definition LaunchClient (d : desktop) (localAddr protocol : string) : option (string * list string) * LaunchResult :=
  let '((cmd, err), name) :=
    if bool_decide (protocol = "vnc") then (launchVNC d localAddr, vncClientName d)
    else if bool_decide (protocol = "ssh") then (launchSSH d localAddr, "ssh"%string)
    else (launchRDP d localAddr, rdpClientName d) in
  match err with
  | Some err => (cmd, mkLaunch false localAddr "" err)
  | None => (cmd, mkLaunch true localAddr name "")
  end.

(** ** Facts *)

(** A program is started on the local address only, in one of the forms the
    clients take, and never together with an error. *)
Definition addresses (addr : string) (args : list string) : Prop :=
  let '(host, port) := splitHostPort addr in
  (("/v:" ++ host)%string ∈ args /\ ("/port:" ++ port)%string ∈ args) \/
  (exists scheme, scheme ∈ ["rdp://"; "vnc://"; ""]%string /\ (scheme ++ addr)%string ∈ args) \/
  (port ∈ args /\ host ∈ args) \/ ("ssh -p " ++ port ++ " " ++ host)%string ∈ args.

Lemma rdp_args_address bin args addr : (bin, args) ∈ rdpClients -> addresses addr (args addr).
Proof.
  unfold rdpClients, addresses. destruct (splitHostPort addr) as [host port] eqn:E.
  intros [Hc|[Hc|[Hc|[Hc|Hc]%elem_of_cons]%elem_of_cons]%elem_of_cons]%elem_of_cons;
    [injection Hc as -> ->..|by apply not_elem_of_nil in Hc]; rewrite ?E.
  - left. split; [by left|by right; left].
  - left. split; [by left|by right; left].
  - right; left. exists "rdp://"%string. split; [by left|by right; left].
  - right; left. exists "rdp://"%string. split; [by left|by left].
Qed.

Lemma launch_rdp_from_spec d addr clients path args err :
  (forall bin f, (bin, f) ∈ clients -> addresses addr (f addr)) ->
  launch_rdp_from d addr clients = (Some (path, args), err) ->
  err = None /\ addresses addr args /\ dk_start d path args = None /\ exists bin, dk_look d bin = Some path.
Proof.
  induction clients as [|[bin f] clients IH]; intros Hc; cbn; [done|].
  assert (Hr : forall bin f, (bin, f) ∈ clients -> addresses addr (f addr)) by (intros b g Hin; apply (Hc b); by right).
  destruct (dk_look d bin) as [p|] eqn:El; [|by apply IH].
  destruct (dk_start d p (f addr)) eqn:Es; [by apply IH|]. intros [= <- <- <-].
  split; [done|]. split; [apply (Hc bin); by left|]. eauto.
Qed.

(** What runs after a launch is the tunnel's client and nothing else. *)
Lemma launched_client_addresses d addr protocol path args r :
  LaunchClient d addr protocol = (Some (path, args), r) ->
  headless d = false /\ lr_Launched r = true /\ lr_LocalAddr r = addr /\ addresses addr args /\
  dk_start d path args = None /\ exists bin, dk_look d bin = Some path.
Proof.
  assert (Hst : forall p a path args err, start d p a = (Some (path, args), err) ->
    err = None /\ path = p /\ args = a /\ dk_start d p a = None).
  { intros p a p' a' err. unfold start. destruct (dk_start d p a) eqn:E; [done|]. by intros [= <- <- <-]. }
  assert (Hv : forall bins path args err, launch_vnc_from d addr bins = (Some (path, args), err) ->
    err = None /\ addresses addr args /\ dk_start d path args = None /\ exists bin, dk_look d bin = Some path).
  { induction bins as [|bin bins IH]; intros p a err; cbn; [done|]. destruct (dk_look d bin) as [q|] eqn:El; [|apply IH].
    intros (-> & -> & -> & Hs)%Hst. split; [done|]. split; [|by eauto].
    unfold addresses. destruct (splitHostPort addr). right; left. case_bool_decide.
    - exists "vnc://"%string. split; [by right; left|by right; left].
    - exists ""%string. split; [by right; right; left|by left]. }
  assert (Hs : forall terms path args err, launch_ssh_from d (fst (splitHostPort addr)) (snd (splitHostPort addr)) terms = (Some (path, args), err) ->
    err = None /\ addresses addr args /\ dk_start d path args = None /\ exists bin, dk_look d bin = Some path).
  { induction terms as [|bin terms IH]; intros p a err; cbn; [done|]. destruct (dk_look d bin) as [q|] eqn:El; [|apply IH].
    intros (-> & -> & -> & Hs)%Hst. split; [done|]. split; [|by eauto].
    unfold addresses. destruct (splitHostPort addr) as [host port]. right; right. case_bool_decide; [left|right].
    - split; [by do 3 right; left|by do 4 right; left].
    - by right; left. }
  unfold LaunchClient, launchVNC, launchSSH, launchRDP.
  destruct (splitHostPort addr) as [host port]. cbn [fst snd] in Hs.
  destruct (headless d); [by repeat case_bool_decide|].
  case_bool_decide; [|case_bool_decide].
  - destruct (launch_vnc_from d addr _) as [cmd err] eqn:E. destruct err; intros [= -> <-]; apply Hv in E as (? & ? & ? & ?); by split.
  - destruct (launch_ssh_from d host port _) as [cmd err] eqn:E. destruct err; intros [= -> <-]; apply Hs in E as (? & ? & ? & ?); by split.
  - destruct (launch_rdp_from d addr _) as [cmd err] eqn:E.
    destruct err; intros [= -> <-]; apply launch_rdp_from_spec in E as (? & ? & ? & ?); try done; try (by intros; eapply rdp_args_address); by split.
Qed.

(** Without a display, or with no terminal for ssh, nothing runs and the launch
    is reported all the same. *)
Lemma launched_without_client look start' :
  let d := mkDesktop "" "" look start' in LaunchClient d "127.0.0.1:1" "ssh" = (None, mkLaunch true "127.0.0.1:1" "ssh" "").
Proof. done. Qed.
