(* ===== verification/Ipc.v ===== *)
(** * Ipc: the commands of the tray

    [serveConn] of [internal/ipc/ipc.go] with the handler of [RunStack] in
    [internal/service/service.go].  The check of the connecting process
    ([authorizeClient], per platform) and the decoding of the request are
    parameters; transport and JSON are not modelled. *)

From stdpp Require Import gmap.
From S2P Require Import Prelude GoStrings Crypto Config Url InviteUrl Invites WebAccess RdpCheck.

Record Request : Type := mkIpcRequest {
  ir_Cmd : string;
  ir_Mode : string;
  ir_Protocol : string;
  ir_Port : Z;
  ir_Label : string;
}.

Inductive Response : Type :=
  | StatusOf (nodeID label webuiURL : string) (relayCount : nat) (logFile : string)
  | InviteURL (url : string)
  | Failed (err : string).

(** What the commands read besides: the outcome of generating a link. *)
Record ipc_env : Type := mkIpcEnv {
  ie_token : bytes;               (** the bytes of a launch token *)
  ie_relays : nat;
  ie_logFile : string;
  ie_gen : gen_env;
}.

Section Ipc.
Context `{Crypto} `{UrlCheck}.

(** The daemon's side: the dashboard's gate and the pairing manager. *)
Definition handle (e : ipc_env) (g : gate) (m : Manager) (rq : Request) : gate * Manager * outcome Response :=
  if bool_decide (ir_Cmd rq = "status") then
    let '(g, url) := BaseURL g (ie_token e) in
    (g, m, Return (StatusOf (nodeID m) (nc_Label (Node (cfg m))) url (ie_relays e) (ie_logFile e)))
  else if bool_decide (ir_Cmd rq = "generate") then
    if bool_decide (ir_Mode rq <> "onetime") && bool_decide (ir_Mode rq <> "pairing")
    then (g, m, Return (Failed "mode must be onetime or pairing"))
    else
      let proto := if bool_decide (ir_Protocol rq = "") then rdp_Protocol (RDP (cfg m)) else ir_Protocol rq in
      let proto := if bool_decide (proto = "") then "rdp"%string else proto in
      let port := if ir_Port rq =? 0 then DefaultPort (ParseProtocol proto) else ir_Port rq in
      let ttl := if bool_decide (ir_Mode rq = "pairing") then 0 else hour in
      let '(m, r) := generateURL m (ie_gen e) (ir_Mode rq) ttl (ir_Label rq) proto port None in
      (g, m, match r with
             | Panic p => Panic p
             | Return (Err err) => Return (Failed err)
             | Return (Ok (url, _)) => Return (InviteURL url)
             end)
  else (g, m, Return (Failed ("unknown command: " ++ ir_Cmd rq))).

(** [auth] is [authorizeClient]; [None] for a request that does not decode,
    which is not answered. *)
Definition serveConn (e : ipc_env) (auth : res unit) (g : gate) (m : Manager) (decoded : option Request)
  : gate * Manager * option (outcome Response) :=
  match auth with
  | Err err => (g, m, Some (Return (Failed ("unauthorized IPC client: " ++ err))))
  | Ok _ =>
    match decoded with
    | None => (g, m, None)
    | Some rq => let '(g, m, r) := handle e g m rq in (g, m, Some r)
    end
  end.
End Ipc.

(** ** Properties *)

(** Commands are for authorized clients.  A client that is not authorized
    changes nothing, and a request that fails mints no launch token; one is
    handed out to an authorized client only, in a link with exactly the token
    that the gate will accept; an invite link is the pairing manager's, for a
    one-time invite of an hour or a pairing. *)
Lemma ipc_commands `{Crypto} `{UrlCheck} e auth g m decoded g' m' r
  (Hs : serveConn e auth g m decoded = (g', m', Some (Return r))) :
  match r with
  | Failed _ => g' = g
  | StatusOf node _ url _ _ =>
      is_ok auth = true /\ m' = m /\ node = nodeID m /\
      url = ("http://127.0.0.1:18080/?token=" ++ hex_encode (ie_token e))%string /\
      gt_tokens g' = {[hex_encode (ie_token e)]} ∪ gt_tokens g
  | InviteURL url =>
      is_ok auth = true /\ g' = g /\
      exists rq v, decoded = Some rq /\ (ir_Mode rq = "onetime"%string \/ ir_Mode rq = "pairing"%string) /\
        exists proto port, generateURL m (ie_gen e) (ir_Mode rq)
          (if bool_decide (ir_Mode rq = "pairing") then 0 else hour) (ir_Label rq) proto port None = (m', Return (Ok (url, v)))
  end /\ (is_ok auth = false -> m' = m).
Proof.
  revert Hs. unfold serveConn. destruct auth as [[]|err]; [|by intros [= <- <- <-]].
  destruct decoded as [rq|]; [|done]. unfold handle.
  case_bool_decide; [by intros [= <- <- <-]|]. case_bool_decide; [|by intros [= <- <- <-]].
  destruct (bool_decide (ir_Mode rq <> "onetime") && bool_decide (ir_Mode rq <> "pairing")) eqn:Em; [by intros [= <- <- <-]|].
  set (proto := if bool_decide (_ = "") then "rdp"%string else _). set (port := if _ =? 0 then _ else _).
  set (ttl := if bool_decide (ir_Mode rq = "pairing") then 0 else hour).
  destruct (generateURL m (ie_gen e) (ir_Mode rq) ttl (ir_Label rq) proto port None) as [m1 [[[url v]|err]|p]] eqn:Eg; cbv zeta beta.
  - intros [= <- <- <-]. split; [|done]. split; [done|]. split; [done|]. exists rq, v. split; [done|]. split.
    + apply andb_false_iff in Em as [Em|Em]; apply bool_decide_eq_false in Em; [left|right]; by apply dec_stable.
    + by exists proto, port.
  - by intros [= <- <- <-].
  - done.
Qed.

Definition sample_ipc : ipc_env := mkIpcEnv [x01] 0 "" sample_gen.

Lemma ipc_commands_witness :
  serveConn sample_ipc (Ok tt) (newGate [x00]) sample_manager (Some (mkIpcRequest "status" "" "" 0 "")) =
    (fst (BaseURL (newGate [x00]) [x01]), sample_manager,
     Some (Return (StatusOf "12D3KooWhost" "h" "http://127.0.0.1:18080/?token=01" 0 ""))) /\
  gt_tokens (fst (BaseURL (newGate [x00]) [x01])) = {["01"%string]} ∪ ∅.
Proof.
  split; [vm_compute; reflexivity|].
  destruct (ipc_commands sample_ipc (Ok tt) (newGate [x00]) sample_manager (Some (mkIpcRequest "status" "" "" 0 ""))
              (fst (BaseURL (newGate [x00]) [x01])) sample_manager
              (StatusOf "12D3KooWhost" "h" "http://127.0.0.1:18080/?token=01" 0 "") ltac:(vm_compute; reflexivity))
    as [(_ & _ & _ & _ & Ht) _].
  exact Ht.
Defined.
