(* ===== verification/IpcTransport.v ===== *)
(** * IpcTransport: how a command reaches the daemon

    The Unix sockets of [internal/ipc/transport_unix.go], the accept loop of
    [Serve] and the client's [Query] ([internal/ipc/ipc.go]).  The sockets bound
    in the file system are explicit; an instance is a number. *)

From stdpp Require Import gmap.
From S2P Require Import Prelude GoStrings Ipc.

(** What a process sees of its machine; [ih_rundir] is whether the directory
    of the system socket exists. *)
Record ipc_host : Type := mkIpcHost {
  ih_getenv : string -> string;
  ih_uid : Z;
  ih_join : list string -> string;
  ih_rundir : bool;
}.

Definition systemSocketPath : string := "/run/deskaccess/DeskAccess.sock".

Definition userSocketPath (h : ipc_host) : string :=
  let d := ih_getenv h "XDG_RUNTIME_DIR" in
  if bool_decide (d <> "") then ih_join h [d; "DeskAccess.sock"]
  else ("/tmp/DeskAccess-" ++ itoa (ih_uid h) ++ ".sock")%string.

Definition listenSocketPath (h : ipc_host) : string :=
  let p := ih_getenv h "DESKACCESS_IPC_SOCKET" in
  if bool_decide (p <> "") then p
  else if ih_rundir h then systemSocketPath
  else userSocketPath h.

Definition dialSocketPaths (h : ipc_host) : list string :=
  let p := ih_getenv h "DESKACCESS_IPC_SOCKET" in
  if bool_decide (p <> "") then [p]
  else foldl (fun out p => if bool_decide (p = "") || bool_decide (p ∈ out) then out else out ++ [p]) []
         [userSocketPath h; systemSocketPath].

(** ** Sockets *)

(** The modes 0660 and 0600. *)
Definition group_mode : Z := 6 * 64 + 6 * 8.
Definition owner_mode : Z := 6 * 64.

Record socket : Type := mkSock { so_owner : nat; so_mode : Z }.
Notation sockets := (gmap string socket).

(** [listen]: what was at the path is removed, also when the bind fails. *)
Definition listen (h : ipc_host) (bind : string -> option string) (inst : nat) (s : sockets) : sockets * res string :=
  let path := listenSocketPath h in
  let s := delete path s in
  match bind path with
  | Some err => (s, Err err)
  | None =>
    let mode := if bool_decide (path = systemSocketPath) then group_mode else owner_mode in
    (<[path := mkSock inst mode]> s, Ok path)
  end.

(** [net.Dial] of one path. *)
Definition connect_to (refuse : string -> option string) (s : sockets) (path : string) : res nat :=
  match refuse path with
  | Some err => Err err
  | None => match s !! path with Some so => Ok (so_owner so) | None => Err "connect: no such file or directory" end
  end.

Fixpoint dial_each (refuse : string -> option string) (s : sockets) (paths errs : list string) : res nat :=
  match paths with
  | [] => Err ("all IPC sockets failed: " ++ join "; " errs)%string
  | path :: paths =>
    match connect_to refuse s path with
    | Ok inst => Ok inst
    | Err err => dial_each refuse s paths (errs ++ [(path ++ ": " ++ err)%string])
    end
  end.
Definition dial (h : ipc_host) (refuse : string -> option string) (s : sockets) : res nat :=
  dial_each refuse s (dialSocketPaths h) [].

(** [Query]: the error of writing the request, and the reply that was decoded. *)
Definition Query (h : ipc_host) (refuse : string -> option string) (s : sockets) (send : option string)
    (reply : nat -> res Response) : res Response :=
  inst ← dial h refuse s;
  match send with
  | Some err => Err err
  | None => reply inst
  end.

(** The accept loop of [Serve]: the connections handed to [serveConn] before
    the listener fails. *)
Fixpoint serve {C} (accepts : list (res C)) : list C :=
  match accepts with
  | Ok conn :: r => conn :: serve r
  | _ => []
  end.
Definition Serve {C} (h : ipc_host) (bind : string -> option string) (inst : nat) (s : sockets) (accepts : list (res C))
  : sockets * res (list C) :=
  let '(s, l) := listen h bind inst s in
  (s, match l with Err err => Err err | Ok _ => Ok (serve accepts) end).

(** ** Lemmas *)

Lemma dial_each_first refuse s paths errs inst :
  dial_each refuse s paths errs = Ok inst <->
  exists l1 p l2, paths = l1 ++ p :: l2 /\ connect_to refuse s p = Ok inst /\
    forall q, q ∈ l1 -> is_ok (connect_to refuse s q) = false.
Proof.
  revert errs. induction paths as [|p paths IH]; intros errs; cbn [dial_each].
  { split; [done|]. by intros ([|??] & ? & ? & ? & _). }
  destruct (connect_to refuse s p) as [i|err] eqn:Ec.
  - split.
    + intros [= <-]. exists [], p, paths. split; [done|]. split; [done|]. by intros ? ?%not_elem_of_nil.
    + intros ([|q l1] & p' & l2 & He & Hc & Hl); simplify_eq/=; [congruence|].
      specialize (Hl q ltac:(left)). by rewrite Ec in Hl.
  - rewrite IH. split.
    + intros (l1 & p' & l2 & -> & Hc & Hl). exists (p :: l1), p', l2. split; [done|]. split; [done|].
      intros q [->|Hq]%elem_of_cons; [by rewrite Ec|auto].
    + intros ([|q l1] & p' & l2 & He & Hc & Hl); simplify_eq/=; [congruence|].
      exists l1, p', l2. split; [done|]. split; [done|]. intros q' Hq. apply Hl. by right.
Qed.

(** The sockets tried, with the user's own first. *)
Lemma dial_paths h :
  dialSocketPaths h =
    if bool_decide (ih_getenv h "DESKACCESS_IPC_SOCKET" <> "") then [ih_getenv h "DESKACCESS_IPC_SOCKET"]
    else if bool_decide (userSocketPath h = "") then [systemSocketPath]
    else if bool_decide (userSocketPath h = systemSocketPath) then [systemSocketPath]
    else [userSocketPath h; systemSocketPath].
Proof.
  unfold dialSocketPaths. case_bool_decide as Hp; [done|]. cbn [foldl].
  rewrite (bool_decide_eq_false_2 (systemSocketPath = "")) by done.
  rewrite (bool_decide_eq_false_2 (userSocketPath h ∈ [])) by apply not_elem_of_nil.
  destruct (decide (userSocketPath h = "")) as [Hu|Hu]; rewrite ?(bool_decide_eq_true_2 (_ h = "")), ?(bool_decide_eq_false_2 (_ h = "")) by done;
    cbn [orb app].
  - by rewrite bool_decide_eq_false_2 by apply not_elem_of_nil.
  - destruct (decide (userSocketPath h = systemSocketPath)) as [E|E].
    + rewrite (bool_decide_eq_true_2 (_ ∈ _)), (bool_decide_eq_true_2 (_ = _)) by (done || by apply list_elem_of_singleton). by rewrite E.
    + rewrite (bool_decide_eq_false_2 (_ ∈ _)), (bool_decide_eq_false_2 (_ = _)) by (done || (intros ?%list_elem_of_singleton; congruence)).
      done.
Qed.

(** The socket a daemon listens on is one a client of the same user tries. *)
Lemma listen_path_dialled h h' :
  ih_getenv h "DESKACCESS_IPC_SOCKET" = ih_getenv h' "DESKACCESS_IPC_SOCKET" ->
  userSocketPath h = userSocketPath h' -> userSocketPath h <> ""%string ->
  listenSocketPath h ∈ dialSocketPaths h'.
Proof.
  intros He Hu Hn. rewrite dial_paths. unfold listenSocketPath. rewrite <- He, <- Hu.
  case_bool_decide; [by left|]. rewrite (bool_decide_eq_false_2 (userSocketPath h = "")) by done.
  case_bool_decide as Hs.
  - rewrite Hs. destruct (ih_rundir h); by left.
  - destruct (ih_rundir h); [by right; left|by left].
Qed.

(** A client reaches the daemon that listened last, unless an earlier socket
    of its list is bound by another process. *)
Lemma client_reaches_daemon h h' bind inst s refuse :
  let path := listenSocketPath h in
  let s' := fst (listen h bind inst s) in
  bind path = None -> refuse path = None ->
  ih_getenv h "DESKACCESS_IPC_SOCKET" = ih_getenv h' "DESKACCESS_IPC_SOCKET" ->
  userSocketPath h = userSocketPath h' -> userSocketPath h <> ""%string ->
  exists i, dial h' refuse s' = Ok i /\
    (i = inst \/ path = systemSocketPath /\ ih_getenv h' "DESKACCESS_IPC_SOCKET" = ""%string /\
                 userSocketPath h' <> systemSocketPath /\ connect_to refuse s' (userSocketPath h') = Ok i).
Proof.
  intros path s' Hb Hr He Hu Hn.
  assert (Hc : connect_to refuse s' path = Ok inst).
  { unfold connect_to, s', listen. subst path. rewrite Hr, Hb. cbn [fst]. by rewrite lookup_insert_eq. }
  assert (Hin : path ∈ dialSocketPaths h') by (by apply listen_path_dialled).
  clearbody path s'. unfold dial. rewrite dial_paths in *. case_bool_decide as Ho; [|rewrite <- Hu in *; rewrite (bool_decide_eq_false_2 (userSocketPath h = "")) in * by done].
  - apply list_elem_of_singleton in Hin. rewrite Hin in Hc. cbn [dial_each]. rewrite Hc. eauto.
  - case_bool_decide as Hs; [apply list_elem_of_singleton in Hin; rewrite Hin in Hc; cbn [dial_each]; rewrite Hc; eauto|].
    cbn [dial_each]. destruct (connect_to refuse s' (userSocketPath h)) as [i|err] eqn:Eu.
    + exists i. split; [done|]. apply elem_of_cons in Hin as [Hx|Hin%list_elem_of_singleton]; [left; rewrite Hx in Hc; congruence|right].
      done.
    + apply elem_of_cons in Hin as [Hx|Hin%list_elem_of_singleton]; [rewrite Hx in Hc; congruence|].
      rewrite Hin in Hc. rewrite Hc. eauto.
Qed.

(** The system socket is open to the group, whatever the package says of the
    owner's mode. *)
Lemma system_socket_mode h bind inst s path :
  snd (listen h bind inst s) = Ok path ->
  so_mode <$> fst (listen h bind inst s) !! path = Some (if bool_decide (path = systemSocketPath) then group_mode else owner_mode).
Proof.
  unfold listen. destruct (bind (listenSocketPath h)); [done|]. cbn. intros [= <-]. by rewrite lookup_insert_eq.
Qed.

(** A second daemon takes the socket of the first, which keeps running. *)
Lemma second_daemon_takes_socket h inst1 inst2 :
  let s := fst (listen h (fun _ => None) inst2 (fst (listen h (fun _ => None) inst1 ∅))) in
  so_owner <$> s !! listenSocketPath h = Some inst2.
Proof. cbn. by rewrite lookup_insert_eq. Qed.

(** A reply is never missing. *)
Lemma serve_prefix {C} (accepts : list (res C)) : exists rest, accepts = (Ok <$> serve accepts) ++ rest.
Proof.
  induction accepts as [|[c|err] r [rest IH]]; [by exists []| |by exists (Err err :: r)].
  exists rest. cbn. by rewrite <- IH.
Qed.
