(* ===== verification/Service.v ===== *)
(** * Service: the supervisor of [internal/service/service.go]

    Which network backends run, who uses them, and the references that keep
    the iroh sidecar alive.  The backends are numbered instances; whether one
    starts, runs or gets ready is the environment of each operation.  All
    operations run under one lock.  The parts that only print a status and the
    reading of configuration and identity at start-up are left out. *)

From stdpp Require Import gmap.
From S2P Require Import Prelude GoStrings Config NetNode Netbackend BackendRefs.

(** What an operation meets: the results of the constructors ([Ok false] is a
    nil backend), the liveness of a sidecar, the waits and the node's calls
    with the node's state after them. *)
Record sup_env : Type := mkSupEnv {
  en_sidecar : Config -> res bool;              (** [irohsidecar.New] *)
  en_running : nat -> bool;                     (** [Running] of a sidecar *)
  en_key : res unit;                            (** [PrivateKeyBytes] *)
  en_quic : Config -> res bool;                 (** [quicnet.New] *)
  en_btdht : Config -> res bool;                (** [btdht.New] *)
  en_btdht_ready : option string;               (** [WaitReady] *)
  en_libp2p : bool * bool * option string;      (** [StartLibp2p]: running, has a DHT, error *)
  en_dht_ready : option string;                 (** [WaitDHTReady] *)
  en_apply : bool * bool * option string;       (** [ApplyNetworkConfig] *)
}.

(** A client of the backends: the pairing or the tunnel manager. *)
Record view : Type := mkView { vw_iroh : option nat; vw_quic : option nat; vw_libp2p : bool }.

Record Sup : Type := mkSup {
  sv_cfg : Config;
  sv_refs : gmap string (gset string);    (** [backendRefs] *)
  sv_iroh : option nat;
  sv_quic : option nat;
  sv_btdht : option nat;
  sv_libp2p : bool;                       (** [n.Libp2pRunning()] *)
  sv_dht : bool;                          (** [n.DHT() != nil] *)
  sv_pairing : view;
  sv_tunnel : view;
  sv_discoverer : option nat;             (** the pairing manager's DHT client *)
  sv_lastError : string;
  sv_next : nat;                          (** the next instance *)
  sv_closed : gset nat;                   (** the instances closed so far *)
}.

Definition set_cfg (s : Sup) c : Sup :=
  mkSup c (sv_refs s) (sv_iroh s) (sv_quic s) (sv_btdht s) (sv_libp2p s) (sv_dht s) (sv_pairing s) (sv_tunnel s)
    (sv_discoverer s) (sv_lastError s) (sv_next s) (sv_closed s).
Definition set_refs (s : Sup) m : Sup :=
  mkSup (sv_cfg s) m (sv_iroh s) (sv_quic s) (sv_btdht s) (sv_libp2p s) (sv_dht s) (sv_pairing s) (sv_tunnel s)
    (sv_discoverer s) (sv_lastError s) (sv_next s) (sv_closed s).
Definition set_error (s : Sup) e : Sup :=
  mkSup (sv_cfg s) (sv_refs s) (sv_iroh s) (sv_quic s) (sv_btdht s) (sv_libp2p s) (sv_dht s) (sv_pairing s) (sv_tunnel s)
    (sv_discoverer s) e (sv_next s) (sv_closed s).

(** A change of the current sidecar, with [SetIroh] of both managers. *)
Definition set_iroh (s : Sup) (i : option nat) (next : nat) (closed : gset nat) : Sup :=
  mkSup (sv_cfg s) (sv_refs s) i (sv_quic s) (sv_btdht s) (sv_libp2p s) (sv_dht s)
    (mkView i (vw_quic (sv_pairing s)) (vw_libp2p (sv_pairing s)))
    (mkView i (vw_quic (sv_tunnel s)) (vw_libp2p (sv_tunnel s)))
    (sv_discoverer s) (sv_lastError s) next closed.

(** The same for direct QUIC, and for the DHT client with [SetDHTDiscoverer]. *)
Definition set_quic (s : Sup) (q : option nat) (next : nat) (closed : gset nat) : Sup :=
  mkSup (sv_cfg s) (sv_refs s) (sv_iroh s) q (sv_btdht s) (sv_libp2p s) (sv_dht s)
    (mkView (vw_iroh (sv_pairing s)) q (vw_libp2p (sv_pairing s)))
    (mkView (vw_iroh (sv_tunnel s)) q (vw_libp2p (sv_tunnel s)))
    (sv_discoverer s) (sv_lastError s) next closed.
Definition set_btdht (s : Sup) (b : option nat) (next : nat) (closed : gset nat) : Sup :=
  mkSup (sv_cfg s) (sv_refs s) (sv_iroh s) (sv_quic s) b (sv_libp2p s) (sv_dht s) (sv_pairing s) (sv_tunnel s)
    b (sv_lastError s) next closed.

(** The node after one of its calls. *)
Definition set_node (s : Sup) (running dht : bool) : Sup :=
  mkSup (sv_cfg s) (sv_refs s) (sv_iroh s) (sv_quic s) (sv_btdht s) running dht (sv_pairing s) (sv_tunnel s)
    (sv_discoverer s) (sv_lastError s) (sv_next s) (sv_closed s).
(** [SetLibp2p(n.Libp2pRunning())] of both managers. *)
Definition set_libp2p (s : Sup) : Sup :=
  mkSup (sv_cfg s) (sv_refs s) (sv_iroh s) (sv_quic s) (sv_btdht s) (sv_libp2p s) (sv_dht s)
    (mkView (vw_iroh (sv_pairing s)) (vw_quic (sv_pairing s)) (sv_libp2p s))
    (mkView (vw_iroh (sv_tunnel s)) (vw_quic (sv_tunnel s)) (sv_libp2p s))
    (sv_discoverer s) (sv_lastError s) (sv_next s) (sv_closed s).

Definition newSup (c : Config) : Sup :=
  mkSup c ∅ None None None false false (mkView None None false) (mkView None None false) None "" 0 ∅.

Definition mode_off (mode : string) : bool := bool_decide (mode = "") || bool_decide (mode = "disabled").
Definition active (s : Sup) : string := ActiveNetworkBackend (Some (sv_cfg s)).

Definition shouldRunIrohSidecarBackend (c : option Config) : bool :=
  match c with
  | None => false
  | Some cfg => bool_decide (ActiveNetworkBackend c = "iroh") && negb (mode_off (iroh_Mode (Iroh cfg)))
  end.
Definition shouldRunBitTorrentDHTBackend (c : option Config) : bool :=
  match c with
  | None => false
  | Some cfg => bool_decide (ActiveNetworkBackend c = BackendBitTorrentDHT) && negb (mode_off (btdht_Mode (BTDHT cfg)))
  end.
Definition shouldRunLibp2pBackground (c : option Config) : bool :=
  match c with
  | None => false
  | Some cfg =>
    let b := ActiveNetworkBackend c in
    if bool_decide (b = BackendLibp2pRelay) then negb (mode_off (relay_Mode (Relay cfg)))
    else if bool_decide (b = BackendLibp2pDHT) then negb (mode_off (dht_Mode (DHT cfg)))
    else false
  end.

(** ** The iroh sidecar *)

Definition stopIrohSidecar (s : Sup) : Sup :=
  match sv_iroh s with
  | None => s
  | Some i => set_iroh s None (sv_next s) ({[i]} ∪ sv_closed s)
  end.

Definition registerIrohSidecar (s : Sup) : Sup := set_iroh s (Some (sv_next s)) (S (sv_next s)) (sv_closed s).

Definition with_iroh_mode (c : Config) (mode : string) : Config :=
  mkConfig (Network c) (Node c) (Relay c) (DHT c) (BTDHT c) (mkIroh mode (iroh_Servers (Iroh c))) (RDP c)
    (Remotes c) (Trusted c).

(** [startIrohSidecarLocked]: the mode it may set is set back at the end. *)
Definition startIrohSidecar (env : sup_env) (s : Sup) (allowEnable : bool) : Sup * option string :=
  if match sv_iroh s with Some i => en_running env i | None => false end then (s, None)
  else
    let s := stopIrohSidecar s in
    let old := iroh_Mode (Iroh (sv_cfg s)) in
    let mode := if allowEnable && mode_off old then "public"%string else old in
    if mode_off mode then (s, Some "iroh backend is disabled"%string)
    else match en_sidecar env (with_iroh_mode (sv_cfg s) mode) with
         | Err err => (set_error s err, Some err)
         | Ok false => let err := "iroh sidecar binary not found"%string in (set_error s err, Some err)
         | Ok true => (set_error (registerIrohSidecar s) "", None)
         end.

(** ** References *)

Definition update_refs (m : gmap string (gset string)) (backend key : string) (act : bool) : gmap string (gset string) :=
  let refs := default ∅ (m !! backend) in
  let refs := if act then {[key]} ∪ refs else refs ∖ {[key]} in
  if decide (refs = ∅) then delete backend m else <[backend := refs]> m.

Definition setBackendRef (env : sup_env) (s : Sup) (backend key : string) (act : bool) : Sup * option string :=
  let backend := CanonicalNetworkBackend backend in
  if bool_decide (backend = "") || bool_decide (backend = "disabled") || bool_decide (key = "") then (s, None)
  else
    let s := set_refs s (update_refs (sv_refs s) backend key act) in
    if bool_decide (backend <> BackendIroh) then (s, None)
    else match sv_refs s !! backend with
         | Some _ => startIrohSidecar env s true
         | None => (stopIrohSidecar s, None)
         end.

Definition backendRefCount (s : Sup) (backend : string) : nat :=
  size (default ∅ (sv_refs s !! CanonicalNetworkBackend backend)).

(** ** Backends *)

Definition backendRunning (env : sup_env) (s : Sup) (backend : string) : bool :=
  if bool_decide (backend = BackendIroh) then match sv_iroh s with Some i => en_running env i | None => false end
  else if bool_decide (backend = BackendBitTorrentDHT)
  then bool_decide (is_Some (sv_btdht s)) && bool_decide (is_Some (sv_quic s))
  else if bool_decide (backend = BackendLibp2pDHT) then sv_dht s
  else if bool_decide (backend = BackendLibp2pRelay) then sv_libp2p s
  else false.

(** [lastNetworkApplyError = err.Error(); return err] *)
Definition failing (s : Sup) (err : string) : Sup * option string := (set_error s err, Some err).

(** A new QUIC backend, if there is none; [Ok false] keeps none. *)
Definition start_quic (env : sup_env) (s : Sup) : Sup * option string :=
  match sv_quic s with
  | Some _ => (s, None)
  | None => match en_quic env (sv_cfg s) with
            | Err err => (s, Some err)
            | Ok true => (set_quic s (Some (sv_next s)) (S (sv_next s)) (sv_closed s), None)
            | Ok false => (s, None)
            end
  end.

Definition start_btdht (env : sup_env) (s : Sup) : Sup * option string :=
  match sv_btdht s with
  | Some _ => (s, None)
  | None => match en_btdht env (sv_cfg s) with
            | Err err => (s, Some err)
            | Ok true => (set_btdht s (Some (sv_next s)) (S (sv_next s)) (sv_closed s), None)
            | Ok false => (set_btdht s None (sv_next s) (sv_closed s), None)
            end
  end.

Definition ensure_btdht (env : sup_env) (s : Sup) : Sup * option string :=
  let s := set_cfg s (ensureBackendEnabled (sv_cfg s) BackendBitTorrentDHT) in
  match en_key env with
  | Err err => failing s err
  | Ok _ =>
    let '(s, err) := start_quic env s in
    match err with
    | Some err => failing s err
    | None =>
      let '(s, err) := start_btdht env s in
      match err with
      | Some err => failing s err
      | None =>
        match (if decide (is_Some (sv_btdht s)) then en_btdht_ready env else None) with
        | Some err => failing s err
        | None => (set_error s "", None)
        end
      end
    end
  end.

(** [StartLibp2p], and the managers' [SetLibp2p] when it succeeds. *)
Definition start_libp2p (env : sup_env) (s : Sup) : Sup * option string :=
  let '(running, dht, err) := en_libp2p env in
  let s := set_node s running dht in
  match err with Some err => failing s err | None => (set_libp2p s, None) end.

Definition ensure_libp2p_dht (env : sup_env) (s : Sup) : Sup * option string :=
  let s := set_cfg s (ensureBackendEnabled (sv_cfg s) BackendLibp2pDHT) in
  let '(s, err) := if sv_dht s then (s, None) else start_libp2p env s in
  match err with
  | Some err => (s, Some err)
  | None => match en_dht_ready env with Some err => failing s err | None => (set_error s "", None) end
  end.

Definition ensure_relay (env : sup_env) (s : Sup) : Sup * option string :=
  let s := set_cfg s (ensureBackendEnabled (sv_cfg s) BackendLibp2pRelay) in
  let '(s, err) := start_libp2p env s in
  match err with Some err => (s, Some err) | None => (set_error s "", None) end.

(** [ensureNetworkBackendLocked]; [connect] is [reason == "connect"]. *)
Definition ensureNetworkBackend (env : sup_env) (s : Sup) (backend : string) (connect : bool) : Sup * option string :=
  if bool_decide (backend = BackendIroh) then startIrohSidecar env s connect
  else if bool_decide (backend = BackendBitTorrentDHT) then ensure_btdht env s
  else if bool_decide (backend = BackendLibp2pDHT) then ensure_libp2p_dht env s
  else if bool_decide (backend = BackendLibp2pRelay) then ensure_relay env s
  else (s, Some ("unsupported backend " ++ quote backend)%string).

(** A tick of the retry loop. *)
Definition retry (env : sup_env) (s : Sup) : Sup :=
  let b := active s in
  if bool_decide (b = "") || bool_decide (b = "disabled") || backendRunning env s b then s
  else fst (ensureNetworkBackend env s b false).

(** The start-up of a selected iroh backend. *)
Definition startup (env : sup_env) (s : Sup) : Sup :=
  if bool_decide (active s = BackendIroh) then fst (setBackendRef env s BackendIroh "selected" true) else s.

(** The start of [RunStack] with the loaded configuration, and the node as it
    is after [node.New]. *)
Definition boot (env : sup_env) (c : Config) (running dht : bool) : Sup :=
  let s := set_node (newSup (NormalizeNetworkBackend c)) running dht in
  let bt := shouldRunBitTorrentDHTBackend (Some (sv_cfg s)) in
  let s := match en_key env with
           | Err _ => s
           | Ok _ =>
             if bt then
               let '(s, err) := start_quic env s in
               match err with Some _ => s | None => fst (start_btdht env s) end
             else s
           end in
  startup env (if sv_libp2p s then set_libp2p s else s).

(** ** Applying a configuration *)

Definition close_btdht (s : Sup) : Sup :=
  match sv_btdht s with None => s | Some b => set_btdht s None (sv_next s) ({[b]} ∪ sv_closed s) end.
Definition close_quic (s : Sup) : Sup :=
  match sv_quic s with None => s | Some q => set_quic s None (sv_next s) ({[q]} ∪ sv_closed s) end.

(** The errors of the two constructors are kept, and the rest goes on. *)
Definition apply_btdht (env : sup_env) (s : Sup) : Sup :=
  match en_key env with
  | Err err => set_error s err
  | Ok _ =>
    let '(s, err) := start_quic env s in
    let s := match err with Some err => set_error s err | None => s end in
    match en_btdht env (sv_cfg s) with
    | Err err => set_error s err
    | Ok true => set_btdht s (Some (sv_next s)) (S (sv_next s)) (sv_closed s)
    | Ok false => s
    end
  end.

Definition applyNetworkConfig (env : sup_env) (s : Sup) : Sup * option string :=
  let s := set_cfg s (NormalizeNetworkBackend (sv_cfg s)) in
  let '(running, dht, err) := en_apply env in
  let s := set_node s running dht in
  match err with
  | Some err => failing s err
  | None =>
    let s := close_quic (close_btdht (set_error (set_libp2p s) "")) in
    let s := if shouldRunBitTorrentDHTBackend (Some (sv_cfg s)) then apply_btdht env s else s in
    if bool_decide (active s = BackendIroh) then
      let '(s, err) := setBackendRef env s BackendIroh "selected" true in
      (match err with Some err => set_error s err | None => s end, None)
    else (fst (setBackendRef env s BackendIroh "selected" false), None)
  end.

(** The end of [RunStack]. *)
Definition shutdown (s : Sup) : Sup := stopIrohSidecar s.

(** ** Runs *)

Inductive sup_op : Type :=
  | SConfig (c : Config)                                   (** the dashboard edits the configuration *)
  | SRef (backend key : string) (act : bool)
  | SEnsure (backend : string)
  | SRetry
  | SApply
  | SShutdown.

Definition sup_step (s : Sup) (eo : sup_env * sup_op) : Sup :=
  let '(env, o) := eo in
  match o with
  | SConfig c => set_cfg s c
  | SRef backend key act => fst (setBackendRef env s backend key act)
  | SEnsure backend => fst (ensureNetworkBackend env s backend true)
  | SRetry => retry env s
  | SApply => fst (applyNetworkConfig env s)
  | SShutdown => shutdown s
  end.

(** ** Lemmas *)

(** The instance is the current one of its kind. *)
Definition current (s : Sup) (i : nat) : Prop := sv_iroh s = Some i \/ sv_quic s = Some i \/ sv_btdht s = Some i.

(** The managers use the current backends, and every instance ever started is
    either current or closed, and not both. *)
Record tidy (s : Sup) : Prop := {
  ti_iroh : vw_iroh (sv_pairing s) = sv_iroh s /\ vw_iroh (sv_tunnel s) = sv_iroh s;
  ti_quic : vw_quic (sv_pairing s) = sv_quic s /\ vw_quic (sv_tunnel s) = sv_quic s;
  ti_btdht : sv_discoverer s = sv_btdht s;
  ti_all i : (i < sv_next s)%nat <-> i ∈ sv_closed s \/ current s i;
  ti_open i : i ∈ sv_closed s -> ~ current s i;
  ti_apart i : (sv_iroh s = Some i -> sv_quic s <> Some i /\ sv_btdht s <> Some i) /\
               (sv_quic s = Some i -> sv_btdht s <> Some i);
}.

(** The fields [tidy] reads. *)
Definition wiring (s : Sup) :=
  (sv_iroh s, sv_quic s, sv_btdht s, (vw_iroh (sv_pairing s), vw_quic (sv_pairing s)),
   (vw_iroh (sv_tunnel s), vw_quic (sv_tunnel s)), sv_discoverer s, sv_next s, sv_closed s).

Lemma tidy_wiring s s' : tidy s -> wiring s' = wiring s -> tidy s'.
Proof.
  unfold wiring. rewrite !pair_equal_spec. intros [] (((((((E1 & E2) & E3) & (E4 & E5)) & (E6 & E7)) & E8) & E9) & E10).
  split; unfold current in *; rewrite ?E1, ?E2, ?E3, ?E4, ?E5, ?E6, ?E7, ?E8, ?E9, ?E10; auto.
Qed.

Ltac tidy_step := split; unfold current in *; cbn in *; set_unfold; naive_solver lia.

Lemma tidy_stop_iroh s : tidy s -> tidy (stopIrohSidecar s).
Proof. intros Hs. unfold stopIrohSidecar. destruct (sv_iroh s) as [i|] eqn:Ei; [|done]. destruct Hs. tidy_step. Qed.

Lemma tidy_fresh s : tidy s -> sv_next s ∉ sv_closed s /\ ~ current s (sv_next s).
Proof. intros Hs. pose proof (ti_all _ Hs (sv_next s)). split; intros ?; [assert (sv_next s < sv_next s)%nat by tauto; lia|assert (sv_next s < sv_next s)%nat by tauto; lia]. Qed.

(** The start of a backend that is not there: its number is fresh. *)
Ltac tidy_start s :=
  intros Hs Hn; destruct (tidy_fresh _ Hs) as [Hf1 Hf2]; destruct Hs; unfold current in *; rewrite Hn in *;
  split; unfold current; cbn; [done|done|done|..]; intros i;
  [rewrite Nat.lt_succ_r; match goal with H : forall i, (i < sv_next s)%nat <-> _ |- _ => specialize (H i) end|..];
  destruct (decide (i = sv_next s)); naive_solver lia.

Lemma tidy_start_iroh s : tidy s -> sv_iroh s = None -> tidy (registerIrohSidecar s).
Proof. tidy_start s. Qed.

Lemma tidy_start_quic s : tidy s -> sv_quic s = None -> tidy (set_quic s (Some (sv_next s)) (S (sv_next s)) (sv_closed s)).
Proof. tidy_start s. Qed.

Lemma tidy_start_btdht s : tidy s -> sv_btdht s = None -> tidy (set_btdht s (Some (sv_next s)) (S (sv_next s)) (sv_closed s)).
Proof. tidy_start s. Qed.

Lemma tidy_close_quic s : tidy s -> tidy (close_quic s).
Proof. intros Hs. unfold close_quic. destruct (sv_quic s) as [i|] eqn:Ei; [|done]. destruct Hs. tidy_step. Qed.

Lemma tidy_close_btdht s : tidy s -> tidy (close_btdht s).
Proof. intros Hs. unfold close_btdht. destruct (sv_btdht s) as [i|] eqn:Ei; [|done]. destruct Hs. tidy_step. Qed.

Lemma tidy_startIroh env s allow : tidy s -> tidy (fst (startIrohSidecar env s allow)).
Proof.
  intros Hs. unfold startIrohSidecar. destruct (match sv_iroh s with Some i => en_running env i | None => false end); [done|].
  pose proof (tidy_stop_iroh _ Hs) as Hs1.
  assert (Hn : sv_iroh (stopIrohSidecar s) = None) by (unfold stopIrohSidecar; by destruct (sv_iroh s) eqn:E).
  match goal with |- context [mode_off (if ?b then ?x else ?y)] => destruct (mode_off (if b then x else y)) end; [done|].
  destruct (en_sidecar env _) as [[]|e]; [|by eapply tidy_wiring|by eapply tidy_wiring].
  apply (tidy_wiring (registerIrohSidecar (stopIrohSidecar s))); [by apply tidy_start_iroh|done].
Qed.

Lemma tidy_ref env s backend key act : tidy s -> tidy (fst (setBackendRef env s backend key act)).
Proof.
  intros Hs. unfold setBackendRef. destruct (_ || _ || _); [done|].
  set (s1 := set_refs s _). assert (Hs1 : tidy s1) by (by eapply tidy_wiring).
  case_bool_decide; [done|]. destruct (sv_refs s1 !! _); [by apply tidy_startIroh|by apply tidy_stop_iroh].
Qed.

Lemma tidy_start_quic' env s : tidy s -> tidy (fst (start_quic env s)).
Proof.
  intros Hs. unfold start_quic. destruct (sv_quic s) eqn:Eq; [done|].
  destruct (en_quic env _) as [[]|e]; [by apply tidy_start_quic|done|done].
Qed.

Lemma tidy_start_btdht' env s : tidy s -> tidy (fst (start_btdht env s)).
Proof.
  intros Hs. unfold start_btdht. destruct (sv_btdht s) eqn:Eq; [done|].
  destruct (en_btdht env _) as [[]|e]; [by apply tidy_start_btdht| |done].
  eapply tidy_wiring; [done|]. unfold wiring. cbn. by rewrite (ti_btdht _ Hs), Eq.
Qed.

Lemma tidy_ensure_btdht env s : tidy s -> tidy (fst (ensure_btdht env s)).
Proof.
  intros Hs. unfold ensure_btdht. set (s1 := set_cfg s _). assert (Hs1 : tidy s1) by (by eapply tidy_wiring).
  destruct (en_key env); [|by eapply tidy_wiring].
  pose proof (tidy_start_quic' env s1 Hs1) as Hs2. destruct (start_quic env s1) as [s2 [e|]]; [by eapply tidy_wiring|].
  pose proof (tidy_start_btdht' env s2 Hs2) as Hs3. destruct (start_btdht env s2) as [s3 [e|]]; [by eapply tidy_wiring|].
  cbn [fst] in *. destruct (decide (is_Some (sv_btdht s3))); [|by eapply tidy_wiring].
  destruct (en_btdht_ready env); by eapply tidy_wiring.
Qed.

Lemma start_libp2p_wiring env s : wiring (fst (start_libp2p env s)) = wiring s.
Proof. unfold start_libp2p. destruct (en_libp2p env) as [[? ?] [e|]]; done. Qed.

Lemma tidy_ensure env s backend connect : tidy s -> tidy (fst (ensureNetworkBackend env s backend connect)).
Proof.
  intros Hs. unfold ensureNetworkBackend. case_bool_decide; [by apply tidy_startIroh|].
  case_bool_decide; [by apply tidy_ensure_btdht|]. case_bool_decide; [|case_bool_decide; [|done]].
  - eapply tidy_wiring; [exact Hs|]. unfold ensure_libp2p_dht. set (s1 := set_cfg s _).
    pose proof (start_libp2p_wiring env s1) as Hw.
    destruct (sv_dht s1); [by destruct (en_dht_ready env)|]. destruct (start_libp2p env s1) as [s2 [e|]]; [done|].
    by destruct (en_dht_ready env).
  - eapply tidy_wiring; [exact Hs|]. unfold ensure_relay. set (s1 := set_cfg s _).
    pose proof (start_libp2p_wiring env s1) as Hw. by destruct (start_libp2p env s1) as [s2 [e|]].
Qed.

Lemma tidy_apply_btdht env s : tidy s -> sv_btdht s = None -> tidy (apply_btdht env s).
Proof.
  intros Hs Hn. unfold apply_btdht. destruct (en_key env); [|by eapply tidy_wiring].
  pose proof (tidy_start_quic' env s Hs) as Hs2.
  assert (Hn2 : sv_btdht (fst (start_quic env s)) = None).
  { unfold start_quic. destruct (sv_quic s); [done|]. by destruct (en_quic env _) as [[]|]. }
  destruct (start_quic env s) as [s2 e]. cbn [fst] in *.
  set (s3 := match e with Some err => set_error s2 err | None => s2 end).
  assert (Hs3 : tidy s3) by (unfold s3; destruct e; [by eapply tidy_wiring|done]).
  assert (Hn3 : sv_btdht s3 = None) by (unfold s3; by destruct e).
  destruct (en_btdht env _) as [[]|err]; [by apply tidy_start_btdht|done|by eapply tidy_wiring].
Qed.

Lemma tidy_close_both s : tidy s -> tidy (close_quic (close_btdht s)) /\ sv_btdht (close_quic (close_btdht s)) = None.
Proof.
  intros Hs. split; [by apply tidy_close_quic, tidy_close_btdht|].
  assert (Hq : forall s, sv_btdht (close_quic s) = sv_btdht s) by (intros x; unfold close_quic; by destruct (sv_quic x)).
  rewrite Hq. unfold close_btdht. destruct (sv_btdht s) eqn:Eb; [done|exact Eb].
Qed.

(** The end of an applied configuration: the sidecar's reference. *)
Lemma tidy_select env s :
  tidy s ->
  tidy (fst (let '(s, err) := setBackendRef env s BackendIroh "selected" true in
             (match err with Some err => set_error s err | None => s end, @None string))).
Proof.
  intros Hs. pose proof (tidy_ref env s BackendIroh "selected" true Hs) as Hr.
  destruct (setBackendRef env s BackendIroh "selected" true) as [s' [err|]]; cbn [fst] in *; [by eapply tidy_wiring|done].
Qed.

Lemma tidy_apply env s : tidy s -> tidy (fst (applyNetworkConfig env s)).
Proof.
  intros Hs. unfold applyNetworkConfig. destruct (en_apply env) as [[running dht] [e|]]; [by eapply tidy_wiring|].
  assert (H0 : tidy (set_error (set_libp2p (set_node (set_cfg s (NormalizeNetworkBackend (sv_cfg s))) running dht)) ""))
    by (by eapply tidy_wiring).
  revert H0. generalize (set_error (set_libp2p (set_node (set_cfg s (NormalizeNetworkBackend (sv_cfg s))) running dht)) "").
  clear s Hs. intros s Hs. destruct (tidy_close_both s Hs) as [Hs1 Hn].
  revert Hs1 Hn. generalize (close_quic (close_btdht s)). clear s Hs. intros s Hs Hn. cbv zeta.
  assert (Hs2 : tidy (if shouldRunBitTorrentDHTBackend (Some (sv_cfg s)) then apply_btdht env s else s))
    by (destruct (shouldRunBitTorrentDHTBackend _); [by apply tidy_apply_btdht|done]).
  revert Hs2. generalize (if shouldRunBitTorrentDHTBackend (Some (sv_cfg s)) then apply_btdht env s else s).
  clear s Hs Hn. intros s Hs. case_bool_decide; [by apply tidy_select|by apply tidy_ref].
Qed.

Lemma tidy_sup_step s eo : tidy s -> tidy (sup_step s eo).
Proof.
  intros Hs. destruct eo as [env [c|backend key act|backend| | |]]; cbn [sup_step].
  - by eapply tidy_wiring.
  - by apply tidy_ref.
  - by apply tidy_ensure.
  - unfold retry. destruct (_ || _ || _); [done|by apply tidy_ensure].
  - by apply tidy_apply.
  - by apply tidy_stop_iroh.
Qed.

Lemma tidy_run ops s : tidy s -> tidy (fold_left sup_step ops s).
Proof. revert s. induction ops as [|o ops IH]; intros s Hs; [done|]. by apply IH, tidy_sup_step. Qed.

Lemma tidy_new c : tidy (newSup c).
Proof.
  split; unfold current; cbn; [done|done|done|..]; intros i.
  - split; [lia|]. intros [?%elem_of_empty|[?|[?|?]]]; done.
  - by intros ?%elem_of_empty.
  - done.
Qed.

Lemma tidy_boot env c running dht : tidy (boot env c running dht).
Proof.
  unfold boot. set (s0 := set_node _ _ _). assert (H0 : tidy s0) by (eapply tidy_wiring; [apply (tidy_new c)|done]).
  clearbody s0.
  match goal with |- context [if sv_libp2p ?x then _ else _] => set (s1 := x) end.
  assert (H1 : tidy s1).
  { unfold s1. destruct (en_key env); [|done]. destruct (shouldRunBitTorrentDHTBackend _); [|done].
    pose proof (tidy_start_quic' env s0 H0) as Hq. destruct (start_quic env s0) as [s2 [e|]]; [done|].
    by apply tidy_start_btdht'. }
  clearbody s1. unfold startup. assert (H2 : tidy (if sv_libp2p s1 then set_libp2p s1 else s1))
    by (destruct (sv_libp2p s1); [by eapply tidy_wiring|done]).
  case_bool_decide; [by apply tidy_ref|done].
Qed.

(** ** Properties *)


(** ** The sidecar and its references *)

(** Some reference keeps the sidecar. *)
Definition referenced (s : Sup) : Prop := is_Some (sv_refs s !! BackendIroh).

(** The operations ensure the iroh backend only while it is referenced: a
    connect has retained it for its attempt, the retry loop for the selected
    backend. *)
Definition ref_ok (s : Sup) (o : sup_op) : Prop :=
  match o with
  | SEnsure backend => backend = BackendIroh -> referenced s
  | SRetry => active s = BackendIroh -> referenced s
  | _ => True
  end.

Fixpoint ref_ok_run (s : Sup) (ops : list (sup_env * sup_op)) : Prop :=
  match ops with
  | [] => True
  | eo :: r => ref_ok s (snd eo) /\ ref_ok_run (sup_step s eo) r
  end.

Lemma startIroh_refs env s allow : sv_refs (fst (startIrohSidecar env s allow)) = sv_refs s.
Proof.
  assert (Hr : sv_refs (stopIrohSidecar s) = sv_refs s) by (unfold stopIrohSidecar; by destruct (sv_iroh s)).
  unfold startIrohSidecar. destruct (match sv_iroh s with Some i => en_running env i | None => false end); [done|].
  match goal with |- context [mode_off (if ?b then ?x else ?y)] => destruct (mode_off (if b then x else y)) end; [done|].
  by destruct (en_sidecar env _) as [[]|e].
Qed.

Lemma stop_iroh_none s : sv_iroh (stopIrohSidecar s) = None.
Proof. unfold stopIrohSidecar. by destruct (sv_iroh s) eqn:E. Qed.
Lemma stop_iroh_refs s : sv_refs (stopIrohSidecar s) = sv_refs s.
Proof. unfold stopIrohSidecar. by destruct (sv_iroh s). Qed.

(** The sidecar runs only for a reference. *)
Definition kept (s : Sup) : Prop := is_Some (sv_iroh s) -> referenced s.

Lemma kept_ref env s backend key act : kept s -> kept (fst (setBackendRef env s backend key act)).
Proof.
  intros Hk. unfold setBackendRef. destruct (_ || _ || _); [done|]. set (s1 := set_refs s _).
  case_bool_decide as Hb.
  - intros Hi. apply Hk in Hi. unfold referenced in *. cbn. unfold update_refs, CanonicalNetworkBackend in *.
    destruct (decide _); [by rewrite lookup_delete_ne|by rewrite lookup_insert_ne].
  - destruct (sv_refs s1 !! CanonicalNetworkBackend backend) eqn:Er.
    + intros _. unfold referenced. rewrite startIroh_refs, <- Hb, Er. by eexists.
    + unfold kept. cbn [fst]. rewrite stop_iroh_none. by intros [? ?].
Qed.

(** What does not touch the sidecar and its references. *)
Lemma kept_frame s s' : kept s -> sv_iroh s' = sv_iroh s -> sv_refs s' = sv_refs s -> kept s'.
Proof. unfold kept, referenced. by intros Hk -> ->. Qed.

Lemma start_quic_frame env s : sv_iroh (fst (start_quic env s)) = sv_iroh s /\ sv_refs (fst (start_quic env s)) = sv_refs s.
Proof. unfold start_quic. destruct (sv_quic s); [done|]. by destruct (en_quic env _) as [[]|]. Qed.
Lemma start_btdht_frame env s : sv_iroh (fst (start_btdht env s)) = sv_iroh s /\ sv_refs (fst (start_btdht env s)) = sv_refs s.
Proof. unfold start_btdht. destruct (sv_btdht s); [done|]. by destruct (en_btdht env _) as [[]|]. Qed.

Lemma ensure_frame env s backend connect :
  backend <> BackendIroh ->
  sv_iroh (fst (ensureNetworkBackend env s backend connect)) = sv_iroh s /\
  sv_refs (fst (ensureNetworkBackend env s backend connect)) = sv_refs s.
Proof.
  intros Hb. unfold ensureNetworkBackend. rewrite (bool_decide_eq_false_2 _ Hb).
  case_bool_decide; [|case_bool_decide; [|case_bool_decide; [|done]]].
  - unfold ensure_btdht. set (s1 := set_cfg s _). assert (E1 : sv_iroh s1 = sv_iroh s) by done.
    assert (E2 : sv_refs s1 = sv_refs s) by done. clearbody s1. destruct (en_key env); [|done].
    destruct (start_quic_frame env s1) as [Hq1 Hq2]. destruct (start_quic env s1) as [s2 [e|]]; cbn [fst] in *.
    { split; cbn; congruence. }
    destruct (start_btdht_frame env s2) as [Hd1 Hd2]. destruct (start_btdht env s2) as [s3 [e|]]; cbn [fst] in *.
    { split; cbn; congruence. }
    destruct (if decide (is_Some (sv_btdht s3)) then en_btdht_ready env else None); split; cbn; congruence.
  - unfold ensure_libp2p_dht, start_libp2p. set (s1 := set_cfg s _).
    destruct (sv_dht s1); [by destruct (en_dht_ready env)|]. destruct (en_libp2p env) as [[? ?] [e|]]; [done|].
    by destruct (en_dht_ready env).
  - unfold ensure_relay, start_libp2p. by destruct (en_libp2p env) as [[? ?] [e|]].
Qed.

Lemma kept_ensure env s backend connect :
  kept s -> (backend = BackendIroh -> referenced s) -> kept (fst (ensureNetworkBackend env s backend connect)).
Proof.
  intros Hk Hr. destruct (decide (backend = BackendIroh)) as [->|Hne].
  - intros _. unfold referenced, ensureNetworkBackend. rewrite bool_decide_eq_true_2, startIroh_refs by done. by apply Hr.
  - destruct (ensure_frame env s backend connect Hne). by eapply kept_frame.
Qed.

Lemma kept_apply env s : kept s -> kept (fst (applyNetworkConfig env s)).
Proof.
  intros Hk. unfold applyNetworkConfig. destruct (en_apply env) as [[running dht] [e|]]; [by eapply kept_frame|].
  assert (H0 : kept (set_error (set_libp2p (set_node (set_cfg s (NormalizeNetworkBackend (sv_cfg s))) running dht)) ""))
    by (by eapply kept_frame).
  revert H0. generalize (set_error (set_libp2p (set_node (set_cfg s (NormalizeNetworkBackend (sv_cfg s))) running dht)) "").
  clear s Hk. intros s Hk.
  assert (Hc : kept (close_quic (close_btdht s))).
  { eapply kept_frame; [exact Hk|..]; unfold close_quic, close_btdht; destruct (sv_btdht s); cbn; by destruct (sv_quic s). }
  revert Hc. generalize (close_quic (close_btdht s)). clear s Hk. intros s Hk. cbv zeta.
  assert (H2 : kept (if shouldRunBitTorrentDHTBackend (Some (sv_cfg s)) then apply_btdht env s else s)).
  { destruct (shouldRunBitTorrentDHTBackend _); [|done]. unfold apply_btdht. destruct (en_key env); [|by eapply kept_frame].
    destruct (start_quic_frame env s) as [Hq1 Hq2]. destruct (start_quic env s) as [s2 e]. cbn [fst] in *.
    eapply kept_frame; [exact Hk|..]; destruct e; destruct (en_btdht env _) as [[]|]; cbn; congruence. }
  revert H2. generalize (if shouldRunBitTorrentDHTBackend (Some (sv_cfg s)) then apply_btdht env s else s).
  clear s Hk. intros s Hk. case_bool_decide; [|by apply kept_ref].
  pose proof (kept_ref env s BackendIroh "selected" true Hk) as Hr.
  destruct (setBackendRef env s BackendIroh "selected" true) as [s' [err|]]; cbn [fst] in *; [by eapply kept_frame|done].
Qed.

Lemma kept_step s eo : kept s -> ref_ok s (snd eo) -> kept (sup_step s eo).
Proof.
  intros Hk Ho. destruct eo as [env [c|backend key act|backend| | |]]; cbn [sup_step snd ref_ok] in *.
  - by eapply kept_frame.
  - by apply kept_ref.
  - by apply kept_ensure.
  - unfold retry. destruct (_ || _ || _); [done|by apply kept_ensure].
  - by apply kept_apply.
  - intros Hi. unfold shutdown in Hi. rewrite stop_iroh_none in Hi. by destruct Hi.
Qed.

Lemma kept_run ops : forall s, kept s -> ref_ok_run s ops -> kept (fold_left sup_step ops s).
Proof. induction ops as [|o ops IH]; intros s Hk; cbn; [done|]. intros [Ho Hr]. by apply IH; [apply kept_step|]. Qed.

(** The references as the dashboard sees them. *)
Definition ref_pairs (m : gmap string (gset string)) : gset (string * string) :=
  list_to_set (concat ((fun bk => (fun k => (fst bk, k)) <$> elements (snd bk)) <$> map_to_list m)).

Lemma elem_of_ref_pairs m b k : (b, k) ∈ ref_pairs m <-> exists ks, m !! b = Some ks /\ k ∈ ks.
Proof.
  unfold ref_pairs. rewrite elem_of_list_to_set, list_elem_of_In, in_concat. split.
  - intros (l & Hl & Hin). apply list_elem_of_In, list_elem_of_fmap in Hl as ([b' ks] & -> & Hm%elem_of_map_to_list).
    apply list_elem_of_In, list_elem_of_fmap in Hin as (k' & [= -> ->] & Hk%elem_of_elements). eauto.
  - intros (ks & Hm & Hk). exists ((fun k => (b, k)) <$> elements ks). rewrite <- !list_elem_of_In. split.
    + apply list_elem_of_fmap. exists (b, ks). by rewrite elem_of_map_to_list.
    + apply list_elem_of_fmap. exists k. by rewrite elem_of_elements.
Qed.

Lemma update_refs_pairs m b k act x :
  x ∈ ref_pairs (update_refs m b k act) <->
    if act then x = (b, k) \/ x ∈ ref_pairs m else x ∈ ref_pairs m /\ x <> (b, k).
Proof.
  destruct x as [b' k']. assert (Hl : forall b' k',
    (b', k') ∈ ref_pairs (update_refs m b k act) <->
    (b' = b /\ k' ∈ (if act then {[k]} ∪ default ∅ (m !! b) else default ∅ (m !! b) ∖ {[k]} : gset string)) \/
    (b' <> b /\ (b', k') ∈ ref_pairs m)).
  { clear b' k'. intros b' k'. rewrite !elem_of_ref_pairs. unfold update_refs.
    set (ks := if act then _ else _). destruct (decide (ks = ∅)) as [He|Hn].
    - rewrite He. destruct (decide (b' = b)) as [->|Hb].
      + rewrite lookup_delete_eq. set_solver.
      + rewrite lookup_delete_ne by done. naive_solver.
    - destruct (decide (b' = b)) as [->|Hb].
      + rewrite lookup_insert_eq. naive_solver.
      + rewrite lookup_insert_ne by done. naive_solver. }
  rewrite Hl. assert (Hd : forall k', k' ∈ (default ∅ (m !! b) : gset string) <-> (b, k') ∈ ref_pairs m).
  { intros k1. rewrite elem_of_ref_pairs. destruct (m !! b); cbn; set_solver. }
  destruct act; rewrite ?elem_of_union, ?elem_of_difference, ?elem_of_singleton, Hd, ?pair_equal_spec;
    destruct (decide (b' = b)) as [->|Hb]; naive_solver.
Qed.

(** Emptied sets of references are deleted. *)
Definition filled (s : Sup) : Prop := forall b ks, sv_refs s !! b = Some ks -> ks <> ∅.

Lemma filled_update m b k act :
  (forall b ks, m !! b = Some ks -> ks <> ∅) -> forall b' ks, update_refs m b k act !! b' = Some ks -> ks <> ∅.
Proof.
  intros Hm b' ks. unfold update_refs. destruct (decide _) as [|Hn].
  - intros [_ Hl]%lookup_delete_Some. eauto.
  - intros [[_ <-]|[_ Hl]]%lookup_insert_Some; eauto.
Qed.

Lemma setBackendRef_refs env s b k act :
  sv_refs (fst (setBackendRef env s b k act)) =
    if bool_decide (b = "") || bool_decide (b = "disabled") || bool_decide (k = "") then sv_refs s
    else update_refs (sv_refs s) b k act.
Proof.
  unfold setBackendRef, CanonicalNetworkBackend. destruct (_ || _ || _); [done|]. set (s1 := set_refs s _).
  case_bool_decide; [done|]. destruct (sv_refs s1 !! b); [by rewrite startIroh_refs|]. cbn [fst]. by rewrite stop_iroh_refs.
Qed.

Lemma filled_ref env s b k act : filled s -> filled (fst (setBackendRef env s b k act)).
Proof.
  intros Hf b' ks. rewrite setBackendRef_refs. destruct (_ || _ || _); [apply Hf|by apply filled_update].
Qed.

Lemma filled_frame s s' : filled s -> sv_refs s' = sv_refs s -> filled s'.
Proof. unfold filled. by intros Hf ->. Qed.

Lemma ensure_refs env s backend connect : sv_refs (fst (ensureNetworkBackend env s backend connect)) = sv_refs s.
Proof.
  destruct (decide (backend = BackendIroh)) as [->|Hne]; [|by apply ensure_frame].
  unfold ensureNetworkBackend. rewrite bool_decide_eq_true_2 by done. apply startIroh_refs.
Qed.

(** Applying leaves the configuration it was given, normalized. *)
Lemma ref_cfg env s b k act : sv_cfg (fst (setBackendRef env s b k act)) = sv_cfg s.
Proof.
  assert (Hs : forall s, sv_cfg (stopIrohSidecar s) = sv_cfg s) by (intros x; unfold stopIrohSidecar; by destruct (sv_iroh x)).
  assert (Hi : forall s allow, sv_cfg (fst (startIrohSidecar env s allow)) = sv_cfg s).
  { intros x allow. unfold startIrohSidecar. destruct (match sv_iroh x with Some i => en_running env i | None => false end); [done|].
    match goal with |- context [mode_off (if ?b then ?x else ?y)] => destruct (mode_off (if b then x else y)) end; [apply Hs|].
    destruct (en_sidecar env _) as [[]|e]; apply Hs. }
  unfold setBackendRef. destruct (_ || _ || _); [done|]. set (s1 := set_refs s _).
  case_bool_decide; [done|]. destruct (sv_refs s1 !! _); [by rewrite Hi|cbn [fst]; by rewrite Hs].
Qed.

Lemma apply_cfg env s : sv_cfg (fst (applyNetworkConfig env s)) = NormalizeNetworkBackend (sv_cfg s).
Proof.
  unfold applyNetworkConfig. destruct (en_apply env) as [[running dht] [e|]]; [done|].
  set (s0 := set_error _ _). assert (H0 : sv_cfg s0 = NormalizeNetworkBackend (sv_cfg s)) by done. clearbody s0.
  assert (Hc : sv_cfg (close_quic (close_btdht s0)) = sv_cfg s0)
    by (unfold close_quic, close_btdht; destruct (sv_btdht s0); cbn; by destruct (sv_quic s0)).
  revert Hc. generalize (close_quic (close_btdht s0)). intros s1 H1. cbv zeta.
  assert (H2 : sv_cfg (if shouldRunBitTorrentDHTBackend (Some (sv_cfg s1)) then apply_btdht env s1 else s1) = sv_cfg s1).
  { destruct (shouldRunBitTorrentDHTBackend _); [|done]. unfold apply_btdht, start_quic. destruct (en_key env); [|done].
    destruct (sv_quic s1); [|destruct (en_quic env _) as [[]|]]; by destruct (en_btdht env _) as [[]|]. }
  revert H2. generalize (if shouldRunBitTorrentDHTBackend (Some (sv_cfg s1)) then apply_btdht env s1 else s1).
  intros s2 H2. rewrite <- H0, <- H1, <- H2. case_bool_decide; [|apply ref_cfg].
  pose proof (ref_cfg env s2 BackendIroh "selected" true) as Hr.
  by destruct (setBackendRef env s2 BackendIroh "selected" true) as [s' [err|]].
Qed.

Lemma filled_apply env s : filled s -> filled (fst (applyNetworkConfig env s)).
Proof.
  intros Hf. unfold applyNetworkConfig. destruct (en_apply env) as [[running dht] [e|]]; [by eapply filled_frame|].
  set (s0 := set_error _ _). assert (H0 : sv_refs s0 = sv_refs s) by done. clearbody s0.
  assert (Hc : sv_refs (close_quic (close_btdht s0)) = sv_refs s0)
    by (unfold close_quic, close_btdht; destruct (sv_btdht s0); cbn; by destruct (sv_quic s0)).
  revert Hc. generalize (close_quic (close_btdht s0)). intros s1 H1. cbv zeta.
  assert (H2 : sv_refs (if shouldRunBitTorrentDHTBackend (Some (sv_cfg s1)) then apply_btdht env s1 else s1) = sv_refs s1).
  { destruct (shouldRunBitTorrentDHTBackend _); [|done]. unfold apply_btdht. destruct (en_key env); [|done].
    destruct (start_quic_frame env s1) as [_ Hq2]. destruct (start_quic env s1) as [s2 e]. cbn [fst] in *.
    destruct e; destruct (en_btdht env _) as [[]|]; cbn; congruence. }
  revert H2. generalize (if shouldRunBitTorrentDHTBackend (Some (sv_cfg s1)) then apply_btdht env s1 else s1).
  intros s2 H2. assert (Hf2 : filled s2) by (eapply filled_frame; [exact Hf|congruence]).
  case_bool_decide; [|by apply filled_ref]. pose proof (filled_ref env s2 BackendIroh "selected" true Hf2) as Hr.
  destruct (setBackendRef env s2 BackendIroh "selected" true) as [s' [err|]]; cbn [fst] in *; [by eapply filled_frame|done].
Qed.

Lemma filled_run ops : forall s, filled s -> filled (fold_left sup_step ops s).
Proof.
  induction ops as [|[env o] ops IH]; intros s Hf; [done|]. apply IH. destruct o; cbn [sup_step].
  - by eapply filled_frame.
  - by apply filled_ref.
  - eapply filled_frame; [exact Hf|apply ensure_refs].
  - unfold retry. destruct (_ || _ || _); [done|]. eapply filled_frame; [exact Hf|apply ensure_refs].
  - by apply filled_apply.
  - eapply filled_frame; [exact Hf|apply stop_iroh_refs].
Qed.

(** The boot, up to the reference of a selected iroh backend. *)
Lemma boot_frame env c running dht :
  exists s, sv_iroh s = None /\ sv_refs s = ∅ /\ boot env c running dht = startup env s.
Proof.
  unfold boot. set (s0 := set_node _ _ _). assert (H0 : sv_iroh s0 = None /\ sv_refs s0 = ∅) by done. clearbody s0.
  eexists. split; [|split; [|reflexivity]].
  all: assert (Hl : forall s, sv_iroh (if sv_libp2p s then set_libp2p s else s) = sv_iroh s /\
                              sv_refs (if sv_libp2p s then set_libp2p s else s) = sv_refs s)
         by (intros x; by destruct (sv_libp2p x)).
  all: match goal with |- context [if sv_libp2p ?x then _ else _] => destruct (Hl x) as [-> ->] || destruct (Hl x) as [-> _] || destruct (Hl x) as [_ ->] end.
  all: destruct (en_key env); [|apply H0]; destruct (shouldRunBitTorrentDHTBackend _); [|apply H0].
  all: destruct (start_quic_frame env s0) as [Hq1 Hq2]; destruct (start_quic env s0) as [s2 [e|]]; cbn [fst] in *.
  all: destruct (start_btdht_frame env s2) as [Hd1 Hd2]; destruct H0; congruence.
Qed.

Lemma kept_boot env c running dht : kept (boot env c running dht) /\ filled (boot env c running dht).
Proof.
  destruct (boot_frame env c running dht) as (s & Hi & Hr & ->).
  assert (Hk : kept s) by (intros [? Hs]; congruence).
  assert (Hf : filled s) by (intros b ks Hb; rewrite Hr in Hb; by apply lookup_empty_Some in Hb).
  unfold startup. case_bool_decide; [|done]. split; [by apply kept_ref|by apply filled_ref].
Qed.

(** The sidecar runs for a reference.  In every run in which the iroh backend
    is ensured only while it is referenced, a registered sidecar has a
    reference, and releasing the last one stops it and takes it from both
    managers, whatever the sidecar does. *)
Lemma sidecar_needs_reference env0 c running dht ops key env
  (Hok : ref_ok_run (boot env0 c running dht) ops) (Hkey : key <> ""%string) :
  let s := fold_left sup_step ops (boot env0 c running dht) in
  (is_Some (sv_iroh s) -> exists k, (BackendIroh, k) ∈ ref_pairs (sv_refs s)) /\
  ((forall k, (BackendIroh, k) ∈ ref_pairs (sv_refs s) -> k = key) ->
   let s' := fst (setBackendRef env s BackendIroh key false) in
   sv_iroh s' = None /\ vw_iroh (sv_pairing s') = None /\ vw_iroh (sv_tunnel s') = None).
Proof.
  intros s. destruct (kept_boot env0 c running dht) as [Hk0 Hf0].
  assert (Hk : kept s) by (by apply kept_run).
  pose proof (tidy_run ops _ (tidy_boot env0 c running dht)) as Ht. fold s in Ht. split.
  - intros [ks Hks]%Hk. destruct (set_choose_L ks) as [k Hin]; [by eapply (filled_run ops _ Hf0)|].
    exists k. apply elem_of_ref_pairs. eauto.
  - intros Hlast s'. assert (Hn : sv_iroh s' = None).
    { unfold s', setBackendRef. rewrite (bool_decide_eq_false_2 (key = "")) by done. cbn -[update_refs].
      replace (update_refs (sv_refs s) BackendIroh key false !! CanonicalNetworkBackend BackendIroh) with (@None (gset string)).
      - cbn. apply stop_iroh_none.
      - symmetry. unfold update_refs, CanonicalNetworkBackend. destruct (decide _) as [He|Hne]; [apply lookup_delete_eq|].
        destruct Hne. apply set_eq. intros k. rewrite elem_of_difference, elem_of_singleton.
        split; [|by intros ?%elem_of_empty]. intros [Hin Hk']. destruct Hk'. apply Hlast, elem_of_ref_pairs.
        destruct (sv_refs s !! BackendIroh) as [ks|]; [eauto|by apply elem_of_empty in Hin]. }
    destruct (tidy_ref env s BackendIroh key false Ht) as [[Hp Hq] _ _ _ _ _].
    change (fst (setBackendRef env s BackendIroh key false)) with s' in Hp, Hq. by rewrite Hp, Hq.
Qed.

Definition sample_sup_env : sup_env :=
  mkSupEnv (fun _ => Ok true) (fun _ => true) (Ok tt) (fun _ => Ok true) (fun _ => Ok true) None (true, true, None) None
    (true, true, None).
Definition sample_sup : Sup := boot sample_sup_env (defaultConfig (Ok "h")) false false.
Definition sample_sup_ops : list (sup_env * sup_op) :=
  [(sample_sup_env, SRef BackendIroh "selected" true); (sample_sup_env, SRetry);
   (sample_sup_env, SRef BackendIroh "attempt:peer:A" true); (sample_sup_env, SEnsure BackendIroh);
   (sample_sup_env, SRef BackendIroh "attempt:peer:A" false)].

Lemma sidecar_needs_reference_witness :
  let s := fold_left sup_step sample_sup_ops sample_sup in
  sv_iroh s = Some 0%nat /\ (exists k, (BackendIroh, k) ∈ ref_pairs (sv_refs s)) /\
  sv_iroh (fst (setBackendRef sample_sup_env s BackendIroh "selected" false)) = None.
Proof.
  set (s := fold_left sup_step sample_sup_ops sample_sup).
  assert (Hok : ref_ok_run sample_sup sample_sup_ops).
  { split; [exact I|]. split; [intros _; eexists; vm_compute; reflexivity|]. split; [exact I|].
    split; [intros _; eexists; vm_compute; reflexivity|]. split; exact I. }
  destruct (sidecar_needs_reference sample_sup_env (defaultConfig (Ok "h")) false false sample_sup_ops "selected"
              sample_sup_env Hok ltac:(discriminate)) as [Hr Hlast].
  assert (Hi : sv_iroh s = Some 0%nat) by (vm_compute; reflexivity).
  assert (Hrefs : sv_refs s = {[BackendIroh := {["selected"%string]}]}) by (vm_compute; reflexivity).
  split; [exact Hi|]. split; [apply Hr; by exists 0%nat|]. apply Hlast.
  intros k (ks & Hks & Hin)%elem_of_ref_pairs. change (sv_refs s !! BackendIroh = Some ks) in Hks.
  rewrite Hrefs in Hks. apply lookup_singleton_Some in Hks as [_ <-]. by apply elem_of_singleton in Hin.
Defined.

Definition set_share (c : Config) (backend : string) : Config :=
  mkConfig (mkNetwork backend) (Node c) (Relay c) (DHT c) (BTDHT c) (Iroh c) (RDP c) (Remotes c) (Trusted c).

(** The service with another backend selected. *)
Definition idle_sup : Sup :=
  boot sample_sup_env (set_share (defaultConfig (Ok "h")) BackendLibp2pRelay) true false.

(** The sidecar that a connect starts without a reference: the release of any
    attempt's reference then stops it. *)
Lemma unreferenced_sidecar_stopped :
  let s := fst (ensureNetworkBackend sample_sup_env idle_sup BackendIroh true) in
  sv_iroh s = Some 0%nat /\ sv_iroh (fst (setBackendRef sample_sup_env s BackendIroh "attempt:x" false)) = None.
Proof. vm_compute. done. Qed.

(** A retain that fails keeps its reference. *)
Lemma failed_retain_keeps_reference :
  let env := mkSupEnv (fun _ => Err "no sidecar") (fun _ => true) (Ok tt) (fun _ => Ok true) (fun _ => Ok true) None
               (true, true, None) None (true, true, None) in
  let '(s, err) := setBackendRef env idle_sup BackendIroh "connect:peer:A" true in
  err = Some "no sidecar"%string /\ backendRefCount s BackendIroh = 1%nat.
Proof. vm_compute. done. Qed.
