(* ===== verification/Startup.v ===== *)
(** * Startup: the constructors of the backends and their loops

    [New] of [internal/btdht/btdht.go], [internal/quicnet/quicnet.go] and
    [internal/presence/presence.go], what each leaves behind when it fails or is
    closed, and the publishing loops they start.  A ticker is the list of what
    its loop receives: a tick, or the end of the context. *)

From S2P Require Import Prelude GoStrings Wire Config NetNode Presence BtDht Quicnet Service.

(** ** The loops *)

Inductive signal : Type := Tick | Done.

#[export] Instance signal_eq_dec : EqDecision signal.
Proof. solve_decision. Defined.

(** A loop that acts at once, on every tick, and once more at its end. *)
Fixpoint on_ticks {R} (act : R) (bye : list R) (signals : list signal) : list R :=
  match signals with
  | [] => []
  | Tick :: r => act :: on_ticks act bye r
  | Done :: _ => bye
  end.

(** [NewTicker] panics for a period that is not positive. *)
Definition ticker_loop {R} (period : Z) (act : R) (bye : list R) (signals : list signal) : outcome (list R) :=
  if period <=? 0 then Panic "non-positive interval for NewTicker" else Return (act :: on_ticks act bye signals).

(** What the presence manager sends. *)
Inductive sent : Type := Here | Goodbye.
Definition announceLoop (signals : list signal) : outcome (list sent) := ticker_loop announceInterval Here [Goodbye] signals.

(** ** BitTorrent DHT *)

Definition defaultInterval : Z := 60 * second.

(** The nodes to start from: [None] for the library's own; [global] and
    [resolve] are the library's calls. *)
Definition StartingNodes {N} (c : BTDHTConfig) (global : res (list N)) (resolve : list string -> res (list N))
  : option (res (list N)) :=
  if bool_decide (btdht_Mode c = "custom") || bool_decide (btdht_Mode c = "mixed") then
    Some (pub ← (if bool_decide (btdht_Mode c = "mixed") then global else Ok []);
          own ← (match btdht_Bootstrap c with [] => Ok [] | l => resolve l end);
          Ok (pub ++ own))
  else None.

(** [time.Duration(secs) * time.Second] wraps. *)
Definition publish_interval (c : BTDHTConfig) : Z :=
  if 0 <? PublishIntervalSecs c then i64 (i64 (PublishIntervalSecs c) * second) else defaultInterval.

(** [New]: no client, or a client with its interval; [server] is [NewServer]. *)
Definition btdht_New (c : BTDHTConfig) (priv : bytes) (server : res unit) : res (option (BtDht.Client * Z)) :=
  if mode_off (btdht_Mode c) then Ok None
  else if negb (length priv =? 64)%nat then Err "ed25519 private key must be 64 bytes"
  else _ ← server; Ok (Some (newClient, publish_interval c)).

Definition btdht_publishLoop (c : BTDHTConfig) (signals : list signal) : outcome (list unit) :=
  ticker_loop (publish_interval c) tt [] signals.

(** ** Direct QUIC *)

(** [priv.Public()]: a copy of the second half, which panics for a key shorter
    than half; a short half is filled with zeros. *)
Definition ed25519_Public (priv : bytes) : outcome bytes :=
  if (length priv <? 32)%nat then Panic "slice bounds out of range" else Return (take 32 (drop 32 priv ++ repeat x00 32)).

(** [tlsCertificate]; [create] is [CreateCertificate], which signs. *)
Definition tlsCertificate (priv : bytes) (create : bytes -> outcome (res bytes)) : outcome (res (bytes * bytes)) :=
  pub ← ed25519_Public priv;
  der ← create pub;
  Return (match der with
          | Err err => Err ("create direct QUIC certificate: " ++ err)%string
          | Ok der => Ok (der, pub)
          end).

(** What a backend holds of the system. *)
Record held : Type := mkHeld { hd_socket : bool; hd_listener : bool; hd_keepalive : bool }.
Definition nothing : held := mkHeld false false false.

(** [New]: the backend with the addresses and servers STUN found, and what is
    held when it returns.  [cfg] is nil or a mode. *)
Definition quicnet_New {C} (mode : option string) (priv : bytes) (create : bytes -> outcome (res bytes))
    (socket listen : res unit) (stun : list string * list string) : outcome (res (option (Quic C)) * held) :=
  match mode with
  | None => Return (Ok None, nothing)
  | Some mode =>
    if mode_off mode then Return (Ok None, nothing)
    else
      cert ← tlsCertificate priv create;
      Return (match cert, socket, listen with
              | Err err, _, _ => (Err err, nothing)
              | Ok _, Err err, _ => (Err ("listen direct QUIC UDP socket: " ++ err)%string, nothing)
              | Ok _, Ok _, Err err => (Err ("listen quic: " ++ err)%string, nothing)
              | Ok _, Ok _, Ok _ =>
                (Ok (Some (newQuic (fst stun))), mkHeld true true (negb (bool_decide (snd stun = []))))
              end)
  end.

(** [Close] closes the connections ([Quicnet.Close]) and the listener. *)
Definition quicnet_Close (h : held) : held := mkHeld (hd_socket h) false (hd_keepalive h).

(** ** Presence *)

(** [New]: the error of the first step that fails, or the goroutines started. *)
Inductive presence_loop : Type := Announcing | Receiving | Sweeping | ColdStart.
Definition presence_New (gossip join subscribe : option string) (dht : bool) : res (list presence_loop) :=
  match gossip, join, subscribe with
  | Some err, _, _ => Err ("gossipsub: " ++ err)%string
  | None, Some err, _ => Err ("join topic: " ++ err)%string
  | None, None, Some err => Err ("subscribe: " ++ err)%string
  | None, None, None => Ok ([Announcing; Receiving; Sweeping] ++ if dht then [ColdStart] else [])
  end.

(** ** Facts *)

(** A tick loop acts once at the start and once per tick before its end. *)
Lemma on_ticks_count {R} (act : R) bye signals :
  exists k, on_ticks act bye signals = repeat act k ++ (if decide (Done ∈ signals) then bye else []) /\
    (k <= length signals)%nat.
Proof.
  induction signals as [|[] r (k & IH & Hk)]; [by exists O|..]; cbn [on_ticks].
  - exists (S k). rewrite IH. split; [|cbn; lia]. cbn. f_equal. f_equal.
    destruct (decide (Done ∈ r)), (decide (Done ∈ Tick :: r)) as [Hd|Hd]; try done.
    + destruct Hd. by right.
    + by apply elem_of_cons in Hd as [|].
  - exists O. split; [|lia]. rewrite decide_True by (by left). done.
Qed.

(** The goodbye is sent once, and last. *)
Lemma announce_then_goodbye signals :
  exists k, announceLoop signals = Return (repeat Here (S k) ++ if decide (Done ∈ signals) then [Goodbye] else []).
Proof.
  unfold announceLoop, ticker_loop. cbn. destruct (on_ticks_count Here [Goodbye] signals) as (k & -> & _). by exists k.
Qed.

(** An interval of the configuration too large for 64 bits stops the process. *)
Lemma publish_interval_overflow c :
  PublishIntervalSecs c = 2 ^ 34 -> forall signals, exists why, btdht_publishLoop c signals = Panic why.
Proof. intros Hp signals. unfold btdht_publishLoop, ticker_loop, publish_interval. rewrite Hp. by eexists. Qed.

Lemma publish_interval_fits c : PublishIntervalSecs c <= 9223372036 -> 0 < publish_interval c.
Proof.
  intros Hp. unfold publish_interval. destruct (0 <? PublishIntervalSecs c) eqn:E; [|done]. apply Z.ltb_lt in E.
  unfold i64, second. rewrite (Z.mod_small (PublishIntervalSecs c + 2 ^ 63)) by lia. rewrite Z.mod_small by lia. lia.
Qed.

(** A failed start of direct QUIC holds nothing, and neither does a disabled
    one; a running one holds its socket for as long as it is open. *)
Lemma quicnet_New_held {C} mode priv create socket listen stun r h :
  quicnet_New (C := C) mode priv create socket listen stun = Return (r, h) ->
  match r with Ok (Some b) => hd_socket h = true /\ hd_listener h = true /\ qn_stunAddrs b = fst stun | _ => h = nothing end.
Proof.
  unfold quicnet_New. destruct mode as [mode|]; [|by intros [= <- <-]]. destruct (mode_off mode); [by intros [= <- <-]|].
  destruct (tlsCertificate priv create) as [[?|?]|]; cbn; [destruct socket, listen| |done]; by intros [= <- <-].
Qed.

(** A closed backend keeps its socket, and the STUN keepalive goes on. *)
Lemma closed_backend_keeps_socket {C} mode priv create socket listen stun b h :
  quicnet_New (C := C) mode priv create socket listen stun = Return (Ok (Some b), h) ->
  hd_socket (quicnet_Close h) = true /\ hd_keepalive (quicnet_Close h) = hd_keepalive h /\ hd_listener (quicnet_Close h) = false.
Proof. intros Hn. apply quicnet_New_held in Hn as (Hs & _ & _). by split. Qed.

(** With bootstrap nodes of its own only and none given, a client starts from
    no node at all. *)
Lemma custom_without_nodes {N} c (global : res (list N)) resolve :
  btdht_Mode c = "custom"%string -> btdht_Bootstrap c = [] -> StartingNodes c global resolve = Some (Ok []).
Proof. intros Hm Hb. unfold StartingNodes. by rewrite Hm, Hb. Qed.

(** A node without an address to be dialled at announces exactly what a node
    that leaves announces. *)
Lemma unreachable_says_goodbye {A} `{Multiaddr A} `{Codec Announcement} self c addrs now :
  FilterExternallyDialableAddrs (A := A) addrs = [] ->
  Presence.announce (A := A) self c addrs now = announceOffline self c now.
Proof. intros Hf. unfold Presence.announce, announceOffline. by rewrite Hf. Qed.
