(* ===== verification/Managers.v ===== *)
(** * Managers: how the two managers are wired to the network backends

    [New], [SetLibp2p], [SetIroh], [SetBitTorrentQUIC] and [SetDHTDiscoverer]
    of [internal/pairing/pairing.go] and [internal/tunnel/tunnel.go], over the
    registry of [Netbackend].  The supervisor ([Service]) sees of a manager
    only which instances it uses, its [view]; here that view is implemented. *)

From stdpp Require Import gmap.
From S2P Require Import Prelude GoStrings Netbackend BtDht Service.

(** The types that implement [StreamBackend] in the program, by the instance
    they wrap; direct QUIC holds the discoverer it was given. *)
Inductive backend_object : Type :=
  | Libp2pObject
  | IrohObject (i : nat)
  | QUICObject (q : nat) (discoverer : option (option nat)).

(** A manager's registry, its DHT discoverer and the libp2p hosts that have
    its stream handler.  A discoverer is an interface value: none, or a client
    that may itself be nil. *)
Record wiring : Type := mkWiring {
  wr_backends : gmap string backend_object;
  wr_discoverer : option (option nat);
  wr_handlers : gset nat;
}.

Definition object_name (b : backend_object) : string :=
  match b with Libp2pObject => BackendLibp2pRelay | IrohObject _ => BackendIroh | QUICObject _ _ => BackendBitTorrentDHT end.

(** [Registry.Register] and [Unregister] on these objects. *)
Definition register (r : gmap string backend_object) (b : backend_object) (aliases : list string) : gmap string backend_object :=
  fold_left (fun r name => if bool_decide (name = "") then r else <[name := b]> r) (object_name b :: aliases) r.
Definition unregister (r : gmap string backend_object) (names : list string) : gmap string backend_object :=
  fold_left (fun r name => delete name r) names r.

Definition set_backends (w : wiring) r : wiring := mkWiring r (wr_discoverer w) (wr_handlers w).

(** [SetLibp2p]; the node's host is nil or an instance, which gets the stream
    handler. *)
Definition SetLibp2p (w : wiring) (enabled : bool) (host : option nat) : wiring :=
  if enabled then
    mkWiring (register (wr_backends w) Libp2pObject [BackendLibp2pDHT]) (wr_discoverer w)
      (match host with Some h => {[h]} ∪ wr_handlers w | None => wr_handlers w end)
  else set_backends w (unregister (wr_backends w) [BackendLibp2pRelay; BackendLibp2pDHT]).

(** [New], on a node whose libp2p may already run. *)
Definition NewWiring (running : bool) (host : option nat) : wiring :=
  let w := mkWiring ∅ None ∅ in if running then SetLibp2p w true host else w.

Definition SetIroh (w : wiring) (i : option nat) : wiring :=
  set_backends w (match i with
                  | None => unregister (wr_backends w) [BackendIroh]
                  | Some i => register (wr_backends w) (IrohObject i) []
                  end).

(** [SetBitTorrentQUIC] of the pairing manager, which hands its discoverer
    on, and of the tunnel manager, which has none. *)
Definition SetBitTorrentQUIC (w : wiring) (q : option nat) : wiring :=
  set_backends w (match q with
                  | None => unregister (wr_backends w) [BackendBitTorrentDHT]
                  | Some q => register (wr_backends w) (QUICObject q (wr_discoverer w)) []
                  end).
Definition tunnel_SetBitTorrentQUIC (w : wiring) (q : option nat) : wiring :=
  set_backends w (match q with
                  | None => unregister (wr_backends w) [BackendBitTorrentDHT]
                  | Some q => register (wr_backends w) (QUICObject q None) []
                  end).

(** [SetDHTDiscoverer]: kept for later, and given to the backend registered
    now, which is shared and changed in place. *)
Definition SetDHTDiscoverer (w : wiring) (d : option (option nat)) : wiring :=
  mkWiring (match wr_backends w !! BackendBitTorrentDHT with
            | Some (QUICObject q _) => <[BackendBitTorrentDHT := QUICObject q d]> (wr_backends w)
            | _ => wr_backends w
            end) d (wr_handlers w).

(** ** What a registered object does *)

Section Objects.
Context {St : Type}.

(** What the instances are on this machine. *)
Record instances : Type := mkInstances {
  in_libp2p : StreamBackend St;                               (** [NewLibp2p(m.n)] *)
  in_iroh : nat -> iroh_inner St;
  in_quic : nat -> transport St;
  in_lookup : option nat -> string -> string -> outcome (res (list string * list string));   (** [LookupDirectQUIC] *)
  in_order : list string -> list string;
  in_libp2p_name : sb_Name in_libp2p = BackendLibp2pRelay;
}.

Definition stream_backend (I : instances) (b : backend_object) : StreamBackend St :=
  match b with
  | Libp2pObject => in_libp2p I
  | IrohObject i => IrohSidecarBackend (Some (in_iroh I i))
  | QUICObject q d => DirectQUICBackend (Some (in_quic I q)) (option_map (in_lookup I) d) (in_order I)
  end.

(** The registry as the backends see it. *)
Definition registry (I : instances) (w : wiring) : Registry St := stream_backend I <$> wr_backends w.

(** [currentIrohTicket] *)
Definition currentIrohTicket (I : instances) (w : wiring) : res string :=
  match wr_backends w !! BackendIroh with
  | None => Err "iroh backend is not running"
  | Some (IrohObject i) => TicketContext (Some (in_iroh I i))
  | Some _ => Err "iroh backend cannot issue tickets"
  end.

Lemma stream_backend_name I b : sb_Name (stream_backend I b) = object_name b.
Proof. destruct b; [apply in_libp2p_name|done|done]. Qed.

(** The operations on objects are those of the registry. *)
Lemma register_registry I r b aliases :
  stream_backend I <$> register r b aliases = Register (stream_backend I <$> r) (Some (stream_backend I b)) aliases.
Proof.
  unfold register, Register. rewrite stream_backend_name. generalize (object_name b :: aliases) as l. intros l. revert r.
  induction l as [|x l IH]; intros r; [done|]. cbn [fold_left]. rewrite IH. f_equal.
  case_bool_decide; [done|apply fmap_insert].
Qed.
Lemma unregister_registry I r names : stream_backend I <$> unregister r names = Unregister (stream_backend I <$> r) names.
Proof.
  unfold unregister, Unregister. revert r. induction names as [|x l IH]; intros r; [done|].
  cbn [fold_left]. by rewrite IH, fmap_delete.
Qed.
End Objects.
Arguments instances St : clear implicits.

(** ** The managers as the supervisor sees them *)

Inductive wiring_op : Type :=
  | CallLibp2p (enabled : bool) (host : option nat)
  | CallIroh (i : option nat)
  | CallQUIC (q : option nat)
  | CallDiscoverer (d : option (option nat)).

Definition pairing_call (w : wiring) (o : wiring_op) : wiring :=
  match o with
  | CallLibp2p enabled host => SetLibp2p w enabled host
  | CallIroh i => SetIroh w i
  | CallQUIC q => SetBitTorrentQUIC w q
  | CallDiscoverer d => SetDHTDiscoverer w d
  end.
(** The tunnel manager has no [SetDHTDiscoverer]. *)
Definition tunnel_call (w : wiring) (o : wiring_op) : wiring :=
  match o with
  | CallLibp2p enabled host => SetLibp2p w enabled host
  | CallIroh i => SetIroh w i
  | CallQUIC q => tunnel_SetBitTorrentQUIC w q
  | CallDiscoverer _ => w
  end.

(** The specification: the last call of each kind counts. *)
Definition view_call (v : view) (o : wiring_op) : view :=
  match o with
  | CallLibp2p enabled _ => mkView (vw_iroh v) (vw_quic v) enabled
  | CallIroh i => mkView i (vw_quic v) (vw_libp2p v)
  | CallQUIC q => mkView (vw_iroh v) q (vw_libp2p v)
  | CallDiscoverer _ => v
  end.
Definition discoverer_call (d : option (option nat)) (o : wiring_op) : option (option nat) :=
  match o with CallDiscoverer d => d | _ => d end.

(** What a name stands for, given the view. *)
Definition reachable (v : view) (d : option (option nat)) (name : string) : option backend_object :=
  if bool_decide (name = BackendLibp2pRelay) || bool_decide (name = BackendLibp2pDHT)
  then (if vw_libp2p v then Some Libp2pObject else None)
  else if bool_decide (name = BackendIroh) then option_map IrohObject (vw_iroh v)
  else if bool_decide (name = BackendBitTorrentDHT) then option_map (fun q => QUICObject q d) (vw_quic v)
  else None.

(** A manager implements a view; [d] is the discoverer of its QUIC backends. *)
Definition implements (w : wiring) (v : view) (d : option (option nat)) : Prop :=
  forall name, wr_backends w !! name = reachable v d name.

Lemma implements_call w v d o :
  implements w v d -> (forall x, o <> CallDiscoverer x) -> wr_discoverer w = d ->
  implements (pairing_call w o) (view_call v o) d.
Proof.
  intros Hi Hn Hd name. specialize (Hi name). destruct o as [[|] host|[i|]|[q|]|x]; [..|by destruct (Hn x)];
    cbn [pairing_call view_call SetLibp2p SetIroh SetBitTorrentQUIC set_backends wr_backends];
    unfold register, unregister; rewrite ?insert_each_lookup, ?delete_each_lookup, Hi;
    unfold reachable; cbn [object_name vw_iroh vw_quic vw_libp2p]; repeat case_bool_decide; set_solver.
Qed.

Lemma implements_discoverer w v d x : implements w v d -> implements (SetDHTDiscoverer w x) v x.
Proof.
  intros Hi name. unfold SetDHTDiscoverer. cbn [wr_backends].
  rewrite (Hi BackendBitTorrentDHT : _ = option_map (fun q => QUICObject q d) (vw_quic v)).
  destruct (vw_quic v) as [q|] eqn:E; cbn [option_map].
  - destruct (decide (name = BackendBitTorrentDHT)) as [->|Hn].
    + rewrite lookup_insert_eq. unfold reachable. by rewrite E.
    + rewrite lookup_insert_ne, Hi by done. unfold reachable. by rewrite !(bool_decide_eq_false_2 (name = BackendBitTorrentDHT)).
  - rewrite Hi. unfold reachable. by rewrite E.
Qed.

Lemma pairing_call_discoverer w o : wr_discoverer (pairing_call w o) = discoverer_call (wr_discoverer w) o.
Proof. by destruct o as [[|]| | |]. Qed.

Lemma tunnel_call_pairing w o :
  wr_discoverer w = None -> (forall x, o <> CallDiscoverer x) -> tunnel_call w o = pairing_call w o.
Proof. intros Hd Hn. destruct o as [| |[q|]|x]; try done; [|by destruct (Hn x)].
  unfold tunnel_call, pairing_call, tunnel_SetBitTorrentQUIC, SetBitTorrentQUIC. by rewrite Hd. Qed.

Lemma pairing_run ops : forall w v,
  implements w v (wr_discoverer w) ->
  implements (fold_left pairing_call ops w) (fold_left view_call ops v) (fold_left discoverer_call ops (wr_discoverer w)).
Proof.
  induction ops as [|o ops IH]; intros w v Hi; [done|]. cbn [fold_left]. rewrite <- pairing_call_discoverer. apply IH.
  destruct o as [| | |x]; [..|by eapply implements_discoverer].
  all: rewrite pairing_call_discoverer; by apply implements_call.
Qed.

Lemma tunnel_run ops : forall w v,
  wr_discoverer w = None -> implements w v None -> implements (fold_left tunnel_call ops w) (fold_left view_call ops v) None.
Proof.
  induction ops as [|o ops IH]; intros w v Hd Hi; [done|]. cbn [fold_left].
  destruct o as [[|]| | |x]; apply IH; try done;
    rewrite tunnel_call_pairing by done; by apply (implements_call w v None).
Qed.

Lemma new_implements running host : implements (NewWiring running host) (mkView None None running) None.
Proof.
  assert (Hn : implements (mkWiring ∅ None ∅) (mkView None None false) None)
    by (intros name; unfold reachable; cbn; by repeat case_bool_decide).
  destruct running; [|done]. by apply (implements_call _ _ None (CallLibp2p true host) Hn).
Qed.

(** ** Properties *)

(** C16: the managers' registries implement what the supervisor assumes.
    Whatever calls wire them, in whatever order, a name of the registry of
    either manager stands for exactly the instance the last call of its kind
    gave it (both libp2p names for the node's backend), and every other name
    for nothing; the direct QUIC backend of the pairing manager looks addresses
    up with the discoverer set last, also when that was set later than the
    backend, and the tunnel manager's with none. *)
Theorem registries_implement_views {St} (I : instances St) running host ops name :
  let v := fold_left view_call ops (mkView None None running) in
  let d := fold_left discoverer_call ops None in
  Get (registry I (fold_left pairing_call ops (NewWiring running host))) name =
    option_map (stream_backend I) (reachable v d name) /\
  Get (registry I (fold_left tunnel_call ops (NewWiring running host))) name =
    option_map (stream_backend I) (reachable v None name).
Proof.
  intros v d. assert (Hd : wr_discoverer (NewWiring running host) = None) by (by destruct running).
  pose proof (new_implements running host) as Hi. unfold Get, registry. rewrite !lookup_fmap. split.
  - pose proof (pairing_run ops (NewWiring running host) (mkView None None running)) as Hp.
    rewrite Hd in Hp. by rewrite (Hp Hi name).
  - by rewrite (tunnel_run ops _ _ Hd Hi name).
Qed.

(** The supervisor's own bookkeeping makes these calls on its views. *)
Lemma set_iroh_calls s i next closed :
  sv_pairing (set_iroh s i next closed) = view_call (sv_pairing s) (CallIroh i) /\
  sv_tunnel (set_iroh s i next closed) = view_call (sv_tunnel s) (CallIroh i).
Proof. done. Qed.
Lemma set_quic_calls s q next closed :
  sv_pairing (set_quic s q next closed) = view_call (sv_pairing s) (CallQUIC q) /\
  sv_tunnel (set_quic s q next closed) = view_call (sv_tunnel s) (CallQUIC q).
Proof. done. Qed.
Lemma set_libp2p_calls s host :
  sv_pairing (set_libp2p s) = view_call (sv_pairing s) (CallLibp2p (sv_libp2p s) host) /\
  sv_tunnel (set_libp2p s) = view_call (sv_tunnel s) (CallLibp2p (sv_libp2p s) host).
Proof. done. Qed.
Lemma set_btdht_calls s b next closed d :
  mjoin d = b -> sv_discoverer (set_btdht s b next closed) = mjoin (discoverer_call (option_map Some (sv_discoverer s)) (CallDiscoverer d)).
Proof. by intros <-. Qed.
