(* ===== verification/QuicHost.v ===== *)
(** * QuicHost: the host behind the direct QUIC transport

    The rest of [internal/quicnet/quicnet.go]: the addresses that STUN
    servers report, the accept loops, and the streams of a connection handed
    to the handlers of the pairing and the tunnel manager.  The STUN and QUIC
    libraries are arguments. *)

From stdpp Require Import gmap.
From S2P Require Import Prelude GoStrings GoNet Crypto Wire Frames Sessions Config Netbackend.
From S2P Require Import Invites PairingHost TunnelHost Quicnet.

(** ** STUN *)

Definition stunTimeout : Z := 750 * 1000 * 1000.
Definition stun_buffer : nat := 1500.
Definition googleSTUNServers : list string :=
  ["stun.l.google.com:19302"; "stun1.l.google.com:19302"; "stun2.l.google.com:19302"; "stun3.l.google.com:19302";
   "stun4.l.google.com:19302"].

(** The STUN library: a message [M] has a transaction id and may hold a mapped
    address, plain or XORed. *)
Record stun_lib (M : Type) : Type := mkStun {
  sl_IsMessage : bytes -> bool;
  sl_Decode : bytes -> res M;
  sl_TransactionID : M -> bytes;
  sl_XORMapped : M -> option (string * Z);       (** IP and port *)
  sl_Mapped : M -> option (string * Z);
}.
Arguments sl_IsMessage {M} _ _.
Arguments sl_Decode {M} _ _.
Arguments sl_TransactionID {M} _ _.
Arguments sl_XORMapped {M} _ _.
Arguments sl_Mapped {M} _ _.

Section Stun.
Context {M : Type} (lib : stun_lib M).

(** The read loop of [querySTUN]: the packets that arrive before the deadline,
    from whomever, and the read error after them. *)
Fixpoint stun_read (txid : bytes) (packets : list bytes) (timeout : string) : res string :=
  match packets with
  | [] => Err timeout
  | p :: packets =>
    let p := take stun_buffer p in
    if negb (sl_IsMessage lib p) then stun_read txid packets timeout
    else match sl_Decode lib p with
         | Err _ => stun_read txid packets timeout
         | Ok res =>
           if bool_decide (sl_TransactionID lib res <> txid) then stun_read txid packets timeout
           else match sl_XORMapped lib res, sl_Mapped lib res with
                | Some (ip, port), _ => Ok (JoinHostPort ip (itoa port))
                | None, Some (ip, port) => Ok (JoinHostPort ip (itoa port))
                | None, None => Err "STUN response did not include mapped address"
                end
         end
  end.

(** What the socket does for one query. *)
Record stun_socket : Type := mkSocket {
  so_write : option string;
  so_deadline : option string;
  so_packets : list bytes;
  so_timeout : string;
}.

Definition querySTUN (txid : bytes) (so : stun_socket) : res string :=
  match so_write so, so_deadline so with
  | Some err, _ => Err err
  | None, Some err => Err err
  | None, None => stun_read txid (so_packets so) (so_timeout so)
  end.

(** [sendSTUNKeepalive]: to how many servers it was sent. *)
Definition sendSTUNKeepalive (packetConn : bool) (write : string -> option string) (servers : list string) : nat :=
  if negb packetConn then 0 else length (List.filter (fun s => bool_decide (write s = None)) servers).

(** A packet that answers the query. *)
Definition answers (txid p : bytes) (m : M) : Prop :=
  sl_IsMessage lib (take stun_buffer p) = true /\ sl_Decode lib (take stun_buffer p) = Ok m /\ sl_TransactionID lib m = txid.

Definition mapped_address (m : M) : res string :=
  match sl_XORMapped lib m, sl_Mapped lib m with
  | Some (ip, port), _ | None, Some (ip, port) => Ok (JoinHostPort ip (itoa port))
  | None, None => Err "STUN response did not include mapped address"
  end.

(** The result is that of the first packet that answers; without one, the
    query times out. *)
Lemma stun_read_first txid packets timeout r :
  stun_read txid packets timeout = r <->
  (exists l1 p l2 m, packets = l1 ++ p :: l2 /\ answers txid p m /\ r = mapped_address m /\
     forall p', p' ∈ l1 -> ~ exists m', answers txid p' m') \/
  (r = Err timeout /\ forall p, p ∈ packets -> ~ exists m, answers txid p m).
Proof.
  induction packets as [|p packets IH]; cbn [stun_read].
  { split; [intros <-; right; split; [done|]; by intros ? ?%not_elem_of_nil|].
    intros [([|??] & ? & ? & ? & ? & _)|[-> _]]; done. }
  assert (Hskip : ~ (exists m, answers txid p m) ->
    ((exists l1 q l2 m, p :: packets = l1 ++ q :: l2 /\ answers txid q m /\ r = mapped_address m /\
        forall p', p' ∈ l1 -> ~ exists m', answers txid p' m') \/
     (r = Err timeout /\ forall q, q ∈ p :: packets -> ~ exists m, answers txid q m)) <-> stun_read txid packets timeout = r).
  { intros Hn. rewrite IH. split.
    - intros [([|x l1] & q & l2 & m & He & Ha & Hr & Hl)|[Hr Hl]]; simplify_eq/=.
      + by destruct Hn; eauto.
      + left. exists l1, q, l2, m. split; [done|]. split; [done|]. split; [done|]. intros. apply Hl. by right.
      + right. split; [done|]. intros. apply Hl. by right.
    - intros [(l1 & q & l2 & m & -> & Ha & -> & Hl)|[-> Hl]].
      + left. exists (p :: l1), q, l2, m. split; [done|]. split; [done|]. split; [done|].
        intros x [->|Hx]%elem_of_cons; auto.
      + right. split; [done|]. intros x [->|Hx]%elem_of_cons; auto. }
  unfold answers in Hskip at 1.
  destruct (sl_IsMessage lib (take stun_buffer p)) eqn:Ei; cbn [negb]; [|symmetry; apply Hskip; naive_solver].
  destruct (sl_Decode lib (take stun_buffer p)) as [m|err] eqn:Ed; [|symmetry; apply Hskip; naive_solver].
  case_bool_decide as Ht; [symmetry; apply Hskip; naive_solver|]. clear Hskip IH.
  change (mapped_address m = r <-> (exists l1 q l2 m', p :: packets = l1 ++ q :: l2 /\ answers txid q m' /\
    r = mapped_address m' /\ forall p', p' ∈ l1 -> ~ exists m', answers txid p' m') \/
    (r = Err timeout /\ forall q, q ∈ p :: packets -> ~ exists m', answers txid q m')).
  assert (Ha : answers txid p m) by done. split.
  - intros <-. left. exists [], p, packets, m. split; [done|]. split; [done|]. split; [done|]. by intros ? ?%not_elem_of_nil.
  - intros [([|x l1] & q & l2 & m' & He & Ha' & -> & Hl)|[_ Hl]]; simplify_eq/=.
    + destruct Ha' as (_ & Hd & _). rewrite Ed in Hd. by injection Hd as <-.
    + destruct (Hl x ltac:(left)). eauto.
    + destruct (Hl p ltac:(left)). eauto.
Qed.
End Stun.

(** ** Status *)

Record quic_status : Type := mkQuicStatus { qs_enabled : bool; qs_running : bool; qs_ready : bool; qs_addrs : list string }.

(** [Status]; [None] without a listener. *)
Definition Status {C} (b : Quic C) (listener : option string) (ifaces : list iface) : quic_status :=
  match listener with
  | None => mkQuicStatus false false false []
  | Some _ => mkQuicStatus true true true (Addrs b listener ifaces)
  end.

(** ** Accepting *)

(** What the listener's [Accept] returns, with whether the context is done. *)
Definition accept_result (K : Type) : Type := bool * res K.

(** [acceptLoop]: the connections handled, and whether the loop has ended. *)
Fixpoint acceptLoop {K} (results : list (accept_result K)) : list K * bool :=
  match results with
  | [] => ([], false)
  | (_, Ok conn) :: r => let '(l, stop) := acceptLoop r in (conn :: l, stop)
  | (done, Err err) :: r => if done || isServerClosed (Some err) then ([], true) else acceptLoop r
  end.

(** The rest of the loop does not matter once it ended, and no connection that
    was accepted before is lost. *)
Lemma acceptLoop_app {K} (l1 l2 : list (accept_result K)) :
  acceptLoop (l1 ++ l2) =
    (if snd (acceptLoop l1) then acceptLoop l1
     else (fst (acceptLoop l1) ++ fst (acceptLoop l2), snd (acceptLoop l2))).
Proof.
  induction l1 as [|[d [c|err]] l1 IH]; cbn [app acceptLoop]; [by destruct (acceptLoop l2)|..].
  - rewrite IH. destruct (acceptLoop l1) as [l stop], (acceptLoop l2). cbn. by destruct stop.
  - by destruct (d || isServerClosed (Some err)).
Qed.

(** ** Streams *)

Section Host.
Context `{Crypto} {S : Type} `{SessionService S}.
Context `{Codec PairRequest} `{Codec TunnelHello} `{Codec TunnelPing}.

(** What became of a stream. *)
Inductive served : Type :=
  | Paired (resp : option PairResponse)
  | Tunnelled (events : list tunnel_event)
  | StreamClosed.

(** [HandleQUICIncoming] of the two managers. *)
Definition pairing_HandleQUICIncoming (m : Manager) (e : host_env) (input : bytes) (remotePeerID : string) :=
  PairingHost.handleIncomingConn m e input remotePeerID BackendBitTorrentDHT.
Definition tunnel_HandleQUICIncoming (m : TunnelManager S) (e : tunnel_env) (input : bytes) (remotePeerID : string) :=
  TunnelHost.handleIncomingConn m e input remotePeerID BackendBitTorrentDHT.

(** [handleConn] on one stream of a connection whose peer showed certificates
    with the keys [peerKeys]. *)
Definition serve_stream {C} (b : Quic C) (peerKeys : list (option bytes)) (pm : Manager) (pe : host_env)
    (tm : TunnelManager S) (te : tunnel_env) (input : bytes) : outcome (Manager * TunnelManager S * served) :=
  match handleStream b (peerIDFromTLSState peerKeys) input with
  | (ToPairing id, rest) =>
    let '(pm, resp) := pairing_HandleQUICIncoming pm pe rest id in Return (pm, tm, Paired resp)
  | (ToTunnel id, rest) =>
    '(tm, ev) ← tunnel_HandleQUICIncoming tm te rest id; Return (pm, tm, Tunnelled ev)
  | (Closed, _) => Return (pm, tm, StreamClosed)
  end.

(** Peer ids, also trimmed, and the peers of live grants have the twelve bytes
    the log lines slice. *)
Definition long_peer_ids : Prop := forall k id, IDFromPublicKey k = Ok id -> (12 <= String.length id)%nat.
Definition long_grants (tm : TunnelManager S) : Prop :=
  forall tok exp g n, svc_live (tm_sessions tm) tok = Some (exp, g, n) -> (12 <= String.length (PeerID g))%nat.

(** The host's panic: the peer's id, or the one the stream is mapped to by an
    accepted token, is too short to slice. *)
Lemma tunnel_panic_reason `{!SessionLaws S} (tm : TunnelManager S) te input remote backend why :
  long_grants tm -> TunnelHost.handleIncomingConn tm te input remote backend = Panic why ->
  (String.length remote < 12)%nat.
Proof.
  intros Hg Hh. destruct (decide (String.length remote < 12)%nat) as [|Hl]; [done|exfalso].
  apply Nat.nlt_ge, first12_return in Hl as [t Ht]. unfold TunnelHost.handleIncomingConn in Hh. rewrite Ht in Hh.
  destruct (ReadFrame input) as [[[ty payload] rest]|]; [|done].
  destruct (bool_decide _); [by destruct (unmarshal payload)|]. destruct (bool_decide _); [done|].
  destruct (unmarshal payload) as [hello|]; [|done].
  unfold handle_hello in Hh. rewrite Ht in Hh. destruct (_ <? _); [done|]. destruct (_ && _); [done|].
  destruct (tunnelHelloNodeID hello remote backend) as [peer|]; [|done].
  destruct (authorize_hello _ _ _ _) as [m1 [[p addr]|]] eqn:Ea; [|done]. destruct (te_ready_ok te); [|done].
  apply authorize_hello_ok in Ea as (exp & n & g & (Hlive & _ & _ & <- & _) & _).
  apply Hg, first12_return in Hlive as [t' Ht']. unfold proxyToService in Hh. rewrite Ht' in Hh. cbn in Hh.
  by destruct (te_dial_ok te addr).
Qed.
End Host.

(** ** Properties *)


(** ** A concrete host *)

(** libp2p's ids are long; the toy instance's need not be. *)
Definition long_id_crypto : Crypto := {|
  sha256 := toy_hash; hmac_sha256 := hmac_sha256; UnmarshalEd25519PublicKey := UnmarshalEd25519PublicKey;
  UnmarshalEd25519PrivateKey := UnmarshalEd25519PrivateKey; ed25519_public := ed25519_public;
  ed25519_sign := ed25519_sign; ed25519_verify := ed25519_verify;
  IDFromPublicKey k := Ok (of_bytes (to_bytes "12D3KooWpeer" ++ k));
  peer_Decode := peer_Decode; ParseCertificate := ParseCertificate; ecdsa_VerifyASN1 := ecdsa_VerifyASN1;
|}.

#[local] Instance no_request : Codec PairRequest := {| marshal _ := Err "unused"; unmarshal _ := Err "unused" |}.

#[local] Instance hello_any : Codec TunnelHello := one_hello sample_hello.
#[local] Instance ping_any : Codec TunnelPing := one_ping.

Definition sample_quic_host : Quic unit := Quicnet.SetHandlers (newQuic []) true true.
Definition empty_tunnel : TunnelManager SessionStore := mkTunnelManager NewSessionStore host_config.


(** Two packets: one of another transaction, and the answer. *)
Example stun_skips_strangers :
  let lib := mkStun bytes (fun p => true) (fun p => Ok p) (fun m => take 1 m) (fun _ => Some ("203.0.113.9"%string, 4001)) (fun _ => None) in
  stun_read lib [x07] [[x01; x00]; [x07; x00]] "i/o timeout" = Ok "203.0.113.9:4001"%string.
Proof. vm_compute. reflexivity. Qed.
