(* ===== verification/WebApi.v ===== *)
(** * WebApi: the dashboard's routes and reports

    The route table, the method checks and the small handlers of
    [internal/webui/webui.go], and the status reports they show, with their
    providers in [internal/service/service.go] and [internal/node/node.go].
    A reply is the HTTP status with what is written; JSON is left out. *)

From stdpp Require Import gmap.
From S2P Require Import Prelude GoStrings Crypto Config Identity InviteUrl BtDht Sidecar Quicnet QuicHost NetNode Netbackend Service.
From S2P Require Import Invites WebAccess WebSessions WebAdmin.

(** ** Routes *)

Inductive endpoint : Type :=
  | Static | EStatus | ERefresh | ERemotes | EActive | EOneTime | EPairing | EInvites | ERevoke | ERenameInvite
  | EConnect | ECancel | EDisconnect | ELaunch | EConnectStatus | EAddRemote | ERenameRemote | EDeleteRemote
  | EAllowed | ERenameAllowed | EDeleteAllowed | ELabel | EHealth | ELogs | EClientLog | EScan | EConfig.

Definition routes : list (string * endpoint) :=
  [("/api/status", EStatus); ("/api/status/refresh", ERefresh); ("/api/remotes", ERemotes);
   ("/api/active-connections", EActive); ("/api/url/onetime", EOneTime); ("/api/url/pairing", EPairing);
   ("/api/invites", EInvites); ("/api/invites/revoke", ERevoke); ("/api/invites/rename", ERenameInvite);
   ("/api/connect", EConnect); ("/api/connect/cancel", ECancel); ("/api/disconnect", EDisconnect);
   ("/api/launch", ELaunch); ("/api/connect/status", EConnectStatus); ("/api/remotes/add", EAddRemote);
   ("/api/remotes/rename", ERenameRemote); ("/api/remotes/delete", EDeleteRemote); ("/api/allowed", EAllowed);
   ("/api/allowed/rename", ERenameAllowed); ("/api/allowed/delete", EDeleteAllowed); ("/api/label", ELabel);
   ("/api/health", EHealth); ("/api/logs", ELogs); ("/api/client-log", EClientLog); ("/api/scan", EScan);
   ("/api/config", EConfig)]%string.

(** [ServeMux] for patterns without a trailing slash: the exact path, or the
    pattern [/]. *)
Definition route (path : string) : endpoint :=
  match find (fun pe => bool_decide (fst pe = path)) routes with Some (_, e) => e | None => Static end.

(** What a request reaches once the gate let it through. *)
Definition reached (g : gate) (rq : http_request) (path : string) : gate * option endpoint :=
  let '(g, a) := serveHTTP g rq in (g, match a with Served => Some (route path) | _ => None end).

(** A reply: 200 with a value, or an error with its text. *)
Inductive reply (B : Type) : Type :=
  | Respond (b : B)
  | HttpError (code : Z) (text : string).
Arguments Respond {B} _.
Arguments HttpError {B} _ _.

(** ** Invites *)

Definition handleInvites (m : Manager) (order : list string) (now : Z) : reply (list InviteView) :=
  Respond (ListInvites m order now).

Definition handleRevoke (m : Manager) (method id : string) (save : res unit) : Manager * reply string :=
  if bool_decide (method <> "DELETE") then (m, HttpError 405 "DELETE required")
  else let '(m, r) := RevokeInvite m id save in
       (m, match r with Err err => HttpError 404 err | Ok _ => Respond "deleted"%string end).

(** [body] is the decoded id and label. *)
Definition handleRenameInvite (m : Manager) (method : string) (body : option (string * string)) : Manager * reply string :=
  if bool_decide (method <> "PATCH") then (m, HttpError 405 "PATCH required")
  else match body with
       | None => (m, HttpError 400 "id and label required")
       | Some (id, label) =>
         if bool_decide (id = "") then (m, HttpError 400 "id and label required")
         else let '(m, r) := RenameInvite m id (trim_space label) in
              (m, match r with Err err => HttpError 404 err | Ok _ => Respond "ok"%string end)
       end.

(** ** Logs of the browser *)

Inductive log_level : Type := LogInfo | LogWarn | LogError.

(** The line written: its level, message and the keys of its attributes. *)
Definition handleClientLog (method : string) (body : option (string * string * list string))
  : option (log_level * string * list string) * reply string :=
  if bool_decide (method <> "POST") then (None, HttpError 405 "POST required")
  else match body with
       | None => (None, HttpError 400 "bad request")
       | Some (level, message, keys) =>
         let msg := trim_space message in
         let msg := if bool_decide (msg = "") then "browser event"%string else msg in
         let level := to_lower (trim_space level) in
         let level := if bool_decide (level = "warn") || bool_decide (level = "warning") then LogWarn
                      else if bool_decide (level = "error") then LogError else LogInfo in
         (Some (level, msg, "remote_addr"%string :: List.filter (fun k => bool_decide (k <> "")) keys), Respond "ok"%string)
       end.

(** ** Connection status *)

Definition handleConnectStatus {R} (w : Web R) (invitePeerID : string -> string) (method key remoteKey nodeID url : string) (now : Z)
  : reply connectStatus :=
  if bool_decide (method <> "GET") then HttpError 405 "GET required"
  else
    let key := trim_space key in
    let key := if bool_decide (key = "") then connectRequestKey invitePeerID remoteKey nodeID url else key in
    if bool_decide (key = "") then HttpError 400 "key, node_id, or url required"
    else Respond (connectStatusFor w key now).

(** ** Allowed machines *)

Record allowed_view : Type := mkAllowedView { av_peer : TrustedPeer; av_connType : string }.

Definition handleAllowed (connTypeFor : string -> string) (method : string) (c : Config) : reply (list allowed_view) :=
  if bool_decide (method <> "GET") then HttpError 405 "GET required"
  else Respond ((fun p => mkAllowedView p (connTypeFor (tp_NodeID p))) <$> dedupeTrustedPeers (Trusted c)).

(** ** The network's status *)

Record relay_report : Type := mkRelayReport {
  rr_enabled : bool; rr_connected : bool; rr_relays : nat; rr_addrs : nat; rr_lastError : string; rr_mask : Z;
}.
Record dht_report : Type := mkDhtReport { dr_enabled : bool; dr_running : bool; dr_ready : bool; dr_size : Z; dr_lastError : string }.

(** [Node.NetworkStatus]; [size] is the DHT client's routing table. *)
Definition NetworkStatus {A} (n : NodeState A) (connected : bytes -> bool) (size : Z) : relay_report * dht_report :=
  let peers := if dhtClient n then size else 0 in
  (mkRelayReport (relayEnabled n) (relayEnabled n && negb (length (n_relayAddrs n) =? 0)%nat) (length (relayInfos n))
     (length (n_relayAddrs n)) (lastRelayErr n) (RelayMask n connected),
   mkDhtReport (dhtEnabled n) (dhtClient n) (dhtClient n && (0 <? peers)) peers (lastDHTErr n)).

Inductive bittorrent_report : Type :=
  | BTStopped (enabled : bool)
  | BTRunning (c : BtDht.Client) (server : bool) (quic : option quic_status).
Inductive iroh_report : Type :=
  | IrohStopped (enabled : bool) (references : nat)
  | IrohRunning (s : sidecar_status) (references : nat).

Record network_report : Type := mkNetworkReport {
  nr_node : relay_report * dht_report;
  nr_share : string;
  nr_lastApplyError : string;
  nr_bittorrent : bittorrent_report;
  nr_iroh : iroh_report;
}.

(** The provider in [RunStack]: the reports of the current instances. *)
Definition networkStatus (s : Sup) (node : relay_report * dht_report) (bt : nat -> BtDht.Client * bool)
    (quic : nat -> quic_status) (iroh : nat -> sidecar_status) : network_report :=
  mkNetworkReport node (Service.active s) (sv_lastError s)
    (match sv_btdht s with
     | Some b => let '(c, server) := bt b in BTRunning c server (option_map quic (sv_quic s))
     | None => BTStopped (negb (mode_off (btdht_Mode (BTDHT (sv_cfg s)))))
     end)
    (match sv_iroh s with
     | Some i => IrohRunning (iroh i) (backendRefCount s BackendIroh)
     | None => IrohStopped (negb (mode_off (iroh_Mode (Iroh (sv_cfg s))))) (backendRefCount s BackendIroh)
     end).

(** The refresh: a probe of the sidecar, when iroh is selected. *)
Definition refreshNetwork (s : Sup) (probe : nat -> option string) : option string :=
  if bool_decide (Service.active s = BackendIroh) then
    match sv_iroh s with
    | Some i => probe i
    | None => Some "iroh sidecar backend is not running"%string
    end
  else None.

(** [handleStatusRefresh]; [None] without a provider. *)
Definition handleStatusRefresh (method : string) (refresh : option (network_report * option string))
  : reply (bool * string * network_report) :=
  if bool_decide (method <> "POST") then HttpError 405 "POST required"
  else match refresh with
       | None => HttpError 501 "refresh unavailable"
       | Some (status, Some err) => Respond (false, err, status)
       | Some (status, None) => Respond (true, ""%string, status)
       end.

(** ** The machine's status *)

Record status_view : Type := mkStatusView {
  sw_node_id : string;
  sw_machine_id : string;
  sw_machine_id_source : string;
  sw_label : string;
  sw_identity_backend : string;
  sw_hardware_backed : bool;
  sw_tpm_vendor : string;
  sw_share_backend : string;
  sw_network : option network_report;
}.

Definition handleStatus `{Crypto} (nodeID : string) (id : option Identity) (c : Config) (network : option network_report)
  : status_view :=
  let att := id ≫= Attestation in
  let thumb := AttestationKeyThumbprint att in
  let '(machineID, source) := if bool_decide (thumb = "") then (nodeID, "peer_id"%string) else (thumb, "tpm_attestation_key"%string) in
  mkStatusView nodeID machineID source (nc_Label (Node c))
    (match id with Some i => Backend i | None => "software"%string end)
    (match id with Some i => bool_decide (Backend i = BackendTPM) | None => false end)
    (match att with Some a => Manufacturer a | None => ""%string end)
    (ActiveNetworkBackend (Some c)) network.

(** ** Facts *)

(** Every route is reached by its own path, and nothing but by a session. *)
Lemma route_of path e : (path, e) ∈ routes -> route path = e.
Proof.
  assert (Hd : NoDup (fst <$> routes)) by (apply (bool_decide_eq_true_1 (NoDup (fst <$> routes))); vm_compute; reflexivity).
  unfold route. intros Hin. induction routes as [|[p e'] l IH]; [by apply not_elem_of_nil in Hin|].
  apply NoDup_cons in Hd as [Hn Hd]. cbn [find fst]. case_bool_decide as Hp.
  - apply elem_of_cons in Hin as [[= -> ->]|Hin]; [done|]. destruct Hn. rewrite Hp. by apply (list_elem_of_fmap_2 fst _ (path, e)).
  - apply elem_of_cons in Hin as [[= -> ->]|Hin]; [done|]. by apply IH.
Qed.

Lemma reached_only_by_session g rq path e g' :
  reached g rq path = (g', Some e) -> hr_cookie rq = Some (gt_session g) /\ g' = g /\ e = route path.
Proof.
  unfold reached, serveHTTP. case_bool_decide as Hc; [by intros [= <- <-]|]. case_bool_decide; [done|].
  destruct (negb (hr_source rq)); [done|]. by destruct (decide _).
Qed.

(** The report says of a backend that it runs exactly when the supervisor has
    an instance of it. *)
Lemma network_report_current s node bt quic iroh :
  let r := networkStatus s node bt quic iroh in
  (is_Some (sv_iroh s) <-> exists st n, nr_iroh r = IrohRunning st n) /\
  (is_Some (sv_btdht s) <-> exists c b q, nr_bittorrent r = BTRunning c b q).
Proof.
  cbn. unfold is_Some. split.
  - destruct (sv_iroh s); naive_solver.
  - destruct (sv_btdht s) as [b|]; [destruct (bt b)|]; naive_solver.
Qed.

(** The machine id shown is the one identity proofs carry when the identity
    has an attestation key; a software identity is shown by its peer id
    although its proofs carry the thumbprint of its key. *)
Lemma status_machine_id `{Crypto} nodeID i c network :
  AttestationKeyThumbprint (Attestation i) <> ""%string ->
  sw_machine_id (handleStatus nodeID (Some i) c network) = MachineID (Some i).
Proof.
  intros Ht. unfold handleStatus. cbn. rewrite bool_decide_eq_false_2 by done. cbn.
  unfold MachineID. destruct (Attestation i) as [a|]; [|done]. by rewrite bool_decide_eq_true_2.
Qed.
Lemma status_software_machine_id `{Crypto} nodeID k signer c network :
  sw_machine_id (handleStatus nodeID (Some (mkIdentity (Some k) signer BackendSoftware None)) c network) = nodeID.
Proof. done. Qed.
