(* ===== verification/Dashboard.v ===== *)
(** * Dashboard: the dashboard's sessions on the service's backends

    The service's references ([setBackendRefLocked]) as the backends the
    dashboard holds ([SetBackendReferenceHooks]), and runs that interleave the
    dashboard's operations with those of the supervisor.  Every call of the
    service meets an environment of its own. *)

From stdpp Require Import gmap.
From S2P Require Import Prelude GoStrings Config NetNode Netbackend BackendRefs WebSessions Service.

(** ** The service as the dashboard's backends *)

Record Live : Type := mkLive { lv_sup : Sup; lv_clock : nat }.

Section Live.
Context (env : nat -> sup_env).

Definition live_ref (r : Live) (backend key : string) (act : bool) : Live * option string :=
  let '(s, err) := setBackendRef (env (lv_clock r)) (lv_sup r) backend key act in (mkLive s (S (lv_clock r)), err).

#[export] Instance service_backends : NetworkBackends Live := {
  nb_refs r := ref_pairs (sv_refs (lv_sup r));
  nb_retain r backend key := live_ref r backend key true;
  nb_release r backend key := fst (live_ref r backend key false);
}.

Lemma live_ref_sup r b k act :
  lv_sup (fst (live_ref r b k act)) = fst (setBackendRef (env (lv_clock r)) (lv_sup r) b k act).
Proof. unfold live_ref. by destruct (setBackendRef _ _ _ _ _). Qed.

Lemma live_ref_pairs r b k act :
  ref_pairs (sv_refs (lv_sup (fst (live_ref r b k act)))) =
    if act then ref_set b k ∪ ref_pairs (sv_refs (lv_sup r)) else ref_pairs (sv_refs (lv_sup r)) ∖ ref_set b k.
Proof.
  rewrite live_ref_sup, setBackendRef_refs. apply set_eq. intros x. unfold ref_set, ref_key, CanonicalNetworkBackend.
  destruct (bool_decide (b = "") || bool_decide (b = "disabled") || bool_decide (k = "")); cbn [from_option].
  - destruct act; [by rewrite union_empty_l_L|by rewrite difference_empty_L].
  - rewrite update_refs_pairs. destruct act; [by rewrite elem_of_union, elem_of_singleton|].
    by rewrite elem_of_difference, elem_of_singleton.
Qed.

#[export] Instance service_backends_laws : NetworkBackendsLaws Live.
Proof. split; intros r b k; apply live_ref_pairs. Qed.

(** ** Runs of both *)

Inductive dash_op : Type :=
  | DWeb (o : web_op)
  | DService (o : sup_op).

Definition service_step (r : Live) (o : sup_op) : Live :=
  mkLive (sup_step (lv_sup r) (env (lv_clock r), o)) (S (lv_clock r)).

Definition dash_step (w : Web Live) (o : dash_op) : Web Live :=
  match o with
  | DWeb o => web_step w o
  | DService o => set_net w (service_step (w_net w) o)
  end.

(** References change through the dashboard's hooks and the apply only, the
    service is not stopped, and the retry loop meets the selected iroh backend
    referenced and enabled, as [NormalizeNetworkBackend] leaves it. *)
Definition dash_allowed (w : Web Live) (o : dash_op) : Prop :=
  match o with
  | DWeb o => allowed w o
  | DService (SRef _ _ _) | DService SShutdown => False
  | DService SRetry =>
      let s := lv_sup (w_net w) in
      active s = BackendIroh -> referenced s /\ mode_off (iroh_Mode (Iroh (sv_cfg s))) = false
  | DService o => ref_ok (lv_sup (w_net w)) o
  end.

Fixpoint dash_run (w : Web Live) (ops : list dash_op) : Prop :=
  match ops with
  | [] => True
  | o :: r => dash_allowed w o /\ dash_run (dash_step w o) r
  end.

Definition dash_start (c : Config) (running dht : bool) : Web Live :=
  newWeb (mkLive (boot (env 0%nat) c running dht) 1).
End Live.

(** ** What the dashboard does to the backends *)

Section Nets.
Context {R : Type} `{NetworkBackends R}.
Context (P : R -> Prop).
Hypothesis retain_P : forall r b k, P r -> P (fst (nb_retain r b k)).
Hypothesis release_P : forall r b k, P r -> P (nb_release r b k).
Implicit Types w : Web R.

Lemma net_release w s : P (w_net w) -> P (w_net (releaseSessionBackend w s)).
Proof. intros Hp. unfold releaseSessionBackend. case_bool_decide; [done|]. by apply release_P. Qed.

Lemma net_end w keys s message now : w_net (end_keys w keys s message now) = w_net w.
Proof. unfold end_keys. by destruct s. Qed.

Lemma net_mark w key proxy message now : P (w_net w) -> P (w_net (markSessionClosed w key proxy message now)).
Proof.
  intros Hp. unfold markSessionClosed. destruct (w_sessions w !! key) as [s|]; [|done].
  destruct (negb _); [done|]. apply net_release. by rewrite net_end.
Qed.

Lemma net_close w proxy now : P (w_net w) -> P (w_net (closeProxy w proxy now)).
Proof.
  intros Hp. unfold closeProxy. destruct (decide _); [done|].
  generalize (w_hooks w proxy). intros l. set (w1 := set_proxies _ _ _). assert (H1 : P (w_net w1)) by done. clearbody w1.
  revert w1 H1. induction l as [|k l IH]; intros w1 H1; [done|]. by apply IH, net_mark.
Qed.

Lemma net_register w key peer proto mode port backend proxy addr aliases now :
  P (w_net w) -> P (w_net (registerConnectSession w key peer proto mode port backend proxy addr aliases now)).
Proof.
  intros Hp. unfold registerConnectSession. set (w1 := mkWeb _ _ _ _ _ _ _ _).
  assert (H1 : P (w_net w1)) by done. clearbody w1. generalize (replaced w (uniqueConnectKeys (key :: aliases)) proxy).
  intros olds. unfold setOnClose.
  assert (H2 : P (w_net (foldl (fun w o => closeProxy (releaseSessionBackend w o) (cs_Proxy o) now) w1 olds))).
  { revert w1 H1. induction olds as [|o olds IH]; intros w1 H1; [done|]. by apply IH, net_close, net_release. }
  destruct (decide _); [by apply net_mark|done].
Qed.

Lemma net_disconnect w key now : P (w_net w) -> P (w_net (fst (disconnectSession w key now))).
Proof.
  intros Hp. unfold disconnectSession. cbn [fst]. destruct (w_sessions w !! key) as [s|].
  - apply net_release, net_close. by rewrite net_end.
  - by rewrite net_end.
Qed.

Lemma net_retain w b k : P (w_net w) -> P (w_net (fst (retainSessionBackend w b k))).
Proof.
  intros Hp. unfold retainSessionBackend. case_bool_decide; [done|].
  pose proof (retain_P (w_net w) (trim_space b) ("connect:" ++ k) Hp) as Hr. by destruct (nb_retain _ _ _).
Qed.

(** The dashboard reaches the backends through retain and release only. *)
Lemma net_step w o : P (w_net w) -> P (w_net (web_step w o)).
Proof.
  intros Hp. destruct o; cbn [web_step].
  - unfold beginConnect. destruct (w_connects w !! key); [|done]. destruct (_ <? _); [|done]. by destruct (st_Done _).
  - unfold setConnectCancel. by destruct (_ !! _).
  - destruct (setConnectStatus_frame w act key stage message proto peer localAddr err done now) as [->|[m ->]]; done.
  - destruct retain; unfold retainConnectAttemptBackend, releaseConnectAttemptBackend; case_bool_decide; try done;
      [by apply retain_P|by apply release_P].
  - by apply net_register, net_retain.
  - done.
  - unfold cancelConnect. destruct (w_connects w !! key); [|done]. destruct (w_sessions w !! key) as [s|]; cbn [fst].
    + by apply net_close.
    + done.
  - by apply net_disconnect.
  - unfold removeRemoteConnectState. case_bool_decide; [done|].
    pose proof (net_disconnect w ("peer:" ++ trim_space remoteKey) now Hp) as Hd.
    destruct (disconnectSession _ _ _) as [w' s]. cbn [fst] in Hd.
    generalize (match s with Some _ => sessionKeys s ("peer:" ++ trim_space remoteKey) | None => ["peer:" ++ trim_space remoteKey] end)%string.
    intros keys. revert w' Hd. induction keys as [|k keys IH]; intros w' Hd; [done|]. by apply IH.
  - by apply net_close.
Qed.
End Nets.

(** ** The sidecar and its references *)

(** A referenced sidecar is registered. *)
Definition held (s : Sup) : Prop := referenced s -> is_Some (sv_iroh s).

Definition starts (env : sup_env) : Prop := forall c, en_sidecar env c = Ok true.

Lemma start_some env s allow :
  starts env -> allow = true \/ mode_off (iroh_Mode (Iroh (sv_cfg s))) = false ->
  is_Some (sv_iroh (fst (startIrohSidecar env s allow))).
Proof.
  intros He Hm. unfold startIrohSidecar.
  destruct (match sv_iroh s with Some i => en_running env i | None => false end) eqn:Er.
  { cbn [fst]. by destruct (sv_iroh s). }
  assert (Hc : sv_cfg (stopIrohSidecar s) = sv_cfg s) by (unfold stopIrohSidecar; by destruct (sv_iroh s)).
  rewrite Hc. set (mode := if allow && _ then _ else _).
  assert (Hoff : mode_off mode = false).
  { unfold mode. destruct Hm as [-> | Hm]; [|by rewrite Hm, andb_false_r]. cbn [andb].
    by destruct (mode_off (iroh_Mode (Iroh (sv_cfg s)))) eqn:E. }
  rewrite Hoff, He. by eexists.
Qed.

Lemma held_frame s s' : held s -> sv_iroh s' = sv_iroh s -> sv_refs s' = sv_refs s -> held s'.
Proof. unfold held, referenced. by intros Hh -> ->. Qed.

Lemma held_ref env s b k act : starts env -> held s -> held (fst (setBackendRef env s b k act)).
Proof.
  intros He Hh. unfold setBackendRef, CanonicalNetworkBackend. destruct (_ || _ || _); [done|]. set (s1 := set_refs s _).
  case_bool_decide as Hb.
  - intros Hr. apply Hh. revert Hr. unfold referenced. cbn. unfold update_refs.
    by destruct (decide _); rewrite ?lookup_delete_ne, ?lookup_insert_ne by done.
  - destruct (decide (b = BackendIroh)) as [->|?]; [|done].
    destruct (sv_refs s1 !! BackendIroh) eqn:Er; [intros _; apply start_some; auto|].
    intros [ks Hks]. cbn [fst] in Hks. rewrite stop_iroh_refs in Hks. congruence.
Qed.

Lemma held_ensure env s backend connect :
  starts env -> (backend = BackendIroh -> connect = true \/ mode_off (iroh_Mode (Iroh (sv_cfg s))) = false) ->
  held s -> held (fst (ensureNetworkBackend env s backend connect)).
Proof.
  intros He Hm Hh. destruct (decide (backend = BackendIroh)) as [->|Hne].
  - intros _. unfold ensureNetworkBackend. rewrite bool_decide_eq_true_2 by done. by apply start_some; [|apply Hm].
  - destruct (ensure_frame env s backend connect Hne). by eapply held_frame.
Qed.

(** An applied configuration reaches the sidecar through the selected backend's
    reference only. *)
Lemma apply_select env s :
  exists s2, sv_iroh s2 = sv_iroh s /\ sv_refs s2 = sv_refs s /\
    let s' := fst (applyNetworkConfig env s) in
    (sv_iroh s' = sv_iroh s2 /\ sv_refs s' = sv_refs s2) \/
    exists act, sv_iroh s' = sv_iroh (fst (setBackendRef env s2 BackendIroh "selected" act)) /\
                sv_refs s' = sv_refs (fst (setBackendRef env s2 BackendIroh "selected" act)).
Proof.
  unfold applyNetworkConfig. destruct (en_apply env) as [[running dht] [e|]]; [exists s; by auto|].
  set (s0 := set_error _ _). assert (H0 : sv_iroh s0 = sv_iroh s /\ sv_refs s0 = sv_refs s) by done. clearbody s0.
  assert (Hc : sv_iroh (close_quic (close_btdht s0)) = sv_iroh s0 /\ sv_refs (close_quic (close_btdht s0)) = sv_refs s0)
    by (unfold close_quic, close_btdht; destruct (sv_btdht s0); cbn; by destruct (sv_quic s0)).
  revert Hc. generalize (close_quic (close_btdht s0)). intros s1 H1. cbv zeta.
  assert (H2 : sv_iroh (if shouldRunBitTorrentDHTBackend (Some (sv_cfg s1)) then apply_btdht env s1 else s1) = sv_iroh s1 /\
               sv_refs (if shouldRunBitTorrentDHTBackend (Some (sv_cfg s1)) then apply_btdht env s1 else s1) = sv_refs s1).
  { destruct (shouldRunBitTorrentDHTBackend _); [|done]. unfold apply_btdht. destruct (en_key env); [|done].
    destruct (start_quic_frame env s1) as [Hq1 Hq2]. destruct (start_quic env s1) as [s2 e]. cbn [fst] in *.
    destruct e; destruct (en_btdht env _) as [[]|]; cbn; split; congruence. }
  revert H2. generalize (if shouldRunBitTorrentDHTBackend (Some (sv_cfg s1)) then apply_btdht env s1 else s1).
  intros s2 H2. exists s2. split; [destruct H0, H1, H2; congruence|]. split; [destruct H0, H1, H2; congruence|]. right.
  case_bool_decide; [|by exists false]. exists true.
  by destruct (setBackendRef env s2 BackendIroh "selected" true) as [s' [err|]].
Qed.

Lemma held_apply env s : starts env -> held s -> held (fst (applyNetworkConfig env s)).
Proof.
  intros He Hh. destruct (apply_select env s) as (s2 & Hi & Hr & Hs). assert (H2 : held s2) by (by eapply held_frame).
  destruct Hs as [[Hi' Hr']|(act & Hi' & Hr')]; [by eapply held_frame|].
  eapply held_frame; [by eapply held_ref|exact Hi'|exact Hr'].
Qed.

Lemma apply_connect_refs env s b k :
  (b, "connect:" ++ k)%string ∈ ref_pairs (sv_refs (fst (applyNetworkConfig env s))) <->
  (b, "connect:" ++ k)%string ∈ ref_pairs (sv_refs s).
Proof.
  destruct (apply_select env s) as (s2 & _ & Hr & Hs). rewrite <- Hr.
  destruct Hs as [[_ ->]|(act & _ & ->)]; [done|]. rewrite setBackendRef_refs. cbn [orb].
  destruct (_ || _ || _); [done|]. rewrite update_refs_pairs.
  assert (Hne : (b, "connect:" ++ k)%string <> (BackendIroh, "selected"%string)) by discriminate.
  destruct act; tauto.
Qed.

(** ** The invariant of both *)

Section LiveFacts.
Context (env : nat -> sup_env).
Hypothesis Hstart : forall n, starts (env n).
Let live : NetworkBackends Live := service_backends env.
#[local] Existing Instance live.
Let live_laws : NetworkBackendsLaws Live := service_backends_laws env.
#[local] Existing Instance live_laws.
Implicit Types w : Web Live.

(** What holds of the service under the dashboard. *)
Definition sound (r : Live) : Prop := tidy (lv_sup r) /\ filled (lv_sup r) /\ kept (lv_sup r) /\ held (lv_sup r).

Lemma sound_ref r b k act : sound r -> sound (fst (live_ref env r b k act)).
Proof.
  intros (Ht & Hf & Hk & Hh). unfold sound. rewrite live_ref_sup.
  split; [by apply tidy_ref|]. split; [by apply filled_ref|]. split; [by apply kept_ref|by apply held_ref].
Qed.

Lemma sound_step w (o : sup_op) :
  sound (w_net w) -> dash_allowed w (DService o) -> sound (service_step env (w_net w) o).
Proof.
  intros (Ht & Hf & Hk & Hh) Ha. unfold sound, service_step. cbn [lv_sup]. set (s := lv_sup (w_net w)) in *.
  split; [by apply tidy_sup_step|]. split; [by apply (filled_run [(env (lv_clock (w_net w)), o)])|].
  destruct o as [c|b k act|b| | |]; cbn [dash_allowed ref_ok] in Ha; try done.
  - split; [by apply kept_ensure|]. cbn [sup_step]. apply held_ensure; auto.
  - split; [apply (kept_step s (env (lv_clock (w_net w)), SRetry)); [done|intros Hb; by apply Ha]|].
    cbn [sup_step]. unfold retry. destruct (_ || _ || _); [done|]. apply held_ensure; [done| |done].
    intros Hb. right. by apply Ha.
  - split; [by apply kept_apply|by apply held_apply].
Qed.

Lemma service_connect_refs w o (b k : string) :
  dash_allowed w (DService o) ->
  (b, "connect:" ++ k)%string ∈ nb_refs (service_step env (w_net w) o) <-> (b, "connect:" ++ k)%string ∈ nb_refs (w_net w).
Proof.
  intros Ha. change ((b, "connect:" ++ k)%string ∈ ref_pairs (sv_refs (sup_step (lv_sup (w_net w)) (env (lv_clock (w_net w)), o))) <->
                     (b, "connect:" ++ k)%string ∈ ref_pairs (sv_refs (lv_sup (w_net w)))).
  destruct o as [c|b0 k0 act|b0| | |]; cbn [dash_allowed] in Ha; try done; cbn [sup_step].
  - by rewrite ensure_refs.
  - unfold retry. destruct (_ || _ || _); [done|]. by rewrite ensure_refs.
  - apply apply_connect_refs.
Qed.

Lemma dash_run_sound ops : forall w,
  good w -> sound (w_net w) -> dash_run env w ops ->
  good (fold_left (dash_step env) ops w) /\ sound (w_net (fold_left (dash_step env) ops w)).
Proof.
  induction ops as [|o ops IH]; intros w Hg Hs; cbn [fold_left dash_run]; [done|]. intros [Ha Hr].
  apply IH; [..|exact Hr]; destruct o as [o|o]; cbn [dash_step].
  - by apply good_step.
  - eapply good_refs_eq; [exact Hg|done..|]. intros b k. by apply service_connect_refs.
  - apply net_step; [| |done]; intros r b k; apply sound_ref.
  - by apply sound_step.
Qed.

Lemma dash_start_sound c running dht :
  good (dash_start env c running dht) /\ sound (w_net (dash_start env c running dht)).
Proof.
  destruct (boot_frame (env 0%nat) c running dht) as (s & Hi & Hr & Hb). split.
  - apply good_new. intros b k.
    change ((b, "connect:" ++ k)%string ∉ ref_pairs (sv_refs (boot (env 0%nat) c running dht))). rewrite Hb. unfold startup.
    assert (Hn : (b, "connect:" ++ k)%string ∉ ref_pairs (sv_refs s))
      by (rewrite Hr, elem_of_ref_pairs; intros (ks & Hks & _); by apply lookup_empty_Some in Hks).
    case_bool_decide; [|exact Hn]. rewrite setBackendRef_refs.
    destruct (_ || _ || _); [exact Hn|]. rewrite update_refs_pairs. intros [Hc|Hin]; [discriminate Hc|done].
  - unfold sound. cbn [dash_start newWeb w_net lv_sup]. destruct (kept_boot (env 0%nat) c running dht).
    split; [apply tidy_boot|]. split; [done|]. split; [done|]. rewrite Hb. unfold startup.
    assert (Hh : held s) by (intros [ks Hks]; rewrite Hr in Hks; by apply lookup_empty_Some in Hks).
    case_bool_decide; [by apply held_ref|done].
Qed.
End LiveFacts.

(** ** Properties *)


Definition sample_dash_ops : list dash_op :=
  [DWeb (WBegin "peer:A" 5); DWeb (WAttempt true "iroh" "peer:A"); DService (SEnsure BackendIroh);
   DWeb (WRegister "peer:A" "A" "rdp" "pairing" 3389 "iroh" 1 "127.0.0.1:5000" ["peer:A|rdp|3389"%string] 6);
   DWeb (WAttempt false "iroh" "peer:A"); DWeb (WEnd "peer:A"); DService SApply].
Definition sample_dash : Web Live :=
  fold_left (dash_step (fun _ => sample_sup_env)) sample_dash_ops
    (dash_start (fun _ => sample_sup_env) (set_share (defaultConfig (Ok "h")) BackendLibp2pRelay) true false).

