(* ===== verification/Commands.v ===== *)
(** * Commands: the command line of [cmd/deskaccess/main.go]

    Which mode a start of the program takes, how it finds the dashboard of the
    running service, and the client without a service.  The answers of the
    service ([ipc.Query]) come as lists, one per attempt until the deadline. *)

From stdpp Require Import gmap.
From S2P Require Import Prelude GoStrings Base64 Crypto Config Url InviteUrl Invites PairingClient BackendRefs WebAccess WebSessions WebConnect.
From S2P Require Import Launchers Ipc Netbackend Service Managers.

Definition isInviteURLArg (arg : string) : bool := has_prefix (to_lower arg) "deskaccess:".

Record flags : Type := mkFlags {
  fl_install : bool;
  fl_uninstall : bool;
  fl_service : bool;
  fl_standalone : bool;
  fl_ui : bool;
  fl_connect : string;
  fl_generate : bool;
  fl_id : bool;
}.

(** The terminal and the displays, and whether a running instance shows its
    dashboard. *)
Record terminal : Type := mkTerminal {
  tm_plain : bool;        (** [isPlainInteractiveCLI] *)
  tm_display : bool;      (** [tray.HasDisplay] *)
  tm_desktop : bool;      (** [tray.HasDesktopDisplay] *)
  tm_shown : bool;        (** [activateExistingInstance], [openDashboardFromService] *)
}.

Inductive command : Type :=
  | InstallService
  | UninstallService
  | RunService
  | Standalone
  | OpenDashboard
  | OpenInvite (url : string)
  | Generate
  | ShowID
  | PrintDashboardURL
  | AlreadyShown
  | Tray
  | Daemon.

Definition main (f : flags) (args : list string) (t : terminal) : command :=
  let connect := match args with
                 | arg :: _ => if bool_decide (fl_connect f = "") && isInviteURLArg arg then arg else fl_connect f
                 | [] => fl_connect f
                 end in
  if fl_install f then InstallService
  else if fl_uninstall f then UninstallService
  else if fl_service f then RunService
  else if fl_standalone f then Standalone
  else if fl_ui f then OpenDashboard
  else if bool_decide (connect <> "") then OpenInvite connect
  else if fl_generate f then Generate
  else if fl_id f then ShowID
  else if tm_plain t then PrintDashboardURL
  else if tm_display t then (if tm_shown t then AlreadyShown else Tray)
  else if tm_desktop t && tm_shown t then AlreadyShown
  else Daemon.

(** ** The dashboard of the running service *)

(** An answer of [ipc.Query]: the error, nothing, or what the service said. *)
Definition answer : Type := res (option Response).

Definition WebuiURL (r : Response) : string := match r with StatusOf _ _ url _ _ => url | _ => "" end.
Definition InviteURL_of (r : Response) : string := match r with InviteURL url => url | _ => "" end.
Definition Error_of (r : Response) : string := match r with Failed err => err | _ => "" end.

(** [printDashboardURL]: the URL, or why the program ends. *)
Definition printDashboardURL (a : answer) : res string :=
  match a with
  | Err err => Err ("service not reachable: " ++ err)
  | Ok None => Err "service did not return a dashboard URL"
  | Ok (Some st) =>
    if bool_decide (Error_of st <> "") then Err (Error_of st)
    else if bool_decide (WebuiURL st = "") then Err "service did not return a dashboard URL"
    else Ok (WebuiURL st)
  end.

(** [generateInvite]: always a pairing; the request and the link printed. *)
Definition generate_request (protocol : string) (port : Z) (label : string) : Request :=
  mkIpcRequest "generate" "pairing" protocol port label.
Definition generateInvite (a : res Response) : res string :=
  match a with
  | Err err => Err ("service not reachable: " ++ err)
  | Ok resp => if bool_decide (Error_of resp <> "") then Err (Error_of resp) else Ok (InviteURL_of resp)
  end.

(** [activateExistingInstance]: the URL shown, if any. *)
Definition activateExistingInstance (a : answer) : option string :=
  match a with
  | Ok (Some st) => if bool_decide (WebuiURL st = "") then None else Some (WebuiURL st)
  | _ => None
  end.

Fixpoint openDashboard (answers : list answer) (lastErr : string) : res string :=
  match answers with
  | [] => Err ("service not reachable: " ++ lastErr)
  | Err err :: r => openDashboard r err
  | Ok (Some st) :: r =>
    if bool_decide (Error_of st = "") && bool_decide (WebuiURL st <> "") then Ok (WebuiURL st)
    else openDashboard r (if bool_decide (Error_of st <> "") then Error_of st else "service did not return a dashboard URL")
  | Ok None :: r => openDashboard r "service did not return a dashboard URL"
  end.
(** [openDashboardFromServiceOrExit]; the last error is nil at first. *)
Definition openDashboardFromServiceOrExit (answers : list answer) : res string := openDashboard answers "<nil>".

(** [waitForDaemon]: whether an attempt was answered. *)
Definition waitForDaemon (answers : list answer) : bool := existsb is_ok answers.

(** The dashboard with the link as a parameter: a base that is no URL is left
    alone. *)
Definition dashboardURLWithConnect `{UrlCheck} (baseURL rawInviteURL : string) : string :=
  with_param baseURL "connect_b64" (b64_encode (to_bytes rawInviteURL)).

(** [openInviteFromProtocolHandler]: the dashboard to show; without one the
    link is opened by the client without a service. *)
Definition openInvite `{UrlCheck} (a : answer) (rawURL : string) : option string :=
  option_map (fun url => dashboardURLWithConnect url rawURL) (activateExistingInstance a).

(** [runStandalone] once [waitForDaemon] returned: the URL printed, or why the
    program ends. *)
Definition runStandalone (a : answer) : res string :=
  match a with
  | Err err => Err ("standalone backend started but dashboard is not reachable: " ++ err)
  | Ok None => Err "standalone backend did not return a dashboard URL"
  | Ok (Some st) =>
    if bool_decide (Error_of st <> "") then Err (Error_of st)
    else if bool_decide (WebuiURL st = "") then Err "standalone backend did not return a dashboard URL"
    else Ok (WebuiURL st)
  end.

(** ** The client without a service *)

(** What its start meets: the configuration and the node, the private key, and
    the constructors of the backends ([Ok false] is a nil backend). *)
Record client_start : Type := mkClientStart {
  st_config : res unit;
  st_node : res bool;               (** whether libp2p runs *)
  st_key : bool;
  st_quic : res bool;
  st_btdht : res bool;
  st_iroh : res bool;
}.

(** A constructor's call of the managers; a failed one is logged only. *)
Definition when_made (made : res bool) (calls : list wiring_op) : list wiring_op :=
  match made with Ok true => calls | _ => [] end.

(** The calls that wire the pairing manager, and the tunnel manager. *)
Definition client_calls (st : client_start) (useBitTorrentDHT : bool) : list wiring_op :=
  (if st_key st && useBitTorrentDHT
   then when_made (st_quic st) [CallQUIC (Some 0%nat)] ++ when_made (st_btdht st) [CallDiscoverer (Some (Some 0%nat))]
   else []) ++
  when_made (st_iroh st) [CallIroh (Some 0%nat)].

(** [runClient]: the pairing over the managers it wired, the tunnel of the
    result, and the client started on its local address. *)
Definition runClient (st : client_start) (connect : wiring -> wiring -> string -> res ConnectResult)
    (tunnel : tunnel_target -> ConnectResult -> res string) (d : desktop) (rawURL : string)
  : res (string * (option (string * list string) * LaunchResult)) :=
  match st_config st, st_node st with
  | Err err, _ => Err err
  | Ok _, Err err => Err err
  | Ok _, Ok running =>
    let host := if running : bool then Some 0%nat else None in
    let calls := client_calls st (bool_decide (InviteNetworkBackend rawURL = BackendBitTorrentDHT)) in
    let pairing := fold_left pairing_call calls (NewWiring running host) in
    let tunnelled := fold_left tunnel_call calls (NewWiring running host) in
    match connect pairing tunnelled rawURL with
    | Err err => Err ("connect failed: " ++ err)
    | Ok r => match tunnel (tunnel_for r) r with
              | Err err => Err ("tunnel failed: " ++ err)
              | Ok addr => Ok (addr, LaunchClient d addr "rdp")
              end
    end
  end.

(** ** Facts *)

(** A link is opened in the same way as an argument and with the flag. *)
Lemma link_argument f arg args t :
  isInviteURLArg arg = true -> fl_connect f = "" ->
  main f (arg :: args) t = main (mkFlags (fl_install f) (fl_uninstall f) (fl_service f) (fl_standalone f) (fl_ui f) arg
                                   (fl_generate f) (fl_id f)) [] t.
Proof. intros Ha Hc. unfold main. cbn [fl_connect fl_install fl_uninstall fl_service fl_standalone fl_ui fl_generate fl_id]. by rewrite Hc, Ha. Qed.

(** An answer that names the dashboard, without an error. *)
Definition names_dashboard (a : answer) (url : string) : Prop :=
  exists st, a = Ok (Some st) /\ Error_of st = ""%string /\ WebuiURL st = url /\ url <> ""%string.

Lemma openDashboard_cons a r last :
  (exists url, names_dashboard a url /\ openDashboard (a :: r) last = Ok url) \/
  (~ (exists url, names_dashboard a url) /\ exists last', openDashboard (a :: r) last = openDashboard r last').
Proof.
  unfold names_dashboard. destruct a as [[st|]|err]; cbn; [|right; naive_solver..].
  destruct (decide (Error_of st = "")) as [He|He]; [|right; rewrite bool_decide_eq_false_2 by done; naive_solver].
  destruct (decide (WebuiURL st = "")) as [Hu|Hu]; rewrite bool_decide_eq_true_2 by done; cbn.
  - right. rewrite bool_decide_eq_false_2 by auto. naive_solver.
  - left. rewrite bool_decide_eq_true_2 by done. naive_solver.
Qed.

(** The dashboard is opened exactly when some answer before the deadline names
    it, and then at the first of these. *)
Lemma openDashboard_first answers lastErr url :
  openDashboard answers lastErr = Ok url <->
  exists l1 a l2, answers = l1 ++ a :: l2 /\ names_dashboard a url /\ forall a', a' ∈ l1 -> ~ exists u, names_dashboard a' u.
Proof.
  revert lastErr. induction answers as [|a r IH]; intros last.
  { cbn. split; [done|]. by intros ([|??] & ? & ? & ? & _). }
  destruct (openDashboard_cons a r last) as [(u & Hu & ->)|(Hn & last' & ->)].
  - split.
    + intros [= <-]. exists [], a, r. split; [done|]. split; [done|]. by intros ? ?%not_elem_of_nil.
    + intros ([|x l1] & a' & l2 & He & Ha & Hl); simplify_eq/=.
      * destruct Hu as (st & -> & _ & <- & _), Ha as (? & [= <-] & _ & -> & _). done.
      * by destruct (Hl _ ltac:(left)); eauto.
  - rewrite IH. split.
    + intros (l1 & a' & l2 & -> & Ha & Hl). exists (a :: l1), a', l2. split; [done|]. split; [done|].
      intros x [->|Hx]%elem_of_cons; auto.
    + intros ([|x l1] & a' & l2 & He & Ha & Hl); simplify_eq/=; [by destruct Hn; eauto|].
      exists l1, a', l2. split; [done|]. split; [done|]. intros x' Hx. apply Hl. by right.
Qed.

(** The client without a service opens a remote desktop for every protocol. *)
Lemma runClient_launches_rdp st connect tunnel d url addr l :
  runClient st connect tunnel d url = Ok (addr, l) -> l = LaunchClient d addr "rdp".
Proof.
  unfold runClient. destruct (st_config st), (st_node st); try done. destruct (connect _ _ _) as [r|]; [|done].
  destruct (tunnel _ _); [|done]. by intros [= <- <-].
Qed.

(** It has the backends the link needs: direct QUIC only for a link of that
    backend, with the discoverer that was made, and the sidecar always. *)
Lemma client_backends st bt :
  fold_left view_call (client_calls st bt) (mkView None None false) =
    mkView (match st_iroh st with Ok true => Some 0%nat | _ => None end)
           (if st_key st && bt then match st_quic st with Ok true => Some 0%nat | _ => None end else None) false.
Proof.
  unfold client_calls, when_made. destruct (st_key st && bt), (st_quic st) as [[]|], (st_btdht st) as [[]|], (st_iroh st) as [[]|]; reflexivity.
Qed.

(** Printing and starting alone give the URL for the same answers. *)
Lemma standalone_prints a url : runStandalone a = Ok url <-> printDashboardURL a = Ok url.
Proof. unfold runStandalone, printDashboardURL. destruct a as [[st|]|]; [|done..]. by repeat case_bool_decide. Qed.

Lemma printed_is_named a url : printDashboardURL a = Ok url <-> names_dashboard a url.
Proof.
  unfold names_dashboard, printDashboardURL. destruct a as [[st|]|]; [|naive_solver..].
  repeat case_bool_decide; naive_solver.
Qed.

(** ** The link in the dashboard's URL *)

Definition dashboard_base : string := "http://127.0.0.1:18080/".
Definition dashboard_query (q : Values) : string := url_string (mkUrl dashboard_base (Values_Encode q) "").

(** [url.Parse] accepts the address of the dashboard with a printable query. *)
Definition accepts_dashboard `{UrlCheck} : Prop :=
  forall q, Forall (fun x => x <> x23 /\ x <> x3f /\ printable x = true) q ->
    url_valid (url_string (mkUrl dashboard_base q "")) = true.

Lemma escape_unreserved l : Forall (fun b => unreserved b = true) l -> escape_bytes l = l.
Proof. induction 1 as [|b l Hb _ IH]; [done|]. cbn [escape_bytes]. rewrite Hb, IH. done. Qed.

Lemma hex_unreserved l : Forall (fun b => unreserved b = true) (hex_bytes l).
Proof.
  induction l as [|b r IH]; [constructor|]. by destruct b; repeat constructor.
Qed.

(** The URL of the service is the dashboard with a token. *)
Lemma token_url l :
  ("http://127.0.0.1:18080/?token=" ++ hex_encode l)%string = dashboard_query (values_set ∅ "token" (hex_encode l)).
Proof.
  unfold dashboard_query, url_string, values_set. cbn [u_base u_raw_query u_fragment].
  unfold Values_Encode. rewrite insert_empty, map_to_list_singleton. cbn [sort_pairs fold_right insert_sorted segments flat_map map fst snd app join_amp].
  unfold encode_pair, hex_encode. rewrite to_of_bytes, (escape_unreserved (hex_bytes l)) by apply hex_unreserved.
  rewrite (bool_decide_eq_false_2 (_ = [])) by done. rewrite (bool_decide_eq_true_2 (_ = _)), !string_app_nil_r by done. reflexivity.
Qed.

Lemma query_get_dashboard `{UrlCheck} q k : accepts_dashboard -> full q -> query_get (dashboard_query q) k = values_get q k.
Proof.
  intros Ha Hq. unfold query_get, dashboard_query.
  rewrite Parse_url_string by (try apply Ha, Encode_bytes; by repeat constructor).
  unfold Query. cbn [u_raw_query]. by rewrite ParseQuery_Encode.
Qed.

Lemma with_param_dashboard `{UrlCheck} q k v :
  accepts_dashboard -> full q -> with_param (dashboard_query q) k v = dashboard_query (values_set q k v).
Proof.
  intros Ha Hq. unfold with_param, dashboard_query.
  rewrite Parse_url_string by (try apply Ha, Encode_bytes; by repeat constructor).
  unfold set_query, Query. cbn [u_raw_query u_base u_fragment]. by rewrite ParseQuery_Encode.
Qed.

(** The page finds its token and the link. *)
Lemma connect_url_carries `{UrlCheck} l rawURL :
  accepts_dashboard ->
  let url := dashboardURLWithConnect ("http://127.0.0.1:18080/?token=" ++ hex_encode l) rawURL in
  query_get url "token" = hex_encode l /\ b64_decode (query_get url "connect_b64") = Some (to_bytes rawURL).
Proof.
  intros Ha url. subst url. unfold dashboardURLWithConnect. rewrite token_url.
  rewrite with_param_dashboard by (done || apply full_set, full_empty).
  rewrite !query_get_dashboard by (done || apply full_set, full_set, full_empty).
  unfold values_get, values_set. rewrite lookup_insert_eq, lookup_insert_ne, lookup_insert_eq by done.
  split; [done|]. apply b64_decode_encode.
Qed.

(** ** Properties *)


