(* ===== verification/Tray.v ===== *)
(** * Tray: the tray process and its dashboard window

    [onReady] of [internal/tray/tray.go] as a state machine over what the
    daemon answers and what the user clicks, and the one-window rule of
    [openDashboard] in [dashboard.go].  Menus, icons and the window itself are
    not modelled. *)

From stdpp Require Import gmap.
From S2P Require Import Prelude GoStrings WebAccess Ipc Commands.

(** [HasDisplay] and [displayEnvSet] of Linux, by operating system. *)
Definition displayEnvSet (windows : bool) (getenv : string -> string) : bool :=
  windows || bool_decide (getenv "DISPLAY" <> "") || bool_decide (getenv "WAYLAND_DISPLAY" <> "").
Definition HasDisplay (goos : string) (getenv : string -> string) : bool :=
  if bool_decide (goos = "windows") then true
  else if bool_decide (goos = "linux") || bool_decide (goos = "freebsd") then displayEnvSet false getenv
  else false.

Definition NodeID_of (r : Response) : string := match r with StatusOf id _ _ _ _ => id | _ => "" end.
Definition Label_of (r : Response) : string := match r with StatusOf _ label _ _ _ => label | _ => "" end.

(** The tray's variables, with the URLs the dashboard was shown at, newest
    last, and whether a window is open ([dashOpen]). *)
Record tray : Type := mkTray {
  tr_lastStatus : option Response;
  tr_autoOpened : bool;
  tr_dashOpen : bool;
  tr_shown : list string;
  tr_clipboard : option string;
  tr_title : string;
  tr_tooltip : string;
}.
Definition newTray : tray := mkTray None false false [] None "Connecting..." "DeskAccess — connecting to service...".

(** What [onReady] waits for: the answer of a poll, the answer to a click, or
    the end of the window.  [focused] is [FocusDashboardWindow]. *)
Inductive tray_event : Type :=
  | Polled (a : res Response) (focused : bool)
  | ClickGenerate (mode : string) (a : res Response)
  | ClickOpen (a : res Response) (focused : bool)
  | WindowClosed.

(** The request of a click on a generate item. *)
Definition tray_request (mode : string) : Request := mkIpcRequest "generate" mode "" 0 "".

Definition openDashboard (t : tray) (focused : bool) (url : string) : tray :=
  if focused then t
  else if tr_dashOpen t then t
  else mkTray (tr_lastStatus t) (tr_autoOpened t) true (tr_shown t ++ [url]) (tr_clipboard t) (tr_title t) (tr_tooltip t).

Definition tray_step (t : tray) (ev : tray_event) : tray :=
  match ev with
  | Polled (Err _) _ => t
  | Polled (Ok st) focused =>
    let short := NodeID_of st in
    let short := if (16 <? String.length short)%nat then (String.substring 0 16 short ++ "...")%string else short in
    let t := mkTray (Some st) (tr_autoOpened t) (tr_dashOpen t) (tr_shown t) (tr_clipboard t) ("NodeID: " ++ short)
               ("DeskAccess — " ++ Label_of st) in
    if negb (tr_autoOpened t) && negb (bool_decide (WebuiURL st = "")) then
      openDashboard (mkTray (tr_lastStatus t) true (tr_dashOpen t) (tr_shown t) (tr_clipboard t) (tr_title t) (tr_tooltip t))
        focused (WebuiURL st)
    else t
  | ClickGenerate _ (Err _) => t
  | ClickGenerate _ (Ok resp) =>
    if bool_decide (Error_of resp <> "") then t
    else mkTray (tr_lastStatus t) (tr_autoOpened t) (tr_dashOpen t) (tr_shown t) (Some (InviteURL_of resp)) (tr_title t)
           (tr_tooltip t)
  | ClickOpen (Ok st) focused => openDashboard t focused (WebuiURL st)
  | ClickOpen (Err _) focused =>
    match tr_lastStatus t with Some st => openDashboard t focused (WebuiURL st) | None => t end
  | WindowClosed => mkTray (tr_lastStatus t) (tr_autoOpened t) false (tr_shown t) (tr_clipboard t) (tr_title t) (tr_tooltip t)
  end.
Definition tray_run (t : tray) (evs : list tray_event) : tray := fold_left tray_step evs t.

(** ** Facts *)

Definition closes (evs : list tray_event) : nat :=
  length (List.filter (fun ev => match ev with WindowClosed => true | _ => false end) evs).
Definition clicks (evs : list tray_event) : nat :=
  length (List.filter (fun ev => match ev with ClickOpen _ _ => true | _ => false end) evs).

(** The daemon gave this status in an answer. *)
Definition answered (evs : list tray_event) (st : Response) : Prop :=
  exists focused, Polled (Ok st) focused ∈ evs \/ ClickOpen (Ok st) focused ∈ evs.

Lemma answered_mono evs ev st : answered evs st -> answered (evs ++ [ev]) st.
Proof. intros (f & H). exists f. rewrite !elem_of_app. tauto. Qed.

Record tray_inv (evs : list tray_event) (t : tray) : Prop := {
  ty_windows : (length (tr_shown t) <= closes evs + (if tr_dashOpen t then 1 else 0))%nat;
  ty_clicks : (length (tr_shown t) <= clicks evs + (if tr_autoOpened t then 1 else 0))%nat;
  ty_last st : tr_lastStatus t = Some st -> answered evs st;
  ty_shown : Forall (fun url => exists st, answered evs st /\ url = WebuiURL st) (tr_shown t);
}.

Lemma closes_snoc evs ev : closes (evs ++ [ev]) = (closes evs + match ev with WindowClosed => 1 | _ => 0 end)%nat.
Proof. unfold closes. rewrite List.filter_app, length_app. cbn. by destruct ev. Qed.
Lemma clicks_snoc evs ev : clicks (evs ++ [ev]) = (clicks evs + match ev with ClickOpen _ _ => 1 | _ => 0 end)%nat.
Proof. unfold clicks. rewrite List.filter_app, length_app. cbn. by destruct ev. Qed.

Lemma shown_mono evs ev l :
  Forall (fun url => exists st, answered evs st /\ url = WebuiURL st) l ->
  Forall (fun url => exists st, answered (evs ++ [ev]) st /\ url = WebuiURL st) l.
Proof. intros H. eapply Forall_impl; [exact H|]. intros url (st & Ha & ->). exists st. split; [by apply answered_mono|done]. Qed.

Lemma openDashboard_cases t focused url :
  openDashboard t focused url = t \/
  tr_dashOpen t = false /\ openDashboard t focused url =
    mkTray (tr_lastStatus t) (tr_autoOpened t) true (tr_shown t ++ [url]) (tr_clipboard t) (tr_title t) (tr_tooltip t).
Proof. unfold openDashboard. destruct focused; [by left|]. destruct (tr_dashOpen t) eqn:E; [by left|by right]. Qed.

(** Opening for an event that gave the status, and that is a click or the
    automatic opening. *)
Lemma tray_open evs ev t t0 focused st :
  tray_inv evs t0 -> answered (evs ++ [ev]) st ->
  tr_shown t = tr_shown t0 -> tr_dashOpen t = tr_dashOpen t0 ->
  (forall st, tr_lastStatus t = Some st -> answered (evs ++ [ev]) st) ->
  (S (clicks evs + (if tr_autoOpened t0 then 1 else 0)) <= clicks (evs ++ [ev]) + (if tr_autoOpened t then 1 else 0))%nat ->
  tray_inv (evs ++ [ev]) (openDashboard t focused (WebuiURL st)).
Proof.
  intros [Hw Hc Hl Hs] Ha Hsh Hop Hst Hb.
  destruct (openDashboard_cases t focused (WebuiURL st)) as [->|[Ho ->]]; split; cbn [tr_shown tr_dashOpen tr_autoOpened tr_lastStatus];
    rewrite ?Hsh, ?length_app, ?closes_snoc; cbn [length]; try done; try lia.
  - rewrite Hop. destruct ev; lia.
  - by apply shown_mono.
  - rewrite <- Hop, Ho in Hw. lia.
  - apply Forall_app. split; [by apply shown_mono|]. constructor; [|done]. by exists st.
Qed.

Lemma tray_step_inv evs t ev : tray_inv evs t -> tray_inv (evs ++ [ev]) (tray_step t ev).
Proof.
  intros Hi. pose proof Hi as [Hw Hc Hl Hs].
  assert (Hkeep : forall c last ti to, (forall st, last = Some st -> answered (evs ++ [ev]) st) ->
    tray_inv (evs ++ [ev]) (mkTray last (tr_autoOpened t) (tr_dashOpen t) (tr_shown t) c ti to)).
  { intros c last ti to Hla. split; cbn; [rewrite closes_snoc; lia|rewrite clicks_snoc; lia|done|by apply shown_mono]. }
  assert (Hl' : forall st, tr_lastStatus t = Some st -> answered (evs ++ [ev]) st) by (intros; by apply answered_mono, Hl).
  destruct ev as [[st|err] focused|mode [resp|err]|[st|err] focused|]; cbn [tray_step];
    try (destruct t; by apply Hkeep).
  - assert (Ha : answered (evs ++ [Polled (Ok st) focused]) st) by (exists focused; left; apply elem_of_app; right; by left).
    cbn [tr_autoOpened]. destruct (tr_autoOpened t) eqn:Ea; cbn [negb andb]; [apply Hkeep; naive_solver|].
    destruct (negb _) eqn:Eu; cbn [tr_lastStatus tr_dashOpen tr_shown tr_clipboard tr_title tr_tooltip];
      [|apply Hkeep; naive_solver].
    apply (tray_open _ _ _ t); try done; cbn; [naive_solver|rewrite clicks_snoc, Ea; lia].
  - case_bool_decide; [destruct t; by apply Hkeep|by apply Hkeep].
  - apply (tray_open _ _ _ t); try done; [exists focused; right; apply elem_of_app; right; by left|rewrite clicks_snoc; lia].
  - destruct (tr_lastStatus t) as [st|] eqn:El; [|destruct t; cbn in *; subst; by apply Hkeep].
    apply (tray_open _ _ _ t); try done; [by apply Hl'|rewrite El; naive_solver|rewrite clicks_snoc; lia].
  - split; cbn; [rewrite closes_snoc; destruct (tr_dashOpen t); lia|rewrite clicks_snoc; lia|done|by apply shown_mono].
Qed.

(** One window at a time: the dashboard is shown at most once more than a
    window was closed, by itself at most once, and only at URLs the daemon
    answered with. *)
Lemma tray_windows evs : tray_inv evs (tray_run newTray evs).
Proof.
  induction evs as [|ev evs IH] using rev_ind; [by split; cbn; try lia|].
  unfold tray_run. rewrite fold_left_app. by apply tray_step_inv.
Qed.

(** Without the daemon the last status is shown again, whose launch token is
    used up: the window of the second click is refused. *)
Lemma stale_url_refused g rnd id label relays log err :
  rnd <> [] ->
  let '(g, url) := BaseURL g rnd in
  let st := StatusOf id label url relays log in
  tr_shown (tray_run newTray [Polled (Ok st) false; WindowClosed; ClickOpen (Err err) false]) = [url; url] /\
  let rq := mkRequest None (hex_encode rnd) true in
  snd (serveHTTP (fst (serveHTTP g rq)) rq) = Forbidden.
Proof.
  intros Hr. cbn. split; [done|].
  set (g1 := mkGate (gt_session g) ({[hex_encode rnd]} ∪ gt_tokens g)). set (rq := mkRequest None (hex_encode rnd) true).
  assert (Hg : forall g', snd (serveHTTP (mkGate (gt_session g) (g' ∖ {[hex_encode rnd]})) rq) = Forbidden).
  { intros g'. unfold serveHTTP. cbn. rewrite (bool_decide_eq_false_2 (None = _)) by done.
    rewrite bool_decide_eq_false_2 by (by destruct rnd). by rewrite decide_False by set_solver. }
  assert (H1 : fst (serveHTTP g1 rq) = mkGate (gt_session g) (gt_tokens g1 ∖ {[hex_encode rnd]})).
  { unfold serveHTTP. cbn. rewrite (bool_decide_eq_false_2 (None = _)) by done.
    rewrite bool_decide_eq_false_2 by (by destruct rnd). by destruct (decide _). }
  rewrite H1. apply Hg.
Qed.

(** Every poll of the tray leaves a launch token behind. *)
Lemma polls_mint_tokens g rnds :
  NoDup rnds -> (forall rnd, rnd ∈ rnds -> hex_encode rnd ∉ gt_tokens g) ->
  size (gt_tokens (fold_left (fun g rnd => fst (BaseURL g rnd)) rnds g)) = (size (gt_tokens g) + length rnds)%nat.
Proof.
  revert g. induction rnds as [|rnd rnds IH]; intros g Hd Hn; cbn [fold_left]; [cbn; lia|].
  apply NoDup_cons in Hd as [Hx Hd]. rewrite IH; cbn [BaseURL fst gt_tokens]; [|done|].
  - rewrite size_union by (apply disjoint_singleton_l, Hn; by left). rewrite size_singleton. cbn. lia.
  - intros r Hr [He%elem_of_singleton|Ht]%elem_of_union.
    + apply hex_encode_inj in He. congruence.
    + by apply (Hn r); [right|].
Qed.
