(* ===== verification/RelayServer.v ===== *)
(** * RelayServer: the key of the self-hosted relay

    [loadOrGenerateKey] of [cmd/relay-server/main.go], and the resources the
    relay is started with.  The relay itself is the library's. *)

From S2P Require Import Prelude GoStrings Crypto.

(** The flags. *)
Record relay_flags : Type := mkRelayFlags {
  rf_addr : string;
  rf_key : string;
  rf_maxReservations : Z;
  rf_reservationTTL : Z;
  rf_maxCircuits : Z;
  rf_allow : string;
}.
Definition default_flags : relay_flags := mkRelayFlags "/ip4/0.0.0.0/tcp/4001" "" 1024 (24 * hour) 256 "".

(** [relay.Resources] with its limit; no data limit is zero. *)
Record relay_resources : Type := mkResources {
  rs_Duration : Z;
  rs_Data : Z;
  rs_ReservationTTL : Z;
  rs_MaxReservations : Z;
  rs_MaxCircuits : Z;
  rs_BufferSize : Z;
  rs_MaxReservationsPerPeer : Z;
  rs_MaxReservationsPerIP : Z;
}.
Definition resources (f : relay_flags) : relay_resources :=
  mkResources (rf_reservationTTL f) 0 (rf_reservationTTL f) (rf_maxReservations f) (rf_maxCircuits f) 4096 4 8.

(** What [os.ReadFile] finds. *)
Inductive key_file : Type :=
  | Missing
  | Unreadable (err : string)
  | Contents (data : string).

Section Relay.
Context `{Crypto}.

(** The key, and what is written to the file.  A failed write is logged. *)
Definition loadOrGenerateKey (path : string) (file : key_file) (gen : res bytes) (write_fails : bool) : res bytes * option string :=
  let generate :=
    match gen with
    | Err err => (Err err, None)
    | Ok priv =>
      (UnmarshalEd25519PrivateKey (take 64 priv),
       if bool_decide (path = "") || write_fails then None else Some (hex_encode priv))
    end in
  if bool_decide (path = "") then generate
  else match file with
       | Contents data =>
         (b ← wrap_err "decode key: " (of_option "encoding/hex: invalid byte" (hex_decode data));
          UnmarshalEd25519PrivateKey b, None)
       | Unreadable err => (Err err, None)
       | Missing => generate
       end.

(** A key that was generated and saved is the key of the next start. *)
Lemma relay_key_kept path gen key data w gen' w' :
  (forall priv, gen = Ok priv -> length priv = 64%nat) ->
  loadOrGenerateKey path Missing gen w = (Ok key, Some data) ->
  loadOrGenerateKey path (Contents data) gen' w' = (Ok key, None).
Proof.
  intros Hl. unfold loadOrGenerateKey. case_bool_decide as Hp.
  { destruct gen; [|done]. by intros [= _ ?]. }
  destruct gen as [priv|]; [|done]. destruct w; [by intros [= _ ?]|]. cbn [orb]. intros [= Hk <-].
  rewrite hex_decode_encode. cbn. rewrite take_ge in Hk by (rewrite (Hl priv); [lia|done]). by rewrite Hk.
Qed.

(** The relay's identity changes with every start when the key is not saved. *)
Lemma relay_key_lost gen w : snd (loadOrGenerateKey "" Missing gen w) = None.
Proof. unfold loadOrGenerateKey. by destruct gen. Qed.

(** A key file with a final new line is refused. *)
Lemma hex_odd_newline l : unhex_bytes (hex_bytes l ++ [x0a]) = None.
Proof. induction l as [|b l IH]; [done|]. cbn. rewrite IH. by destruct (hex_val _), (hex_val _). Qed.
Lemma newline_refused path l gen w :
  path <> ""%string ->
  loadOrGenerateKey path (Contents (of_bytes (hex_bytes l ++ [x0a]))) gen w = (Err "decode key: encoding/hex: invalid byte", None).
Proof.
  intros Hp. unfold loadOrGenerateKey. rewrite bool_decide_eq_false_2 by done. unfold hex_decode.
  by rewrite to_of_bytes, hex_odd_newline.
Qed.

(** The allowed peers are not looked at. *)
Lemma allow_ignored f allow :
  resources (mkRelayFlags (rf_addr f) (rf_key f) (rf_maxReservations f) (rf_reservationTTL f) (rf_maxCircuits f) allow) = resources f.
Proof. done. Qed.
End Relay.
