(* ===== verification/EndToEnd.v ===== *)
(** * EndToEnd: pairing and tunnel together

    The pairing host of [PairingHost] issues a session token into the store
    that the tunnel host of [TunnelHost] verifies: what a client gains from a
    successful pairing, and what another peer does not gain from its token. *)

From S2P Require Import Prelude GoStrings GoNet Crypto Url Wire Frames Rendezvous Sessions Config.
From S2P Require Import Identity Proofs Invites.
From S2P Require PairingHost TunnelHost.
Import TunnelHost(tunnel_event, SendReady, SendError, DialTCP, BridgeTo, EndStream, TunnelManager,
  mkTunnelManager, tm_sessions, tm_cfg, te_now, te_ready_ok, te_dial_ok).

(** The tunnel manager of a process: it shares the session store of the
    pairing manager. *)
Definition tunnel_of (m : Manager) : TunnelManager SessionStore := mkTunnelManager (sessions m) (cfg m).

(** The session of an accepted pairing. *)
Lemma pairing_session `{Crypto} `{Codec PairRequest} m e input remote backend m' resp :
  PairingHost.handleIncomingConn m e input remote backend = (m', Some resp) -> ps_OK resp = true ->
  PairingHost.he_now e <= PairingHost.he_sweep_now e <= PairingHost.he_now e + SessionTokenTTL ->
  exists req peer, PairingHost.pairRequestNodeID req remote backend = Ok peer /\
    svc_live (sessions m') (ps_SessionToken resp) =
      Some (PairingHost.he_now e + SessionTokenTTL, mkGrant peer (ps_TargetPort resp), SessionTokenMaxUses).
Proof.
  unfold PairingHost.handleIncomingConn. intros Hh Hok Hclock.
  destruct (ReadFrame input) as [[[t payload] rest]|]; [|done].
  destruct (bool_decide (t <> MsgPairRequest)); [done|].
  destruct (unmarshal payload) as [req|]; [|done].
  destruct (PairingHost.handle_request m e req remote backend) as [m2 resp2] eqn:Eh. injection Hh as -> ->.
  destruct (PairingHost.handle_request_ok _ _ _ _ _ _ _ Eh Hok) as
    (peer & m1 & protocol & port & token & proof & _ & Hp & _ & _ & _ & -> & _ & -> & _ & _ & ->).
  exists req, peer. split; [done|]. cbn [sessions set_sessions].
  destruct (Issue (sessions m1) (Ok token) (PairingHost.he_now e) (PairingHost.he_sweep_now e) peer port)
    as [r s] eqn:Ei. cbn [snd].
  refine (proj2 (svc_issue_ok _ token _ (PairingHost.he_sweep_now e) peer port r s Ei _)). lia.
Qed.

(** A live session and a hello that presents it. *)
Lemma live_session_hello `{Crypto} (tm : TunnelManager SessionStore) te hello remote backend peer peer'
    exp port n :
  svc_live (tm_sessions tm) (th_SessionToken hello) = Some (exp, mkGrant peer port, n) ->
  te_now te <= exp -> 0 < n -> 0 < port <= 65535 ->
  th_Version hello <= Version -> (th_Method hello = "" \/ equal_fold (th_Method hello) "CONNECT" = true) ->
  th_TargetPort hello = port ->
  (trim_space (th_TargetHost hello) <> "" -> TunnelHost.isLoopbackHost (th_TargetHost hello) = true) ->
  TunnelHost.tunnelHelloNodeID hello remote backend = Ok peer' -> (12 <= String.length peer')%nat ->
  te_ready_ok te = true -> (forall a, te_dial_ok te a = true) ->
  let addr := ("127.0.0.1:" ++ itoa port)%string in
  exists tm', TunnelHost.handle_hello tm te hello remote backend = Return (tm',
    if decide (peer' = peer)
    then [SendReady (mkTunnelReady (nc_Label (Node (tm_cfg tm))) 200 "Connection Established");
          DialTCP addr; BridgeTo addr]
    else [SendError (mkTunnelError "session token was not issued for this peer"); EndStream]).
Proof.
  intros Hl Hexp Hn Hport Hv Hm Htp Hhost Hp Hlen Hready Hdial addr.
  unfold TunnelHost.handle_hello. rewrite (proj2 (Z.ltb_ge _ _)) by lia.
  replace (_ && negb (equal_fold _ _)) with false.
  2:{ destruct Hm as [->| ->]; [done|by rewrite andb_false_r]. }
  rewrite Hp. destruct (decide (peer' = peer)) as [->|Hne].
  - assert (Hg : TunnelHost.hello_granted tm (te_now te) hello peer exp n (mkGrant peer port)).
    { unfold TunnelHost.hello_granted, TunnelHost.granted_port. cbn [PeerID TargetPort].
      rewrite (proj2 (Z.leb_gt port 0)) by lia. done. }
    destruct (TunnelHost.authorize_hello_accepts _ _ _ _ _ _ _ Hg) as (tm' & -> & Hc & _).
    unfold TunnelHost.granted_port. cbn [TargetPort]. rewrite (proj2 (Z.leb_gt port 0)) by lia.
    unfold TunnelHost.targetAddrForPort. rewrite (proj2 (Z.ltb_lt 0 port)), (proj2 (Z.leb_le port _)) by lia.
    rewrite Hready, Hc. unfold TunnelHost.proxyToService. rewrite Hdial.
    apply first12_return in Hlen as [t ->]. by eexists.
  - destruct (svc_verify_accepts _ _ _ _ _ _ Hl Hexp Hn) as [s Hs].
    unfold TunnelHost.authorize_hello. rewrite Hs. cbn [PeerID].
    rewrite bool_decide_eq_true_2 by congruence. by eexists.
Qed.

(** ** Properties *)


Definition paired_hello : TunnelHello :=
  mkTunnelHello 1 sample_node "CONNECT" (repeat x09 16) "127.0.0.1" 22 "s1".

